(* ===== verification/_CoqProject ===== *)
-Q . S2P
Prelude.v
State.v
CurrentLimit.v
SpoolLogic.v
SpoolSpec.v
SpoolLiveness.v
Vehicle.v
Actuator.v
Throttle.v
Thrust.v
ThrustCurve.v
Arming.v
Output.v
Passthrough.v
Logging.v
ParamTable.v
Flight.v
