(* ===== verification/Prelude.v ===== *)
(** * Verification of the multicopter motor output stage

    Program: [src/libraries/AP_Motors/AP_MotorsMulticopter.cpp], the class
    [AP_MotorsMulticopter] of ArduPilot: the stage that turns, once per
    control tick, the pilot and attitude-controller demands together with
    the arming and interlock flags into per-motor actuator values and PWM.

    ** Parts of the program and the files that model them

    A method of the class is a computation in the state monad [State] over
    the object [Motors], or over the [Vehicle] when it writes to the servo
    driver or the parameter storage; [exec c s] is the state after the
    method and [eval c s] the value it returns.  A library the class only
    calls is an interface (a [Class]) with the laws the class relies on,
    and the theorems of the callers are proved for every implementation
    that obeys the laws.

    - [Prelude] (this file): the numeric model and the helpers of [AP_Math]
      the class calls ([constrain_float], [is_zero], [is_positive],
      [is_equal], [MIN], [MAX]), the conversion of a float to a machine
      integer, the state monad, iteration ([iter_n], [ticks_for]), the
      tactics ([run_exec] runs a method symbolically) and the hint database
      [motors].
    - [State]: the object.  [Params] holds the parameter table
      ([var_info]), [Thrust_Linearization] the member [thr_lin], [Limit] the
      struct [limit], [Inputs] what the vehicle code and the scheduler set
      between ticks, [Spool] the spool variables, [Motors] the whole object.
      Every field keeps the name of the C++ member without its leading
      underscore.  The defaults of the constructor are [init_params] and
      [init_motors]; [config_ok] is the well-formed configuration.
    - [CurrentLimit]: [get_current_limit_max_throttle], with the battery
      monitor as the interface [BattMonitor].
    - [SpoolLogic]: [output_logic], the spool state machine, one definition
      per block of the method ([update_disarm_safe_timer],
      [force_shut_down], [clamp_spool_up_time], one per [case] of the
      switch) and their composition [output_logic]; the invariant
      [spool_inv].
    - [SpoolSpec]: the transition graph of the specification as the
      inductive relation [spool_step]; the caller as an environment [Env]
      that writes the inputs before each tick ([tick], [run]); the states a
      run reaches ([reachable]).
    - [SpoolLiveness]: runs under steady inputs ([steady]) and the number
      of ticks the machine needs ([spool_up_bound], [spool_down_bound]).
      The phases are shown once, for every system that runs the method
      once per tick ([TickOf]) on an object that agrees with its own on
      what the method reads ([logic_eq], with the filter of the limiter
      [limiter_eq]); the spool logic on its own is one such system, the
      vehicle of [Flight] another.
    - [Vehicle]: what the class has written to the servo driver ([Servo])
      and to the parameter storage ([Store]), the interface [ServoConfig]
      of the driver, the [Vehicle] that holds the object with both, [zoom]
      to run a method of the object on it, and the loop over the motors
      ([for_each_motor]).
    - [Actuator]: [set_actuator_with_slew],
      [actuator_spin_up_to_ground_idle], [output_to_pwm],
      [check_mot_pwm_params] and [get_raw_motor_throttle].
    - [Throttle]: [update_throttle_filter], [update_throttle_hover] and
      [save_params_on_disarm].  The derivative filter that estimates the
      rate of change of the throttle is the interface [DerivativeFilter]
      over the samples it holds ([ThrottleSlew] in [State]); the clock the
      method reads is the input [micros].
    - [Thrust]: [get_thrust], with the member [thr_lin] as the interface
      [ThrustLinearizer] and its laws.
    - [ThrustCurve]: the linearizer the specification describes
      ([expo_thrust]: the voltage filter, [lift_max], the curve
      [(1 - expo) x + expo x^2] and its inverse), as an instance of the
      interface that obeys the laws.  The class is not under [src/]: the
      file is modelled from the specification.  The square root is
      [Qsqrt], the integer square root of a reduced fraction, exact on
      squares.
    - [Arming]: [arming_checks] with the text it writes into the buffer
      ([snprintf] for the conversions the method uses); the checks of the
      base class are the interface [ArmingEnv].
    - [Output]: [output], the tick of the class, as the composition of its
      stages in the order of the code, with [update_external_limits],
      [output_boost_throttle], [output_rpyt] and [output_min]; the frame
      mixer as the interface [FrameMixer] with the laws [FrameMixerLaws],
      and [matrix_frame], a frame that obeys them.
    - [Passthrough]: the outputs that bypass the mixer,
      [set_throttle_passthrough_for_esc_calibration] and
      [output_motor_mask] with [get_motor_mask], and the methods that set
      the PWM range, [update_throttle_range] and
      [convert_pwm_min_max_param].  The mask is a [Z] tested with
      [Z.land] and [Z.shiftl] as in the code; the [int] stored in an
      [int16_t] wraps ([wrap_int16]).
    - [Logging]: [Log_Write] as the packet [log_MotBatt] it hands to the
      logger, and the two getters of the example build.
    - [ParamTable]: the table [var_info] entry by entry (each entry under
      the name of its parameter, with its index, member, default and frame
      flags), the indices its comments retire, the ranges it documents,
      and the constructor [AP_MotorsMulticopter], which stores every
      default in its member ([setup_object_defaults], [set_value]).
    - [Flight]: the vehicle in flight.  [flight_tick] is the writes of the
      vehicle code followed by [output], [flight] a run of ticks; the file
      composes the stages of the tick and carries the results of the
      components over to runs of the whole vehicle.

    ** Numbers

    The C++ code computes with IEEE binary32 [float].  The model computes
    with exact rationals ([Q], equality [==]): rounding, infinities and NaN
    are not modelled, so every theorem is a statement about the real-valued
    behaviour of the algorithm.  Division by zero is total in [Q] ([x / 0 ==
    0]) where C++ produces an infinity or NaN; the theorems that rely on a
    division state, or prove, that its divisor is positive.  The tolerance
    tests of [AP_Math] keep their tolerance: [is_zero x] is
    [|x| < FLT_EPSILON] with [FLT_EPSILON = 2^-23], not [x == 0].
    Conversions from float to [int16_t] and [uint16_t] truncate toward zero
    and are undefined out of range in C++: [float_to_int16] and
    [float_to_uint16] return [None] there.  The one comparison of a
    [float] with a [double] literal, in [arming_checks], uses the double
    nearest to the literal ([DOUBLE_0_3]).

    ** Bounds

    Nothing is bounded by fuel: every method is a total function.  The
    liveness theorems give the number of ticks explicitly: [ticks_for x d]
    is the number of steps of size [d] that cover the distance [x], and
    [spool_up_bound], [spool_down_bound] add the ticks of the phases of
    the machine.  The arrays of the object have
    [AP_MOTORS_MAX_NUM_MOTORS = 32] entries ([arrays_ok]); the loops over
    the motors run over [seq 0 32].

    ** What the theorems show

    - [Prelude]: the clamp lies between its bounds, is the identity inside
      them, is monotone and respects [==]; [MIN]/[MAX] agree with [Qmin] and
      [Qmax]; a measure that falls by a fixed step reaches its goal within
      [ticks_for] steps ([iter_n_progress]).
    - [CurrentLimit]: the ceiling is in [[hover + 0.2 (1 - hover), 1]], the
      filter state [throttle_limit] stays in [[0.2, 1]], the disabled paths
      return 1 and reset the filter, the ceiling does not increase with the
      measured current, and the value the filter settles at under sustained
      over-current.
    - [SpoolLogic]: the invariant [spool_inv] and its preservation, the
      post-conditions of the specification (SHUT_DOWN means both ramps are
      zero, THROTTLE_UNLIMITED means the spin-up ramp is 1), the limit
      flags per state, that disarming or dropping the interlock shuts down
      within the tick, and that no division of the method has a zero
      divisor.
    - [SpoolSpec]: [output_logic] refines the graph [spool_step]; every
      reachable state satisfies [spool_inv] and respects the ceiling of the
      current limiter; full throttle authority is never reached in fewer
      than three ticks from SHUT_DOWN; no tick raises the spin-up ramp by
      more than [ramp_step], so that along every run, whatever the inputs
      of each tick, a flying state is not reached sooner than the
      spool-up time after SHUT_DOWN ([spool_up_not_before]).
    - [SpoolLiveness]: under steady inputs the machine reaches
      THROTTLE_UNLIMITED, and SHUT_DOWN, within the bound and stays there;
      the cold start of the specification tick by tick, as an example.
    - [Actuator]: the slewed output is a fraction, changes by at most the
      slew step and reaches its input in a bounded number of ticks; the
      pulse width is zero or within the PWM range, and the conversion is
      undefined for actuator values far out of range.
    - [Throttle]: the filtered throttle is within 0..1 and zero when
      disarmed; the rate of change of the throttle is never negative, is
      given a sample only when the throttle has changed, and at rest tends
      to the slope of the last change ([slew_rate_at_rest]); the hover
      throttle stays within its range, moves toward the throttle and is
      stored only in the learn-and-save mode.
    - [Thrust]: the round trip of the thrust through the actuator value,
      for every linearizer that obeys the laws.
    - [ThrustCurve]: the curve is monotone and maps 0..1 onto 0..1, its
      inverse undoes it exactly, [lift_max] stays in (0, 1], the
      linearizer obeys the laws of [Thrust], the thrust read back is the
      smaller of the thrust and [lift_max], and the battery sag of the
      specification in numbers.
    - [Arming]: arming succeeds exactly when every check holds; which
      message each failure writes, and that the buffer is never overrun.
    - [Output]: the tick keeps the object well formed, follows the graph of
      the spool states, sends every enabled motor a pulse width within the
      PWM range, shuts a disarmed vehicle down within one tick, and merges
      the external limit flags, and keeps the estimate of the rate of the
      throttle well formed; [output_min] shuts down at once.
    - [Passthrough]: the ESC calibration sends every enabled motor and the
      two bicopter channels one pulse width within the PWM range, the ends
      of the range for a throttle of 0 and of 1, and nothing when
      disarmed; [output_motor_mask] records the mask, slews the actuator
      of every enabled motor of the mask, sends its pulse width within the
      PWM range, and leaves every other motor alone; the two methods of
      the PWM range on each of their branches, and that the migration of
      the range of the radio happens once
      ([convert_pwm_min_max_param_once]).
    - [Logging]: the byte of the boost flags decodes to the two flags.
    - [ParamTable]: the table passes the checks of the parameter store
      (indices unique and below 64, names and members unique, every name
      within 16 characters behind [MOT_] and [Q_M_]), uses no retired
      index and names every member; an entry is found by its index and by
      its name; the constructor gives every parameter its default whatever
      the memory held, so that the object after construction is
      [init_motors]; the documented ranges hold the defaults, but for the
      two voltages that 0 disables, and are the bounds the methods
      enforce for the hover throttle, the slew times and the spool-up
      time, while a PWM_MIN of 0 and a spool-down time up to
      [minimum_spool_time] are documented and not taken as they are.
    - [Flight]: the tick of the vehicle is a system of [TickOf], so the
      vehicle spools up within [spool_up_bound] ticks for every frame,
      linearizer, derivative filter and battery, and spools down within
      [spool_down_bound] ticks for every frame that leaves the filter of
      the current limiter alone ([QuietMixer]); along every run the
      vehicle stays airworthy and every enabled motor is sent a pulse
      width within the PWM range.

    ** Not modelled

    The rounding of [float]; the widths of the integer parameters
    ([AP_Int8], [AP_Int16] are unbounded [Z] in [Params]; [var_info_fits]
    shows that the defaults fit) and of the motor mask; the storage behind
    [AP_Param] (the EEPROM and the loading of stored values over the
    defaults: [set_and_save] is the write of the member and of [Store]
    after which the parameter is configured, [set_and_default] the write
    of the member alone); the builds without [AP_BATTERY_ENABLED], in
    which the limiter returns 1, and without [AP_SCRIPTING_ENABLED], in
    which [update_external_limits] does nothing; the arithmetic
    of the derivative filter behind [update_throttle_filter], of which
    only the interface is used, and the wrap-around of the 32-bit clock;
    the logger behind [Log_Write] and the clock it reads; the frame
    classes, the servo driver and the battery monitor themselves, which
    are outside this repository and appear as interfaces.  The thrust
    linearizer is outside the repository as well: [ThrustCurve] models it
    from the specification, which leaves the gain of the voltage filter
    open (a parameter of the model).  The spool-down of the whole vehicle
    is shown for frames that do not call the current limiter themselves:
    a frame that does moves the filter of the limiter between two ticks,
    and the invariant the proof of the ramp relies on is then not kept.
    An environment [Env] writes the arming inputs, the desired state and
    the boost flags and gives the battery readings; the period, the
    parameters and the throttle are those of the object a run starts
    from.  [run] and [reachable] take a new environment at every tick;
    [steady] and [flight] repeat one.  The theorems named "scenario" are
    examples on one object each: they run the scenarios of the
    specification and are no part of the general results. *)

From Stdlib Require Import QArith Qabs Qround Qminmax ZArith Lqa Lia.
From stdpp Require Import base decidable option list.

#[global] Open Scope Q_scope.

(** ** Decidable comparisons on rationals *)

#[export] Instance Qlt_dec : RelDecision Qlt := fun x y =>
  match Qlt_le_dec x y with
  | left H => left H
  | right H => right (Qle_not_lt _ _ H)
  end.

#[export] Instance Qle_dec : RelDecision Qle := fun x y =>
  match Qlt_le_dec y x with
  | left H => right (Qlt_not_le _ _ H)
  | right H => left H
  end.

#[export] Instance Qeq_decision : RelDecision Qeq := Qeq_dec.

(** ** The helpers of AP_Math *)

(** [FLT_EPSILON] of <float.h>: 2^-23. *)
Definition FLT_EPSILON : Q := 1 # 8388608.

(** [is_zero(x)]: [fabsf(x) < FLT_EPSILON]. *)
Definition is_zero (x : Q) : bool := bool_decide (Qabs x < FLT_EPSILON).

(** [is_positive(x)]: [x >= FLT_EPSILON]. *)
Definition is_positive (x : Q) : bool := bool_decide (FLT_EPSILON <= x).

(** [is_equal(a, b)]: [fabsf(a - b) < FLT_EPSILON]. *)
Definition is_equal (a b : Q) : bool := bool_decide (Qabs (a - b) < FLT_EPSILON).

(** [constrain_float(amt, low, high)]: the two tests in the order of the
    C++ template, so that the result is [low] when [amt < low] even if
    [high < low]. *)
Definition constrain_float (amt low high : Q) : Q :=
  if decide (amt < low) then low
  else if decide (high < amt) then high
  else amt.

(** [MIN(a, b)] and [MAX(a, b)]: [a < b ? a : b] and [a > b ? a : b]. *)
Definition MIN (a b : Q) : Q := if decide (a < b) then a else b.
Definition MAX (a b : Q) : Q := if decide (b < a) then a else b.

(** ** Conversion of a float to a machine integer *)

(** Truncation toward zero, the rounding of a C++ float-to-integer
    conversion. *)
Definition Qtrunc (q : Q) : Z :=
  if decide (0 <= q) then Qfloor q else Qceiling q.

Definition INT16_MIN : Z := -32768.
Definition INT16_MAX : Z := 32767.
Definition UINT16_MAX : Z := 65535.

Definition in_int16 (z : Z) : Prop := (INT16_MIN <= z <= INT16_MAX)%Z.
Definition in_uint16 (z : Z) : Prop := (0 <= z <= UINT16_MAX)%Z.

#[export] Instance in_int16_dec z : Decision (in_int16 z).
Proof. unfold in_int16. apply _. Defined.

#[export] Instance in_uint16_dec z : Decision (in_uint16 z).
Proof. unfold in_uint16. apply _. Defined.

(** The conversion is undefined when the truncated value does not fit. *)
Definition float_to_int16 (q : Q) : option Z :=
  if decide (in_int16 (Qtrunc q)) then Some (Qtrunc q) else None.

Definition float_to_uint16 (q : Q) : option Z :=
  if decide (in_uint16 (Qtrunc q)) then Some (Qtrunc q) else None.

(** ** The state monad of the methods *)

Definition State (S A : Type) : Type := S -> A * S.

Definition ret {S A} (a : A) : State S A := fun s => (a, s).

Definition bind {S A B} (c : State S A) (k : A -> State S B) : State S B :=
  fun s => let '(a, s') := c s in k a s'.

Declare Scope state_scope.
Delimit Scope state_scope with state.
Bind Scope state_scope with State.

Notation "x ← y ; z" := (bind y (fun x => z))
  (at level 20, y at level 100, z at level 200, only parsing) : state_scope.
Notation "x ;; z" := (bind x (fun _ => z))
  (at level 100, z at level 200, only parsing, right associativity)
  : state_scope.

(** Read a member. *)
Definition gets {S A} (f : S -> A) : State S A := fun s => (f s, s).

(** Update the object. *)
Definition modify {S} (f : S -> S) : State S unit := fun s => (tt, f s).

(** [if (b) { c }] with no else branch. *)
Definition when {S} (b : bool) (c : State S unit) : State S unit :=
  if b then c else ret tt.

(** The object after a method, and the value the method returns. *)
Definition exec {S A} (c : State S A) (s : S) : S := snd (c s).
Definition eval {S A} (c : State S A) (s : S) : A := fst (c s).

(** ** Iteration *)

(** [n] ticks of a step function. *)
Fixpoint iter_n {S} (n : nat) (f : S -> S) (s : S) : S :=
  match n with
  | O => s
  | Datatypes.S n' => iter_n n' f (f s)
  end.

(** The number of steps of size [d] that cover the distance [x]. *)
Definition ticks_for (x d : Q) : nat := Z.to_nat (Qceiling (x / d)).

(** ** Automation *)

Create HintDb motors discriminated.
Create Rewrite HintDb motors.

(** Unfold the monad down to pairs. *)
Ltac run_state :=
  cbv [bind ret gets modify when exec eval] in *.

(** Reduce the projections of a written object; [State] gives it its
    list of members. *)
Ltac simpl_state := cbn [fst snd negb andb orb].

(** Replace the call of a method by what its specification says of it;
    a component that has such a method gives it its case. *)
Ltac call_spec := fail.

(** Case analysis on every comparison of the goal. *)
Ltac case_cmp :=
  repeat first
    [ case_bool_decide
    | case_decide
    | progress cbn [fst snd negb andb orb] in * ].

(** Linear arithmetic after case analysis. *)
Ltac qsolve := intros; case_cmp; try lra; auto with motors.

(** Case analysis on a flag of a condition: the flag itself, not the
    boolean expression it occurs in. *)
Ltac destruct_flag b :=
  lazymatch b with
  | negb ?x => destruct_flag x
  | andb ?x ?y => first [destruct_flag x | destruct_flag y]
  | orb ?x ?y => first [destruct_flag x | destruct_flag y]
  | true => fail
  | false => fail
  | _ =>
      match goal with
      | H : b = _ |- _ => rewrite H
      | _ => destruct b eqn:?
      end
  end.

(** Case analysis on the innermost condition of a conditional. *)
Ltac case_cond b :=
  match b with
  | context [if ?c then _ else _] => case_cond c
  | context [bool_decide ?P] => destruct (bool_decide_reflect P)
  | context [@decide ?P ?d] => destruct (@decide P d)
  | _ => destruct_flag b
  end.

Ltac case_inner :=
  match goal with
  | |- context [if ?b then _ else _] => case_cond b
  | |- context [match ?x with _ => _ end] =>
      lazymatch type of x with prod _ _ => fail | _ => idtac end;
      lazymatch x with
      | context [if _ then _ else _] => fail
      | _ =>
          match goal with
          | H : x = _ |- _ => rewrite H
          | _ => destruct x eqn:?
          end
      end
  end.

(** ** Lemmas *)

Section Clamp.

Context (amt low high : Q).

Lemma constrain_float_bounds :
  low <= high -> low <= constrain_float amt low high <= high.
Proof. unfold constrain_float. qsolve. Qed.

Lemma constrain_float_lower :
  low <= high -> low <= constrain_float amt low high.
Proof. intros H. apply (constrain_float_bounds H). Qed.

Lemma constrain_float_upper :
  low <= high -> constrain_float amt low high <= high.
Proof. intros H. apply (constrain_float_bounds H). Qed.

Lemma constrain_float_id :
  low <= amt <= high -> constrain_float amt low high = amt.
Proof.
  unfold constrain_float. intros [H1 H2].
  rewrite !decide_False; [reflexivity | lra | lra].
Qed.

Lemma constrain_float_below :
  amt < low -> constrain_float amt low high = low.
Proof. unfold constrain_float. intros H. by rewrite decide_True. Qed.

Lemma constrain_float_above :
  low <= amt -> high < amt -> constrain_float amt low high = high.
Proof.
  unfold constrain_float. intros H1 H2.
  rewrite decide_False by lra. by rewrite decide_True.
Qed.

(** The clamp as the composition of a maximum and a minimum. *)
Lemma constrain_float_minmax :
  low <= high -> constrain_float amt low high == Qmax low (Qmin amt high).
Proof.
  intros H. unfold constrain_float.
  destruct (Q.min_spec amt high) as [[? ->]|[? ->]];
    destruct (Q.max_spec low amt) as [[? E1]|[? E1]];
    destruct (Q.max_spec low high) as [[? E2]|[? E2]];
    try rewrite E1; try rewrite E2; qsolve.
Qed.

End Clamp.

Lemma constrain_float_mono a b low high :
  low <= high -> a <= b ->
  constrain_float a low high <= constrain_float b low high.
Proof. unfold constrain_float. qsolve. Qed.

Lemma constrain_float_idem a low high :
  low <= high ->
  constrain_float (constrain_float a low high) low high
  = constrain_float a low high.
Proof.
  intros H. apply constrain_float_id, constrain_float_bounds, H.
Qed.

#[export] Instance constrain_float_proper :
  Proper (Qeq ==> Qeq ==> Qeq ==> Qeq) constrain_float.
Proof.
  intros a a' Ha l l' Hl h h' Hh. unfold constrain_float. qsolve.
Qed.

Lemma MIN_spec a b : MIN a b == Qmin a b.
Proof.
  unfold MIN. destruct (Q.min_spec a b) as [[? ->]|[? ->]]; qsolve.
Qed.

Lemma MAX_spec a b : MAX a b == Qmax a b.
Proof.
  unfold MAX. destruct (Q.max_spec a b) as [[? ->]|[? ->]]; qsolve.
Qed.

Lemma MIN_le_l a b : MIN a b <= a.
Proof. unfold MIN. qsolve. Qed.

Lemma MIN_le_r a b : MIN a b <= b.
Proof. unfold MIN. qsolve. Qed.

Lemma MIN_glb a b c : c <= a -> c <= b -> c <= MIN a b.
Proof. unfold MIN. qsolve. Qed.

Lemma MAX_ge_l a b : a <= MAX a b.
Proof. unfold MAX. qsolve. Qed.

Lemma MAX_ge_r a b : b <= MAX a b.
Proof. unfold MAX. qsolve. Qed.

Lemma MAX_lub a b c : a <= c -> b <= c -> MAX a b <= c.
Proof. unfold MAX. qsolve. Qed.

#[export] Instance MIN_proper : Proper (Qeq ==> Qeq ==> Qeq) MIN.
Proof. intros a a' Ha b b' Hb. unfold MIN. qsolve. Qed.

#[export] Instance MAX_proper : Proper (Qeq ==> Qeq ==> Qeq) MAX.
Proof. intros a a' Ha b b' Hb. unfold MAX. qsolve. Qed.

Lemma FLT_EPSILON_pos : 0 < FLT_EPSILON.
Proof. reflexivity. Qed.

Lemma is_zero_true x : is_zero x = true <-> - FLT_EPSILON < x < FLT_EPSILON.
Proof.
  unfold is_zero. rewrite bool_decide_eq_true. apply Qabs_Qlt_condition.
Qed.

Lemma is_zero_false x :
  is_zero x = false <-> x <= - FLT_EPSILON \/ FLT_EPSILON <= x.
Proof.
  unfold is_zero. rewrite bool_decide_eq_false, Qabs_Qlt_condition. lra.
Qed.

Lemma is_zero_0 : is_zero 0 = true.
Proof. reflexivity. Qed.

Lemma is_positive_true x : is_positive x = true <-> FLT_EPSILON <= x.
Proof. unfold is_positive. by rewrite bool_decide_eq_true. Qed.

Lemma is_positive_gt0 x : is_positive x = true -> 0 < x.
Proof.
  rewrite is_positive_true. pose proof FLT_EPSILON_pos. lra.
Qed.

Lemma is_equal_true a b :
  is_equal a b = true <-> a - FLT_EPSILON < b < a + FLT_EPSILON.
Proof.
  unfold is_equal. rewrite bool_decide_eq_true.
  apply Qabs_diff_Qlt_condition.
Qed.

Lemma is_equal_refl a : is_equal a a = true.
Proof. apply is_equal_true. pose proof FLT_EPSILON_pos. lra. Qed.

(** Truncation of a non-negative rational lies within one below it. *)
Lemma Qtrunc_nonneg q :
  0 <= q -> (0 <= Qtrunc q)%Z /\ inject_Z (Qtrunc q) <= q < inject_Z (Qtrunc q + 1).
Proof.
  intros H. unfold Qtrunc. rewrite decide_True by done.
  split; [| split; [apply Qfloor_le | apply Qlt_floor]].
  change 0%Z with (Qfloor 0). by apply Qfloor_resp_le.
Qed.

Lemma Qtrunc_inject_Z z : Qtrunc (inject_Z z) = z.
Proof.
  unfold Qtrunc. case_decide; [apply Qfloor_Z | apply Qceiling_Z].
Qed.

(** Truncation keeps a value between two integer bounds. *)
(** Truncation and the conversions respect [==]. *)
#[export] Instance Qtrunc_proper : Proper (Qeq ==> eq) Qtrunc.
Proof.
  intros q q' H. unfold Qtrunc.
  repeat case_decide; try (exfalso; lra);
    [by apply Qfloor_comp | by apply Qceiling_comp].
Qed.

#[export] Instance float_to_int16_proper : Proper (Qeq ==> eq) float_to_int16.
Proof.
  intros q q' H. unfold float_to_int16. by rewrite (Qtrunc_proper _ _ H).
Qed.

#[export] Instance float_to_uint16_proper :
  Proper (Qeq ==> eq) float_to_uint16.
Proof.
  intros q q' H. unfold float_to_uint16. by rewrite (Qtrunc_proper _ _ H).
Qed.

Lemma Qtrunc_between (lo hi : Z) q :
  (0 <= lo)%Z -> inject_Z lo <= q <= inject_Z hi ->
  (lo <= Qtrunc q <= hi)%Z.
Proof.
  intros Hlo [H1 H2].
  assert (inject_Z 0 <= inject_Z lo) as H0 by (by rewrite <- Zle_Qle).
  assert (0 <= q) by (change (inject_Z 0) with 0 in H0; lra).
  unfold Qtrunc. rewrite decide_True by done. split.
  - rewrite <- (Qfloor_Z lo). by apply Qfloor_resp_le.
  - rewrite <- (Qfloor_Z hi). by apply Qfloor_resp_le.
Qed.

Lemma iter_n_S {S} n (f : S -> S) s : iter_n (Datatypes.S n) f s = f (iter_n n f s).
Proof.
  revert s. induction n as [|n IH]; intros s; [reflexivity|].
  change (iter_n (Datatypes.S (Datatypes.S n)) f s)
    with (iter_n (Datatypes.S n) f (f s)).
  rewrite IH. reflexivity.
Qed.

Lemma iter_n_add {S} n k (f : S -> S) s :
  iter_n (n + k) f s = iter_n k f (iter_n n f s).
Proof. revert s. induction n as [|n IH]; intros s; cbn; [done | apply IH]. Qed.

(** An invariant of the step holds after any number of ticks. *)
Lemma iter_n_invariant {S} (P : S -> Prop) (f : S -> S) :
  (forall s, P s -> P (f s)) -> forall n s, P s -> P (iter_n n f s).
Proof. intros Hf n. induction n as [|n IH]; cbn; auto. Qed.

(** A natural number as a rational. *)
Lemma Qnat_S n : inject_Z (Z.of_nat (S n)) == inject_Z (Z.of_nat n) + 1.
Proof. rewrite Nat2Z.inj_succ. unfold Z.succ. by rewrite inject_Z_plus. Qed.

Lemma Qnat_add n k :
  inject_Z (Z.of_nat (n + k))
  == inject_Z (Z.of_nat n) + inject_Z (Z.of_nat k).
Proof. by rewrite Nat2Z.inj_add, inject_Z_plus. Qed.

Lemma Qnat_nonneg n : 0 <= inject_Z (Z.of_nat n).
Proof. change 0 with (inject_Z 0). rewrite <- Zle_Qle. lia. Qed.

(** [ticks_for x d] steps of size [d] cover [x]. *)
Lemma ticks_for_spec x d :
  0 < d -> x <= inject_Z (Z.of_nat (ticks_for x d)) * d.
Proof.
  intros Hd. unfold ticks_for.
  assert (x / d <= inject_Z (Z.of_nat (Z.to_nat (Qceiling (x / d))))) as H.
  { eapply Qle_trans; [apply Qle_ceiling|]. rewrite <- Zle_Qle. lia. }
  apply (Qmult_le_compat_r _ _ d) in H; [|lra].
  by rewrite Qmult_comm, Qmult_div_r in H by lra.
Qed.

(** Bounded progress: when every step from a state of [Inv] either reaches
    [Goal] or keeps [Inv] and lowers the measure [mu] by [d] without making
    it negative, [Goal] is reached within the number of steps that [d]
    needs to cover [mu], and one. *)
Lemma iter_n_progress {S} (f : S -> S) (Inv Goal : S -> Prop)
    (mu : S -> Q) (d : Q) :
  0 < d ->
  (forall s, Inv s ->
     Goal (f s) \/ (Inv (f s) /\ 0 <= mu (f s) <= mu s - d)) ->
  forall n s, Inv s -> mu s <= inject_Z (Z.of_nat n) * d ->
  exists k, (1 <= k <= Datatypes.S n)%nat /\ Goal (iter_n k f s).
Proof.
  intros Hd Hstep n. induction n as [|n IH]; intros s Hs Hmu;
    destruct (Hstep s Hs) as [Hg | (Hi & H0 & H1)];
    try (exists 1%nat; split; [lia | exact Hg]).
  - change (inject_Z (Z.of_nat 0)) with 0 in Hmu. lra.
  - destruct (IH (f s) Hi) as (k & Hk & Hgoal).
    + rewrite Qnat_S in Hmu. lra.
    + exists (Datatypes.S k). split; [lia | exact Hgoal].
Qed.

(** Two phases in a row. *)
Lemma iter_n_then {S} (f : S -> S) (P Q : S -> Prop) lo1 hi1 lo2 hi2 s :
  (exists k, (lo1 <= k <= hi1)%nat /\ P (iter_n k f s)) ->
  (forall s', P s' ->
     exists k, (lo2 <= k <= hi2)%nat /\ Q (iter_n k f s')) ->
  exists k, (lo1 + lo2 <= k <= hi1 + hi2)%nat /\ Q (iter_n k f s).
Proof.
  intros (k1 & H1 & HP) HQ. destruct (HQ _ HP) as (k2 & H2 & HQ').
  exists (k1 + k2)%nat. split; [lia|]. by rewrite iter_n_add.
Qed.

(** ** The state monad: what a composed method returns and leaves *)

Section StateLemmas.

Context {S : Type}.
Implicit Types s : S.

Lemma exec_bind {A B} (c : State S A) (k : A -> State S B) s :
  exec (bind c k) s = exec (k (eval c s)) (exec c s).
Proof. unfold exec, eval, bind. by destruct (c s). Qed.

Lemma eval_bind {A B} (c : State S A) (k : A -> State S B) s :
  eval (bind c k) s = eval (k (eval c s)) (exec c s).
Proof. unfold exec, eval, bind. by destruct (c s). Qed.

Lemma exec_ret {A} (a : A) s : exec (ret a) s = s.
Proof. reflexivity. Qed.

Lemma eval_ret {A} (a : A) s : eval (ret a) s = a.
Proof. reflexivity. Qed.

Lemma exec_gets {A} (f : S -> A) s : exec (gets f) s = s.
Proof. reflexivity. Qed.

Lemma eval_gets {A} (f : S -> A) s : eval (gets f) s = f s.
Proof. reflexivity. Qed.

Lemma exec_modify (f : S -> S) s : exec (modify f) s = f s.
Proof. reflexivity. Qed.

Lemma exec_when (b : bool) (c : State S unit) s :
  exec (when b c) s = if b then exec c s else s.
Proof. by destruct b. Qed.

Lemma exec_if {A} (b : bool) (c1 c2 : State S A) s :
  exec (if b then c1 else c2) s = if b then exec c1 s else exec c2 s.
Proof. by destruct b. Qed.

Lemma eval_if {A} (b : bool) (c1 c2 : State S A) s :
  eval (if b then c1 else c2) s = if b then eval c1 s else eval c2 s.
Proof. by destruct b. Qed.

(** A method run from the pair it computes. *)
Lemma run_eq {A} (c : State S A) s : c s = (eval c s, exec c s).
Proof. unfold eval, exec. by destruct (c s). Qed.

End StateLemmas.

#[export] Hint Rewrite @exec_bind @eval_bind @exec_ret @eval_ret @exec_gets
  @eval_gets @exec_modify @exec_when @exec_if @eval_if : motors.

(** Run a method by computation: unfold the monad, reduce what is read of
    the written object, replace the calls that have a specification and
    split on the conditions met on the way. *)
Tactic Notation "run_exec_with" tactic3(spec) :=
  repeat first
    [ progress (cbv beta iota zeta delta [exec eval bind ret gets modify when])
    | progress simpl_state
    | spec
    | case_inner ].

Ltac run_exec := run_exec_with (idtac; call_spec).

(** ** Quotients *)

Lemma Qdiv_pos a b : 0 < a -> 0 < b -> 0 < a / b.
Proof. intros. apply Qlt_shift_div_l; lra. Qed.

Lemma Qdiv_nonneg a b : 0 <= a -> 0 < b -> 0 <= a / b.
Proof. intros. apply Qle_shift_div_l; lra. Qed.

(** A quotient by a divisor bounded from below. *)
Lemma Qdiv_le_bound a b c : 0 <= a -> 0 < c -> c <= b -> a / b <= a / c.
Proof.
  intros Ha Hc Hb.
  apply Qle_shift_div_l; [lra|].
  assert (0 <= a / b) by (apply Qdiv_nonneg; lra).
  assert (a / b * b == a) as E by (field; lra).
  nra.
Qed.

#[export] Hint Resolve constrain_float_lower constrain_float_upper
  MIN_le_l MIN_le_r MAX_ge_l MAX_ge_r FLT_EPSILON_pos : motors.
