(* ===== verification/State.v ===== *)
(** * The state of [AP_MotorsMulticopter]

    The members of the class, grouped: [Params] is the parameter table
    [var_info], [Thrust_Linearization] the member [thr_lin], [Limit] the
    struct [limit], [Inputs] the members of the base class the vehicle code
    sets between ticks, [Spool] the variables of the spool logic,
    [ThrottleSlew] the estimate of the rate of the throttle and [Motors]
    the object.  A field keeps the name of its C++ member without
    the leading underscore.  Each [set_] function writes one member and
    leaves the others as they are. *)

From Stdlib Require Import QArith ZArith Lqa.
From stdpp Require Import base decidable list.
From S2P Require Import Prelude.

(** ** Enumerations *)

(** [enum class SpoolState] *)
Inductive SpoolState :=
  | SHUT_DOWN
  | GROUND_IDLE
  | SPOOLING_UP
  | THROTTLE_UNLIMITED
  | SPOOLING_DOWN.

(** [enum class DesiredSpoolState] *)
Inductive DesiredSpoolState :=
  | DESIRED_SHUT_DOWN
  | DESIRED_GROUND_IDLE
  | DESIRED_THROTTLE_UNLIMITED.

(** [enum class PWMType], the values of the parameter PWM_TYPE. *)
Inductive PWMType :=
  | NORMAL
  | ONESHOT
  | ONESHOT125
  | BRUSHED
  | DSHOT150
  | DSHOT300
  | DSHOT600
  | DSHOT1200
  | PWM_RANGE
  | PWM_ANGLE.

#[export] Instance SpoolState_eq_dec : EqDecision SpoolState.
Proof. solve_decision. Defined.

#[export] Instance DesiredSpoolState_eq_dec : EqDecision DesiredSpoolState.
Proof. solve_decision. Defined.

#[export] Instance PWMType_eq_dec : EqDecision PWMType.
Proof. solve_decision. Defined.

(** The values of the parameter HOVER_LEARN. *)
Definition HOVER_LEARN_DISABLED : Z := 0.
Definition HOVER_LEARN_ONLY : Z := 1.
Definition HOVER_LEARN_AND_SAVE : Z := 2.

(** The constants of the hover throttle. *)
Definition AP_MOTORS_THST_HOVER_TC : Q := 10.
Definition AP_MOTORS_THST_HOVER_MIN : Q := 0.125.
Definition AP_MOTORS_THST_HOVER_MAX : Q := 0.6875.

(** The size of the per-motor arrays. *)
Definition AP_MOTORS_MAX_NUM_MOTORS : nat := 32.

(** ** Records *)

(** [struct AP_Motors_limit] *)
Record Limit := mkLimit {
  roll : bool;
  pitch : bool;
  yaw : bool;
  throttle_lower : bool;
  throttle_upper : bool;
}.

(** The member [thr_lin]: its parameters and the two values it derives. *)
Record Thrust_Linearization := mkThrLin {
  curve_expo : Q;
  spin_min : Q;
  spin_max : Q;
  batt_voltage_max : Q;
  batt_voltage_min : Q;
  batt_idx : nat;
  lift_max : Q;
  batt_voltage_filt : Q;
}.

(** The parameters of [var_info] that are members of the class itself. *)
Record Params := mkParams {
  yaw_headroom : Z;
  batt_current_max : Q;
  pwm_type : PWMType;
  pwm_min : Z;
  pwm_max : Z;
  pwm_min_configured : bool;
  pwm_max_configured : bool;
  spin_arm : Q;
  batt_current_time_constant : Q;
  throttle_hover : Q;
  throttle_hover_learn : Z;
  disarm_disable_pwm : bool;
  yaw_servo_angle_max_deg : Q;
  spool_up_time : Q;
  boost_scale : Q;
  slew_up_time : Q;
  slew_dn_time : Q;
  safe_time : Q;
  options : Z;
  spool_down_time : Q;
}.

(** What the vehicle code and the scheduler set between two ticks, and the
    clock [AP_HAL::micros()] as the tick reads it. *)
Record Inputs := mkInputs {
  armed : bool;
  interlock : bool;
  spoolup_block : bool;
  dt_s : Q;
  throttle_in : Q;
  roll_in_ff : Q;
  pitch_in_ff : Q;
  yaw_in_ff : Q;
  external_limits : Limit;
  micros : Z;
}.

(** The variables of the spool logic. *)
Record Spool := mkSpool {
  spool_desired : DesiredSpoolState;
  spool_state : SpoolState;
  spin_up_ratio : Q;
  throttle_thrust_max : Q;
  disarm_safe_timer : Q;
  thrust_boost : bool;
  thrust_balanced : bool;
  thrust_boost_ratio : Q;
}.

(** A first-order low-pass filter: its output and its time constant. *)
Record LowPassFilter := mkLPF {
  lpf_output : Q;
  lpf_tc : Q;
}.

(** The estimate of the rate of change of the throttle: the samples the
    derivative filter [_throttle_slew] holds, each with its timestamp in
    microseconds, newest first; the filter of the rate; the rate. *)
Record ThrottleSlew := mkSlew {
  throttle_slew : list (Q * Z);
  throttle_slew_filter : LowPassFilter;
  throttle_slew_rate : Q;
}.

(** The object. *)
Record Motors := mkMotors {
  params : Params;
  thr_lin : Thrust_Linearization;
  inputs : Inputs;
  limit : Limit;
  spool : Spool;
  throttle_limit : Q;
  throttle_filter : LowPassFilter;
  actuator : list Q;
  motor_enabled : list bool;
  motor_mask_override : Z;
  throttle_avg_max : Q;
  throttle_out : Q;
  slew : ThrottleSlew;
}.

(** ** Writing one member *)

Definition upd_params (f : Params -> Params) (m : Motors) : Motors :=
  mkMotors (f m.(params)) m.(thr_lin) m.(inputs) m.(limit) m.(spool)
    m.(throttle_limit) m.(throttle_filter) m.(actuator) m.(motor_enabled)
    m.(motor_mask_override) m.(throttle_avg_max) m.(throttle_out)
    m.(slew).

Definition upd_thr_lin (f : Thrust_Linearization -> Thrust_Linearization)
    (m : Motors) : Motors :=
  mkMotors m.(params) (f m.(thr_lin)) m.(inputs) m.(limit) m.(spool)
    m.(throttle_limit) m.(throttle_filter) m.(actuator) m.(motor_enabled)
    m.(motor_mask_override) m.(throttle_avg_max) m.(throttle_out)
    m.(slew).

Definition upd_inputs (f : Inputs -> Inputs) (m : Motors) : Motors :=
  mkMotors m.(params) m.(thr_lin) (f m.(inputs)) m.(limit) m.(spool)
    m.(throttle_limit) m.(throttle_filter) m.(actuator) m.(motor_enabled)
    m.(motor_mask_override) m.(throttle_avg_max) m.(throttle_out)
    m.(slew).

Definition set_limit (l : Limit) (m : Motors) : Motors :=
  mkMotors m.(params) m.(thr_lin) m.(inputs) l m.(spool)
    m.(throttle_limit) m.(throttle_filter) m.(actuator) m.(motor_enabled)
    m.(motor_mask_override) m.(throttle_avg_max) m.(throttle_out)
    m.(slew).

Definition upd_spool (f : Spool -> Spool) (m : Motors) : Motors :=
  mkMotors m.(params) m.(thr_lin) m.(inputs) m.(limit) (f m.(spool))
    m.(throttle_limit) m.(throttle_filter) m.(actuator) m.(motor_enabled)
    m.(motor_mask_override) m.(throttle_avg_max) m.(throttle_out)
    m.(slew).

Definition set_throttle_limit (v : Q) (m : Motors) : Motors :=
  mkMotors m.(params) m.(thr_lin) m.(inputs) m.(limit) m.(spool)
    v m.(throttle_filter) m.(actuator) m.(motor_enabled)
    m.(motor_mask_override) m.(throttle_avg_max) m.(throttle_out)
    m.(slew).

Definition set_throttle_filter (v : LowPassFilter) (m : Motors) : Motors :=
  mkMotors m.(params) m.(thr_lin) m.(inputs) m.(limit) m.(spool)
    m.(throttle_limit) v m.(actuator) m.(motor_enabled)
    m.(motor_mask_override) m.(throttle_avg_max) m.(throttle_out)
    m.(slew).

Definition set_actuator (v : list Q) (m : Motors) : Motors :=
  mkMotors m.(params) m.(thr_lin) m.(inputs) m.(limit) m.(spool)
    m.(throttle_limit) m.(throttle_filter) v m.(motor_enabled)
    m.(motor_mask_override) m.(throttle_avg_max) m.(throttle_out)
    m.(slew).

Definition set_motor_mask_override (v : Z) (m : Motors) : Motors :=
  mkMotors m.(params) m.(thr_lin) m.(inputs) m.(limit) m.(spool)
    m.(throttle_limit) m.(throttle_filter) m.(actuator) m.(motor_enabled)
    v m.(throttle_avg_max) m.(throttle_out)
    m.(slew).

Definition set_slew (v : ThrottleSlew) (m : Motors) : Motors :=
  mkMotors m.(params) m.(thr_lin) m.(inputs) m.(limit) m.(spool)
    m.(throttle_limit) m.(throttle_filter) m.(actuator) m.(motor_enabled)
    m.(motor_mask_override) m.(throttle_avg_max) m.(throttle_out) v.

(** The members of [Spool]. *)

Definition set_spool_desired (v : DesiredSpoolState) : Motors -> Motors :=
  upd_spool (fun s =>
    mkSpool v s.(spool_state) s.(spin_up_ratio) s.(throttle_thrust_max)
      s.(disarm_safe_timer) s.(thrust_boost) s.(thrust_balanced)
      s.(thrust_boost_ratio)).

Definition set_spool_state (v : SpoolState) : Motors -> Motors :=
  upd_spool (fun s =>
    mkSpool s.(spool_desired) v s.(spin_up_ratio) s.(throttle_thrust_max)
      s.(disarm_safe_timer) s.(thrust_boost) s.(thrust_balanced)
      s.(thrust_boost_ratio)).

Definition set_spin_up_ratio (v : Q) : Motors -> Motors :=
  upd_spool (fun s =>
    mkSpool s.(spool_desired) s.(spool_state) v s.(throttle_thrust_max)
      s.(disarm_safe_timer) s.(thrust_boost) s.(thrust_balanced)
      s.(thrust_boost_ratio)).

Definition set_throttle_thrust_max (v : Q) : Motors -> Motors :=
  upd_spool (fun s =>
    mkSpool s.(spool_desired) s.(spool_state) s.(spin_up_ratio) v
      s.(disarm_safe_timer) s.(thrust_boost) s.(thrust_balanced)
      s.(thrust_boost_ratio)).

Definition set_disarm_safe_timer (v : Q) : Motors -> Motors :=
  upd_spool (fun s =>
    mkSpool s.(spool_desired) s.(spool_state) s.(spin_up_ratio)
      s.(throttle_thrust_max) v s.(thrust_boost) s.(thrust_balanced)
      s.(thrust_boost_ratio)).

Definition set_thrust_boost (v : bool) : Motors -> Motors :=
  upd_spool (fun s =>
    mkSpool s.(spool_desired) s.(spool_state) s.(spin_up_ratio)
      s.(throttle_thrust_max) s.(disarm_safe_timer) v s.(thrust_balanced)
      s.(thrust_boost_ratio)).

Definition set_thrust_balanced (v : bool) : Motors -> Motors :=
  upd_spool (fun s =>
    mkSpool s.(spool_desired) s.(spool_state) s.(spin_up_ratio)
      s.(throttle_thrust_max) s.(disarm_safe_timer) s.(thrust_boost) v
      s.(thrust_boost_ratio)).

Definition set_thrust_boost_ratio (v : Q) : Motors -> Motors :=
  upd_spool (fun s =>
    mkSpool s.(spool_desired) s.(spool_state) s.(spin_up_ratio)
      s.(throttle_thrust_max) s.(disarm_safe_timer) s.(thrust_boost)
      s.(thrust_balanced) v).

(** The parameters the class itself writes. *)

Definition set_spool_up_time (v : Q) : Motors -> Motors :=
  upd_params (fun p =>
    mkParams p.(yaw_headroom) p.(batt_current_max) p.(pwm_type) p.(pwm_min)
      p.(pwm_max) p.(pwm_min_configured) p.(pwm_max_configured) p.(spin_arm)
      p.(batt_current_time_constant) p.(throttle_hover)
      p.(throttle_hover_learn) p.(disarm_disable_pwm)
      p.(yaw_servo_angle_max_deg) v p.(boost_scale) p.(slew_up_time)
      p.(slew_dn_time) p.(safe_time) p.(options) p.(spool_down_time)).

Definition set_throttle_hover (v : Q) : Motors -> Motors :=
  upd_params (fun p =>
    mkParams p.(yaw_headroom) p.(batt_current_max) p.(pwm_type) p.(pwm_min)
      p.(pwm_max) p.(pwm_min_configured) p.(pwm_max_configured) p.(spin_arm)
      p.(batt_current_time_constant) v
      p.(throttle_hover_learn) p.(disarm_disable_pwm)
      p.(yaw_servo_angle_max_deg) p.(spool_up_time) p.(boost_scale)
      p.(slew_up_time) p.(slew_dn_time) p.(safe_time) p.(options)
      p.(spool_down_time)).

(** The inputs, written by the vehicle code. *)

Definition set_armed (v : bool) : Motors -> Motors :=
  upd_inputs (fun i =>
    mkInputs v i.(interlock) i.(spoolup_block) i.(dt_s) i.(throttle_in)
      i.(roll_in_ff) i.(pitch_in_ff) i.(yaw_in_ff) i.(external_limits)
      i.(micros)).

Definition set_interlock (v : bool) : Motors -> Motors :=
  upd_inputs (fun i =>
    mkInputs i.(armed) v i.(spoolup_block) i.(dt_s) i.(throttle_in)
      i.(roll_in_ff) i.(pitch_in_ff) i.(yaw_in_ff) i.(external_limits)
      i.(micros)).

Definition set_throttle_in (v : Q) : Motors -> Motors :=
  upd_inputs (fun i =>
    mkInputs i.(armed) i.(interlock) i.(spoolup_block) i.(dt_s) v
      i.(roll_in_ff) i.(pitch_in_ff) i.(yaw_in_ff) i.(external_limits)
      i.(micros)).

Definition set_micros (v : Z) : Motors -> Motors :=
  upd_inputs (fun i =>
    mkInputs i.(armed) i.(interlock) i.(spoolup_block) i.(dt_s)
      i.(throttle_in) i.(roll_in_ff) i.(pitch_in_ff) i.(yaw_in_ff)
      i.(external_limits) v).

(** All five flags of [limit] at once, as every case of the spool logic
    writes them. *)
Definition limit_all (b : bool) : Limit := mkLimit b b b b b.

(** ** Accessors of the base class and of [thr_lin] *)

(** [get_throttle()]: the filtered throttle, constrained to 0..1. *)
Definition get_throttle (m : Motors) : Q :=
  constrain_float m.(throttle_filter).(lpf_output) 0 1.

(** [get_throttle_hover()]: the hover throttle, constrained to its range. *)
Definition get_throttle_hover (m : Motors) : Q :=
  constrain_float m.(params).(throttle_hover)
    AP_MOTORS_THST_HOVER_MIN AP_MOTORS_THST_HOVER_MAX.

Definition get_spin_min (m : Motors) : Q := m.(thr_lin).(spin_min).
Definition get_spin_max (m : Motors) : Q := m.(thr_lin).(spin_max).
Definition get_battery_index (m : Motors) : nat := m.(thr_lin).(batt_idx).
Definition get_battery_min_voltage (m : Motors) : Q :=
  m.(thr_lin).(batt_voltage_min).
Definition get_lift_max (m : Motors) : Q := m.(thr_lin).(lift_max).

Definition get_pwm_output_min (m : Motors) : Z := m.(params).(pwm_min).
Definition get_pwm_output_max (m : Motors) : Z := m.(params).(pwm_max).

(** ** The object after construction *)

(** The defaults of [var_info]. *)
Definition init_params : Params :=
  {| yaw_headroom := 200;
     batt_current_max := 0;
     pwm_type := NORMAL;
     pwm_min := 1000;
     pwm_max := 2000;
     pwm_min_configured := false;
     pwm_max_configured := false;
     spin_arm := 0.10;
     batt_current_time_constant := 5;
     throttle_hover := 0.35;
     throttle_hover_learn := HOVER_LEARN_AND_SAVE;
     disarm_disable_pwm := false;
     yaw_servo_angle_max_deg := 30;
     spool_up_time := 0.5;
     boost_scale := 0;
     slew_up_time := 0;
     slew_dn_time := 0;
     safe_time := 1;
     options := 0;
     spool_down_time := 0 |}.

Definition init_thr_lin : Thrust_Linearization :=
  {| curve_expo := 0.65;
     spin_min := 0.15;
     spin_max := 0.95;
     batt_voltage_max := 0;
     batt_voltage_min := 0;
     batt_idx := 0;
     lift_max := 1;
     batt_voltage_filt := 1 |}.

Definition init_inputs : Inputs :=
  {| armed := false;
     interlock := false;
     spoolup_block := false;
     dt_s := 0.0025;
     throttle_in := 0;
     roll_in_ff := 0;
     pitch_in_ff := 0;
     yaw_in_ff := 0;
     external_limits := limit_all false;
     micros := 0 |}.

Definition init_spool : Spool :=
  {| spool_desired := DESIRED_SHUT_DOWN;
     spool_state := SHUT_DOWN;
     spin_up_ratio := 0;
     throttle_thrust_max := 0;
     disarm_safe_timer := 0;
     thrust_boost := false;
     thrust_balanced := true;
     thrust_boost_ratio := 0 |}.

(** The constructor: the defaults, and [_throttle_limit(1.0f)]. *)
Definition init_motors : Motors :=
  {| params := init_params;
     thr_lin := init_thr_lin;
     inputs := init_inputs;
     limit := limit_all false;
     spool := init_spool;
     throttle_limit := 1;
     throttle_filter := mkLPF 0 0;
     actuator := replicate AP_MOTORS_MAX_NUM_MOTORS 0;
     motor_enabled := replicate AP_MOTORS_MAX_NUM_MOTORS false;
     motor_mask_override := 0;
     throttle_avg_max := 0;
     throttle_out := 0;
     slew := mkSlew [] (mkLPF 0 0) 0 |}.

(** ** Example objects *)

(** Armed and interlocked after construction, full throttle authority
    requested, the filtered throttle at one half. *)
Definition armed_motors : Motors :=
  set_throttle_filter (mkLPF 0.5 0)
    (set_spool_desired DESIRED_THROTTLE_UNLIMITED
       (set_interlock true (set_armed true init_motors))).

(** In flight with full throttle authority. *)
Definition flying_motors : Motors :=
  upd_spool (fun s =>
    mkSpool DESIRED_THROTTLE_UNLIMITED THROTTLE_UNLIMITED 1 1 1 false true 0)
    armed_motors.

(** ** Well-formed configurations *)

(** The ranges the parameter table documents and the arming checks
    enforce, and a positive control period. *)
Record config_ok (m : Motors) : Prop := {
  dt_pos : 0 < m.(inputs).(dt_s);
  spin_arm_nonneg : 0 <= m.(params).(spin_arm);
  spin_arm_le_min : m.(params).(spin_arm) <= m.(thr_lin).(spin_min);
  spin_min_le_max : m.(thr_lin).(spin_min) <= m.(thr_lin).(spin_max);
  spin_max_le_1 : m.(thr_lin).(spin_max) <= 1;
  safe_time_nonneg : 0 <= m.(params).(safe_time);
  current_tc_nonneg : 0 <= m.(params).(batt_current_time_constant);
}.

(** Reduce the projections of a written object. *)
Ltac simpl_state ::=
  cbn [params thr_lin inputs limit spool throttle_limit throttle_filter
       actuator motor_enabled motor_mask_override throttle_avg_max
       throttle_out slew throttle_slew throttle_slew_filter
       throttle_slew_rate micros
       upd_params upd_thr_lin upd_inputs upd_spool set_limit
       set_throttle_limit set_throttle_filter set_actuator
       set_motor_mask_override set_slew
       set_spool_desired set_spool_state set_spin_up_ratio
       set_throttle_thrust_max set_disarm_safe_timer set_thrust_boost
       set_thrust_balanced set_thrust_boost_ratio
       set_spool_up_time set_throttle_hover
       set_armed set_interlock set_throttle_in set_micros
       spool_desired spool_state spin_up_ratio throttle_thrust_max
       disarm_safe_timer thrust_boost thrust_balanced thrust_boost_ratio
       yaw_headroom batt_current_max pwm_type pwm_min pwm_max
       pwm_min_configured pwm_max_configured spin_arm
       batt_current_time_constant throttle_hover throttle_hover_learn
       disarm_disable_pwm yaw_servo_angle_max_deg spool_up_time boost_scale
       slew_up_time slew_dn_time safe_time options spool_down_time
       armed interlock spoolup_block dt_s throttle_in roll_in_ff pitch_in_ff
       yaw_in_ff external_limits
       curve_expo spin_min spin_max batt_voltage_max batt_voltage_min
       batt_idx lift_max batt_voltage_filt
       roll pitch yaw throttle_lower throttle_upper limit_all
       lpf_output lpf_tc
       fst snd negb andb orb].

(** ** Lemmas *)

Lemma get_throttle_bounds m : 0 <= get_throttle m <= 1.
Proof. apply constrain_float_bounds. lra. Qed.

Lemma get_throttle_hover_bounds m :
  AP_MOTORS_THST_HOVER_MIN <= get_throttle_hover m <= AP_MOTORS_THST_HOVER_MAX.
Proof. apply constrain_float_bounds. by vm_compute. Qed.

Lemma get_throttle_hover_01 m : 0 < get_throttle_hover m < 1.
Proof.
  pose proof (get_throttle_hover_bounds m) as [H1 H2].
  unfold AP_MOTORS_THST_HOVER_MIN, AP_MOTORS_THST_HOVER_MAX in *. lra.
Qed.

Lemma init_config_ok : config_ok init_motors.
Proof. split; by vm_compute. Qed.

Lemma armed_config_ok : config_ok armed_motors.
Proof. split; by vm_compute. Qed.

Lemma flying_config_ok : config_ok flying_motors.
Proof. split; by vm_compute. Qed.

#[export] Hint Resolve get_throttle_bounds get_throttle_hover_bounds : motors.

#[export] Hint Unfold get_spin_min get_spin_max get_battery_index
  get_battery_min_voltage get_pwm_output_min get_pwm_output_max : motors.
