(* ===== verification/CurrentLimit.v ===== *)
(** * The current limiter: [get_current_limit_max_throttle]

    The method derives a ceiling on the throttle from the battery current.
    It reads the battery monitor (the interface [BattMonitor]), advances the
    first-order filter [throttle_limit] and returns the ceiling.  The build
    modelled is the one with [AP_BATTERY_ENABLED]. *)

From Stdlib Require Import QArith Qminmax ZArith Lqa.
From stdpp Require Import base decidable option list.
From S2P Require Import Prelude State.

#[local] Open Scope state_scope.

(** ** The battery monitor *)

(** What the class reads from [AP::battery()]: [current_amps] is [None] when
    the monitor has no current sensor. *)
Class BattMonitor := {
  voltage : nat -> Q;
  current_amps : nat -> option Q;
  get_resistance : nat -> Q;
}.

(** A monitor that reports the same readings on every instance. *)
Definition const_battery (v : Q) (i : option Q) (r : Q) : BattMonitor :=
  {| voltage := fun _ => v; current_amps := fun _ => i;
     get_resistance := fun _ => r |}.

(** A battery without a current sensor. *)
Definition no_current_sensor : BattMonitor := const_battery 16 None 0.

(** A battery of 20 milliohm at 15 V that delivers 70 A. *)
Definition loaded_battery : BattMonitor := const_battery 15 (Some 70) 0.02.

(** The flying example with a current limit of 60 A and a minimum battery
    voltage of 13.2 V. *)
Definition limited_motors : Motors :=
  upd_thr_lin (fun t =>
    mkThrLin t.(curve_expo) t.(spin_min) t.(spin_max) 16.8 13.2 t.(batt_idx)
      t.(lift_max) t.(batt_voltage_filt))
    (upd_params (fun p =>
       mkParams p.(yaw_headroom) 60 p.(pwm_type) p.(pwm_min) p.(pwm_max)
         p.(pwm_min_configured) p.(pwm_max_configured) p.(spin_arm)
         p.(batt_current_time_constant) p.(throttle_hover)
         p.(throttle_hover_learn) p.(disarm_disable_pwm)
         p.(yaw_servo_angle_max_deg) p.(spool_up_time) p.(boost_scale)
         p.(slew_up_time) p.(slew_dn_time) p.(safe_time) p.(options)
         p.(spool_down_time))
       flying_motors).

Section CurrentLimit.

Context {battery : BattMonitor}.

(** The guard of the first [if]: the current to limit on, or [None] when
    limiting is disabled, the vehicle is disarmed or no current is
    measured. *)
Definition limited_current (m : Motors) : option Q :=
  if decide (m.(params).(batt_current_max) <= 0) then None
  else if negb m.(inputs).(armed) then None
  else current_amps (get_battery_index m).

(** The largest current that keeps the voltage above
    [batt_voltage_min]. *)
Definition current_ceiling (m : Motors) (batt_current : Q) : Q :=
  MIN m.(params).(batt_current_max)
    (batt_current
     + (voltage (get_battery_index m) - get_battery_min_voltage m)
       / get_resistance (get_battery_index m)).

(** The gain [dt / (dt + tc)] of the filter. *)
Definition current_limit_gain (m : Motors) : Q :=
  m.(inputs).(dt_s)
  / (m.(inputs).(dt_s) + m.(params).(batt_current_time_constant)).

Definition get_current_limit_max_throttle : State Motors Q :=
  lim ← gets limited_current;
  match lim with
  | None =>
      modify (set_throttle_limit 1);;
      ret 1
  | Some batt_current =>
      batt_resistance ← gets (fun m => get_resistance (get_battery_index m));
      if is_zero batt_resistance then
        modify (set_throttle_limit 1);;
        ret 1
      else
        batt_current_max ← gets (fun m => current_ceiling m batt_current);
        let batt_current_ratio := batt_current / batt_current_max in
        modify (fun m =>
          set_throttle_limit
            (m.(throttle_limit)
             + current_limit_gain m * (1 - batt_current_ratio)) m);;
        modify (fun m =>
          set_throttle_limit (constrain_float m.(throttle_limit) 0.2 1) m);;
        hover ← gets get_throttle_hover;
        limit ← gets throttle_limit;
        ret (hover + (1 - hover) * limit)
  end.

(** The value the filter takes when the limiter is active. *)
Definition next_throttle_limit (m : Motors) (batt_current : Q) : Q :=
  constrain_float
    (m.(throttle_limit)
     + current_limit_gain m
       * (1 - batt_current / current_ceiling m batt_current))
    0.2 1.

(** The limiter is active: it measures a current on a battery whose
    resistance is known. *)
Definition limiter_active (m : Motors) (batt_current : Q) : Prop :=
  limited_current m = Some batt_current
  /\ is_zero (get_resistance (get_battery_index m)) = false.

(** The lowest ceiling: the filter at its floor of 0.2. *)
Definition min_ceiling (m : Motors) : Q :=
  get_throttle_hover m + (1 - get_throttle_hover m) * 0.2.

(** The limiter is idle: it returns 1 and resets its filter. *)
Definition limiter_idle (m : Motors) : Prop :=
  limited_current m = None
  \/ is_zero (get_resistance (get_battery_index m)) = true.

End CurrentLimit.

(** The ceiling of the limiter at the present state of its filter. *)
Definition limit_ceiling (m : Motors) : Q :=
  get_throttle_hover m + (1 - get_throttle_hover m) * m.(throttle_limit).

(** Two objects the limiter cannot tell apart but for the state of its
    filter: they agree on what the method reads. *)
Record same_limiter (m m' : Motors) : Prop := {
  same_current_max :
    m'.(params).(batt_current_max) = m.(params).(batt_current_max);
  same_time_constant :
    m'.(params).(batt_current_time_constant)
    = m.(params).(batt_current_time_constant);
  same_hover : m'.(params).(throttle_hover) = m.(params).(throttle_hover);
  same_armed : m'.(inputs).(armed) = m.(inputs).(armed);
  same_dt : m'.(inputs).(dt_s) = m.(inputs).(dt_s);
  same_thr_lin : m'.(thr_lin) = m.(thr_lin);
}.

#[export] Hint Unfold limited_current current_ceiling current_limit_gain
  next_throttle_limit min_ceiling : motors.

(** ** Lemmas *)

Section CurrentLimitFacts.

Context {battery : BattMonitor}.
Implicit Types m : Motors.

(** The method as a function of the state, one equation per path. *)
Lemma current_limit_disabled m :
  limited_current m = None ->
  get_current_limit_max_throttle m = (1, set_throttle_limit 1 m).
Proof.
  intros H. unfold get_current_limit_max_throttle. run_state.
  by rewrite H.
Qed.

Lemma current_limit_no_resistance m i :
  limited_current m = Some i ->
  is_zero (get_resistance (get_battery_index m)) = true ->
  get_current_limit_max_throttle m = (1, set_throttle_limit 1 m).
Proof.
  intros H Hz. unfold get_current_limit_max_throttle. run_state.
  by rewrite H, Hz.
Qed.

Lemma current_limit_active m i :
  limiter_active m i ->
  get_current_limit_max_throttle m
  = (get_throttle_hover m + (1 - get_throttle_hover m) * next_throttle_limit m i,
     set_throttle_limit (next_throttle_limit m i) m).
Proof.
  intros [H Hz]. unfold get_current_limit_max_throttle. run_state.
  by rewrite H, Hz.
Qed.

(** Case analysis on the three paths. *)
Lemma current_limit_cases m :
  get_current_limit_max_throttle m = (1, set_throttle_limit 1 m)
  \/ exists i, limiter_active m i /\
       get_current_limit_max_throttle m
       = (get_throttle_hover m
          + (1 - get_throttle_hover m) * next_throttle_limit m i,
          set_throttle_limit (next_throttle_limit m i) m).
Proof.
  destruct (limited_current m) as [i|] eqn:H.
  - destruct (is_zero (get_resistance (get_battery_index m))) eqn:Hz.
    + left. eauto using current_limit_no_resistance.
    + right. exists i. split; [done|]. by apply current_limit_active.
  - left. by apply current_limit_disabled.
Qed.

Lemma next_throttle_limit_bounds m i :
  0.2 <= next_throttle_limit m i <= 1.
Proof. apply constrain_float_bounds. lra. Qed.

(** The method writes [throttle_limit] and nothing else. *)
Lemma current_limit_frame m :
  exec get_current_limit_max_throttle m
  = set_throttle_limit
      (exec get_current_limit_max_throttle m).(throttle_limit) m.
Proof.
  unfold exec.
  destruct (current_limit_cases m) as [-> | (i & _ & ->)]; reflexivity.
Qed.

Lemma current_limit_spool m :
  (exec get_current_limit_max_throttle m).(spool) = m.(spool).
Proof. by rewrite current_limit_frame. Qed.

Lemma current_limit_params m :
  (exec get_current_limit_max_throttle m).(params) = m.(params).
Proof. by rewrite current_limit_frame. Qed.

Lemma current_limit_inputs m :
  (exec get_current_limit_max_throttle m).(inputs) = m.(inputs).
Proof. by rewrite current_limit_frame. Qed.

Lemma current_limit_hover m :
  get_throttle_hover (exec get_current_limit_max_throttle m)
  = get_throttle_hover m.
Proof. by rewrite current_limit_frame. Qed.

Lemma min_ceiling_bounds m :
  AP_MOTORS_THST_HOVER_MIN < min_ceiling m < 1.
Proof.
  pose proof (get_throttle_hover_bounds m) as [H1 H2].
  unfold min_ceiling, AP_MOTORS_THST_HOVER_MIN, AP_MOTORS_THST_HOVER_MAX in *.
  lra.
Qed.

(** The ceiling is a fraction of full throttle, whatever the path. *)
Lemma current_limit_01 m :
  0 < eval get_current_limit_max_throttle m <= 1.
Proof.
  pose proof (get_throttle_hover_01 m) as Hh.
  unfold eval.
  destruct (current_limit_cases m) as [-> | (i & _ & ->)]; cbn [fst].
  - lra.
  - pose proof (next_throttle_limit_bounds m i). nra.
Qed.

(** What a caller may rely on: the ceiling is a fraction of full
    throttle and the method writes the filter state, within 0.2..1, and
    nothing else. *)
Lemma current_limit_call m :
  exists c tl,
    get_current_limit_max_throttle m = (c, set_throttle_limit tl m)
    /\ 0 < c <= 1 /\ 0.2 <= tl <= 1.
Proof.
  pose proof (current_limit_01 m) as Hc. unfold eval in Hc.
  destruct (current_limit_cases m) as [E | (i & _ & E)];
    rewrite E in *; cbn [fst] in Hc; eexists _, _; (split; [done|]);
    (split; [done|]).
  - lra.
  - apply next_throttle_limit_bounds.
Qed.

(** The same with the ceiling as a function of the filter state. *)
Lemma current_limit_call_ceiling m :
  exists c tl,
    get_current_limit_max_throttle m = (c, set_throttle_limit tl m)
    /\ c == get_throttle_hover m + (1 - get_throttle_hover m) * tl
    /\ 0.2 <= tl <= 1.
Proof.
  destruct (current_limit_cases m) as [E | (i & _ & E)];
    rewrite E; eexists _, _; (split; [done|]); split; try ring; try lra.
  apply next_throttle_limit_bounds.
Qed.

(** The active path in an object that agrees with [m0] on what the
    method reads: the filter advances from its present state as it would
    in [m0]. *)
Lemma current_limit_call_active m0 m i :
  limiter_active m0 i -> same_limiter m0 m ->
  let tl := next_throttle_limit (set_throttle_limit m.(throttle_limit) m0) i in
  get_current_limit_max_throttle m
  = (limit_ceiling (set_throttle_limit tl m0), set_throttle_limit tl m).
Proof.
  intros [Hl Hz] [H1 H2 H3 H4 H5 H6] tl.
  assert (next_throttle_limit m i = tl) as Htl.
  { unfold tl, next_throttle_limit, current_limit_gain, current_ceiling,
      get_battery_index, get_battery_min_voltage.
    cbn. by rewrite H1, H2, H5, H6. }
  rewrite (current_limit_active m i).
  - unfold limit_ceiling, get_throttle_hover. cbn. by rewrite Htl, H3.
  - revert Hl Hz. unfold limiter_active, limited_current, get_battery_index.
    by rewrite H1, H4, H6.
Qed.

(** The limiter is idle or active. *)
Lemma limiter_cases m : limiter_idle m \/ exists i, limiter_active m i.
Proof.
  unfold limiter_idle, limiter_active.
  destruct (limited_current m) as [i|]; [|by left; left].
  destruct (is_zero _); eauto.
Qed.

Lemma current_limit_call_idle m0 m :
  limiter_idle m0 -> same_limiter m0 m ->
  get_current_limit_max_throttle m = (1, set_throttle_limit 1 m).
Proof.
  intros Hidle [H1 H2 H3 H4 H5 H6].
  assert (limiter_idle m) as [H | H].
  { revert Hidle. unfold limiter_idle, limited_current, get_battery_index.
    by rewrite H1, H4, H6. }
  - by apply current_limit_disabled.
  - destruct (limited_current m) eqn:E.
    + eauto using current_limit_no_resistance.
    + by apply current_limit_disabled.
Qed.

(** Under one reading of the battery the filter moves in one direction:
    when a call has lowered it, the next call does not raise it. *)
Lemma next_throttle_limit_twice m i tl :
  0.2 <= tl <= 1 ->
  let tl1 := next_throttle_limit (set_throttle_limit tl m) i in
  let tl2 := next_throttle_limit (set_throttle_limit tl1 m) i in
  tl1 < tl -> tl2 <= tl1.
Proof.
  intros Htl. unfold next_throttle_limit, current_limit_gain.
  simpl_state.
  generalize (dt_s (inputs m)
              / (dt_s (inputs m) + batt_current_time_constant (params m))).
  intros g. change (current_ceiling (set_throttle_limit _ m) i)
    with (current_ceiling m i).
  generalize (g * (1 - i / current_ceiling m i)). intros d.
  unfold constrain_float. qsolve.
Qed.

(** The ceiling as a function of the filter state. *)
Lemma limit_ceiling_same m :
  limit_ceiling (set_throttle_limit m.(throttle_limit) m) = limit_ceiling m.
Proof. done. Qed.

Lemma limit_ceiling_mono m tl tl' :
  tl <= tl' ->
  limit_ceiling (set_throttle_limit tl m)
  <= limit_ceiling (set_throttle_limit tl' m).
Proof.
  intros H. pose proof (get_throttle_hover_01 m) as Hh.
  unfold limit_ceiling. simpl_state.
  change (get_throttle_hover (set_throttle_limit _ m))
    with (get_throttle_hover m).
  apply Qplus_le_r, Qmult_le_l; lra.
Qed.

Lemma limit_ceiling_bounds m tl :
  0.2 <= tl <= 1 ->
  min_ceiling m <= limit_ceiling (set_throttle_limit tl m) <= 1.
Proof.
  intros [H1 H2]. pose proof (get_throttle_hover_01 m) as Hh. split.
  - apply (limit_ceiling_mono m 0.2 tl H1).
  - eapply Qle_trans; [apply (limit_ceiling_mono m tl 1 H2)|].
    unfold limit_ceiling. simpl_state. lra.
Qed.

(** Two calls in a row: the second ceiling is at most the first, unless
    the first is at or above the ceiling before the calls. *)
Lemma limit_ceiling_twice m i tl :
  0.2 <= tl <= 1 ->
  let tl1 := next_throttle_limit (set_throttle_limit tl m) i in
  let tl2 := next_throttle_limit (set_throttle_limit tl1 m) i in
  limit_ceiling (set_throttle_limit tl2 m)
  <= limit_ceiling (set_throttle_limit tl1 m)
  \/ limit_ceiling (set_throttle_limit tl m)
     <= limit_ceiling (set_throttle_limit tl1 m).
Proof.
  intros Htl tl1 tl2. destruct (Qlt_le_dec tl1 tl) as [H | H].
  - left. by apply limit_ceiling_mono, next_throttle_limit_twice.
  - right. by apply limit_ceiling_mono.
Qed.

Lemma next_throttle_limit_same m i :
  next_throttle_limit (set_throttle_limit m.(throttle_limit) m) i
  = next_throttle_limit m i.
Proof. done. Qed.

Lemma current_limit_thr_lin m :
  (exec get_current_limit_max_throttle m).(thr_lin) = m.(thr_lin).
Proof. by rewrite current_limit_frame. Qed.

Lemma current_limit_limit m :
  (exec get_current_limit_max_throttle m).(limit) = m.(limit).
Proof. by rewrite current_limit_frame. Qed.

Lemma current_limit_filter m :
  (exec get_current_limit_max_throttle m).(throttle_filter)
  = m.(throttle_filter).
Proof. by rewrite current_limit_frame. Qed.

End CurrentLimitFacts.

(** A call of the method in the goal: name the ceiling it returns and the
    filter state it leaves, with their bounds. *)
Ltac limit_call :=
  match goal with
  | |- context [get_current_limit_max_throttle ?m] =>
      let c := fresh "ceiling" in
      let tl := fresh "tl" in
      let E := fresh "E" in
      let Hc := fresh "Hc" in
      let Htl := fresh "Htl" in
      destruct (current_limit_call m) as (c & tl & E & Hc & Htl);
      rewrite E; clear E
  end.

Ltac call_spec ::= limit_call.

(** A call on the active path, in an object that agrees with the one
    the limiter is known to be active in. *)
Ltac limit_call_active :=
  match goal with
  | Hact : limiter_active ?m0 ?i
    |- context [get_current_limit_max_throttle ?m] =>
      rewrite (current_limit_call_active m0 m i Hact ltac:(by split));
      simpl_state
  end.

(** A call on an idle path, in an object that agrees with the one the
    limiter is known to be idle in. *)
Ltac limit_call_idle :=
  match goal with
  | Hidle : limiter_idle ?m0
    |- context [get_current_limit_max_throttle ?m] =>
      rewrite (current_limit_call_idle m0 m Hidle ltac:(by split));
      simpl_state
  end.

(** Name the bounds of the ceilings that calls on the active path have
    returned, and the order of the ceilings of two calls in a row. *)
Ltac pose_ceiling m tl :=
  lazymatch goal with
  | _ : min_ceiling m <= limit_ceiling (set_throttle_limit tl m) <= 1 |- _ =>
      fail
  | _ =>
      pose proof (limit_ceiling_bounds m tl
                    ltac:(first [done | apply next_throttle_limit_bounds]))
  end.

Ltac pose_ceilings :=
  repeat match goal with
  | |- context [limit_ceiling (set_throttle_limit ?tl ?m)] =>
      pose_ceiling m tl
  | _ : context [limit_ceiling (set_throttle_limit ?tl ?m)] |- _ =>
      pose_ceiling m tl
  end.

(** The same call, with the ceiling as a function of the filter state. *)
Ltac limit_call_ceiling :=
  match goal with
  | |- context [get_current_limit_max_throttle ?m] =>
      let c := fresh "ceiling" in
      let tl := fresh "tl" in
      let E := fresh "E" in
      let Hc := fresh "Hc" in
      let Htl := fresh "Htl" in
      destruct (current_limit_call_ceiling m) as (c & tl & E & Hc & Htl);
      rewrite E; clear E;
      unfold get_throttle_hover in Hc; revert Hc; simpl_state; intros Hc
  end.

#[export] Hint Resolve next_throttle_limit_bounds : motors.
#[export] Hint Rewrite @current_limit_spool @current_limit_params
  @current_limit_inputs @current_limit_hover @current_limit_thr_lin
  @current_limit_limit @current_limit_filter : motors.

(** ** Theorems *)

Section CurrentLimitTheorems.

Context {battery : BattMonitor}.
Implicit Types m : Motors.

(** C3: the ceiling the method returns lies between the lowest ceiling
    [hover + 0.2 (1 - hover)] and 1, on every path. *)
Theorem current_limit_range m :
  min_ceiling m <= eval get_current_limit_max_throttle m <= 1.
Proof.
  pose proof (min_ceiling_bounds m) as Hc.
  pose proof (get_throttle_hover_01 m) as Hh.
  unfold eval.
  destruct (current_limit_cases m) as [-> | (i & _ & ->)]; cbn [fst].
  - lra.
  - pose proof (next_throttle_limit_bounds m i).
    unfold min_ceiling in *. nra.
Qed.

(** After the method the filter state is within 0.2..1, whatever it
    was before. *)
Theorem current_limit_filter_range m :
  0.2 <= (exec get_current_limit_max_throttle m).(throttle_limit) <= 1.
Proof.
  unfold exec.
  destruct (current_limit_cases m) as [-> | (i & _ & ->)]; cbn.
  - lra.
  - apply next_throttle_limit_bounds.
Qed.

(** C33: with limiting disabled, when disarmed or without a current
    measurement the method returns 1 and resets the filter to 1. *)
Theorem current_limit_off m :
  m.(params).(batt_current_max) <= 0
  \/ m.(inputs).(armed) = false
  \/ current_amps (get_battery_index m) = None ->
  get_current_limit_max_throttle m = (1, set_throttle_limit 1 m).
Proof.
  intros H. apply current_limit_disabled. unfold limited_current.
  case_decide; [done|].
  destruct H as [H | [-> | ->]]; [lra | done |].
  by destruct (armed _).
Qed.

(** The returned ceiling is the hover throttle plus the share
    [throttle_limit] of the range above it, for the filter state the
    method leaves. *)
Theorem current_limit_value m :
  eval get_current_limit_max_throttle m
  == get_throttle_hover m
     + (1 - get_throttle_hover m)
       * (exec get_current_limit_max_throttle m).(throttle_limit).
Proof.
  unfold eval, exec.
  destruct (current_limit_cases m) as [-> | (i & _ & ->)]; cbn; lra.
Qed.

(** The ceiling on the current is [batt_current_max] whenever the
    measured current is at least that and the battery is above its
    minimum voltage. *)
Lemma current_ceiling_max m i :
  0 < get_resistance (get_battery_index m) ->
  get_battery_min_voltage m <= voltage (get_battery_index m) ->
  m.(params).(batt_current_max) <= i ->
  current_ceiling m i == m.(params).(batt_current_max).
Proof.
  intros Hr Hv Hi. unfold current_ceiling, MIN.
  assert (0 <= (voltage (get_battery_index m) - get_battery_min_voltage m)
               / get_resistance (get_battery_index m))
    by (apply Qdiv_nonneg; lra).
  case_decide; lra.
Qed.

Lemma current_limit_gain_nonneg m :
  0 < m.(inputs).(dt_s) -> 0 <= m.(params).(batt_current_time_constant) ->
  0 < current_limit_gain m <= 1.
Proof.
  intros Hdt Htc. unfold current_limit_gain. split.
  - apply Qdiv_pos; lra.
  - apply Qle_shift_div_r; lra.
Qed.

(** Under sustained over-current the filter state falls by at least
    [gain * (i / max - 1)] per call until it reaches its floor of 0.2:
    the state after the call is at most the larger of 0.2 and the state
    before less that step. *)
Theorem current_limit_decay m i :
  limiter_active m i ->
  0 < m.(inputs).(dt_s) -> 0 <= m.(params).(batt_current_time_constant) ->
  0 < get_resistance (get_battery_index m) ->
  get_battery_min_voltage m <= voltage (get_battery_index m) ->
  m.(params).(batt_current_max) <= i ->
  m.(throttle_limit) <= 1 ->
  (exec get_current_limit_max_throttle m).(throttle_limit)
  == Qmax 0.2
       (m.(throttle_limit)
        - current_limit_gain m * (i / m.(params).(batt_current_max) - 1)).
Proof.
  intros Hact Hdt Htc Hr Hv Hi Htl.
  pose proof (current_limit_gain_nonneg m Hdt Htc) as Hg.
  pose proof (current_ceiling_max m i Hr Hv Hi) as Hc.
  assert (0 < m.(params).(batt_current_max)) as Hmax.
  { destruct Hact as [Hl _]. unfold limited_current in Hl.
    case_decide; [done | lra]. }
  assert (1 <= i / m.(params).(batt_current_max))
    by (apply Qle_shift_div_l; lra).
  unfold exec. rewrite (current_limit_active m i Hact). cbn [snd].
  simpl_state. unfold next_throttle_limit. rewrite Hc.
  rewrite constrain_float_minmax by lra.
  set (x := i / batt_current_max (params m)) in *.
  set (g := current_limit_gain m) in *.
  assert (0 <= g * (x - 1)) by nra.
  rewrite Q.min_l by lra.
  apply Q.max_compat; [reflexivity | ring].
Qed.

(** C35: at the floor of the filter the ceiling is [hover + 0.2 (1 -
    hover)]: under over-current the call leaves the filter at 0.2 and
    returns the lowest ceiling. *)
Theorem current_limit_floor m i :
  limiter_active m i ->
  0 < m.(inputs).(dt_s) -> 0 <= m.(params).(batt_current_time_constant) ->
  0 < get_resistance (get_battery_index m) ->
  get_battery_min_voltage m <= voltage (get_battery_index m) ->
  m.(params).(batt_current_max) <= i ->
  m.(throttle_limit) <= 0.2 ->
  (exec get_current_limit_max_throttle m).(throttle_limit) == 0.2
  /\ eval get_current_limit_max_throttle m == min_ceiling m.
Proof.
  intros Hact Hdt Htc Hr Hv Hi Htl.
  pose proof (current_limit_decay m i Hact Hdt Htc Hr Hv Hi
                ltac:(lra)) as Hd.
  pose proof (current_limit_gain_nonneg m Hdt Htc) as Hg.
  assert (0 < m.(params).(batt_current_max)) as Hmax.
  { destruct Hact as [Hl _]. unfold limited_current in Hl.
    case_decide; [done | lra]. }
  assert (1 <= i / m.(params).(batt_current_max))
    by (apply Qle_shift_div_l; lra).
  assert ((exec get_current_limit_max_throttle m).(throttle_limit) == 0.2)
    as E.
  { rewrite Hd. apply Q.max_l.
    set (x := i / batt_current_max (params m)) in *.
    set (g := current_limit_gain m) in *. nra. }
  split; [done|]. rewrite current_limit_value, E. reflexivity.
Qed.

End CurrentLimitTheorems.

(** C34: the ceiling does not increase with the measured current: while
    armed with a positive maximum current, a resistance above the tolerance
    and the battery voltage at or above its minimum, of two readings at or
    above [batt_current_max] on the same battery the larger gives the lower
    or equal ceiling. *)
Theorem current_limit_monotone (v r i1 i2 : Q) (m : Motors) :
  m.(inputs).(armed) = true ->
  0 < m.(params).(batt_current_max) ->
  FLT_EPSILON <= r ->
  get_battery_min_voltage m <= v ->
  0 < m.(inputs).(dt_s) -> 0 <= m.(params).(batt_current_time_constant) ->
  m.(params).(batt_current_max) <= i1 -> i1 <= i2 ->
  eval (@get_current_limit_max_throttle (const_battery v (Some i2) r)) m
  <= eval (@get_current_limit_max_throttle (const_battery v (Some i1) r)) m.
Proof.
  intros Harm Hmax Hr Hv Hdt Htc H1 H2.
  pose proof FLT_EPSILON_pos as He.
  assert (forall i, @limiter_active (const_battery v (Some i) r) m i) as Hact.
  { intros i. split.
    - unfold limited_current. rewrite Harm. cbn.
      by rewrite decide_False by lra.
    - apply is_zero_false. cbn. lra. }
  pose proof (get_throttle_hover_01 m) as Hh.
  pose proof (current_limit_gain_nonneg m Hdt Htc) as Hg.
  unfold eval.
  rewrite (@current_limit_active _ m i1 (Hact i1)),
    (@current_limit_active _ m i2 (Hact i2)). cbn [fst].
  enough (@next_throttle_limit (const_battery v (Some i2) r) m i2
          <= @next_throttle_limit (const_battery v (Some i1) r) m i1) by nra.
  unfold next_throttle_limit.
  rewrite (@current_ceiling_max (const_battery v (Some i1) r) m i1),
    (@current_ceiling_max (const_battery v (Some i2) r) m i2);
    cbn; try lra.
  apply constrain_float_mono; [lra|].
  assert (0 < / batt_current_max (params m)) by (by apply Qinv_lt_0_compat).
  unfold Qdiv. unfold current_limit_gain in *. cbn in *.
  set (g := dt_s (inputs m) / _) in *.
  set (c := / batt_current_max (params m)) in *.
  assert (0 <= c * (i2 - i1)) by nra. nra.
Qed.

(** ** Witnesses *)

Lemma limited_active : @limiter_active loaded_battery limited_motors 70.
Proof. split; reflexivity. Qed.

Lemma current_limit_off_witness :
  @get_current_limit_max_throttle no_current_sensor flying_motors
  = (1, set_throttle_limit 1 flying_motors).
Proof.
  apply (@current_limit_off no_current_sensor flying_motors).
  right. right. reflexivity.
Defined.

Lemma current_limit_decay_witness :
  (exec (@get_current_limit_max_throttle loaded_battery)
     limited_motors).(throttle_limit)
  == Qmax 0.2
       (limited_motors.(throttle_limit)
        - current_limit_gain limited_motors
          * (70 / limited_motors.(params).(batt_current_max) - 1)).
Proof.
  apply (@current_limit_decay loaded_battery limited_motors 70);
    [apply limited_active | by vm_compute ..].
Defined.

Lemma current_limit_floor_witness :
  (exec (@get_current_limit_max_throttle loaded_battery)
     (set_throttle_limit 0.2 limited_motors)).(throttle_limit) == 0.2
  /\ eval (@get_current_limit_max_throttle loaded_battery)
       (set_throttle_limit 0.2 limited_motors)
     == min_ceiling (set_throttle_limit 0.2 limited_motors).
Proof.
  apply (@current_limit_floor loaded_battery
           (set_throttle_limit 0.2 limited_motors) 70);
    [split; reflexivity | by vm_compute ..].
Defined.

Lemma current_limit_monotone_witness :
  eval (@get_current_limit_max_throttle (const_battery 15 (Some 80) 0.02))
    limited_motors
  <= eval (@get_current_limit_max_throttle (const_battery 15 (Some 70) 0.02))
       limited_motors.
Proof.
  apply (current_limit_monotone 15 0.02 70 80 limited_motors);
    by vm_compute.
Defined.
