(* ===== verification/SpoolLogic.v ===== *)
(** * The spool state machine: [output_logic]

    [output_logic] runs once per tick.  It updates the disarm safety timer,
    forces SHUT_DOWN when the vehicle is disarmed or the interlock is off,
    guards the spool-up time against zero, and then runs the [case] of the
    current spool state.  Each block of the method is a definition here and
    [output_logic] is their composition; an early [break] of a [case] is the
    [then] branch of a conditional whose [else] branch is the rest of the
    case. *)

From Stdlib Require Import QArith ZArith Lqa.
From stdpp Require Import base decidable option list.
From S2P Require Import Prelude State CurrentLimit.

#[local] Open Scope state_scope.

(** ** Definitions *)

Definition minimum_spool_time : Q := 0.05.

(** [_spool_down_time > minimum_spool_time ? _spool_down_time :
    _spool_up_time], the spool-down time of three of the cases. *)
Definition spool_down_effective (m : Motors) : Q :=
  if decide (minimum_spool_time < m.(params).(spool_down_time))
  then m.(params).(spool_down_time)
  else m.(params).(spool_up_time).

(** [_dt_s / _spool_up_time] and [_dt_s / spool_time]. *)
Definition spool_up_step (m : Motors) : Q :=
  m.(inputs).(dt_s) / m.(params).(spool_up_time).

Definition spool_down_step (m : Motors) : Q :=
  m.(inputs).(dt_s) / spool_down_effective m.

(** The step of the spin-up ramp, with the spool-up time as the prologue
    leaves it: [_dt_s / _spool_up_time] with [_spool_up_time] at or above
    [minimum_spool_time]. *)
Definition ramp_step (m : Motors) : Q :=
  m.(inputs).(dt_s) / MAX minimum_spool_time m.(params).(spool_up_time).

(** The target of the spin-up ramp at ground idle. *)
Definition spin_up_armed_ratio (m : Motors) : Q :=
  if decide (0 < get_spin_min m)
  then m.(params).(spin_arm) / get_spin_min m
  else 0.

(** The value the first block gives the disarm safety timer. *)
Definition next_safe_timer (m : Motors) : Q :=
  if m.(inputs).(armed) then
    if m.(params).(disarm_disable_pwm)
       && bool_decide (m.(spool).(disarm_safe_timer) < m.(params).(safe_time))
    then m.(spool).(disarm_safe_timer) + m.(inputs).(dt_s)
    else m.(params).(safe_time)
  else 0.

(** The disarm safety timer. *)
Definition update_disarm_safe_timer : State Motors unit :=
  is_armed ← gets (fun m : Motors => m.(inputs).(armed));
  if is_armed then
    counting ← gets (fun m : Motors =>
      m.(params).(disarm_disable_pwm)
      && bool_decide (m.(spool).(disarm_safe_timer) < m.(params).(safe_time)));
    if counting then
      modify (fun m : Motors =>
        set_disarm_safe_timer
          (m.(spool).(disarm_safe_timer) + m.(inputs).(dt_s)) m)
    else
      modify (fun m : Motors => set_disarm_safe_timer m.(params).(safe_time) m)
  else
    modify (set_disarm_safe_timer 0).

(** Force the desired and the current spool state when disarmed or not
    interlocked. *)
Definition force_shut_down : State Motors unit :=
  off ← gets (fun m : Motors => negb m.(inputs).(armed) || negb m.(inputs).(interlock));
  when off
    (modify (set_spool_desired DESIRED_SHUT_DOWN);;
     modify (set_spool_state SHUT_DOWN)).

(** Keep the spool-up time at or above [minimum_spool_time]. *)
Definition clamp_spool_up_time : State Motors unit :=
  small ← gets (fun m : Motors =>
    bool_decide (m.(params).(spool_up_time) < minimum_spool_time));
  when small (modify (set_spool_up_time minimum_spool_time)).

(** [case SpoolState::SHUT_DOWN] *)
Definition logic_shut_down : State Motors unit :=
  modify (set_limit (limit_all true));;
  leave ← gets (fun m : Motors =>
    bool_decide (m.(spool).(spool_desired) <> DESIRED_SHUT_DOWN)
    && bool_decide (m.(params).(safe_time) <= m.(spool).(disarm_safe_timer)));
  if leave then
    modify (set_spool_state GROUND_IDLE)
  else
    modify (set_spin_up_ratio 0);;
    modify (set_throttle_thrust_max 0);;
    modify (set_thrust_boost false);;
    modify (set_thrust_boost_ratio 0).

(** The inner switch of [case SpoolState::GROUND_IDLE]. *)
Definition ground_idle_ramp (desired : DesiredSpoolState) : State Motors unit :=
  match desired with
  | DESIRED_SHUT_DOWN =>
      spool_step ← gets spool_down_step;
      modify (fun m : Motors =>
        set_spin_up_ratio (m.(spool).(spin_up_ratio) - spool_step) m);;
      ratio ← gets (fun m : Motors => m.(spool).(spin_up_ratio));
      when (bool_decide (ratio <= 0))
        (modify (set_spin_up_ratio 0);;
         modify (set_spool_state SHUT_DOWN))
  | DESIRED_THROTTLE_UNLIMITED =>
      spool_step ← gets spool_up_step;
      modify (fun m : Motors =>
        set_spin_up_ratio (m.(spool).(spin_up_ratio) + spool_step) m);;
      ratio ← gets (fun m : Motors => m.(spool).(spin_up_ratio));
      when (bool_decide (1 <= ratio))
        (modify (set_spin_up_ratio 1);;
         blocked ← gets (fun m : Motors => m.(inputs).(spoolup_block));
         when (negb blocked) (modify (set_spool_state SPOOLING_UP)))
  | DESIRED_GROUND_IDLE =>
      up_step ← gets spool_up_step;
      down_step ← gets spool_down_step;
      target ← gets spin_up_armed_ratio;
      modify (fun m : Motors =>
        set_spin_up_ratio
          (m.(spool).(spin_up_ratio)
           + constrain_float (target - m.(spool).(spin_up_ratio))
               (- down_step) up_step) m)
  end.

(** [case SpoolState::GROUND_IDLE] *)
Definition logic_ground_idle : State Motors unit :=
  modify (set_limit (limit_all true));;
  desired ← gets (fun m : Motors => m.(spool).(spool_desired));
  ground_idle_ramp desired;;
  modify (set_throttle_thrust_max 0);;
  modify (set_thrust_boost false);;
  modify (set_thrust_boost_ratio 0).

Section SpoolLogic.

Context {battery : BattMonitor}.

(** [case SpoolState::SPOOLING_UP] *)
Definition logic_spooling_up : State Motors unit :=
  spool_step ← gets spool_up_step;
  modify (set_limit (limit_all false));;
  desired ← gets (fun m : Motors => m.(spool).(spool_desired));
  if bool_decide (desired <> DESIRED_THROTTLE_UNLIMITED) then
    modify (set_spool_state SPOOLING_DOWN)
  else
    modify (set_spin_up_ratio 1);;
    modify (fun m : Motors =>
      set_throttle_thrust_max
        (m.(spool).(throttle_thrust_max) + spool_step) m);;
    throttle ← gets get_throttle;
    ceiling ← get_current_limit_max_throttle;
    thrust_max ← gets (fun m : Motors => m.(spool).(throttle_thrust_max));
    (if bool_decide (MIN throttle ceiling <= thrust_max) then
       ceiling' ← get_current_limit_max_throttle;
       modify (set_throttle_thrust_max ceiling');;
       modify (set_spool_state THROTTLE_UNLIMITED)
     else
       when (bool_decide (thrust_max < 0))
         (modify (set_throttle_thrust_max 0)));;
    modify (set_thrust_boost false);;
    modify (fun m : Motors =>
      set_thrust_boost_ratio
        (MAX 0 (m.(spool).(thrust_boost_ratio) - spool_step)) m).

(** [case SpoolState::THROTTLE_UNLIMITED] *)
Definition logic_throttle_unlimited : State Motors unit :=
  spool_step ← gets spool_up_step;
  modify (set_limit (limit_all false));;
  desired ← gets (fun m : Motors => m.(spool).(spool_desired));
  if bool_decide (desired <> DESIRED_THROTTLE_UNLIMITED) then
    modify (set_spool_state SPOOLING_DOWN)
  else
    modify (set_spin_up_ratio 1);;
    ceiling ← get_current_limit_max_throttle;
    modify (set_throttle_thrust_max ceiling);;
    boosting ← gets (fun m : Motors =>
      m.(spool).(thrust_boost) && negb m.(spool).(thrust_balanced));
    if boosting then
      modify (fun m : Motors =>
        set_thrust_boost_ratio
          (MIN 1 (m.(spool).(thrust_boost_ratio) + spool_step)) m)
    else
      modify (fun m : Motors =>
        set_thrust_boost_ratio
          (MAX 0 (m.(spool).(thrust_boost_ratio) - spool_step)) m).

(** [case SpoolState::SPOOLING_DOWN] *)
Definition logic_spooling_down : State Motors unit :=
  modify (set_limit (limit_all false));;
  desired ← gets (fun m : Motors => m.(spool).(spool_desired));
  if bool_decide (desired = DESIRED_THROTTLE_UNLIMITED) then
    modify (set_spool_state SPOOLING_UP)
  else
    modify (set_spin_up_ratio 1);;
    spool_step ← gets spool_down_step;
    modify (fun m : Motors =>
      set_throttle_thrust_max
        (m.(spool).(throttle_thrust_max) - spool_step) m);;
    thrust_max ← gets (fun m : Motors => m.(spool).(throttle_thrust_max));
    when (bool_decide (thrust_max <= 0))
      (modify (set_throttle_thrust_max 0));;
    ceiling ← get_current_limit_max_throttle;
    thrust_max' ← gets (fun m : Motors => m.(spool).(throttle_thrust_max));
    (if bool_decide (ceiling <= thrust_max') then
       ceiling' ← get_current_limit_max_throttle;
       modify (set_throttle_thrust_max ceiling')
     else
       when (is_zero thrust_max')
         (modify (set_spool_state GROUND_IDLE)));;
    modify (fun m : Motors =>
      set_thrust_boost_ratio
        (MAX 0 (m.(spool).(thrust_boost_ratio) - spool_step)) m).

(** The switch on the current spool state. *)
Definition spool_switch (state : SpoolState) : State Motors unit :=
  match state with
  | SHUT_DOWN => logic_shut_down
  | GROUND_IDLE => logic_ground_idle
  | SPOOLING_UP => logic_spooling_up
  | THROTTLE_UNLIMITED => logic_throttle_unlimited
  | SPOOLING_DOWN => logic_spooling_down
  end.

(** The blocks that precede the switch. *)
Definition logic_prologue : State Motors unit :=
  update_disarm_safe_timer;;
  force_shut_down;;
  clamp_spool_up_time.

(** [AP_MotorsMulticopter::output_logic] *)
Definition output_logic : State Motors unit :=
  logic_prologue;;
  state ← gets (fun m : Motors => m.(spool).(spool_state));
  spool_switch state.

(** One tick of the spool logic, as a function on the object. *)
Definition logic_tick (m : Motors) : Motors := exec output_logic m.

End SpoolLogic.

(** The state the switch runs in: SHUT_DOWN when disarmed or not
    interlocked, the current state otherwise. *)
Definition entry_state (m : Motors) : SpoolState :=
  if negb m.(inputs).(armed) || negb m.(inputs).(interlock)
  then SHUT_DOWN
  else m.(spool).(spool_state).

(** The states in which thrust is available. *)
Definition flying (s : SpoolState) : bool :=
  match s with
  | SPOOLING_UP | THROTTLE_UNLIMITED | SPOOLING_DOWN => true
  | SHUT_DOWN | GROUND_IDLE => false
  end.

(** The invariant of the spool variables. *)
Record spool_inv (m : Motors) : Prop := {
  inv_ratio : 0 <= m.(spool).(spin_up_ratio) <= 1;
  inv_thrust_max : 0 <= m.(spool).(throttle_thrust_max) <= 1;
  inv_boost_ratio : 0 <= m.(spool).(thrust_boost_ratio) <= 1;
  inv_timer :
    0 <= m.(spool).(disarm_safe_timer)
    <= m.(params).(safe_time) + m.(inputs).(dt_s);
  inv_shut_down :
    m.(spool).(spool_state) = SHUT_DOWN ->
    m.(spool).(spin_up_ratio) == 0 /\ m.(spool).(throttle_thrust_max) == 0;
  inv_ground_idle :
    m.(spool).(spool_state) = GROUND_IDLE ->
    m.(spool).(throttle_thrust_max) < FLT_EPSILON;
  inv_flying :
    flying m.(spool).(spool_state) = true ->
    m.(spool).(spin_up_ratio) == 1;
}.

(** What holds between the prologue and the switch: [spool_inv] without
    the zero ramps of a SHUT_DOWN the prologue has just forced, and a
    spool-up time that is safe to divide by. *)
Record spool_pre (m : Motors) : Prop := {
  pre_config : config_ok m;
  pre_spool_up_time : minimum_spool_time <= m.(params).(spool_up_time);
  pre_ratio : 0 <= m.(spool).(spin_up_ratio) <= 1;
  pre_thrust_max : 0 <= m.(spool).(throttle_thrust_max) <= 1;
  pre_boost_ratio : 0 <= m.(spool).(thrust_boost_ratio) <= 1;
  pre_timer :
    0 <= m.(spool).(disarm_safe_timer)
    <= m.(params).(safe_time) + m.(inputs).(dt_s);
  pre_shut_down :
    m.(spool).(spool_state) = SHUT_DOWN ->
    m.(spool).(spool_desired) <> DESIRED_SHUT_DOWN ->
    m.(spool).(spin_up_ratio) == 0 /\ m.(spool).(throttle_thrust_max) == 0;
  pre_ground_idle :
    m.(spool).(spool_state) = GROUND_IDLE ->
    m.(spool).(throttle_thrust_max) < FLT_EPSILON;
  pre_flying :
    flying m.(spool).(spool_state) = true ->
    m.(spool).(spin_up_ratio) == 1;
}.

(** The flying example with a current limit, on the way up. *)
Definition limited_spooling_up : Motors :=
  set_spool_state SPOOLING_UP limited_motors.

#[export] Hint Unfold spool_down_effective spool_up_step spool_down_step
  spin_up_armed_ratio : motors.

(** ** Tactics *)

(** Name the sign of every quotient by a spool time. *)
Ltac pose_steps :=
  repeat match goal with
  | |- context [?a / ?b] =>
      lazymatch goal with
      | _ : 0 < a / b |- _ => fail
      | _ => assert (0 < a / b)
               by (apply Qdiv_pos; unfold minimum_spool_time in *; lra)
      end
  end.

(** Name the bounds of every value clamped to 0..1. *)
Ltac pose_clamp a :=
  lazymatch goal with
  | _ : 0 <= constrain_float a 0 1 <= 1 |- _ => fail
  | _ => pose proof (constrain_float_bounds a 0 1 ltac:(lra))
  end.

Ltac pose_clamps :=
  repeat match goal with
  | |- context [constrain_float ?a 0 1] => pose_clamp a
  | _ : context [constrain_float ?a 0 1] |- _ => pose_clamp a
  end.

Ltac use_is_zero :=
  repeat match goal with
  | H : is_zero _ = true |- _ => apply is_zero_true in H
  | H : is_zero _ = false |- _ => apply is_zero_false in H
  end.

(** Replace the spool state by its known value. *)
Ltac rewrite_state :=
  repeat match goal with
  | H : spool_state ?s = _ |- _ => progress (rewrite H in * )
  end;
  cbn [flying] in *.

(** A case of the switch: run it, split on its conditions and close the
    arithmetic that is left. *)
Ltac spool_case :=
  rewrite_state;
  unfold MIN, MAX, get_throttle; autounfold with motors;
  run_exec; split; simpl_state; rewrite_state; try done;
  pose_steps; pose_clamps; use_is_zero;
  pose proof FLT_EPSILON_pos;
  try lra; try (intuition (discriminate || lra)).

(** ** Lemmas: the blocks of the prologue as functions *)

Lemma update_disarm_safe_timer_eq m :
  exec update_disarm_safe_timer m
  = set_disarm_safe_timer (next_safe_timer m) m.
Proof.
  unfold update_disarm_safe_timer, next_safe_timer. run_exec; reflexivity.
Qed.

Lemma force_shut_down_eq m :
  exec force_shut_down m
  = if negb m.(inputs).(armed) || negb m.(inputs).(interlock)
    then set_spool_state SHUT_DOWN (set_spool_desired DESIRED_SHUT_DOWN m)
    else m.
Proof. unfold force_shut_down. run_exec; reflexivity. Qed.

Lemma clamp_spool_up_time_eq m :
  exec clamp_spool_up_time m
  = if bool_decide (m.(params).(spool_up_time) < minimum_spool_time)
    then set_spool_up_time minimum_spool_time m
    else m.
Proof. unfold clamp_spool_up_time. run_exec; reflexivity. Qed.

Lemma spin_arm_ratio_bounds m :
  config_ok m -> 0 < m.(thr_lin).(spin_min) ->
  0 <= m.(params).(spin_arm) / m.(thr_lin).(spin_min) <= 1.
Proof.
  intros [] H. split.
  - apply Qdiv_nonneg; lra.
  - apply Qle_shift_div_r; lra.
Qed.

(** ** Lemmas: each case of the switch establishes the invariant *)

Section CaseInvariants.

Context {battery : BattMonitor}.
Implicit Types m : Motors.

Lemma shut_down_inv m :
  spool_pre m -> m.(spool).(spool_state) = SHUT_DOWN ->
  spool_inv (exec logic_shut_down m).
Proof. intros [[]] Hst. unfold logic_shut_down. spool_case. Qed.

Lemma ground_idle_inv m :
  spool_pre m -> m.(spool).(spool_state) = GROUND_IDLE ->
  spool_inv (exec logic_ground_idle m).
Proof.
  intros [Hc] Hst. pose proof (spin_arm_ratio_bounds m Hc). destruct Hc.
  unfold logic_ground_idle, ground_idle_ramp, constrain_float. spool_case.
Qed.

Lemma spooling_up_inv m :
  spool_pre m -> m.(spool).(spool_state) = SPOOLING_UP ->
  spool_inv (exec logic_spooling_up m).
Proof. intros [[]] Hst. unfold logic_spooling_up. spool_case. Qed.

Lemma throttle_unlimited_inv m :
  spool_pre m -> m.(spool).(spool_state) = THROTTLE_UNLIMITED ->
  spool_inv (exec logic_throttle_unlimited m).
Proof. intros [[]] Hst. unfold logic_throttle_unlimited. spool_case. Qed.

Lemma spooling_down_inv m :
  spool_pre m -> m.(spool).(spool_state) = SPOOLING_DOWN ->
  spool_inv (exec logic_spooling_down m).
Proof. intros [[]] Hst. unfold logic_spooling_down. spool_case. Qed.

(** Whatever the state, its case establishes the invariant. *)
Lemma spool_switch_inv m :
  spool_pre m -> spool_inv (exec (spool_switch m.(spool).(spool_state)) m).
Proof.
  intros Hpre. destruct (spool_state (spool m)) eqn:Hst; cbn [spool_switch];
    eauto using shut_down_inv, ground_idle_inv, spooling_up_inv,
      throttle_unlimited_inv, spooling_down_inv.
Qed.

End CaseInvariants.

(** ** Lemmas: the prologue and the method *)

Section Prologue.

Context {battery : BattMonitor}.
Implicit Types m : Motors.

(** The prologue as the composition of its three blocks. *)
Lemma logic_prologue_eq m :
  exec logic_prologue m
  = exec clamp_spool_up_time
      (exec force_shut_down (exec update_disarm_safe_timer m)).
Proof. unfold logic_prologue. by rewrite !exec_bind. Qed.

(** The method as the case of the state the prologue leaves. *)
Lemma output_logic_eq m :
  exec output_logic m
  = exec (spool_switch (exec logic_prologue m).(spool).(spool_state))
      (exec logic_prologue m).
Proof. unfold output_logic. by rewrite !exec_bind. Qed.

(** The switch runs in [entry_state]. *)
Lemma prologue_state m :
  (exec logic_prologue m).(spool).(spool_state) = entry_state m.
Proof.
  unfold logic_prologue, update_disarm_safe_timer, force_shut_down,
    clamp_spool_up_time, entry_state.
  run_exec; reflexivity.
Qed.

(** The prologue writes the timer, the two spool states and the
    spool-up time. *)
Lemma prologue_frame m :
  let m' := exec logic_prologue m in
  m'.(inputs) = m.(inputs) /\ m'.(thr_lin) = m.(thr_lin)
  /\ m'.(limit) = m.(limit) /\ m'.(throttle_limit) = m.(throttle_limit)
  /\ m'.(throttle_filter) = m.(throttle_filter)
  /\ m'.(actuator) = m.(actuator)
  /\ m'.(spool).(spin_up_ratio) = m.(spool).(spin_up_ratio)
  /\ m'.(spool).(throttle_thrust_max) = m.(spool).(throttle_thrust_max)
  /\ m'.(spool).(thrust_boost_ratio) = m.(spool).(thrust_boost_ratio)
  /\ m'.(spool).(thrust_boost) = m.(spool).(thrust_boost).
Proof.
  unfold logic_prologue, update_disarm_safe_timer, force_shut_down,
    clamp_spool_up_time.
  run_exec; repeat split.
Qed.

Lemma prologue_timer m :
  (exec logic_prologue m).(spool).(disarm_safe_timer) = next_safe_timer m.
Proof.
  unfold logic_prologue, update_disarm_safe_timer, force_shut_down,
    clamp_spool_up_time, next_safe_timer.
  run_exec; reflexivity.
Qed.

Lemma prologue_config m :
  config_ok m -> config_ok (exec logic_prologue m).
Proof.
  intros [].
  unfold logic_prologue, update_disarm_safe_timer, force_shut_down,
    clamp_spool_up_time.
  run_exec; split; simpl_state; done.
Qed.

Lemma prologue_spool_up_time m :
  minimum_spool_time <= (exec logic_prologue m).(params).(spool_up_time).
Proof.
  unfold logic_prologue, update_disarm_safe_timer, force_shut_down,
    clamp_spool_up_time.
  run_exec; lra.
Qed.

(** The prologue turns the invariant into the precondition of the
    switch. *)
Lemma prologue_pre m :
  config_ok m -> spool_inv m -> spool_pre (exec logic_prologue m).
Proof.
  intros Hc Hinv.
  pose proof (prologue_config m Hc) as Hc'.
  pose proof (prologue_spool_up_time m) as Ht.
  destruct Hc, Hinv. revert Hc' Ht.
  unfold logic_prologue, update_disarm_safe_timer, force_shut_down,
    clamp_spool_up_time.
  run_exec; intros Hc' Ht; split; simpl_state; try done; try lra;
    intuition (discriminate || lra).
Qed.

(** A case of the switch leaves the inputs, the parameters and the
    thrust linearisation as they are. *)
Lemma spool_switch_frame s m :
  let m' := exec (spool_switch s) m in
  m'.(inputs) = m.(inputs) /\ m'.(params) = m.(params)
  /\ m'.(thr_lin) = m.(thr_lin)
  /\ m'.(throttle_filter) = m.(throttle_filter)
  /\ m'.(actuator) = m.(actuator).
Proof.
  destruct s; cbn [spool_switch];
    unfold logic_shut_down, logic_ground_idle, ground_idle_ramp,
      logic_spooling_up, logic_throttle_unlimited, logic_spooling_down;
    run_exec; repeat split.
Qed.

End Prologue.

(** ** Theorems *)

Section SpoolTheorems.

Context {battery : BattMonitor}.
Implicit Types m : Motors.

Lemma output_logic_config m :
  config_ok m -> config_ok (exec output_logic m).
Proof.
  intros Hc. apply prologue_config in Hc. rewrite output_logic_eq.
  destruct (spool_switch_frame
              (exec logic_prologue m).(spool).(spool_state)
              (exec logic_prologue m)) as (Hi & Hp & Ht & _).
  destruct Hc. split; rewrite ?Hi, ?Hp, ?Ht; done.
Qed.

(** No case of the switch raises the spin-up ramp by more than the step
    of the spool-up time. *)
Lemma spool_switch_ratio_rate m :
  spool_pre m ->
  (exec (spool_switch m.(spool).(spool_state)) m).(spool).(spin_up_ratio)
  <= m.(spool).(spin_up_ratio) + spool_up_step m.
Proof.
  intros [Hc]. pose proof (spin_arm_ratio_bounds m Hc). destruct Hc.
  destruct (spool_state (spool m)) eqn:Hst; cbn [spool_switch];
    unfold logic_shut_down, logic_ground_idle, ground_idle_ramp,
      constrain_float, logic_spooling_up, logic_throttle_unlimited,
      logic_spooling_down;
    rewrite_state; unfold MIN, MAX, get_throttle; autounfold with motors;
    run_exec; simpl_state; pose_steps; try lra; intuition lra.
Qed.

(** The prologue leaves the step of the ramp as [ramp_step] gives it. *)
Lemma prologue_ramp_step m :
  spool_up_step (exec logic_prologue m) = ramp_step m.
Proof.
  unfold logic_prologue, update_disarm_safe_timer, force_shut_down,
    clamp_spool_up_time, spool_up_step, ramp_step, MAX.
  run_exec; first [reflexivity | lra].
Qed.

(** The spin-up ramp never rises faster than the spool-up time allows:
    in every state and for every input, a tick raises [spin_up_ratio] by
    at most [ramp_step]. *)
Lemma output_logic_ratio_rate m :
  config_ok m -> spool_inv m ->
  (exec output_logic m).(spool).(spin_up_ratio)
  <= m.(spool).(spin_up_ratio) + ramp_step m.
Proof.
  intros Hc Hinv. rewrite output_logic_eq, <- prologue_ramp_step.
  destruct (prologue_frame m) as (_ & _ & _ & _ & _ & _ & <- & _).
  by apply spool_switch_ratio_rate, prologue_pre.
Qed.

(** A tick leaves the step of the ramp as it is. *)
Lemma output_logic_ramp_step m : ramp_step (exec output_logic m) = ramp_step m.
Proof.
  rewrite output_logic_eq. unfold ramp_step.
  destruct (spool_switch_frame (exec logic_prologue m).(spool).(spool_state)
              (exec logic_prologue m)) as (-> & -> & _).
  unfold logic_prologue, update_disarm_safe_timer, force_shut_down,
    clamp_spool_up_time, MAX.
  run_exec; first [reflexivity | lra].
Qed.

(** C1: [output_logic] preserves the invariant of the spool variables:
    from a well-formed configuration and a state that satisfies
    [spool_inv], the state after the tick satisfies it again: the ramps
    and the boost ratio stay in 0..1, the timer within its bound, both
    ramps are zero in SHUT_DOWN, the thrust ceiling is below the
    tolerance in GROUND_IDLE and the spin-up ramp is 1 in the three
    flying states. *)
Theorem output_logic_inv m :
  config_ok m -> spool_inv m -> spool_inv (exec output_logic m).
Proof.
  intros Hc Hinv. rewrite output_logic_eq.
  by apply spool_switch_inv, prologue_pre.
Qed.

(** What a case of the switch leaves when it ends in SHUT_DOWN or in
    THROTTLE_UNLIMITED, whatever the state it starts from. *)
Lemma spool_switch_post m :
  let m' := exec (spool_switch m.(spool).(spool_state)) m in
  (m'.(spool).(spool_state) = SHUT_DOWN ->
   m'.(spool).(spin_up_ratio) = 0 /\ m'.(spool).(throttle_thrust_max) = 0)
  /\ (m'.(spool).(spool_state) = THROTTLE_UNLIMITED ->
      m'.(spool).(spin_up_ratio) = 1
      /\ 0 < m'.(spool).(throttle_thrust_max) <= 1).
Proof.
  destruct (spool_state (spool m)) eqn:Hst; cbn [spool_switch];
    unfold logic_shut_down, logic_ground_idle, ground_idle_ramp,
      logic_spooling_up, logic_throttle_unlimited, logic_spooling_down;
    run_exec; rewrite ?Hst; (split; [intros ?|intros ?]); try done.
Qed.

(** C8: whenever a tick ends in SHUT_DOWN, the spin-up ramp and the
    thrust ceiling are both zero, from any state and any inputs. *)
Theorem output_logic_shut_down_zero m :
  (exec output_logic m).(spool).(spool_state) = SHUT_DOWN ->
  (exec output_logic m).(spool).(spin_up_ratio) = 0
  /\ (exec output_logic m).(spool).(throttle_thrust_max) = 0.
Proof. rewrite output_logic_eq. apply spool_switch_post. Qed.

(** C9: whenever a tick ends in THROTTLE_UNLIMITED, the spin-up ramp is 1
    and the thrust ceiling is a positive fraction of full throttle: it lies
    in (0, 1]. *)
Theorem output_logic_unlimited m :
  (exec output_logic m).(spool).(spool_state) = THROTTLE_UNLIMITED ->
  (exec output_logic m).(spool).(spin_up_ratio) = 1
  /\ 0 < (exec output_logic m).(spool).(throttle_thrust_max) <= 1.
Proof. rewrite output_logic_eq. apply spool_switch_post. Qed.

(** The tick of a vehicle that is disarmed or has its interlock off. *)
Lemma shut_down_tick_state m :
  m.(inputs).(armed) = false \/ m.(inputs).(interlock) = false ->
  let m' := exec output_logic m in
  m'.(spool).(spool_state) = SHUT_DOWN
  /\ m'.(spool).(spool_desired) = DESIRED_SHUT_DOWN
  /\ m'.(limit) = limit_all true
  /\ m'.(spool).(spin_up_ratio) = 0
  /\ m'.(spool).(throttle_thrust_max) = 0
  /\ m'.(spool).(thrust_boost) = false
  /\ m'.(spool).(thrust_boost_ratio) = 0.
Proof.
  intros H. unfold output_logic, logic_prologue, update_disarm_safe_timer,
    force_shut_down, clamp_spool_up_time.
  destruct H as [H | H]; run_exec; try discriminate;
    cbn [spool_switch]; unfold logic_shut_down; run_exec; done.
Qed.

(** C2: when the vehicle is disarmed or the interlock is off, the tick
    ends in SHUT_DOWN with the desired state forced to SHUT_DOWN, every
    limit flag set, both ramps at zero and the boost cleared. *)
Theorem output_logic_disarmed m :
  m.(inputs).(armed) = false \/ m.(inputs).(interlock) = false ->
  let m' := exec output_logic m in
  m'.(spool).(spool_state) = SHUT_DOWN
  /\ m'.(spool).(spool_desired) = DESIRED_SHUT_DOWN
  /\ m'.(limit) = limit_all true
  /\ m'.(spool).(spin_up_ratio) = 0
  /\ m'.(spool).(throttle_thrust_max) = 0
  /\ m'.(spool).(thrust_boost) = false
  /\ m'.(spool).(thrust_boost_ratio) = 0.
Proof. apply shut_down_tick_state. Qed.

(** The limit flags after a tick are those of the state the switch
    ran in: all set in SHUT_DOWN and GROUND_IDLE, all clear in the three
    flying states. *)
Theorem output_logic_limit_flags m :
  (exec output_logic m).(limit) = limit_all (negb (flying (entry_state m))).
Proof.
  rewrite output_logic_eq, prologue_state.
  destruct (entry_state m); cbn [spool_switch flying negb];
    unfold logic_shut_down, logic_ground_idle, ground_idle_ramp,
      logic_spooling_up, logic_throttle_unlimited, logic_spooling_down;
    run_exec; reflexivity.
Qed.

(** After a tick the spool-up time and the effective spool-down
    time are at least [minimum_spool_time], so that no step of the
    ramps divides by zero. *)
Theorem output_logic_spool_time m :
  minimum_spool_time <= (exec output_logic m).(params).(spool_up_time)
  /\ minimum_spool_time <= spool_down_effective (exec output_logic m).
Proof.
  pose proof (prologue_spool_up_time m) as H. rewrite output_logic_eq.
  destruct (spool_switch_frame
              (exec logic_prologue m).(spool).(spool_state)
              (exec logic_prologue m)) as (_ & Hp & _).
  unfold spool_down_effective. rewrite Hp. split; [done|].
  case_decide; lra.
Qed.

(** C4: the machine leaves SHUT_DOWN only to GROUND_IDLE, and only when
    the vehicle is armed and interlocked, a state other than SHUT_DOWN is
    desired and the disarm safety timer has reached [safe_time]. *)
Theorem output_logic_leaves_shut_down m :
  m.(spool).(spool_state) = SHUT_DOWN ->
  (exec output_logic m).(spool).(spool_state) <> SHUT_DOWN ->
  (exec output_logic m).(spool).(spool_state) = GROUND_IDLE
  /\ m.(inputs).(armed) = true /\ m.(inputs).(interlock) = true
  /\ m.(spool).(spool_desired) <> DESIRED_SHUT_DOWN
  /\ m.(params).(safe_time) <= next_safe_timer m.
Proof.
  intros Hst. unfold output_logic, logic_prologue,
    update_disarm_safe_timer, force_shut_down, clamp_spool_up_time,
    next_safe_timer.
  run_exec; rewrite ?Hst; cbn [spool_switch]; unfold logic_shut_down;
    run_exec; done.
Qed.

End SpoolTheorems.

(** C36: while the machine is armed, interlocked and at GROUND_IDLE with
    full authority desired, a tick raises the spin-up ramp by [dt] over the
    spool-up time (at least [minimum_spool_time]) up to 1, zeroes the thrust
    ceiling, and moves to SPOOLING_UP exactly when the ramp has reached 1
    and the spool-up is not blocked. *)
Theorem ground_idle_spin_up {battery : BattMonitor} (m : Motors) :
  m.(inputs).(armed) = true -> m.(inputs).(interlock) = true ->
  m.(spool).(spool_state) = GROUND_IDLE ->
  m.(spool).(spool_desired) = DESIRED_THROTTLE_UNLIMITED ->
  let step :=
    m.(inputs).(dt_s)
    / MAX minimum_spool_time m.(params).(spool_up_time) in
  let m' := exec output_logic m in
  m'.(spool).(spin_up_ratio) == MIN (m.(spool).(spin_up_ratio) + step) 1
  /\ m'.(spool).(throttle_thrust_max) = 0
  /\ m'.(spool).(spool_state)
     = if bool_decide (1 <= m.(spool).(spin_up_ratio) + step)
          && negb m.(inputs).(spoolup_block)
       then SPOOLING_UP else GROUND_IDLE.
Proof.
  intros Ha Hi Hst Hd. unfold output_logic, logic_prologue,
    update_disarm_safe_timer, force_shut_down, clamp_spool_up_time,
    spool_switch, logic_ground_idle, ground_idle_ramp, MAX, MIN.
  autounfold with motors.
  run_exec; repeat split; try done; try lra.
Qed.

(** The disarm safety timer can exceed [safe_time]: it is incremented
    by [dt] whenever it is below [safe_time], so that it overshoots by up to
    one period before it is set back.  Here it reads 1.2 s after a tick with
    [safe_time] at 1 s. *)
Theorem safe_timer_overshoot :
  let m :=
    set_disarm_safe_timer 0.9
      (upd_inputs (fun i =>
         mkInputs true true false 0.3 0 0 0 0 (limit_all false) 0)
         (upd_params (fun p =>
            mkParams p.(yaw_headroom) p.(batt_current_max) p.(pwm_type)
              p.(pwm_min) p.(pwm_max) p.(pwm_min_configured)
              p.(pwm_max_configured) p.(spin_arm)
              p.(batt_current_time_constant) p.(throttle_hover)
              p.(throttle_hover_learn) true p.(yaw_servo_angle_max_deg)
              p.(spool_up_time) p.(boost_scale) p.(slew_up_time)
              p.(slew_dn_time) 1 p.(options) p.(spool_down_time))
            init_motors)) in
  config_ok m /\ spool_inv m
  /\ (exec (@output_logic no_current_sensor) m).(spool).(disarm_safe_timer)
     == 1.2
  /\ m.(params).(safe_time)
     < (exec (@output_logic no_current_sensor) m).(spool).(disarm_safe_timer).
Proof.
  cbv zeta. split; [|split; [|split]].
  - split; by vm_compute.
  - split; by vm_compute.
  - by vm_compute.
  - by vm_compute.
Qed.

(** C37: on the tick that takes SPOOLING_UP to THROTTLE_UNLIMITED with the
    limiter active, the method calls the limiter twice, so that the filter
    of the limiter advances by two steps within the one tick. *)
Theorem spooling_up_limits_twice {battery : BattMonitor} (m : Motors) i :
  m.(inputs).(armed) = true -> m.(inputs).(interlock) = true ->
  m.(spool).(spool_state) = SPOOLING_UP ->
  m.(spool).(spool_desired) = DESIRED_THROTTLE_UNLIMITED ->
  limiter_active m i ->
  (exec output_logic m).(spool).(spool_state) = THROTTLE_UNLIMITED ->
  (exec output_logic m).(throttle_limit)
  = next_throttle_limit (set_throttle_limit (next_throttle_limit m i) m) i.
Proof.
  intros Ha Hi Hst Hd Hact. unfold output_logic, logic_prologue,
    update_disarm_safe_timer, force_shut_down, clamp_spool_up_time,
    spool_switch, logic_spooling_up.
  run_exec_with (idtac; limit_call_active);
    rewrite ?Hst, ?next_throttle_limit_same; done.
Qed.

(** ** Witnesses *)

Lemma init_spool_inv : spool_inv init_motors.
Proof. split; by vm_compute. Qed.

Lemma armed_spool_inv : spool_inv armed_motors.
Proof. split; by vm_compute. Qed.

Lemma flying_spool_inv : spool_inv flying_motors.
Proof. split; by vm_compute. Qed.

Lemma output_logic_inv_witness :
  spool_inv (exec (@output_logic no_current_sensor) flying_motors).
Proof.
  apply output_logic_inv; [apply flying_config_ok | apply flying_spool_inv].
Defined.

Lemma output_logic_shut_down_zero_witness :
  (exec (@output_logic no_current_sensor) init_motors).(spool).(spin_up_ratio)
  = 0
  /\ (exec (@output_logic no_current_sensor)
        init_motors).(spool).(throttle_thrust_max) = 0.
Proof. apply output_logic_shut_down_zero. reflexivity. Defined.

Lemma output_logic_unlimited_witness :
  (exec (@output_logic no_current_sensor)
     flying_motors).(spool).(spin_up_ratio) = 1
  /\ 0 < (exec (@output_logic no_current_sensor)
            flying_motors).(spool).(throttle_thrust_max) <= 1.
Proof. apply output_logic_unlimited. reflexivity. Defined.

Lemma output_logic_disarmed_witness :
  (exec (@output_logic no_current_sensor)
     (set_armed false flying_motors)).(spool).(spool_state) = SHUT_DOWN.
Proof.
  apply (@output_logic_disarmed no_current_sensor
           (set_armed false flying_motors)).
  left. reflexivity.
Defined.

Lemma output_logic_leaves_shut_down_witness :
  (exec (@output_logic no_current_sensor)
     armed_motors).(spool).(spool_state) = GROUND_IDLE.
Proof.
  apply (@output_logic_leaves_shut_down no_current_sensor armed_motors);
    [reflexivity | by vm_compute].
Defined.

Lemma ground_idle_spin_up_witness :
  (exec (@output_logic no_current_sensor)
     (set_spool_state GROUND_IDLE armed_motors)).(spool).(spin_up_ratio)
  == MIN (0 + 0.0025 / MAX minimum_spool_time 0.5) 1.
Proof.
  apply (@ground_idle_spin_up no_current_sensor
           (set_spool_state GROUND_IDLE armed_motors)); reflexivity.
Defined.

Lemma spooling_up_limits_twice_witness :
  (exec (@output_logic loaded_battery) limited_spooling_up).(throttle_limit)
  = @next_throttle_limit loaded_battery
      (set_throttle_limit
         (@next_throttle_limit loaded_battery limited_spooling_up 70)
         limited_spooling_up) 70.
Proof.
  apply (@spooling_up_limits_twice loaded_battery limited_spooling_up 70);
    try reflexivity.
  split; reflexivity.
Defined.
