(* ===== verification/SpoolSpec.v ===== *)
(** * The spool state machine against its specification

    The specification gives the spool logic as a graph on the five spool
    states whose edges are guarded by the arming inputs and by the desired
    state.  This file states that graph ([spool_step]), models the caller of
    the logic (the vehicle code that writes the inputs between two ticks,
    [Env] and [apply_env]) and the runs of the machine ([tick], [run],
    [reachable]), and proves that the method refines the graph, that the
    invariants of [SpoolLogic] hold in every reachable state, and what the
    shape of the graph implies for every run. *)

From Stdlib Require Import QArith ZArith Lqa Lia.
From stdpp Require Import base decidable option list.
From S2P Require Import Prelude State CurrentLimit SpoolLogic.

#[local] Open Scope state_scope.

(** ** Definitions *)

(** What the surroundings provide for one tick: the readings of the battery
    monitor, and the inputs the vehicle code writes through the setters of
    the base class. *)
Record Env := mkEnv {
  env_battery : BattMonitor;
  env_armed : bool;
  env_interlock : bool;
  env_desired : DesiredSpoolState;
  env_spoolup_block : bool;
  env_thrust_boost : bool;
  env_thrust_balanced : bool;
}.

(** The writes of the vehicle code before a tick. *)
Definition apply_env (e : Env) (m : Motors) : Motors :=
  set_thrust_balanced e.(env_thrust_balanced)
    (set_thrust_boost e.(env_thrust_boost)
       (set_spool_desired e.(env_desired)
          (upd_inputs (fun i =>
             mkInputs e.(env_armed) e.(env_interlock) e.(env_spoolup_block)
               i.(dt_s) i.(throttle_in) i.(roll_in_ff) i.(pitch_in_ff)
               i.(yaw_in_ff) i.(external_limits) i.(micros)) m))).

(** One tick in an environment, and a run through a list of them. *)
Definition tick (e : Env) (m : Motors) : Motors :=
  @logic_tick e.(env_battery) (apply_env e m).

Definition run (es : list Env) (m : Motors) : Motors :=
  foldl (fun m e => tick e m) m es.

(** The spool states a run passes through, the first one included. *)
Fixpoint trace (es : list Env) (m : Motors) : list SpoolState :=
  m.(spool).(spool_state)
  :: match es with
     | [] => []
     | e :: es' => trace es' (tick e m)
     end.

(** The states that runs from [m0] reach. *)
Inductive reachable (m0 : Motors) : Motors -> Prop :=
  | reach_start : reachable m0 m0
  | reach_tick e m : reachable m0 m -> reachable m0 (tick e m).

(** The transition graph of the specification.  [spool_step ok desired s s']:
    with the vehicle armed and interlocked ([ok]) or not, and [desired]
    requested, a tick may take the machine from [s] to [s']. *)
Inductive spool_step :
  bool -> DesiredSpoolState -> SpoolState -> SpoolState -> Prop :=
  | step_forced d s : spool_step false d s SHUT_DOWN
  | step_shut_stay d : spool_step true d SHUT_DOWN SHUT_DOWN
  | step_shut_leave d :
      d <> DESIRED_SHUT_DOWN -> spool_step true d SHUT_DOWN GROUND_IDLE
  | step_idle_stay d : spool_step true d GROUND_IDLE GROUND_IDLE
  | step_idle_down :
      spool_step true DESIRED_SHUT_DOWN GROUND_IDLE SHUT_DOWN
  | step_idle_up :
      spool_step true DESIRED_THROTTLE_UNLIMITED GROUND_IDLE SPOOLING_UP
  | step_up_stay :
      spool_step true DESIRED_THROTTLE_UNLIMITED SPOOLING_UP SPOOLING_UP
  | step_up_done :
      spool_step true DESIRED_THROTTLE_UNLIMITED SPOOLING_UP
        THROTTLE_UNLIMITED
  | step_up_abort d :
      d <> DESIRED_THROTTLE_UNLIMITED ->
      spool_step true d SPOOLING_UP SPOOLING_DOWN
  | step_unlimited_stay :
      spool_step true DESIRED_THROTTLE_UNLIMITED THROTTLE_UNLIMITED
        THROTTLE_UNLIMITED
  | step_unlimited_down d :
      d <> DESIRED_THROTTLE_UNLIMITED ->
      spool_step true d THROTTLE_UNLIMITED SPOOLING_DOWN
  | step_down_stay d :
      d <> DESIRED_THROTTLE_UNLIMITED ->
      spool_step true d SPOOLING_DOWN SPOOLING_DOWN
  | step_down_idle d :
      d <> DESIRED_THROTTLE_UNLIMITED ->
      spool_step true d SPOOLING_DOWN GROUND_IDLE
  | step_down_up :
      spool_step true DESIRED_THROTTLE_UNLIMITED SPOOLING_DOWN SPOOLING_UP.

(** The graph as a decision procedure. *)
Definition spool_stepb (ok : bool) (d : DesiredSpoolState)
    (s s' : SpoolState) : bool :=
  if negb ok then bool_decide (s' = SHUT_DOWN)
  else
    match s, s' with
    | SHUT_DOWN, SHUT_DOWN => true
    | SHUT_DOWN, GROUND_IDLE => bool_decide (d <> DESIRED_SHUT_DOWN)
    | GROUND_IDLE, GROUND_IDLE => true
    | GROUND_IDLE, SHUT_DOWN => bool_decide (d = DESIRED_SHUT_DOWN)
    | GROUND_IDLE, SPOOLING_UP => bool_decide (d = DESIRED_THROTTLE_UNLIMITED)
    | SPOOLING_UP, (SPOOLING_UP | THROTTLE_UNLIMITED) =>
        bool_decide (d = DESIRED_THROTTLE_UNLIMITED)
    | SPOOLING_UP, SPOOLING_DOWN =>
        bool_decide (d <> DESIRED_THROTTLE_UNLIMITED)
    | THROTTLE_UNLIMITED, THROTTLE_UNLIMITED =>
        bool_decide (d = DESIRED_THROTTLE_UNLIMITED)
    | THROTTLE_UNLIMITED, SPOOLING_DOWN =>
        bool_decide (d <> DESIRED_THROTTLE_UNLIMITED)
    | SPOOLING_DOWN, (SPOOLING_DOWN | GROUND_IDLE) =>
        bool_decide (d <> DESIRED_THROTTLE_UNLIMITED)
    | SPOOLING_DOWN, SPOOLING_UP =>
        bool_decide (d = DESIRED_THROTTLE_UNLIMITED)
    | _, _ => false
    end.

(** How far a state is from SHUT_DOWN along the graph. *)
Definition rank (s : SpoolState) : nat :=
  match s with
  | SHUT_DOWN => 0
  | GROUND_IDLE => 1
  | SPOOLING_UP | SPOOLING_DOWN => 2
  | THROTTLE_UNLIMITED => 3
  end.

(** A list of spool states is a path of the graph for some inputs. *)
Fixpoint is_path (l : list SpoolState) : Prop :=
  match l with
  | s :: (s' :: _) as l' => (exists ok d, spool_step ok d s s') /\ is_path l'
  | _ => True
  end.

(** The thrust ceiling respects the current limiter: the filter is within
    its range and the ceiling of the thrust does not exceed the limiter's. *)
Record limit_inv (m : Motors) : Prop := {
  inv_throttle_limit : 0.2 <= m.(throttle_limit) <= 1;
  inv_ceiling : m.(spool).(throttle_thrust_max) <= limit_ceiling m;
}.

(** ** Example environments and objects *)

(** The pilot asks for full authority; the battery has no current sensor. *)
Definition fly_env : Env :=
  mkEnv no_current_sensor true true DESIRED_THROTTLE_UNLIMITED false false true.

(** The pilot asks for a shut down while the vehicle stays armed. *)
Definition land_env : Env :=
  mkEnv no_current_sensor true true DESIRED_SHUT_DOWN false false true.

(** The vehicle is disarmed. *)
Definition disarm_env : Env :=
  mkEnv no_current_sensor false true DESIRED_SHUT_DOWN false false true.

(** An object whose ramps take a single tick: the period equals the
    shortest spool time. *)
Definition quick_motors : Motors :=
  set_spool_up_time minimum_spool_time
    (upd_inputs (fun i =>
       mkInputs i.(armed) i.(interlock) i.(spoolup_block) minimum_spool_time
         i.(throttle_in) i.(roll_in_ff) i.(pitch_in_ff) i.(yaw_in_ff)
         i.(external_limits) i.(micros)) init_motors).

#[export] Hint Constructors spool_step reachable : motors.

(** ** Lemmas *)

Lemma spool_stepb_spec ok d s s' :
  spool_stepb ok d s s' = true <-> spool_step ok d s s'.
Proof.
  split.
  - destruct ok, d, s, s'; cbn; intros H; try discriminate;
      by constructor.
  - destruct 1; cbn; rewrite ?bool_decide_eq_true; done.
Qed.

#[export] Instance spool_step_dec ok d s s' : Decision (spool_step ok d s s').
Proof.
  refine (cast_if (decide (spool_stepb ok d s s' = true)));
    by rewrite <- spool_stepb_spec.
Defined.

(** A step raises the rank by at most one, and lowers it by at most one
    while the vehicle stays armed and interlocked. *)
Lemma rank_step_up ok d s s' :
  spool_step ok d s s' -> (rank s' <= rank s + 1)%nat.
Proof. destruct 1; cbn; lia. Qed.

Lemma rank_step_down d s s' :
  spool_step true d s s' -> (rank s <= rank s' + 1)%nat.
Proof. inversion 1; cbn; lia. Qed.

Lemma run_app es es' m : run (es ++ es') m = run es' (run es m).
Proof. apply foldl_app. Qed.

Lemma run_snoc es e m : run (es ++ [e]) m = tick e (run es m).
Proof. by rewrite run_app. Qed.

(** The reachable states are the results of the runs. *)
Lemma reachable_run m0 m : reachable m0 m <-> exists es, m = run es m0.
Proof.
  split.
  - induction 1 as [|e m _ [es ->]]; [by exists []|].
    exists (es ++ [e]). by rewrite run_snoc.
  - intros [es ->]. induction es as [|e es IH] using rev_ind.
    + constructor.
    + rewrite run_snoc. by constructor.
Qed.

Lemma reachable_trans m0 m1 m2 :
  reachable m0 m1 -> reachable m1 m2 -> reachable m0 m2.
Proof. induction 2; eauto with motors. Qed.

(** The writes of the vehicle code keep the configuration and the
    invariant of the spool variables. *)
Lemma apply_env_config e m : config_ok m -> config_ok (apply_env e m).
Proof. by intros []. Qed.

Lemma apply_env_inv e m : spool_inv m -> spool_inv (apply_env e m).
Proof. by intros []. Qed.

Lemma apply_env_limit_inv e m : limit_inv m -> limit_inv (apply_env e m).
Proof. by intros []. Qed.

Lemma apply_env_state e m :
  (apply_env e m).(spool).(spool_state) = m.(spool).(spool_state).
Proof. done. Qed.

(** A tick keeps both. *)
Lemma tick_config e m : config_ok m -> config_ok (tick e m).
Proof. intros H. by apply output_logic_config, apply_env_config. Qed.

Lemma tick_inv e m : config_ok m -> spool_inv m -> spool_inv (tick e m).
Proof.
  intros Hc Hi. unfold tick, logic_tick. rewrite output_logic_eq.
  by apply spool_switch_inv, prologue_pre;
    [apply apply_env_config | apply apply_env_inv].
Qed.

(** The method follows an edge of the graph, whatever the state. *)
Lemma output_logic_step {battery : BattMonitor} m :
  spool_step (m.(inputs).(armed) && m.(inputs).(interlock))
    m.(spool).(spool_desired) m.(spool).(spool_state)
    (exec output_logic m).(spool).(spool_state).
Proof.
  unfold output_logic, logic_prologue, update_disarm_safe_timer,
    force_shut_down, clamp_spool_up_time.
  destruct (spool_state (spool m)) eqn:Hst, (spool_desired (spool m)) eqn:Hd;
    run_exec; rewrite ?Hst; cbn [spool_switch];
    unfold logic_shut_down, logic_ground_idle, ground_idle_ramp,
      logic_spooling_up, logic_throttle_unlimited, logic_spooling_down;
    run_exec; rewrite ?Hst, ?Hd in *;
    first [done | by constructor | by exfalso; eauto].
Qed.

Lemma tick_step e m :
  spool_step (e.(env_armed) && e.(env_interlock)) e.(env_desired)
    m.(spool).(spool_state) (tick e m).(spool).(spool_state).
Proof. apply (@output_logic_step e.(env_battery) (apply_env e m)). Qed.

Lemma run_rank es m :
  (rank (run es m).(spool).(spool_state)
   <= rank m.(spool).(spool_state) + length es)%nat.
Proof.
  induction es as [|e es IH] using rev_ind; [cbn; lia|].
  rewrite run_snoc, length_app. cbn.
  pose proof (rank_step_up _ _ _ _ (tick_step e (run es m))). lia.
Qed.

(** The prologue leaves the limiter and the thrust ceiling alone. *)
Lemma prologue_limit_inv m : limit_inv m -> limit_inv (exec logic_prologue m).
Proof.
  intros []. unfold logic_prologue, update_disarm_safe_timer,
    force_shut_down, clamp_spool_up_time.
  run_exec; split; done.
Qed.

(** Name the bound of every minimum in the hypotheses. *)
Ltac pose_mins :=
  repeat match goal with
  | H : context [MIN ?a ?b] |- _ =>
      lazymatch goal with
      | _ : MIN a b <= b |- _ => fail
      | _ => pose proof (MIN_le_r a b)
      end
  end.

(** Every case of the switch keeps the thrust ceiling at or below the
    ceiling of the limiter: it is zero or below a ceiling the limiter has
    just returned. *)
Lemma spool_switch_limit_inv {battery : BattMonitor} m :
  limit_inv m -> limit_inv (exec (spool_switch m.(spool).(spool_state)) m).
Proof.
  intros [Htl Hc]. pose proof (get_throttle_hover_bounds m) as Hh.
  destruct (spool_state (spool m)) eqn:Hst; cbn [spool_switch];
    unfold logic_shut_down, logic_ground_idle, ground_idle_ramp,
      logic_spooling_up, logic_throttle_unlimited, logic_spooling_down;
    run_exec_with (idtac; limit_call_ceiling); split;
    unfold limit_ceiling, get_throttle_hover, AP_MOTORS_THST_HOVER_MIN,
      AP_MOTORS_THST_HOVER_MAX in *;
    simpl_state; pose_mins; use_is_zero; try done; try lra; nra.
Qed.

Lemma tick_limit_inv e m : limit_inv m -> limit_inv (tick e m).
Proof.
  intros H. unfold tick, logic_tick. rewrite output_logic_eq.
  by apply spool_switch_limit_inv, prologue_limit_inv, apply_env_limit_inv.
Qed.

(** The configuration and the invariant hold along every run. *)
Lemma run_inv es m :
  config_ok m -> spool_inv m -> config_ok (run es m) /\ spool_inv (run es m).
Proof.
  intros Hc Hi. induction es as [|e es [IHc IHi]] using rev_ind; [done|].
  rewrite run_snoc. split; [by apply tick_config | by apply tick_inv].
Qed.

(** The step of the spin-up ramp is the same in every state of a run, and
    no tick raises the ramp by more. *)
Lemma run_ramp_step es m : ramp_step (run es m) = ramp_step m.
Proof.
  induction es as [|e es IH] using rev_ind; [done|].
  rewrite run_snoc, <- IH.
  apply (@output_logic_ramp_step e.(env_battery) (apply_env e (run es m))).
Qed.

Lemma tick_ratio_rate e m :
  config_ok m -> spool_inv m ->
  (tick e m).(spool).(spin_up_ratio)
  <= m.(spool).(spin_up_ratio) + ramp_step m.
Proof.
  intros Hc Hi.
  apply (@output_logic_ratio_rate e.(env_battery) (apply_env e m));
    [by apply apply_env_config | by apply apply_env_inv].
Qed.

(** A run of [n] ticks raises the spin-up ramp by at most [n] steps. *)
Lemma run_ratio_rate es m :
  config_ok m -> spool_inv m ->
  (run es m).(spool).(spin_up_ratio)
  <= m.(spool).(spin_up_ratio)
     + inject_Z (Z.of_nat (length es)) * ramp_step m.
Proof.
  intros Hc Hi. induction es as [|e es IH] using rev_ind.
  { change (inject_Z (Z.of_nat (length (@nil Env)))) with 0.
    change (run [] m) with m. lra. }
  destruct (run_inv es m Hc Hi) as [Hc' Hi'].
  pose proof (tick_ratio_rate e (run es m) Hc' Hi') as Ht.
  rewrite run_ramp_step in Ht.
  rewrite run_snoc, length_app, Nat.add_1_r, Qnat_S. lra.
Qed.

(** ** Theorems *)

(** C5: [output_logic] refines the transition graph of the specification:
    in every state and for every input, the spool state after the tick is
    one the graph allows from the state before it, under the arming inputs
    and the desired state of this tick. *)
Theorem output_logic_refines {battery : BattMonitor} (m : Motors) :
  spool_stepb (m.(inputs).(armed) && m.(inputs).(interlock))
    m.(spool).(spool_desired) m.(spool).(spool_state)
    (exec output_logic m).(spool).(spool_state) = true.
Proof. apply spool_stepb_spec, output_logic_step. Qed.

(** C11: the invariant holds in every reachable state: from a well-formed
    configuration and a state that satisfies [spool_inv], every state a
    run reaches, whatever the environment does between and during the
    ticks, is well-formed and satisfies [spool_inv]. *)
Theorem reachable_spool_inv (m0 m : Motors) :
  config_ok m0 -> spool_inv m0 -> reachable m0 m ->
  config_ok m /\ spool_inv m.
Proof.
  intros Hc Hi. induction 1 as [|e m _ [IHc IHi]]; [done|].
  split; [by apply tick_config | by apply tick_inv].
Qed.

(** The spool states of a run form a path of the graph. *)
Theorem trace_is_path (es : list Env) (m : Motors) : is_path (trace es m).
Proof.
  revert m. induction es as [|e es IH]; intros m; [done|].
  cbn [trace]. specialize (IH (tick e m)).
  destruct es; (split; [|exact IH]); eauto using tick_step.
Qed.

(** Full throttle authority is at least three ticks away from
    SHUT_DOWN: a run that starts in SHUT_DOWN and ends in
    THROTTLE_UNLIMITED has passed through GROUND_IDLE and SPOOLING_UP. *)
Theorem unlimited_needs_three_ticks (es : list Env) (m : Motors) :
  m.(spool).(spool_state) = SHUT_DOWN ->
  (run es m).(spool).(spool_state) = THROTTLE_UNLIMITED ->
  (3 <= length es)%nat.
Proof.
  intros H0 H1. pose proof (run_rank es m) as H.
  rewrite H0, H1 in H. cbn in H. lia.
Qed.

(** While the vehicle stays armed and interlocked the motors are not
    stopped at once: a run from THROTTLE_UNLIMITED to SHUT_DOWN in which
    every tick is armed and interlocked takes at least three ticks. *)
Theorem shut_down_needs_three_ticks (es : list Env) (m : Motors) :
  Forall (fun e => e.(env_armed) && e.(env_interlock) = true) es ->
  m.(spool).(spool_state) = THROTTLE_UNLIMITED ->
  (run es m).(spool).(spool_state) = SHUT_DOWN ->
  (3 <= length es)%nat.
Proof.
  intros Hok H0 H1.
  assert (rank m.(spool).(spool_state)
          <= rank (run es m).(spool).(spool_state) + length es)%nat as H.
  { clear H0 H1. induction es as [|e es IH] using rev_ind; [cbn; lia|].
    apply Forall_app in Hok as [Hes [He _]%Forall_cons].
    rewrite run_snoc, length_app. cbn.
    pose proof (tick_step e (run es m)) as Hs. rewrite He in Hs.
    apply rank_step_down in Hs. specialize (IH Hes). lia. }
  rewrite H0, H1 in H. cbn in H. lia.
Qed.

(** C12: thrust is never available sooner than the spool-up time after a shut
    down, whatever the vehicle code and the battery do in between: a run
    that starts in SHUT_DOWN and ends in a flying state (SPOOLING_UP,
    THROTTLE_UNLIMITED or SPOOLING_DOWN) has lasted at least the spool-up
    time, taken as at least [minimum_spool_time]. *)
Theorem spool_up_not_before (es : list Env) (m : Motors) :
  config_ok m -> spool_inv m ->
  m.(spool).(spool_state) = SHUT_DOWN ->
  flying (run es m).(spool).(spool_state) = true ->
  MAX minimum_spool_time m.(params).(spool_up_time)
  <= inject_Z (Z.of_nat (length es)) * m.(inputs).(dt_s).
Proof.
  intros Hc Hi H0 H1. pose proof (run_ratio_rate es m Hc Hi) as Hr.
  destruct (run_inv es m Hc Hi) as [_ Hi'].
  rewrite (inv_flying _ Hi' H1) in Hr.
  destruct (inv_shut_down _ Hi H0) as [Hz _]. rewrite Hz in Hr.
  pose proof (MAX_ge_l minimum_spool_time m.(params).(spool_up_time)) as Hm.
  unfold ramp_step, minimum_spool_time in *.
  set (T := MAX _ _) in *. set (n := inject_Z _) in *.
  assert (n * dt_s (inputs m) == n * (dt_s (inputs m) / T) * T) as ->
    by (field; lra).
  nra.
Qed.

(** C10: the thrust ceiling respects the current limiter in every reachable
    state: the filter of the limiter stays within 0.2..1 and
    [throttle_thrust_max] never exceeds the ceiling the limiter allows at
    the present state of its filter. *)
Theorem reachable_limit_inv (m0 m : Motors) :
  limit_inv m0 -> reachable m0 m -> limit_inv m.
Proof. intros H0. induction 1; [done|]. by apply tick_limit_inv. Qed.

(** ** Witnesses *)

Lemma init_limit_inv : limit_inv init_motors.
Proof. split; by vm_compute. Qed.

Lemma reachable_spool_inv_witness :
  config_ok (run [fly_env; fly_env; land_env] init_motors)
  /\ spool_inv (run [fly_env; fly_env; land_env] init_motors).
Proof.
  apply (reachable_spool_inv init_motors);
    [apply init_config_ok | apply init_spool_inv |].
  apply reachable_run. by eexists.
Defined.

Lemma unlimited_needs_three_ticks_witness :
  (3 <= length [fly_env; fly_env; fly_env])%nat.
Proof.
  apply (unlimited_needs_three_ticks _ quick_motors); by vm_compute.
Defined.

Lemma shut_down_needs_three_ticks_witness :
  (3 <= length [land_env; land_env; land_env])%nat.
Proof.
  apply (shut_down_needs_three_ticks _
           (run [fly_env; fly_env; fly_env] quick_motors));
    [by repeat constructor | by vm_compute | by vm_compute].
Defined.

Lemma quick_config_ok : config_ok quick_motors.
Proof. split; by vm_compute. Qed.

Lemma quick_spool_inv : spool_inv quick_motors.
Proof. split; by vm_compute. Qed.

Lemma spool_up_not_before_witness :
  MAX minimum_spool_time quick_motors.(params).(spool_up_time)
  <= inject_Z (Z.of_nat (length [fly_env; fly_env])) * quick_motors.(inputs).(dt_s).
Proof.
  apply (spool_up_not_before [fly_env; fly_env] quick_motors);
    [apply quick_config_ok | apply quick_spool_inv | done | by vm_compute].
Defined.

Lemma reachable_limit_inv_witness :
  limit_inv (run [fly_env; fly_env; land_env] init_motors).
Proof.
  apply (reachable_limit_inv init_motors); [apply init_limit_inv|].
  apply reachable_run. by eexists.
Defined.

