(* ===== verification/SpoolLiveness.v ===== *)
(** * Progress of the spool state machine

    Under steady inputs the machine arrives: with full authority requested
    it goes from SHUT_DOWN through GROUND_IDLE and SPOOLING_UP to
    THROTTLE_UNLIMITED and stays there; with a shut down requested it goes
    from THROTTLE_UNLIMITED through SPOOLING_DOWN and GROUND_IDLE to
    SHUT_DOWN.  Each phase has a measure (the time left on the safety
    timer, the distance of a ramp from its end) that every tick lowers by a
    fixed step, so that the number of ticks of the phase is bounded by
    [ticks_for].  The bounds are not fuel: the theorems state that the
    target is reached within them.

    The phases are proved for the method ([logic_tick]) and carried over
    to every system that runs the method once per tick ([TickOf]): the
    spool logic on its own ([tick]) and, in [Flight], the whole vehicle.
    What the system may do around the method is given by a relation on
    objects, [logic_eq] for the way up and [limiter_eq] for the way down,
    under which the inputs, the invariants and the measures of the phases
    are stable. *)

From Stdlib Require Import QArith ZArith Lqa Lia.
From stdpp Require Import base decidable option list.
From S2P Require Import Prelude State CurrentLimit SpoolLogic SpoolSpec.

#[local] Open Scope state_scope.

(** ** Definitions *)

(** The inputs during a spool-up: armed, interlocked, full authority
    requested and not blocked. *)
Record spooling_up_inputs (m : Motors) : Prop := {
  up_armed : m.(inputs).(armed) = true;
  up_interlock : m.(inputs).(interlock) = true;
  up_desired : m.(spool).(spool_desired) = DESIRED_THROTTLE_UNLIMITED;
  up_block : m.(inputs).(spoolup_block) = false;
}.

(** The inputs during a spool-down: armed, interlocked, and full authority
    no longer requested. *)
Record spooling_down_inputs (m : Motors) : Prop := {
  down_armed : m.(inputs).(armed) = true;
  down_interlock : m.(inputs).(interlock) = true;
  down_desired : m.(spool).(spool_desired) <> DESIRED_THROTTLE_UNLIMITED;
}.

(** An environment that keeps asking for full authority, and one that keeps
    asking for a shut down of the armed vehicle. *)
Definition flies (e : Env) : Prop :=
  e.(env_armed) = true /\ e.(env_interlock) = true
  /\ e.(env_desired) = DESIRED_THROTTLE_UNLIMITED
  /\ e.(env_spoolup_block) = false.

Definition lands (e : Env) : Prop :=
  e.(env_armed) = true /\ e.(env_interlock) = true
  /\ e.(env_desired) = DESIRED_SHUT_DOWN.

(** [n] ticks in the same environment. *)
Definition steady (e : Env) (n : nat) : Motors -> Motors :=
  iter_n n (tick e).

(** The measures of the phases. *)
Definition timer_left (m : Motors) : Q :=
  m.(params).(safe_time) - m.(spool).(disarm_safe_timer).

Definition ratio_left (m : Motors) : Q := 1 - m.(spool).(spin_up_ratio).

Definition thrust_left (m : Motors) : Q :=
  1 - m.(spool).(throttle_thrust_max).

(** The thrust ceiling and the spin-up ramp, the measures of the way
    down. *)
Definition thrust_max_of (m : Motors) : Q := m.(spool).(throttle_thrust_max).

Definition ratio_of (m : Motors) : Q := m.(spool).(spin_up_ratio).

(** A state of a run from [m0] in the spool state [s]: the parameters, the
    spin range and the period are those of [m0] and the invariant of the
    spool variables holds. *)
Record phase (m0 : Motors) (s : SpoolState) (m : Motors) : Prop := {
  phase_params : m.(params) = m0.(params);
  phase_spin_min : m.(thr_lin).(spin_min) = m0.(thr_lin).(spin_min);
  phase_spin_max : m.(thr_lin).(spin_max) = m0.(thr_lin).(spin_max);
  phase_dt : m.(inputs).(dt_s) = m0.(inputs).(dt_s);
  phase_inv : spool_inv m;
  phase_state : m.(spool).(spool_state) = s;
}.

(** The same with the invariant of the limiter, which the way down
    needs. *)
Definition limited (m0 : Motors) (s : SpoolState) (m : Motors) : Prop :=
  phase m0 s m /\ limit_inv m.

(** The inputs during a landing: those of a spool-down, with a shut down
    requested. *)
Definition landing_inputs (m : Motors) : Prop :=
  spooling_down_inputs m
  /\ m.(spool).(spool_desired) = DESIRED_SHUT_DOWN.

(** What the spool logic reads of the object, the limiter apart: two
    objects with the same parameters, inputs, spool variables and spin
    range. *)
Record logic_eq (m m' : Motors) : Prop := {
  eq_params : m'.(params) = m.(params);
  eq_inputs : m'.(inputs) = m.(inputs);
  eq_spool : m'.(spool) = m.(spool);
  eq_spin_min : m'.(thr_lin).(spin_min) = m.(thr_lin).(spin_min);
  eq_spin_max : m'.(thr_lin).(spin_max) = m.(thr_lin).(spin_max);
}.

(** The same, and the same state of the limiter. *)
Definition limiter_eq (m m' : Motors) : Prop :=
  logic_eq m m' /\ m'.(throttle_limit) = m.(throttle_limit).

(** A system that holds the object and runs the spool logic once in each
    of its ticks: after the writes of the environment it runs
    [output_logic] on an object that [R] relates to its own, and it
    leaves an object that [R] relates to the one the method leaves. *)
Class TickOf (R : relation Motors) {S : Type} (motors_of : S -> Motors)
    (step : Env -> S -> S) : Prop :=
  tick_of e s : exists m1,
    R (apply_env e (motors_of s)) m1
    /\ R (@logic_tick e.(env_battery) m1) (motors_of (step e s)).

(** The ticks a spool-up takes at most: the rest of the safety timer and
    the two ramps, and one tick for each transition. *)
Definition spool_up_bound (m : Motors) : nat :=
  S (ticks_for (timer_left m) m.(inputs).(dt_s))
  + S (ticks_for 1 (spool_up_step m))
  + S (ticks_for 1 (spool_up_step m)).

(** The ticks a spool-down takes at most: one to leave THROTTLE_UNLIMITED
    and the two ramps. *)
Definition spool_down_bound (m : Motors) : nat :=
  1 + S (ticks_for 1 (spool_down_step m))
  + S (ticks_for 1 (spool_down_step m)).

(** The scenario of a cold start: armed and interlocked after
    construction, half throttle, a period of 2.5 ms and a spool-up time of
    half a second. *)
Definition cold_start : Motors := armed_motors.

(** ** Tactics *)

Ltac unfold_logic :=
  unfold output_logic, logic_prologue, update_disarm_safe_timer,
    force_shut_down, clamp_spool_up_time.

(** The case of the switch a tick runs, once the prologue is through. *)
Tactic Notation "run_case" hyp(Hst) reference(def) :=
  unfold_logic; run_exec; rewrite ?Hst; cbn [spool_switch]; unfold def;
  autounfold with motors.

(** A tick either arrives or stays with a lower measure. *)
Ltac close_step :=
  first [ by left | by exfalso; eauto | exfalso; lra
        | right; repeat split; try done; lra ].

(** The order of the ceilings of two calls of the limiter in a row. *)
Ltac pose_twice :=
  try match goal with
  | _ : context [limit_ceiling (set_throttle_limit
        (next_throttle_limit (set_throttle_limit
           (next_throttle_limit (set_throttle_limit ?tl ?m) ?i) ?m) ?i)
        ?m)] |- _ =>
      destruct (limit_ceiling_twice m i tl ltac:(done))
  | |- context [limit_ceiling (set_throttle_limit
        (next_throttle_limit (set_throttle_limit
           (next_throttle_limit (set_throttle_limit ?tl ?m) ?i) ?m) ?i)
        ?m)] =>
      destruct (limit_ceiling_twice m i tl ltac:(done))
  end.

(** ** Lemmas: one tick of each phase *)

Section Ticks.

Context {battery : BattMonitor}.
Implicit Types m : Motors.

(** Without the clamp of the spool-up time the method leaves the
    parameters alone. *)
Lemma output_logic_params m :
  minimum_spool_time <= m.(params).(spool_up_time) ->
  (exec output_logic m).(params) = m.(params).
Proof.
  intros Hmin. rewrite output_logic_eq.
  destruct (spool_switch_frame
              (exec logic_prologue m).(spool).(spool_state)
              (exec logic_prologue m)) as (_ & -> & _).
  unfold logic_prologue, update_disarm_safe_timer, force_shut_down,
    clamp_spool_up_time.
  run_exec; done || lra.
Qed.

Lemma output_logic_frame m :
  (exec output_logic m).(thr_lin) = m.(thr_lin)
  /\ (exec output_logic m).(inputs) = m.(inputs).
Proof.
  rewrite output_logic_eq.
  destruct (spool_switch_frame
              (exec logic_prologue m).(spool).(spool_state)
              (exec logic_prologue m)) as (-> & _ & -> & _).
  destruct (prologue_frame m) as (-> & -> & _). done.
Qed.

(** SHUT_DOWN: the machine leaves, or the safety timer advances by the
    period and has not reached [safe_time]. *)
Lemma shut_down_tick m :
  spooling_up_inputs m -> m.(spool).(spool_state) = SHUT_DOWN ->
  let m' := exec output_logic m in
  m'.(spool).(spool_state) = GROUND_IDLE
  \/ (m'.(spool).(spool_state) = SHUT_DOWN
      /\ m'.(spool).(disarm_safe_timer)
         = m.(spool).(disarm_safe_timer) + m.(inputs).(dt_s)
      /\ m'.(spool).(disarm_safe_timer) < m.(params).(safe_time)).
Proof.
  intros [Ha Hi Hd Hb] Hst. run_case Hst logic_shut_down;
    run_exec; rewrite ?Hd in *; try done; close_step.
Qed.

(** GROUND_IDLE on the way up: the machine leaves, or the spin-up ramp
    advances by its step and has not reached 1. *)
Lemma ground_idle_tick m :
  spooling_up_inputs m -> m.(spool).(spool_state) = GROUND_IDLE ->
  minimum_spool_time <= m.(params).(spool_up_time) ->
  let m' := exec output_logic m in
  m'.(spool).(spool_state) = SPOOLING_UP
  \/ (m'.(spool).(spool_state) = GROUND_IDLE
      /\ m'.(spool).(spin_up_ratio)
         = m.(spool).(spin_up_ratio) + spool_up_step m
      /\ m'.(spool).(spin_up_ratio) < 1).
Proof.
  intros [Ha Hi Hd Hb] Hst Hmin.
  run_case Hst logic_ground_idle; unfold ground_idle_ramp;
    autounfold with motors; run_exec; rewrite ?Hd, ?Hst in *; try done;
    try lra; close_step.
Qed.

(** SPOOLING_UP: the machine arrives, or the thrust ceiling advances by
    its step and has not reached 1. *)
Lemma spooling_up_tick m :
  spooling_up_inputs m -> m.(spool).(spool_state) = SPOOLING_UP ->
  minimum_spool_time <= m.(params).(spool_up_time) ->
  0 < m.(inputs).(dt_s) -> 0 <= m.(spool).(throttle_thrust_max) ->
  let m' := exec output_logic m in
  m'.(spool).(spool_state) = THROTTLE_UNLIMITED
  \/ (m'.(spool).(spool_state) = SPOOLING_UP
      /\ m'.(spool).(throttle_thrust_max)
         = m.(spool).(throttle_thrust_max) + spool_up_step m
      /\ m'.(spool).(throttle_thrust_max) < 1).
Proof.
  intros [Ha Hi Hd Hb] Hst Hmin Hdt Htm. run_case Hst logic_spooling_up;
    run_exec; rewrite ?Hd in *; try done; try lra;
    pose_mins; pose_steps; close_step.
Qed.

(** THROTTLE_UNLIMITED: the machine stays while full authority is
    requested. *)
Lemma unlimited_tick m :
  spooling_up_inputs m -> m.(spool).(spool_state) = THROTTLE_UNLIMITED ->
  (exec output_logic m).(spool).(spool_state) = THROTTLE_UNLIMITED.
Proof.
  intros [Ha Hi Hd Hb] Hst. run_case Hst logic_throttle_unlimited;
    run_exec; rewrite ?Hd in *; done.
Qed.

(** THROTTLE_UNLIMITED: the machine leaves at once when full authority is
    no longer requested. *)
Lemma unlimited_down_tick m :
  spooling_down_inputs m -> m.(spool).(spool_state) = THROTTLE_UNLIMITED ->
  (exec output_logic m).(spool).(spool_state) = SPOOLING_DOWN.
Proof.
  intros [Ha Hi Hd] Hst. run_case Hst logic_throttle_unlimited;
    run_exec; done.
Qed.

(** SHUT_DOWN: the machine stays while a shut down is requested. *)
Lemma shut_down_stay_tick m :
  m.(spool).(spool_desired) = DESIRED_SHUT_DOWN ->
  m.(spool).(spool_state) = SHUT_DOWN ->
  (exec output_logic m).(spool).(spool_state) = SHUT_DOWN.
Proof.
  intros Hd Hst. run_case Hst logic_shut_down;
    run_exec; rewrite ?Hd in *; done.
Qed.

(** SPOOLING_DOWN: the machine arrives at GROUND_IDLE, or the thrust
    ceiling falls by at least its step: by the step itself, or to a
    ceiling of the limiter that is lower still. *)
Lemma spooling_down_tick m :
  spooling_down_inputs m -> m.(spool).(spool_state) = SPOOLING_DOWN ->
  minimum_spool_time <= m.(params).(spool_up_time) ->
  0 < m.(inputs).(dt_s) -> limit_inv m ->
  let m' := exec output_logic m in
  m'.(spool).(spool_state) = GROUND_IDLE
  \/ (m'.(spool).(spool_state) = SPOOLING_DOWN
      /\ 0 <= m'.(spool).(throttle_thrust_max)
         <= m.(spool).(throttle_thrust_max) - spool_down_step m).
Proof.
  intros [Ha Hi Hd] Hst Hmin Hdt [Htl Hc].
  pose proof (limit_ceiling_bounds m _ Htl) as Hb.
  pose proof (min_ceiling_bounds m) as Hm.
  rewrite limit_ceiling_same in Hb.
  unfold AP_MOTORS_THST_HOVER_MIN in Hm.
  pose proof FLT_EPSILON_pos.
  destruct (limiter_cases m) as [Hidle | [i Hact]].
  - run_case Hst logic_spooling_down;
      run_exec_with (idtac; limit_call_idle); rewrite ?Hst; try done;
      try lra; pose_steps; use_is_zero; close_step.
  - run_case Hst logic_spooling_down;
      run_exec_with (idtac; limit_call_active); rewrite ?Hst; try done;
      try lra; pose_steps; use_is_zero; rewrite ?limit_ceiling_same in *;
      pose_ceilings; pose_twice; rewrite ?limit_ceiling_same in *;
      close_step.
Qed.

(** GROUND_IDLE on the way down: the machine arrives at SHUT_DOWN, or the
    spin-up ramp falls by its step and is still positive. *)
Lemma ground_idle_down_tick m :
  spooling_down_inputs m ->
  m.(spool).(spool_desired) = DESIRED_SHUT_DOWN ->
  m.(spool).(spool_state) = GROUND_IDLE ->
  minimum_spool_time <= m.(params).(spool_up_time) ->
  let m' := exec output_logic m in
  m'.(spool).(spool_state) = SHUT_DOWN
  \/ (m'.(spool).(spool_state) = GROUND_IDLE
      /\ m'.(spool).(spin_up_ratio)
         = m.(spool).(spin_up_ratio) - spool_down_step m
      /\ 0 < m'.(spool).(spin_up_ratio)).
Proof.
  intros [Ha Hi _] Hd Hst Hmin.
  run_case Hst logic_ground_idle; unfold ground_idle_ramp;
    autounfold with motors; run_exec; rewrite ?Hd, ?Hst in *; try done;
    try lra; close_step.
Qed.

End Ticks.

(** ** Lemmas: the phases of a run *)

Lemma flies_inputs e m : flies e -> spooling_up_inputs (apply_env e m).
Proof. by intros (? & ? & ? & ?). Qed.

Lemma lands_inputs e m : lands e -> landing_inputs (apply_env e m).
Proof. intros (? & ? & Hd). split; [split|]; try done. cbn. by rewrite Hd. Qed.

Lemma steady_S e n m : steady e (S n) m = steady e n (tick e m).
Proof. done. Qed.

Lemma steady_add e n k m :
  steady e (n + k) m = steady e k (steady e n m).
Proof. apply iter_n_add. Qed.

(** The relations are equivalences, and what the phases speak of does not
    tell related objects apart. *)
#[export] Instance logic_eq_equiv : Equivalence logic_eq.
Proof.
  split.
  - by split.
  - intros m m' []. by split.
  - intros a b c [] []. split; congruence.
Qed.

#[export] Instance limiter_eq_equiv : Equivalence limiter_eq.
Proof.
  split.
  - by split.
  - intros m m' [? ?]. by split.
  - intros a b c [? ?] [? ?]. split; [by etrans | congruence].
Qed.

#[export] Instance limiter_logic_eq : subrelation limiter_eq logic_eq.
Proof. by intros m m' []. Qed.

#[export] Instance up_inputs_proper :
  Proper (logic_eq ==> impl) spooling_up_inputs.
Proof. intros m m' [_ Hi Hs _ _] []. split; rewrite ?Hi, ?Hs; done. Qed.

#[export] Instance landing_inputs_proper :
  Proper (limiter_eq ==> impl) landing_inputs.
Proof.
  intros m m' [[_ Hi Hs _ _] _] [[] ?]. split; [split|]; rewrite ?Hi, ?Hs; done.
Qed.

#[export] Instance config_ok_proper : Proper (logic_eq ==> impl) config_ok.
Proof.
  intros m m' [Hp Hi _ Hlo Hhi] []. split; rewrite ?Hp, ?Hi, ?Hlo, ?Hhi; done.
Qed.

#[export] Instance spool_inv_proper : Proper (logic_eq ==> impl) spool_inv.
Proof. intros m m' [Hp Hi Hs _ _] []. split; rewrite ?Hp, ?Hi, ?Hs; done. Qed.

#[export] Instance phase_proper m0 s : Proper (logic_eq ==> impl) (phase m0 s).
Proof.
  intros m m' E [Hp Hlo Hhi Hd Hinv Hst].
  pose proof (spool_inv_proper _ _ E Hinv). destruct E as [Ep Ei Es Elo Ehi].
  split; rewrite ?Ep, ?Ei, ?Es, ?Elo, ?Ehi; done.
Qed.

#[export] Instance limit_inv_proper : Proper (limiter_eq ==> impl) limit_inv.
Proof.
  intros m m' [[Hp _ Hs _ _] Hl] [Htl Hc].
  split; rewrite ?Hl, ?Hs; [done|].
  unfold limit_ceiling, get_throttle_hover in *. by rewrite Hl, Hp.
Qed.

#[export] Instance limited_proper m0 s :
  Proper (limiter_eq ==> impl) (limited m0 s).
Proof.
  intros m m' E [Hph Hl]. split.
  - by apply (phase_proper m0 s m m' (limiter_logic_eq _ _ E)).
  - by apply (limit_inv_proper m m' E).
Qed.

(** The writes of the environment keep the phase. *)
Lemma apply_env_phase m0 e s m : phase m0 s m -> phase m0 s (apply_env e m).
Proof. intros []. split; try done. by apply apply_env_inv. Qed.

Lemma apply_env_limited m0 e s m :
  limited m0 s m -> limited m0 s (apply_env e m).
Proof.
  intros []. split; [by apply apply_env_phase | by apply apply_env_limit_inv].
Qed.

(** *** One tick of the method in each phase *)

Section Phases.

Context {battery : BattMonitor} (m0 : Motors).
Context (Hc0 : config_ok m0).
Context (Hmin : minimum_spool_time <= m0.(params).(spool_up_time)).
Implicit Types m : Motors.

Lemma phase_config s m : phase m0 s m -> config_ok m.
Proof.
  intros [Hp Hlo Hhi Hd _ _]. destruct Hc0.
  split; rewrite ?Hp, ?Hlo, ?Hhi, ?Hd; done.
Qed.

Lemma phase_start : spool_inv m0 -> phase m0 m0.(spool).(spool_state) m0.
Proof. by split. Qed.

Lemma phase_min s m :
  phase m0 s m -> minimum_spool_time <= m.(params).(spool_up_time).
Proof. intros []. congruence. Qed.

Lemma phase_dt_pos s m : phase m0 s m -> 0 < m.(inputs).(dt_s).
Proof. intros Hph. by destruct (phase_config _ _ Hph). Qed.

Lemma phase_up_step s m : phase m0 s m -> spool_up_step m = spool_up_step m0.
Proof. intros []. unfold spool_up_step. congruence. Qed.

Lemma phase_down_step s m :
  phase m0 s m -> spool_down_step m = spool_down_step m0.
Proof.
  intros [Hp _ _ Hd _ _]. unfold spool_down_step, spool_down_effective.
  by rewrite Hp, Hd.
Qed.

Lemma up_step_pos : 0 < spool_up_step m0.
Proof.
  destruct Hc0. apply Qdiv_pos; unfold minimum_spool_time in *; lra.
Qed.

Lemma down_step_pos : 0 < spool_down_step m0.
Proof.
  destruct Hc0. unfold spool_down_step, spool_down_effective.
  apply Qdiv_pos; [done|]. case_decide; unfold minimum_spool_time in *; lra.
Qed.

(** The method keeps the invariants of a phase. *)
Lemma logic_phase s s' m :
  phase m0 s m -> (logic_tick m).(spool).(spool_state) = s' ->
  phase m0 s' (logic_tick m).
Proof.
  intros Hph Hs'. pose proof (phase_config _ _ Hph) as Hc.
  destruct Hph as [Hp Hlo Hhi Hd Hi Hs]. unfold logic_tick in *.
  destruct (output_logic_frame m) as [Hf Hg].
  split; rewrite ?Hf, ?Hg; try done.
  - rewrite <- Hp. apply output_logic_params. by rewrite Hp.
  - rewrite output_logic_eq. by apply spool_switch_inv, prologue_pre.
Qed.

Lemma logic_limited s s' m :
  limited m0 s m -> (logic_tick m).(spool).(spool_state) = s' ->
  limited m0 s' (logic_tick m).
Proof.
  intros [Hph Hl] Hs'. split; [by eapply logic_phase|].
  unfold logic_tick. rewrite output_logic_eq.
  by apply spool_switch_limit_inv, prologue_limit_inv.
Qed.

(** One tick of each phase, in terms of its measure. *)
Lemma shut_down_progress m :
  spooling_up_inputs m -> phase m0 SHUT_DOWN m ->
  phase m0 GROUND_IDLE (logic_tick m)
  \/ (phase m0 SHUT_DOWN (logic_tick m)
      /\ 0 <= timer_left (logic_tick m)
         <= timer_left m - m0.(inputs).(dt_s)).
Proof.
  intros Hin Hph.
  destruct (shut_down_tick m) as [Hg | (Hs & Ht & Hlt)];
    [done | apply Hph | left | right];
    [by eapply logic_phase | split; [by eapply logic_phase|]].
  pose proof (logic_phase _ _ m Hph Hs) as [Hp' _ _ _ _ _].
  destruct Hph as [Hp _ _ Hd _ _]. unfold timer_left, logic_tick in *.
  rewrite Hp', <- Hp, <- Hd. rewrite Ht in *. lra.
Qed.

Lemma ground_idle_progress m :
  spooling_up_inputs m -> phase m0 GROUND_IDLE m ->
  phase m0 SPOOLING_UP (logic_tick m)
  \/ (phase m0 GROUND_IDLE (logic_tick m)
      /\ 0 <= ratio_left (logic_tick m) <= ratio_left m - spool_up_step m0).
Proof.
  intros Hin Hph.
  destruct (ground_idle_tick m) as [Hg | (Hs & Ht & Hlt)];
    [done | apply Hph | apply (phase_min _ _ Hph) | left | right];
    [by eapply logic_phase | split; [by eapply logic_phase|]].
  rewrite <- (phase_up_step _ _ Hph). unfold ratio_left, logic_tick in *.
  rewrite Ht in *. lra.
Qed.

Lemma spooling_up_progress m :
  spooling_up_inputs m -> phase m0 SPOOLING_UP m ->
  phase m0 THROTTLE_UNLIMITED (logic_tick m)
  \/ (phase m0 SPOOLING_UP (logic_tick m)
      /\ 0 <= thrust_left (logic_tick m) <= thrust_left m - spool_up_step m0).
Proof.
  intros Hin Hph.
  destruct (spooling_up_tick m) as [Hg | (Hs & Ht & Hlt)];
    [done | apply Hph | apply (phase_min _ _ Hph)
    | apply (phase_dt_pos _ _ Hph) | apply Hph | left | right];
    [by eapply logic_phase | split; [by eapply logic_phase|]].
  rewrite <- (phase_up_step _ _ Hph). unfold thrust_left, logic_tick in *.
  rewrite Ht in *. lra.
Qed.

Lemma unlimited_stays m :
  spooling_up_inputs m -> phase m0 THROTTLE_UNLIMITED m ->
  phase m0 THROTTLE_UNLIMITED (logic_tick m).
Proof.
  intros Hin Hph. eapply logic_phase; [done|].
  by apply unlimited_tick; [|apply Hph].
Qed.

Lemma unlimited_leaves m :
  landing_inputs m -> limited m0 THROTTLE_UNLIMITED m ->
  limited m0 SPOOLING_DOWN (logic_tick m).
Proof.
  intros [Hin _] Hph. eapply logic_limited; [done|].
  by apply unlimited_down_tick; [|apply Hph].
Qed.

Lemma spooling_down_progress m :
  landing_inputs m -> limited m0 SPOOLING_DOWN m ->
  limited m0 GROUND_IDLE (logic_tick m)
  \/ (limited m0 SPOOLING_DOWN (logic_tick m)
      /\ 0 <= thrust_max_of (logic_tick m)
         <= thrust_max_of m - spool_down_step m0).
Proof.
  intros [Hin _] [Hph Hl].
  destruct (spooling_down_tick m) as [Hg | (Hs & Ht)];
    [done | apply Hph | apply (phase_min _ _ Hph)
    | apply (phase_dt_pos _ _ Hph) | done | left | right];
    [by eapply logic_limited | split; [by eapply logic_limited|]].
  by rewrite <- (phase_down_step _ _ Hph).
Qed.

Lemma ground_idle_down_progress m :
  landing_inputs m -> limited m0 GROUND_IDLE m ->
  limited m0 SHUT_DOWN (logic_tick m)
  \/ (limited m0 GROUND_IDLE (logic_tick m)
      /\ 0 <= ratio_of (logic_tick m) <= ratio_of m - spool_down_step m0).
Proof.
  intros [Hin Hd] [Hph Hl].
  destruct (ground_idle_down_tick m) as [Hg | (Hs & Ht & Hlt)];
    [done | done | apply Hph | apply (phase_min _ _ Hph) | left | right];
    [by eapply logic_limited | split; [by eapply logic_limited|]].
  rewrite <- (phase_down_step _ _ Hph). unfold ratio_of, logic_tick in *.
  rewrite Ht in *. lra.
Qed.

Lemma shut_down_stays m :
  landing_inputs m -> limited m0 SHUT_DOWN m ->
  limited m0 SHUT_DOWN (logic_tick m).
Proof.
  intros [_ Hd] Hph. eapply logic_limited; [done|].
  by apply shut_down_stay_tick; [|apply Hph].
Qed.

End Phases.

(** *** The ticks of a system that runs the method *)

Section Run.

Context (R : relation Motors) {S : Type} (motors_of : S -> Motors).
Context (step : Env -> S -> S) `{!TickOf R motors_of step}.
Context (inp Inv Goal : Motors -> Prop).
Context `{Hinp_R : !Proper (R ==> impl) inp}.
Context `{HInv_R : !Proper (R ==> impl) Inv}.
Context `{HGoal_R : !Proper (R ==> impl) Goal}.
Context (e : Env) (Hinp : forall m, inp (apply_env e m)).
Context (Henv : forall m, Inv m -> Inv (apply_env e m)).

(** What the method does for every object of [Inv] under the inputs
    [inp], the tick of the system does for the object it holds. *)
Lemma step_arrives x :
  (forall m, inp m -> Inv m -> Goal (@logic_tick e.(env_battery) m)) ->
  Inv (motors_of x) -> Goal (motors_of (step e x)).
Proof.
  intros Hstep Hx. destruct (tick_of e x) as (m1 & H1 & H2).
  eapply HGoal_R; [exact H2|]. apply Hstep.
  - eapply Hinp_R; [exact H1 | apply Hinp].
  - eapply HInv_R; [exact H1 | by apply Henv].
Qed.

Context (mu : Motors -> Q) (d : Q).
Context (Hmu : forall m m', R m m' -> mu m' = mu m).
Context (Hmu_env : forall m, mu (apply_env e m) = mu m).
Context (Hprogress : forall m, inp m -> Inv m ->
  Goal (@logic_tick e.(env_battery) m)
  \/ (Inv (@logic_tick e.(env_battery) m)
      /\ 0 <= mu (@logic_tick e.(env_battery) m) <= mu m - d)).

Lemma step_progress x :
  Inv (motors_of x) ->
  Goal (motors_of (step e x))
  \/ (Inv (motors_of (step e x))
      /\ 0 <= mu (motors_of (step e x)) <= mu (motors_of x) - d).
Proof.
  intros Hx. destruct (tick_of e x) as (m1 & H1 & H2).
  destruct (Hprogress m1) as [Hg | (Hi & Hm)].
  - eapply Hinp_R; [exact H1 | apply Hinp].
  - eapply HInv_R; [exact H1 | by apply Henv].
  - left. by eapply HGoal_R; [exact H2|].
  - right. split; [by eapply HInv_R; [exact H2|]|].
    by rewrite (Hmu _ _ H2), <- (Hmu_env (motors_of x)), <- (Hmu _ _ H1).
Qed.

(** A phase of the system ends within the ticks its measure needs. *)
Lemma run_phase n x :
  0 < d -> Inv (motors_of x) ->
  mu (motors_of x) <= inject_Z (Z.of_nat n) * d ->
  exists k, (1 <= k <= Datatypes.S n)%nat
            /\ Goal (motors_of (iter_n k (step e) x)).
Proof.
  intros Hd Hx Hn.
  by apply (iter_n_progress (step e) (fun x => Inv (motors_of x))
              (fun x => Goal (motors_of x)) (fun x => mu (motors_of x)) d);
    [|intros s; apply step_progress|..].
Qed.

End Run.

(** The measures do not tell related objects apart. *)
Lemma logic_eq_measures m m' :
  logic_eq m m' ->
  timer_left m' = timer_left m /\ ratio_left m' = ratio_left m
  /\ thrust_left m' = thrust_left m /\ thrust_max_of m' = thrust_max_of m
  /\ ratio_of m' = ratio_of m.
Proof.
  intros [Hp _ Hs _ _].
  unfold timer_left, ratio_left, thrust_left, thrust_max_of, ratio_of.
  by rewrite Hp, Hs.
Qed.

Section Ways.

Context {S : Type} (motors_of : S -> Motors) (step : Env -> S -> S).
Context (m0 : Motors) (Hc0 : config_ok m0).
Context (Hmin : minimum_spool_time <= m0.(params).(spool_up_time)).
Context (e : Env).

Section Up.

Context `{!TickOf logic_eq motors_of step} (He : flies e).

(** A phase of the way up ends within the ticks its measure needs. *)
Lemma up_phase s s' (mu : Motors -> Q) d n x :
  (forall m m', logic_eq m m' -> mu m' = mu m) ->
  (forall m, mu (apply_env e m) = mu m) ->
  (forall m, spooling_up_inputs m -> phase m0 s m ->
     phase m0 s' (@logic_tick e.(env_battery) m)
     \/ (phase m0 s (@logic_tick e.(env_battery) m)
         /\ 0 <= mu (@logic_tick e.(env_battery) m) <= mu m - d)) ->
  0 < d -> phase m0 s (motors_of x) ->
  mu (motors_of x) <= inject_Z (Z.of_nat n) * d ->
  exists k, (1 <= k <= Datatypes.S n)%nat
            /\ phase m0 s' (motors_of (iter_n k (step e) x)).
Proof.
  intros Hmu Hmu_env Hprogress.
  exact (run_phase logic_eq motors_of step spooling_up_inputs (phase m0 s)
           (phase m0 s') e (fun m => flies_inputs e m He)
           (apply_env_phase m0 e s) mu d Hmu Hmu_env Hprogress n x).
Qed.

Lemma shut_down_phase x :
  phase m0 SHUT_DOWN (motors_of x) ->
  exists k,
    (1 <= k
     <= Datatypes.S
          (ticks_for (timer_left (motors_of x)) m0.(inputs).(dt_s)))%nat
    /\ phase m0 GROUND_IDLE (motors_of (iter_n k (step e) x)).
Proof.
  intros Hph. apply (up_phase SHUT_DOWN _ timer_left m0.(inputs).(dt_s)); try done.
  - intros m m' E. apply (logic_eq_measures m m' E).
  - by apply shut_down_progress.
  - apply Hc0.
  - apply ticks_for_spec, Hc0.
Qed.

Lemma ground_idle_phase x :
  phase m0 GROUND_IDLE (motors_of x) ->
  exists k,
    (1 <= k <= Datatypes.S (ticks_for 1 (spool_up_step m0)))%nat
    /\ phase m0 SPOOLING_UP (motors_of (iter_n k (step e) x)).
Proof.
  intros Hph. pose proof (up_step_pos m0 Hc0 Hmin) as Hpos.
  apply (up_phase GROUND_IDLE _ ratio_left (spool_up_step m0)); try done.
  - intros m m' E. apply (logic_eq_measures m m' E).
  - by apply ground_idle_progress.
  - pose proof (ticks_for_spec 1 _ Hpos).
    destruct Hph as [_ _ _ _ [] _]. unfold ratio_left. lra.
Qed.

Lemma spooling_up_phase x :
  phase m0 SPOOLING_UP (motors_of x) ->
  exists k,
    (1 <= k <= Datatypes.S (ticks_for 1 (spool_up_step m0)))%nat
    /\ phase m0 THROTTLE_UNLIMITED (motors_of (iter_n k (step e) x)).
Proof.
  intros Hph. pose proof (up_step_pos m0 Hc0 Hmin) as Hpos.
  apply (up_phase SPOOLING_UP _ thrust_left (spool_up_step m0)); try done.
  - intros m m' E. apply (logic_eq_measures m m' E).
  - by apply spooling_up_progress.
  - pose proof (ticks_for_spec 1 _ Hpos).
    destruct Hph as [_ _ _ _ [] _]. unfold thrust_left. lra.
Qed.

(** Once at full authority the system stays, for any number of ticks. *)
Lemma unlimited_forever n x :
  phase m0 THROTTLE_UNLIMITED (motors_of x) ->
  phase m0 THROTTLE_UNLIMITED (motors_of (iter_n n (step e) x)).
Proof.
  apply (iter_n_invariant
           (fun x => phase m0 THROTTLE_UNLIMITED (motors_of x))).
  intros s. apply (step_arrives logic_eq motors_of step spooling_up_inputs
                     (phase m0 THROTTLE_UNLIMITED) _ e
                     (fun m => flies_inputs e m He)
                     (apply_env_phase m0 e THROTTLE_UNLIMITED)).
  by apply unlimited_stays.
Qed.

(** The whole way up. *)
Lemma spool_up_phases x :
  motors_of x = m0 -> phase m0 SHUT_DOWN m0 ->
  exists k, (1 + 1 + 1 <= k <= spool_up_bound m0)%nat
            /\ phase m0 THROTTLE_UNLIMITED (motors_of (iter_n k (step e) x)).
Proof.
  intros Hx Hph. unfold spool_up_bound.
  pose proof (shut_down_phase x) as Hsd. rewrite Hx in Hsd.
  eapply (iter_n_then (step e) (fun x => phase m0 SPOOLING_UP (motors_of x))
            (fun x => phase m0 THROTTLE_UNLIMITED (motors_of x)));
    [eapply (iter_n_then (step e)
               (fun x => phase m0 GROUND_IDLE (motors_of x))
               (fun x => phase m0 SPOOLING_UP (motors_of x)))|];
    eauto using ground_idle_phase, spooling_up_phase.
Qed.

(** A spool-up of the system arrives and stays. *)
Lemma spool_up_arrives x :
  motors_of x = m0 -> spool_inv m0 ->
  m0.(spool).(spool_state) = SHUT_DOWN ->
  exists k, (3 <= k <= spool_up_bound m0)%nat /\
    forall n, (k <= n)%nat ->
      (motors_of (iter_n n (step e) x)).(spool).(spool_state)
      = THROTTLE_UNLIMITED.
Proof.
  intros Hx Hi Hst. destruct (spool_up_phases x Hx) as (k & Hk & Hk').
  { rewrite <- Hst. by apply phase_start. }
  exists k. split; [done|]. intros n Hn.
  replace n with (k + (n - k))%nat by lia. rewrite iter_n_add.
  by apply unlimited_forever.
Qed.

End Up.

Section Down.

Context `{!TickOf limiter_eq motors_of step} (He : lands e).

(** A phase of the way down ends within the ticks its measure needs. *)
Lemma down_phase s s' (mu : Motors -> Q) d n x :
  (forall m m', logic_eq m m' -> mu m' = mu m) ->
  (forall m, mu (apply_env e m) = mu m) ->
  (forall m, landing_inputs m -> limited m0 s m ->
     limited m0 s' (@logic_tick e.(env_battery) m)
     \/ (limited m0 s (@logic_tick e.(env_battery) m)
         /\ 0 <= mu (@logic_tick e.(env_battery) m) <= mu m - d)) ->
  0 < d -> limited m0 s (motors_of x) ->
  mu (motors_of x) <= inject_Z (Z.of_nat n) * d ->
  exists k, (1 <= k <= Datatypes.S n)%nat
            /\ limited m0 s' (motors_of (iter_n k (step e) x)).
Proof.
  intros Hmu Hmu_env Hprogress.
  exact (run_phase limiter_eq motors_of step landing_inputs (limited m0 s)
           (limited m0 s') e (fun m => lands_inputs e m He)
           (apply_env_limited m0 e s) mu d
           (fun m m' E => Hmu m m' (limiter_logic_eq m m' E))
           Hmu_env Hprogress n x).
Qed.

Lemma down_arrives s s' x :
  (forall m, landing_inputs m -> limited m0 s m ->
     limited m0 s' (@logic_tick e.(env_battery) m)) ->
  limited m0 s (motors_of x) -> limited m0 s' (motors_of (step e x)).
Proof.
  exact (step_arrives limiter_eq motors_of step landing_inputs
           (limited m0 s) (limited m0 s') e (fun m => lands_inputs e m He)
           (apply_env_limited m0 e s) x).
Qed.

Lemma spooling_down_phase x :
  limited m0 SPOOLING_DOWN (motors_of x) ->
  exists k,
    (1 <= k <= Datatypes.S (ticks_for 1 (spool_down_step m0)))%nat
    /\ limited m0 GROUND_IDLE (motors_of (iter_n k (step e) x)).
Proof.
  intros Hph. pose proof (down_step_pos m0 Hc0 Hmin) as Hpos.
  apply (down_phase SPOOLING_DOWN _ thrust_max_of (spool_down_step m0));
    try done.
  - intros m m' E. apply (logic_eq_measures m m' E).
  - by apply spooling_down_progress.
  - pose proof (ticks_for_spec 1 _ Hpos).
    destruct Hph as [[_ _ _ _ [] _] _]. unfold thrust_max_of. lra.
Qed.

Lemma ground_idle_down_phase x :
  limited m0 GROUND_IDLE (motors_of x) ->
  exists k,
    (1 <= k <= Datatypes.S (ticks_for 1 (spool_down_step m0)))%nat
    /\ limited m0 SHUT_DOWN (motors_of (iter_n k (step e) x)).
Proof.
  intros Hph. pose proof (down_step_pos m0 Hc0 Hmin) as Hpos.
  apply (down_phase GROUND_IDLE _ ratio_of (spool_down_step m0));
    try done.
  - intros m m' E. apply (logic_eq_measures m m' E).
  - by apply ground_idle_down_progress.
  - pose proof (ticks_for_spec 1 _ Hpos).
    destruct Hph as [[_ _ _ _ [] _] _]. unfold ratio_of. lra.
Qed.

(** Once shut down the system stays, for any number of ticks. *)
Lemma shut_down_forever n x :
  limited m0 SHUT_DOWN (motors_of x) ->
  limited m0 SHUT_DOWN (motors_of (iter_n n (step e) x)).
Proof.
  apply (iter_n_invariant (fun x => limited m0 SHUT_DOWN (motors_of x))).
  intros s. apply down_arrives. by apply shut_down_stays.
Qed.

(** The whole way down. *)
Lemma spool_down_phases x :
  limited m0 THROTTLE_UNLIMITED (motors_of x) ->
  exists k, (1 + 1 + 1 <= k <= spool_down_bound m0)%nat
            /\ limited m0 SHUT_DOWN (motors_of (iter_n k (step e) x)).
Proof.
  intros Hph. unfold spool_down_bound.
  eapply (iter_n_then (step e)
            (fun x => limited m0 GROUND_IDLE (motors_of x))
            (fun x => limited m0 SHUT_DOWN (motors_of x)));
    [eapply (iter_n_then (step e)
               (fun x => limited m0 SPOOLING_DOWN (motors_of x))
               (fun x => limited m0 GROUND_IDLE (motors_of x)))|];
    [ exists 1%nat; split; [lia|]; revert Hph; apply down_arrives;
      by apply unlimited_leaves
    | intros s' Hs'; by apply spooling_down_phase
    | intros s' Hs'; by apply ground_idle_down_phase ].
Qed.

(** A spool-down of the system arrives and stays. *)
Lemma spool_down_arrives x :
  motors_of x = m0 -> spool_inv m0 -> limit_inv m0 ->
  m0.(spool).(spool_state) = THROTTLE_UNLIMITED ->
  exists k, (3 <= k <= spool_down_bound m0)%nat /\
    forall n, (k <= n)%nat ->
      (motors_of (iter_n n (step e) x)).(spool).(spool_state) = SHUT_DOWN
      /\ (motors_of (iter_n n (step e) x)).(spool).(spin_up_ratio) == 0
      /\ (motors_of (iter_n n (step e) x)).(spool).(throttle_thrust_max)
         == 0.
Proof.
  intros Hx Hi Hl Hst. destruct (spool_down_phases x) as (k & Hk & Hk').
  { rewrite Hx. split; [|done]. rewrite <- Hst. by apply phase_start. }
  exists k. split; [done|]. intros n Hn.
  replace n with (k + (n - k))%nat by lia. rewrite iter_n_add.
  destruct (shut_down_forever (n - k) _ Hk') as [[_ _ _ _ [] Hs] _]. auto.
Qed.

End Down.

End Ways.

(** The spool logic on its own is such a system. *)
#[export] Instance tick_of_limiter : TickOf limiter_eq id tick.
Proof. intros e m. exists (apply_env e m). by split. Qed.

#[export] Instance tick_of_logic : TickOf logic_eq id tick.
Proof. intros e m. exists (apply_env e m). by split. Qed.

Lemma armed_limit_inv : limit_inv armed_motors.
Proof. split; by vm_compute. Qed.

Lemma flying_limit_inv : limit_inv flying_motors.
Proof. split; by vm_compute. Qed.

Lemma fly_env_flies : flies fly_env.
Proof. by repeat split. Qed.

Lemma land_env_lands : lands land_env.
Proof. by repeat split. Qed.

(** ** Theorems *)

(** C6: a spool-up arrives and stays.  From SHUT_DOWN, in an environment
    that keeps the vehicle armed and interlocked and keeps asking for full
    authority, the machine is in THROTTLE_UNLIMITED after at most
    [spool_up_bound] ticks (the rest of the safety timer and the two
    ramps) and in every tick after that. *)
Theorem spool_up_liveness (e : Env) (m0 : Motors) :
  flies e -> config_ok m0 -> spool_inv m0 -> limit_inv m0 ->
  minimum_spool_time <= m0.(params).(spool_up_time) ->
  m0.(spool).(spool_state) = SHUT_DOWN ->
  exists k, (3 <= k <= spool_up_bound m0)%nat /\
    forall n, (k <= n)%nat ->
      (steady e n m0).(spool).(spool_state) = THROTTLE_UNLIMITED.
Proof.
  intros He Hc Hi Hl Hmin Hst.
  by apply (spool_up_arrives id tick m0 Hc Hmin e He m0).
Qed.

(** C7: a spool-down arrives and stays.  From THROTTLE_UNLIMITED, in an
    environment that keeps the vehicle armed and interlocked and keeps
    asking for a shut down, the machine is in SHUT_DOWN with both ramps at
    zero after at most [spool_down_bound] ticks, whatever the current
    limiter does on the way, and in every tick after that. *)
Theorem spool_down_liveness (e : Env) (m0 : Motors) :
  lands e -> config_ok m0 -> spool_inv m0 -> limit_inv m0 ->
  minimum_spool_time <= m0.(params).(spool_up_time) ->
  m0.(spool).(spool_state) = THROTTLE_UNLIMITED ->
  exists k, (3 <= k <= spool_down_bound m0)%nat /\
    forall n, (k <= n)%nat ->
      (steady e n m0).(spool).(spool_state) = SHUT_DOWN
      /\ (steady e n m0).(spool).(spin_up_ratio) == 0
      /\ (steady e n m0).(spool).(throttle_thrust_max) == 0.
Proof.
  intros He Hc Hi Hl Hmin Hst.
  by apply (spool_down_arrives id tick m0 Hc Hmin e He m0).
Qed.

(** The cold start of the specification (armed, interlocked, half
    throttle, a period of 2.5 ms, a spool-up time of 0.5 s, no delay for
    the PWM hardware): the machine leaves SHUT_DOWN on the first tick, runs
    the spin-up ramp for 200 ticks, the thrust ramp for 100 and is in
    THROTTLE_UNLIMITED from tick 301, that is after 0.7525 s, with the
    thrust ceiling at the ceiling of the limiter, 1. *)
Theorem cold_start_scenario :
  (steady fly_env 1 cold_start).(spool).(spool_state) = GROUND_IDLE
  /\ (steady fly_env 200 cold_start).(spool).(spool_state) = GROUND_IDLE
  /\ (steady fly_env 201 cold_start).(spool).(spool_state) = SPOOLING_UP
  /\ (steady fly_env 300 cold_start).(spool).(spool_state) = SPOOLING_UP
  /\ (steady fly_env 301 cold_start).(spool).(spool_state)
     = THROTTLE_UNLIMITED
  /\ (steady fly_env 301 cold_start).(spool).(throttle_thrust_max) == 1
  /\ (301 <= spool_up_bound cold_start)%nat.
Proof.
  split_and!; [by vm_compute..|]. apply Nat.leb_le. by vm_compute.
Qed.

(** ** Witnesses *)

Lemma spool_up_liveness_witness :
  exists k, (3 <= k <= spool_up_bound cold_start)%nat /\
    forall n, (k <= n)%nat ->
      (steady fly_env n cold_start).(spool).(spool_state)
      = THROTTLE_UNLIMITED.
Proof.
  apply spool_up_liveness;
    [apply fly_env_flies | apply armed_config_ok | apply armed_spool_inv
    | apply armed_limit_inv | by vm_compute | reflexivity].
Defined.

Lemma spool_down_liveness_witness :
  exists k, (3 <= k <= spool_down_bound flying_motors)%nat /\
    forall n, (k <= n)%nat ->
      (steady land_env n flying_motors).(spool).(spool_state) = SHUT_DOWN
      /\ (steady land_env n flying_motors).(spool).(spin_up_ratio) == 0
      /\ (steady land_env n flying_motors).(spool).(throttle_thrust_max)
         == 0.
Proof.
  apply spool_down_liveness;
    [apply land_env_lands | apply flying_config_ok | apply flying_spool_inv
    | apply flying_limit_inv | by vm_compute | reflexivity].
Defined.
