(* ===== verification/Vehicle.v ===== *)
(** * The surroundings of the object: servo driver and parameter storage

    The methods of the output stage write to the servo driver
    ([SRV_Channels::set_output_scaled], [SRV_Channels::set_output_pwm],
    [rc_write], [hal.rcout->set_esc_scaling]) and to the parameter storage
    ([save], [set_and_save]).  Both are libraries the class only calls; what
    the class writes to them is recorded here in the records [Servo] and
    [Store], so that the theorems can state what a method has sent.  What
    the class asks of the driver is the interface [ServoConfig].  A
    [Vehicle] is the object with the two records; a method that works on
    the object alone runs on a vehicle through [zoom]. *)

From Stdlib Require Import QArith ZArith Lqa Lia.
From stdpp Require Import base decidable option list countable gmap.
From S2P Require Import Prelude State.

#[local] Open Scope state_scope.

(** ** Definitions *)

(** The functions of [SRV_Channel] the class writes to. *)
Inductive Function :=
  | k_boost_throttle
  | k_roll_out
  | k_pitch_out
  | k_yaw_out
  | k_thrust_out
  | k_throttleRight
  | k_throttleLeft
  | k_motor (n : nat).

#[export] Instance Function_eq_dec : EqDecision Function.
Proof. solve_decision. Defined.

Definition Function_to_nat (f : Function) : nat :=
  match f with
  | k_boost_throttle => 0
  | k_roll_out => 1
  | k_pitch_out => 2
  | k_yaw_out => 3
  | k_thrust_out => 4
  | k_throttleRight => 5
  | k_throttleLeft => 6
  | k_motor n => 7 + n
  end.

Definition Function_of_nat (n : nat) : Function :=
  match n with
  | 0%nat => k_boost_throttle
  | 1%nat => k_roll_out
  | 2%nat => k_pitch_out
  | 3%nat => k_yaw_out
  | 4%nat => k_thrust_out
  | 5%nat => k_throttleRight
  | 6%nat => k_throttleLeft
  | S (S (S (S (S (S (S n)))))) => k_motor n
  end.

#[export] Instance Function_countable : Countable Function.
Proof.
  apply (inj_countable' Function_to_nat Function_of_nat).
  by intros [].
Defined.

(** What the class has written to the servo driver: the scaled outputs and
    the pulse widths per function, the pulse widths per motor channel, and
    the ESC scaling. *)
Record Servo := mkServo {
  output_scaled : gmap Function Q;
  output_pwm : gmap Function Z;
  rc_out : gmap nat Z;
  esc_scaling : option (Z * Z);
}.

(** What the class has written to the parameter storage. *)
Record Store := mkStore {
  stored_throttle_hover : option Q;
  stored_pwm_min : option Z;
  stored_pwm_max : option Z;
}.

(** What the class asks of the servo driver. *)
Class ServoConfig := {
  have_digital_outputs : Z -> bool;
  get_output_channel_mask : Function -> Z;
  find_channel : Function -> option nat;
}.

(** The object and its surroundings. *)
Record Vehicle := mkVehicle {
  motors : Motors;
  servo : Servo;
  store : Store;
}.

Definition upd_motors (f : Motors -> Motors) (v : Vehicle) : Vehicle :=
  mkVehicle (f v.(motors)) v.(servo) v.(store).

Definition upd_servo (f : Servo -> Servo) (v : Vehicle) : Vehicle :=
  mkVehicle v.(motors) (f v.(servo)) v.(store).

Definition upd_store (f : Store -> Store) (v : Vehicle) : Vehicle :=
  mkVehicle v.(motors) v.(servo) (f v.(store)).

(** A method of the object, run on the vehicle. *)
Definition zoom {A} (c : State Motors A) : State Vehicle A :=
  fun v => let '(a, m) := c v.(motors) in (a, upd_motors (fun _ => m) v).

(** The writes to the servo driver. *)
Definition set_output_scaled (f : Function) (value : Q) : State Vehicle unit :=
  modify (upd_servo (fun s =>
    mkServo (<[f := value]> s.(output_scaled)) s.(output_pwm) s.(rc_out)
      s.(esc_scaling))).

Definition set_output_pwm (f : Function) (value : Z) : State Vehicle unit :=
  modify (upd_servo (fun s =>
    mkServo s.(output_scaled) (<[f := value]> s.(output_pwm)) s.(rc_out)
      s.(esc_scaling))).

Definition rc_write (chan : nat) (pwm : Z) : State Vehicle unit :=
  modify (upd_servo (fun s =>
    mkServo s.(output_scaled) s.(output_pwm) (<[chan := pwm]> s.(rc_out))
      s.(esc_scaling))).

Definition set_esc_scaling (lo hi : Z) : State Vehicle unit :=
  modify (upd_servo (fun s =>
    mkServo s.(output_scaled) s.(output_pwm) s.(rc_out) (Some (lo, hi)))).

(** A loop over the motor numbers [0 .. AP_MOTORS_MAX_NUM_MOTORS - 1]. *)
Fixpoint for_each {S} (l : list nat) (body : nat -> State S unit)
    : State S unit :=
  match l with
  | [] => ret tt
  | i :: l' => body i;; for_each l' body
  end.

Definition for_each_motor {S} (body : nat -> State S unit) : State S unit :=
  for_each (seq 0 AP_MOTORS_MAX_NUM_MOTORS) body.

(** [motor_enabled[i]] *)
Definition is_motor_enabled (m : Motors) (i : nat) : bool :=
  default false (m.(motor_enabled) !! i).

(** The surroundings before anything is written. *)
Definition init_servo : Servo := mkServo ∅ ∅ ∅ None.

Definition init_store : Store := mkStore None None None.

Definition init_vehicle : Vehicle := mkVehicle init_motors init_servo init_store.

Definition vehicle_of (m : Motors) : Vehicle := mkVehicle m init_servo init_store.

(** A driver without digital outputs in which motor [i] is on channel [i]. *)
Definition plain_servo : ServoConfig :=
  {| have_digital_outputs := fun _ => false;
     get_output_channel_mask := fun _ => 0%Z;
     find_channel := fun f =>
       match f with k_motor n => Some n | _ => None end |}.

(** Reduce the projections of a written vehicle. *)
Ltac simpl_vehicle :=
  cbn [motors servo store upd_motors upd_servo upd_store
       output_scaled output_pwm rc_out esc_scaling
       stored_throttle_hover stored_pwm_min stored_pwm_max].

(** ** Lemmas *)

Section Zoom.

Context {A : Type}.
Implicit Types (c : State Motors A) (v : Vehicle).

(** Running a method of the object on the vehicle runs it on the object
    and leaves the surroundings alone. *)
Lemma zoom_motors c v : (exec (zoom c) v).(motors) = exec c v.(motors).
Proof. unfold exec, zoom. by destruct (c _). Qed.

Lemma zoom_eval c v : eval (zoom c) v = eval c v.(motors).
Proof. unfold eval, zoom. by destruct (c _). Qed.

Lemma zoom_servo c v : (exec (zoom c) v).(servo) = v.(servo).
Proof. unfold exec, zoom. by destruct (c _). Qed.

Lemma zoom_store c v : (exec (zoom c) v).(store) = v.(store).
Proof. unfold exec, zoom. by destruct (c _). Qed.

Lemma zoom_exec c v :
  exec (zoom c) v = upd_motors (fun _ => exec c v.(motors)) v.
Proof. unfold exec, zoom. by destruct (c _). Qed.

End Zoom.

(** A loop keeps what every iteration keeps. *)
Lemma for_each_invariant {S} (P : S -> Prop) (body : nat -> State S unit) l :
  (forall i s, i ∈ l -> P s -> P (exec (body i) s)) ->
  forall s, P s -> P (exec (for_each l body) s).
Proof.
  induction l as [|i l IH]; intros Hb s Hs; [done|].
  cbn [for_each]. rewrite exec_bind. apply IH.
  - intros j s' Hj. apply Hb. by right.
  - apply Hb; [by left | done].
Qed.

(** What a loop does for one of its numbers: the iterations before keep
    [Pre], the iteration of [i] turns it into [Post], the iterations after
    keep [Post]. *)
Lemma for_each_at {S} (Pre Post : S -> Prop) (body : nat -> State S unit)
    l i :
  NoDup l -> i ∈ l ->
  (forall j s, j <> i -> Pre s -> Pre (exec (body j) s)) ->
  (forall s, Pre s -> Post (exec (body i) s)) ->
  (forall j s, j <> i -> Post s -> Post (exec (body j) s)) ->
  forall s, Pre s -> Post (exec (for_each l body) s).
Proof.
  intros Hnd Hi Hpre Hat Hpost. induction l as [|j l IH]; intros s Hs.
  - by apply elem_of_nil in Hi.
  - apply NoDup_cons in Hnd as [Hj Hnd]. cbn [for_each]. rewrite exec_bind.
    apply elem_of_cons in Hi as [<- | Hi].
    + apply for_each_invariant; [|by apply Hat].
      intros k s' Hk. apply Hpost. by intros ->.
    + apply IH; [done.. | apply Hpre; [by intros -> | done]].
Qed.

Lemma NoDup_motors : NoDup (seq 0 AP_MOTORS_MAX_NUM_MOTORS).
Proof. apply NoDup_seq. Qed.

Lemma elem_of_motors i :
  i ∈ seq 0 AP_MOTORS_MAX_NUM_MOTORS <-> (i < AP_MOTORS_MAX_NUM_MOTORS)%nat.
Proof. rewrite elem_of_seq. lia. Qed.

(** The two facts for the loop over the motors. *)
Lemma for_each_motor_invariant {S} (P : S -> Prop)
    (body : nat -> State S unit) :
  (forall i s, (i < AP_MOTORS_MAX_NUM_MOTORS)%nat -> P s ->
     P (exec (body i) s)) ->
  forall s, P s -> P (exec (for_each_motor body) s).
Proof.
  intros Hb. apply for_each_invariant. intros i s Hi. by apply Hb, elem_of_motors.
Qed.

Lemma for_each_motor_at {S} (Pre Post : S -> Prop)
    (body : nat -> State S unit) i :
  (i < AP_MOTORS_MAX_NUM_MOTORS)%nat ->
  (forall j s, j <> i -> Pre s -> Pre (exec (body j) s)) ->
  (forall s, Pre s -> Post (exec (body i) s)) ->
  (forall j s, j <> i -> Post s -> Post (exec (body j) s)) ->
  forall s, Pre s -> Post (exec (for_each_motor body) s).
Proof.
  intros Hi. apply for_each_at; [apply NoDup_motors | by apply elem_of_motors].
Qed.

(** What the writes leave in the driver. *)
Lemma rc_write_lookup chan pwm v :
  (exec (rc_write chan pwm) v).(servo).(rc_out) !! chan = Some pwm.
Proof. cbn. apply lookup_insert_eq. Qed.

Lemma rc_write_other chan chan' pwm v :
  chan <> chan' ->
  (exec (rc_write chan pwm) v).(servo).(rc_out) !! chan'
  = v.(servo).(rc_out) !! chan'.
Proof. intros H. cbn. by apply lookup_insert_ne. Qed.

Lemma set_output_scaled_lookup f value v :
  (exec (set_output_scaled f value) v).(servo).(output_scaled) !! f
  = Some value.
Proof. cbn. apply lookup_insert_eq. Qed.

Lemma set_output_scaled_other f f' value v :
  f <> f' ->
  (exec (set_output_scaled f value) v).(servo).(output_scaled) !! f'
  = v.(servo).(output_scaled) !! f'.
Proof. intros H. cbn. by apply lookup_insert_ne. Qed.
