(* ===== verification/Actuator.v ===== *)
(** * Actuator values: slew limiting and the conversion to PWM

    [set_actuator_with_slew] limits the change of an actuator value per
    tick, [actuator_spin_up_to_ground_idle] gives the actuator value of the
    spin-up ramp, [output_to_pwm] converts an actuator value to a pulse
    width and [get_raw_motor_throttle] reads an actuator value back.  The
    C++ method [set_actuator_with_slew] writes its first argument, a
    reference; here it returns the value it writes.  [output_to_pwm]
    returns an [int16_t]: the float it computes is converted by truncation,
    which is undefined out of range ([None]). *)

From Stdlib Require Import QArith Qround ZArith Lqa Lia.
From stdpp Require Import base decidable option list.
From S2P Require Import Prelude State.

(** ** Definitions *)

(** [constrain_float(_slew_up_time, 0.0f, 0.5f)] and the same for the
    time of decreasing output. *)
Definition slew_up_time_used (m : Motors) : Q :=
  constrain_float m.(params).(slew_up_time) 0 0.5.

Definition slew_dn_time_used (m : Motors) : Q :=
  constrain_float m.(params).(slew_dn_time) 0 0.5.

(** The highest and the lowest value the output may take in this tick. *)
Definition output_slew_limit_up (m : Motors) (actuator_output : Q) : Q :=
  if is_positive m.(params).(slew_up_time) then
    let output_delta_up_max := m.(inputs).(dt_s) / slew_up_time_used m in
    constrain_float (actuator_output + output_delta_up_max) 0 1
  else 1.

Definition output_slew_limit_dn (m : Motors) (actuator_output : Q) : Q :=
  if is_positive m.(params).(slew_dn_time) then
    let output_delta_dn_max := m.(inputs).(dt_s) / slew_dn_time_used m in
    constrain_float (actuator_output - output_delta_dn_max) 0 1
  else 0.

(** [set_actuator_with_slew(actuator_output, input)]: the new value of
    [actuator_output]. *)
Definition set_actuator_with_slew (m : Motors) (actuator_output input : Q)
    : Q :=
  constrain_float input (output_slew_limit_dn m actuator_output)
    (output_slew_limit_up m actuator_output).

(** [n] ticks of slew limiting toward the same input. *)
Definition slew_toward (m : Motors) (input : Q) (n : nat) (a : Q) : Q :=
  iter_n n (fun a => set_actuator_with_slew m a input) a.

(** [actuator_spin_up_to_ground_idle()] *)
Definition actuator_spin_up_to_ground_idle (m : Motors) : Q :=
  constrain_float m.(spool).(spin_up_ratio) 0 1 * get_spin_min m.

(** The float [pwm_output] of [output_to_pwm]. *)
Definition pwm_output (m : Motors) (actuator : Q) : Q :=
  if decide (m.(spool).(spool_state) = SHUT_DOWN) then
    if m.(params).(disarm_disable_pwm) && negb m.(inputs).(armed) then 0
    else inject_Z (get_pwm_output_min m)
  else
    inject_Z (get_pwm_output_min m)
    + inject_Z (get_pwm_output_max m - get_pwm_output_min m) * actuator.

(** [output_to_pwm(actuator)]: the float, converted to [int16_t]. *)
Definition output_to_pwm (m : Motors) (actuator : Q) : option Z :=
  float_to_int16 (pwm_output m actuator).

(** [check_mot_pwm_params()] *)
Definition check_mot_pwm_params (m : Motors) : bool :=
  if bool_decide (m.(params).(pwm_min) < 1)%Z
     || bool_decide (m.(params).(pwm_max) <= m.(params).(pwm_min))%Z
  then false
  else true.

(** [get_raw_motor_throttle(motor_num, thr_out)]: [None] is the result
    [false], [Some thr_out] the result [true]. *)
Definition get_raw_motor_throttle (m : Motors) (motor_num : nat) : option Q :=
  if bool_decide (AP_MOTORS_MAX_NUM_MOTORS <= motor_num)%nat
     || negb (default false (m.(motor_enabled) !! motor_num))
  then None
  else Some (constrain_float (default 0 (m.(actuator) !! motor_num)) 0 1).

(** The parameters [pwm_min] and [pwm_max] as the 16-bit integers they are
    stored in, and the check of the arming checks. *)
Record pwm_ok (m : Motors) : Prop := {
  pwm_checked : check_mot_pwm_params m = true;
  pwm_max_int16 : in_int16 m.(params).(pwm_max);
}.

(** Example objects: the slew times of the specification's scenario, and
    a slew time above the half second the method allows. *)
Definition with_slew (up dn dt : Q) (m : Motors) : Motors :=
  upd_inputs (fun i =>
    mkInputs i.(armed) i.(interlock) i.(spoolup_block) dt i.(throttle_in)
      i.(roll_in_ff) i.(pitch_in_ff) i.(yaw_in_ff) i.(external_limits)
      i.(micros))
    (upd_params (fun p =>
       mkParams p.(yaw_headroom) p.(batt_current_max) p.(pwm_type)
         p.(pwm_min) p.(pwm_max) p.(pwm_min_configured)
         p.(pwm_max_configured) p.(spin_arm)
         p.(batt_current_time_constant) p.(throttle_hover)
         p.(throttle_hover_learn) p.(disarm_disable_pwm)
         p.(yaw_servo_angle_max_deg) p.(spool_up_time) p.(boost_scale)
         up dn p.(safe_time) p.(options) p.(spool_down_time)) m).

Definition slew_motors : Motors := with_slew 0.1 0 0.01 flying_motors.

Definition slow_slew_motors : Motors := with_slew 1 0 0.01 flying_motors.

#[export] Hint Unfold slew_up_time_used slew_dn_time_used
  get_pwm_output_min get_pwm_output_max : motors.

(** ** Lemmas *)

Section Slew.

Context (m : Motors).
Context (Hdt : 0 < m.(inputs).(dt_s)).
Implicit Types a input : Q.

(** The slew times the method divides by are positive when the limit is
    applied. *)
Lemma slew_up_time_used_pos :
  is_positive m.(params).(slew_up_time) = true -> 0 < slew_up_time_used m.
Proof.
  intros H%is_positive_gt0. unfold slew_up_time_used, constrain_float.
  qsolve.
Qed.

Lemma slew_dn_time_used_pos :
  is_positive m.(params).(slew_dn_time) = true -> 0 < slew_dn_time_used m.
Proof.
  intros H%is_positive_gt0. unfold slew_dn_time_used, constrain_float.
  qsolve.
Qed.

Lemma slew_delta_up_pos :
  is_positive m.(params).(slew_up_time) = true ->
  0 < m.(inputs).(dt_s) / slew_up_time_used m.
Proof. intros H. apply Qdiv_pos; [done | by apply slew_up_time_used_pos]. Qed.

Lemma slew_delta_dn_pos :
  is_positive m.(params).(slew_dn_time) = true ->
  0 < m.(inputs).(dt_s) / slew_dn_time_used m.
Proof. intros H. apply Qdiv_pos; [done | by apply slew_dn_time_used_pos]. Qed.

Lemma output_slew_limit_up_bounds a : 0 <= output_slew_limit_up m a <= 1.
Proof.
  unfold output_slew_limit_up. destruct (is_positive _); [|lra].
  apply constrain_float_bounds. lra.
Qed.

Lemma output_slew_limit_dn_bounds a : 0 <= output_slew_limit_dn m a <= 1.
Proof.
  unfold output_slew_limit_dn. destruct (is_positive _); [|lra].
  apply constrain_float_bounds. lra.
Qed.

(** The lower limit is at or below the upper limit, and the old value,
    when it is a fraction, lies between them. *)
Lemma output_slew_limit_dn_le a : 0 <= a -> output_slew_limit_dn m a <= a.
Proof.
  intros Ha. unfold output_slew_limit_dn.
  destruct (is_positive _) eqn:H; [|done].
  pose proof (slew_delta_dn_pos H). unfold constrain_float. qsolve.
Qed.

Lemma output_slew_limit_up_ge a : a <= 1 -> a <= output_slew_limit_up m a.
Proof.
  intros Ha. unfold output_slew_limit_up.
  destruct (is_positive _) eqn:H; [|done].
  pose proof (slew_delta_up_pos H). unfold constrain_float. qsolve.
Qed.

Lemma output_slew_limits_ordered a :
  output_slew_limit_dn m a <= output_slew_limit_up m a.
Proof.
  pose proof (output_slew_limit_up_bounds a).
  pose proof (output_slew_limit_dn_bounds a).
  unfold output_slew_limit_dn, output_slew_limit_up in *.
  destruct (is_positive (slew_dn_time _)) eqn:Hd,
    (is_positive (slew_up_time _)) eqn:Hu; try lra.
  pose proof (slew_delta_dn_pos Hd). pose proof (slew_delta_up_pos Hu).
  apply constrain_float_mono; lra.
Qed.

(** The new value lies between the limits. *)
Lemma set_actuator_with_slew_limits a input :
  output_slew_limit_dn m a <= set_actuator_with_slew m a input
  <= output_slew_limit_up m a.
Proof. apply constrain_float_bounds, output_slew_limits_ordered. Qed.

Lemma set_actuator_with_slew_fraction a input :
  0 <= set_actuator_with_slew m a input <= 1.
Proof.
  pose proof (set_actuator_with_slew_limits a input).
  pose proof (output_slew_limit_up_bounds a).
  pose proof (output_slew_limit_dn_bounds a). lra.
Qed.

(** An input between the limits is taken as it is. *)
Lemma set_actuator_with_slew_id a input :
  output_slew_limit_dn m a <= input <= output_slew_limit_up m a ->
  set_actuator_with_slew m a input = input.
Proof. apply constrain_float_id. Qed.

(** The value moves toward the input and not beyond it. *)
Lemma set_actuator_with_slew_between a input :
  0 <= a <= 1 -> 0 <= input <= 1 ->
  (a <= input -> a <= set_actuator_with_slew m a input <= input)
  /\ (input <= a -> input <= set_actuator_with_slew m a input <= a).
Proof.
  intros Ha Hi.
  pose proof (output_slew_limit_dn_le a). pose proof (output_slew_limit_up_ge a).
  pose proof (output_slew_limits_ordered a).
  unfold set_actuator_with_slew, constrain_float. qsolve.
Qed.

(** One tick of a rise toward the input: the value arrives, or it has
    risen by the whole step and is still below the input. *)
Lemma set_actuator_with_slew_rise a input :
  is_positive m.(params).(slew_up_time) = true ->
  0 <= a <= input -> input <= 1 ->
  set_actuator_with_slew m a input = input
  \/ (0 <= set_actuator_with_slew m a input <= input
      /\ 0 <= input - set_actuator_with_slew m a input
         <= (input - a) - m.(inputs).(dt_s) / slew_up_time_used m).
Proof.
  intros Hp Ha Hi. pose proof (slew_delta_up_pos Hp).
  pose proof (output_slew_limit_dn_le a ltac:(lra)).
  unfold set_actuator_with_slew, output_slew_limit_up. rewrite Hp.
  cbv zeta. set (d := _ / _) in *. unfold constrain_float.
  qsolve; first [by left | right; lra].
Qed.

End Slew.

(** ** Lemmas: the conversion to PWM *)

Lemma check_mot_pwm_params_true m :
  check_mot_pwm_params m = true
  <-> (1 <= m.(params).(pwm_min) < m.(params).(pwm_max))%Z.
Proof.
  unfold check_mot_pwm_params. repeat case_bool_decide; cbn; split;
    (done || lia).
Qed.

Lemma pwm_ok_range m :
  pwm_ok m ->
  (1 <= m.(params).(pwm_min) < m.(params).(pwm_max)
   /\ m.(params).(pwm_max) <= INT16_MAX)%Z.
Proof.
  intros [H%check_mot_pwm_params_true [_ ?]]. done.
Qed.

(** Outside SHUT_DOWN the float is the affine image of the actuator
    value. *)
Lemma pwm_output_affine m a :
  m.(spool).(spool_state) <> SHUT_DOWN ->
  pwm_output m a
  = inject_Z m.(params).(pwm_min)
    + inject_Z (m.(params).(pwm_max) - m.(params).(pwm_min)) * a.
Proof. intros H. unfold pwm_output. by rewrite decide_False. Qed.

Lemma inject_Z_sub a b : inject_Z (a - b) == inject_Z a - inject_Z b.
Proof. unfold Z.sub. rewrite inject_Z_plus, inject_Z_opp. ring. Qed.

(** For a fraction the float lies between the two parameters, or is zero. *)
Lemma pwm_output_between m a :
  pwm_ok m -> 0 <= a <= 1 ->
  pwm_output m a == 0
  \/ inject_Z m.(params).(pwm_min) <= pwm_output m a
     <= inject_Z m.(params).(pwm_max).
Proof.
  intros (Hr & _)%pwm_ok_range Ha.
  assert (inject_Z m.(params).(pwm_min) < inject_Z m.(params).(pwm_max))
    by (rewrite <- Zlt_Qlt; lia).
  unfold pwm_output, get_pwm_output_min, get_pwm_output_max.
  case_decide; [destruct (_ && _); [by left | right; lra]|].
  right. rewrite inject_Z_sub. nra.
Qed.

Lemma pwm_output_flying m a :
  pwm_ok m -> m.(spool).(spool_state) <> SHUT_DOWN -> 0 <= a <= 1 ->
  inject_Z m.(params).(pwm_min) <= pwm_output m a
  <= inject_Z m.(params).(pwm_max).
Proof.
  intros (Hr & _)%pwm_ok_range Hst Ha. rewrite pwm_output_affine by done.
  assert (inject_Z m.(params).(pwm_min) < inject_Z m.(params).(pwm_max))
    by (rewrite <- Zlt_Qlt; lia).
  rewrite inject_Z_sub. nra.
Qed.

(** A float within the 16-bit range is converted by truncation. *)
Lemma float_to_int16_between (lo hi : Z) q :
  (0 <= lo)%Z -> (hi <= INT16_MAX)%Z -> inject_Z lo <= q <= inject_Z hi ->
  exists p, float_to_int16 q = Some p /\ (lo <= p <= hi)%Z.
Proof.
  intros Hlo Hhi Hq. pose proof (Qtrunc_between lo hi q Hlo Hq) as Ht.
  exists (Qtrunc q). split; [|done].
  unfold float_to_int16. rewrite decide_True; [done|].
  unfold in_int16, INT16_MIN, INT16_MAX in *. lia.
Qed.

Lemma float_to_int16_Z z : in_int16 z -> float_to_int16 (inject_Z z) = Some z.
Proof.
  intros H. unfold float_to_int16. rewrite Qtrunc_inject_Z.
  by rewrite decide_True.
Qed.

Lemma Qtrunc_mono a b : 0 <= a -> a <= b -> (Qtrunc a <= Qtrunc b)%Z.
Proof.
  intros Ha Hab. unfold Qtrunc. rewrite !decide_True by lra.
  by apply Qfloor_resp_le.
Qed.

(** The pulse width of a fraction, and the pulse width in SHUT_DOWN. *)
Lemma output_to_pwm_fraction m a :
  pwm_ok m -> 0 <= a <= 1 ->
  exists p, output_to_pwm m a = Some p
    /\ (p = 0 \/ m.(params).(pwm_min) <= p <= m.(params).(pwm_max))%Z.
Proof.
  intros Hok Ha. destruct (pwm_ok_range m Hok) as (Hr & Hmax).
  unfold output_to_pwm.
  destruct (pwm_output_between m a Hok Ha) as [H0 | Hb].
  - exists 0%Z. split; [|by left]. by rewrite H0.
  - destruct (float_to_int16_between m.(params).(pwm_min)
                m.(params).(pwm_max) _ ltac:(lia) Hmax Hb)
      as (p & -> & Hp).
    exists p. by split; [|right].
Qed.

Lemma output_to_pwm_shut m a :
  in_int16 m.(params).(pwm_min) ->
  m.(spool).(spool_state) = SHUT_DOWN ->
  output_to_pwm m a
  = Some (if m.(params).(disarm_disable_pwm) && negb m.(inputs).(armed)
          then 0%Z else m.(params).(pwm_min)).
Proof.
  intros Hmin Hst. unfold output_to_pwm, pwm_output, get_pwm_output_min.
  rewrite decide_True by done.
  destruct (_ && _); [done | by apply float_to_int16_Z].
Qed.

(** ** Theorems *)

(** Whatever the input and the old value, the value that
    [set_actuator_with_slew] writes is a fraction: it lies in 0..1. *)
Theorem set_actuator_with_slew_range (m : Motors) (a input : Q) :
  0 < m.(inputs).(dt_s) -> 0 <= set_actuator_with_slew m a input <= 1.
Proof. intros Hdt. by apply set_actuator_with_slew_fraction. Qed.

(** C20: with a slew time for increasing output set, the output rises by at
    most [dt] over the slew time, the slew time taken as at most half a
    second; with one for decreasing output set it falls by at most [dt] over
    that time, taken as at most half a second as well. *)
Theorem set_actuator_with_slew_rate (m : Motors) (a input : Q) :
  0 < m.(inputs).(dt_s) -> 0 <= a <= 1 ->
  (is_positive m.(params).(slew_up_time) = true ->
   set_actuator_with_slew m a input - a
   <= m.(inputs).(dt_s) / slew_up_time_used m)
  /\ (is_positive m.(params).(slew_dn_time) = true ->
      a - set_actuator_with_slew m a input
      <= m.(inputs).(dt_s) / slew_dn_time_used m).
Proof.
  intros Hdt Ha. pose proof (set_actuator_with_slew_limits m Hdt a input) as H.
  split; intros Hp.
  - pose proof (slew_delta_up_pos m Hdt Hp).
    unfold output_slew_limit_up in H. rewrite Hp in H. cbv zeta in H.
    set (d := _ / _) in *.
    assert (constrain_float (a + d) 0 1 <= a + d)
      by (unfold constrain_float; qsolve).
    lra.
  - pose proof (slew_delta_dn_pos m Hdt Hp).
    unfold output_slew_limit_dn in H. rewrite Hp in H. cbv zeta in H.
    set (d := _ / _) in *.
    assert (a - d <= constrain_float (a - d) 0 1)
      by (unfold constrain_float; qsolve).
    lra.
Qed.

(** With both slew times at zero, their default, the method is the
    clamp of the input to 0..1. *)
Theorem set_actuator_with_slew_off (m : Motors) (a input : Q) :
  is_positive m.(params).(slew_up_time) = false ->
  is_positive m.(params).(slew_dn_time) = false ->
  set_actuator_with_slew m a input = constrain_float input 0 1.
Proof.
  intros Hu Hd.
  unfold set_actuator_with_slew, output_slew_limit_up, output_slew_limit_dn.
  by rewrite Hu, Hd.
Qed.

(** The slew clamp of the specification: with a slew time of 0.1 s and
    a period of 0.01 s an output of 0.2 asked to go to 0.9 goes to 0.3,
    then to 0.4, and reaches 0.9 after seven ticks. *)
Theorem slew_clamp_scenario :
  set_actuator_with_slew slew_motors 0.2 0.9 == 0.3
  /\ slew_toward slew_motors 0.9 2 0.2 == 0.4
  /\ slew_toward slew_motors 0.9 7 0.2 == 0.9
  /\ slew_toward slew_motors 0.9 8 0.2 == 0.9.
Proof. split_and!; by vm_compute. Qed.

(** A slew time above half a second is taken as half a second: with
    [slew_up_time = 1] and a period of 0.01 s the output rises by 0.02 in
    a tick, twice [dt / slew_up_time]. *)
Theorem slew_time_capped :
  set_actuator_with_slew slow_slew_motors 0.2 0.9 == 0.22
  /\ slow_slew_motors.(inputs).(dt_s) / slow_slew_motors.(params).(slew_up_time)
     < set_actuator_with_slew slow_slew_motors 0.2 0.9 - 0.2.
Proof. split; by vm_compute. Qed.

(** The actuator value of the spin-up ramp lies between zero and
    [spin_min]. *)
Theorem actuator_spin_up_to_ground_idle_range (m : Motors) :
  0 <= get_spin_min m ->
  0 <= actuator_spin_up_to_ground_idle m <= get_spin_min m.
Proof.
  intros H. unfold actuator_spin_up_to_ground_idle.
  pose proof (constrain_float_bounds m.(spool).(spin_up_ratio) 0 1). nra.
Qed.

(** C28: for valid PWM parameters and an actuator value in 0..1 the
    conversion is defined and the pulse width is zero or lies between
    [pwm_min] and [pwm_max]. *)
Theorem output_to_pwm_range (m : Motors) (a : Q) :
  pwm_ok m -> 0 <= a <= 1 ->
  exists p, output_to_pwm m a = Some p
    /\ (p = 0 \/ m.(params).(pwm_min) <= p <= m.(params).(pwm_max))%Z.
Proof. apply output_to_pwm_fraction. Qed.

(** In SHUT_DOWN the pulse width does not depend on the actuator
    value: it is zero when the PWM is disabled on disarm and the vehicle is
    disarmed, and [pwm_min] otherwise. *)
Theorem output_to_pwm_shut_down (m : Motors) (a : Q) :
  in_int16 m.(params).(pwm_min) ->
  m.(spool).(spool_state) = SHUT_DOWN ->
  output_to_pwm m a
  = Some (if m.(params).(disarm_disable_pwm) && negb m.(inputs).(armed)
          then 0%Z else m.(params).(pwm_min)).
Proof. apply output_to_pwm_shut. Qed.

(** Outside SHUT_DOWN the conversion maps 0 to [pwm_min] and 1 to
    [pwm_max], and is monotone in between. *)
Theorem output_to_pwm_endpoints (m : Motors) (a b : Q) :
  pwm_ok m -> m.(spool).(spool_state) <> SHUT_DOWN ->
  0 <= a -> a <= b -> b <= 1 ->
  output_to_pwm m 0 = Some m.(params).(pwm_min)
  /\ output_to_pwm m 1 = Some m.(params).(pwm_max)
  /\ exists p q, output_to_pwm m a = Some p /\ output_to_pwm m b = Some q
                 /\ (p <= q)%Z.
Proof.
  intros Hok Hst Ha Hab Hb. destruct (pwm_ok_range m Hok) as (Hr & Hmax).
  assert (in_int16 m.(params).(pwm_min) /\ in_int16 m.(params).(pwm_max))
    as [Hi Hj] by (unfold in_int16, INT16_MIN, INT16_MAX in *; lia).
  assert (forall x, 0 <= x -> 0 <= pwm_output m x) as Hpos.
  { intros x Hx. rewrite pwm_output_affine by done.
    assert (0 <= inject_Z m.(params).(pwm_min))
      by (change 0 with (inject_Z 0); rewrite <- Zle_Qle; lia).
    assert (0 <= inject_Z (m.(params).(pwm_max) - m.(params).(pwm_min)))
      by (change 0 with (inject_Z 0); rewrite <- Zle_Qle; lia).
    nra. }
  unfold output_to_pwm. split_and!.
  - rewrite pwm_output_affine by done.
    assert (inject_Z m.(params).(pwm_min)
            + inject_Z (m.(params).(pwm_max) - m.(params).(pwm_min)) * 0
            == inject_Z m.(params).(pwm_min)) as -> by ring.
    by apply float_to_int16_Z.
  - rewrite pwm_output_affine by done.
    assert (inject_Z m.(params).(pwm_min)
            + inject_Z (m.(params).(pwm_max) - m.(params).(pwm_min)) * 1
            == inject_Z m.(params).(pwm_max)) as ->
      by (rewrite inject_Z_sub; ring).
    by apply float_to_int16_Z.
  - destruct (float_to_int16_between m.(params).(pwm_min)
                m.(params).(pwm_max) (pwm_output m a) ltac:(lia) Hmax)
      as (p & Hp & _); [apply pwm_output_flying; (done || lra)|].
    destruct (float_to_int16_between m.(params).(pwm_min)
                m.(params).(pwm_max) (pwm_output m b) ltac:(lia) Hmax)
      as (q & Hq & _); [apply pwm_output_flying; (done || lra)|].
    exists p, q. split_and!; [done..|].
    unfold output_to_pwm, float_to_int16 in Hp, Hq.
    repeat case_decide; simplify_eq.
    apply Qtrunc_mono; [apply Hpos; lra|].
    rewrite !pwm_output_affine by done.
    assert (0 <= inject_Z (m.(params).(pwm_max) - m.(params).(pwm_min)))
      by (change 0 with (inject_Z 0); rewrite <- Zle_Qle; lia).
    nra.
Qed.

(** The conversion is undefined for an actuator value far out of
    range: with the default parameters an actuator value of 40 gives a
    float of 41000, which no [int16_t] holds. *)
Theorem output_to_pwm_overflow :
  pwm_output flying_motors 40 == 41000
  /\ output_to_pwm flying_motors 40 = None.
Proof. split; by vm_compute. Qed.

(** [get_raw_motor_throttle] refuses a motor number at or above the
    number of motors and a motor that is not enabled, and returns the
    actuator value constrained to 0..1 otherwise. *)
Theorem get_raw_motor_throttle_spec (m : Motors) (motor_num : nat) :
  match get_raw_motor_throttle m motor_num with
  | None =>
      (AP_MOTORS_MAX_NUM_MOTORS <= motor_num)%nat
      \/ m.(motor_enabled) !! motor_num <> Some true
  | Some thr_out =>
      (motor_num < AP_MOTORS_MAX_NUM_MOTORS)%nat
      /\ m.(motor_enabled) !! motor_num = Some true
      /\ 0 <= thr_out <= 1
  end.
Proof.
  unfold get_raw_motor_throttle. case_bool_decide; cbn; [by left|].
  destruct (motor_enabled m !! motor_num) as [[]|] eqn:E; cbn;
    [|by right..].
  split_and!; [lia | done | apply constrain_float_bounds; lra..].
Qed.

(** C29: a rising output arrives.  With a slew time for increasing output
    set, an output that is asked to rise to an input in 0..1 reaches the
    input after at least one call and at most the number of calls the step
    [dt / slew_up_time_used] needs to cover the distance, and one. *)
Theorem slew_reaches_input (m : Motors) (a input : Q) :
  0 < m.(inputs).(dt_s) ->
  is_positive m.(params).(slew_up_time) = true ->
  0 <= a <= input -> input <= 1 ->
  exists k,
    (1 <= k <= S (ticks_for (input - a)
                    (m.(inputs).(dt_s) / slew_up_time_used m)))%nat
    /\ slew_toward m input k a = input.
Proof.
  intros Hdt Hp Ha Hi. pose proof (slew_delta_up_pos m Hdt Hp) as Hd.
  apply (iter_n_progress (fun a => set_actuator_with_slew m a input)
           (fun a => 0 <= a <= input) (fun a => a = input)
           (fun a => input - a) _ Hd); [|done|by apply ticks_for_spec].
  intros s Hs.
  destruct (set_actuator_with_slew_rise m Hdt s input Hp Hs Hi); auto.
Qed.

(** ** Witnesses *)

Lemma slew_motors_dt : 0 < slew_motors.(inputs).(dt_s).
Proof. by vm_compute. Qed.

Lemma flying_pwm_ok : pwm_ok flying_motors.
Proof. split; by vm_compute. Qed.

Lemma set_actuator_with_slew_range_witness :
  0 <= set_actuator_with_slew slew_motors 0.2 5 <= 1.
Proof. apply set_actuator_with_slew_range, slew_motors_dt. Defined.

Lemma set_actuator_with_slew_rate_witness :
  (is_positive slew_motors.(params).(slew_up_time) = true ->
   set_actuator_with_slew slew_motors 0.2 0.9 - 0.2
   <= slew_motors.(inputs).(dt_s) / slew_up_time_used slew_motors)
  /\ (is_positive slew_motors.(params).(slew_dn_time) = true ->
      0.2 - set_actuator_with_slew slew_motors 0.2 0.9
      <= slew_motors.(inputs).(dt_s) / slew_dn_time_used slew_motors).
Proof.
  apply set_actuator_with_slew_rate; [apply slew_motors_dt | by vm_compute].
Defined.

Lemma set_actuator_with_slew_off_witness :
  set_actuator_with_slew flying_motors 0.2 0.9 = constrain_float 0.9 0 1.
Proof. apply set_actuator_with_slew_off; reflexivity. Defined.

Lemma slew_reaches_input_witness :
  exists k,
    (1 <= k <= S (ticks_for (0.9 - 0.2)
                    (slew_motors.(inputs).(dt_s)
                     / slew_up_time_used slew_motors)))%nat
    /\ slew_toward slew_motors 0.9 k 0.2 = 0.9.
Proof.
  apply slew_reaches_input;
    [apply slew_motors_dt | reflexivity | by vm_compute | by vm_compute].
Defined.

Lemma actuator_spin_up_to_ground_idle_range_witness :
  0 <= actuator_spin_up_to_ground_idle flying_motors
  <= get_spin_min flying_motors.
Proof. apply actuator_spin_up_to_ground_idle_range. by vm_compute. Defined.

Lemma output_to_pwm_range_witness :
  exists p, output_to_pwm flying_motors 0.5 = Some p
    /\ (p = 0 \/ flying_motors.(params).(pwm_min) <= p
                 <= flying_motors.(params).(pwm_max))%Z.
Proof.
  apply output_to_pwm_range; [apply flying_pwm_ok | by vm_compute].
Defined.

Lemma output_to_pwm_shut_down_witness :
  output_to_pwm init_motors 0.5
  = Some (if init_motors.(params).(disarm_disable_pwm)
             && negb init_motors.(inputs).(armed)
          then 0%Z else init_motors.(params).(pwm_min)).
Proof. apply output_to_pwm_shut_down; [by vm_compute | reflexivity]. Defined.

Lemma output_to_pwm_endpoints_witness :
  output_to_pwm flying_motors 0 = Some flying_motors.(params).(pwm_min)
  /\ output_to_pwm flying_motors 1 = Some flying_motors.(params).(pwm_max)
  /\ exists p q, output_to_pwm flying_motors 0.25 = Some p
                 /\ output_to_pwm flying_motors 0.75 = Some q /\ (p <= q)%Z.
Proof.
  apply output_to_pwm_endpoints;
    [apply flying_pwm_ok | done | by vm_compute..].
Defined.
