(* ===== verification/Throttle.v ===== *)
(** * The throttle: input filter and hover learning

    [update_throttle_filter] low-passes the pilot's throttle and keeps the
    result in 0..1; [update_throttle_hover] moves the hover throttle
    estimate toward the throttle in use; [save_params_on_disarm] stores the
    estimate.  The low-pass filter is the class [LowPassFilterFloat], which
    is not part of this repository: it is modelled by the update the
    specification gives, [y += dt / (dt + tc) * (x - y)].  The last lines of
    [update_throttle_filter] estimate the rate of change of the throttle
    with the derivative filter [_throttle_slew], a class outside this
    repository as well: what the method calls of it is the interface
    [DerivativeFilter], over the samples the filter holds. *)

From Stdlib Require Import QArith Qabs ZArith Lqa Lia.
From stdpp Require Import base decidable option list.
From S2P Require Import Prelude State Vehicle.

#[local] Open Scope state_scope.

(** ** Definitions *)

(** [LowPassFilterFloat::apply(sample, dt)] and [reset(value)]. *)
Definition lpf_alpha (f : LowPassFilter) (dt : Q) : Q := dt / (dt + f.(lpf_tc)).

Definition lpf_apply (sample dt : Q) (f : LowPassFilter) : LowPassFilter :=
  mkLPF (f.(lpf_output) + (sample - f.(lpf_output)) * lpf_alpha f dt)
    f.(lpf_tc).

Definition lpf_reset (value : Q) (f : LowPassFilter) : LowPassFilter :=
  mkLPF value f.(lpf_tc).

(** What the class calls of [DerivativeFilterFloat_Size7]:
    [update(sample, timestamp)] and [slope()], on the samples held. *)
Class DerivativeFilter := {
  df_update : Q -> Z -> list (Q * Z) -> list (Q * Z);
  df_slope : list (Q * Z) -> Q;
}.

(** The members of [ThrottleSlew], written one at a time. *)
Definition set_throttle_slew (v : list (Q * Z)) : Motors -> Motors :=
  fun m => set_slew (mkSlew v m.(slew).(throttle_slew_filter)
                       m.(slew).(throttle_slew_rate)) m.

Definition set_throttle_slew_rate (f : LowPassFilter) : Motors -> Motors :=
  fun m => set_slew (mkSlew m.(slew).(throttle_slew) f f.(lpf_output)) m.

(** The first part of [update_throttle_filter()]: the filtered throttle. *)
Definition filter_throttle : State Motors unit :=
  is_armed ← gets (fun m : Motors => m.(inputs).(armed));
  if is_armed then
    modify (fun m : Motors =>
      set_throttle_filter
        (lpf_apply m.(inputs).(throttle_in) m.(inputs).(dt_s)
           m.(throttle_filter)) m);;
    out ← gets (fun m : Motors => m.(throttle_filter).(lpf_output));
    when (bool_decide (out < 0))
      (modify (fun m : Motors =>
         set_throttle_filter (lpf_reset 0 m.(throttle_filter)) m));;
    out' ← gets (fun m : Motors => m.(throttle_filter).(lpf_output));
    when (bool_decide (1 < out'))
      (modify (fun m : Motors =>
         set_throttle_filter (lpf_reset 1 m.(throttle_filter)) m))
  else
    modify (fun m : Motors =>
      set_throttle_filter (lpf_reset 0 m.(throttle_filter)) m).

(** [fabsf(_throttle_slew.slope() * 1e6)]: the slope per second. *)
Definition slew_rate_sample `{DerivativeFilter} (m : Motors) : Q :=
  Qabs (df_slope m.(slew).(throttle_slew) * 1000000).

(** Its last part: a changed throttle is a new sample of the derivative
    filter, and the slope of the filter is filtered into the rate. *)
Definition update_throttle_slew `{DerivativeFilter} (last_thr : Q)
    : State Motors unit :=
  new_thr ← gets (fun m : Motors => m.(throttle_filter).(lpf_output));
  when (negb (is_equal last_thr new_thr))
    (modify (fun m : Motors =>
       set_throttle_slew
         (df_update new_thr m.(inputs).(micros) m.(slew).(throttle_slew)) m));;
  modify (fun m : Motors =>
    set_throttle_slew_rate
      (lpf_apply (slew_rate_sample m) m.(inputs).(dt_s)
         m.(slew).(throttle_slew_filter)) m).

(** [update_throttle_filter()] *)
Definition update_throttle_filter `{DerivativeFilter} : State Motors unit :=
  last_thr ← gets (fun m : Motors => m.(throttle_filter).(lpf_output));
  filter_throttle;;
  update_throttle_slew last_thr.

(** A derivative filter of two samples: the difference quotient of the
    last two, and zero before there are two. *)
Definition two_point : DerivativeFilter :=
  {| df_update := fun sample timestamp l =>
       match l with
       | (_, t) :: _ =>
         if (t =? timestamp)%Z then l else take 2 ((sample, timestamp) :: l)
       | [] => [(sample, timestamp)]
       end;
     df_slope := fun l =>
       match l with
       | (x1, t1) :: (x0, t0) :: _ => (x1 - x0) / inject_Z (t1 - t0)
       | _ => 0
       end |}.

(** What [update_throttle_slew] leaves in [slew], as a function of the
    object it starts from. *)
Definition next_slew `{DerivativeFilter} (last_thr : Q) (m : Motors)
    : ThrottleSlew :=
  let new_thr := m.(throttle_filter).(lpf_output) in
  let samples :=
    if is_equal last_thr new_thr then m.(slew).(throttle_slew)
    else df_update new_thr m.(inputs).(micros) m.(slew).(throttle_slew) in
  let f :=
    lpf_apply (Qabs (df_slope samples * 1000000)) m.(inputs).(dt_s)
      m.(slew).(throttle_slew_filter) in
  mkSlew samples f f.(lpf_output).

(** [(1 - g)^n]: the share of its distance to a constant input that a
    first-order filter of gain [g] has left after [n] steps. *)
Fixpoint decay (g : Q) (n : nat) : Q :=
  match n with
  | O => 1
  | S n' => (1 - g) * decay g n'
  end.

(** The object [m] after [n] calls of [update_throttle_filter] with the
    inputs left as they are. *)
Definition filter_ticks `{DerivativeFilter} (n : nat) (m : Motors) : Motors :=
  iter_n n (exec update_throttle_filter) m.

(** A vehicle at rest: disarmed, with the filtered throttle at zero. *)
Definition at_rest (m : Motors) : Prop :=
  m.(inputs).(armed) = false
  /\ is_equal m.(throttle_filter).(lpf_output) 0 = true.

(** The rate is the output of its filter and is not negative. *)
Definition slew_ok (m : Motors) : Prop :=
  m.(slew).(throttle_slew_rate) = m.(slew).(throttle_slew_filter).(lpf_output)
  /\ 0 <= m.(slew).(throttle_slew_filter).(lpf_output)
  /\ 0 <= m.(slew).(throttle_slew_filter).(lpf_tc).

(** The value [update_throttle_hover] gives the estimate when learning is
    enabled. *)
Definition next_throttle_hover (m : Motors) (dt : Q) : Q :=
  constrain_float
    (m.(params).(throttle_hover)
     + dt / (dt + AP_MOTORS_THST_HOVER_TC)
       * (get_throttle m - m.(params).(throttle_hover)))
    AP_MOTORS_THST_HOVER_MIN AP_MOTORS_THST_HOVER_MAX.

(** [update_throttle_hover(dt)] *)
Definition update_throttle_hover (dt : Q) : State Motors unit :=
  learn ← gets (fun m : Motors =>
    bool_decide (m.(params).(throttle_hover_learn) <> HOVER_LEARN_DISABLED));
  when learn
    (modify (fun m : Motors =>
       set_throttle_hover
         (constrain_float
            (m.(params).(throttle_hover)
             + dt / (dt + AP_MOTORS_THST_HOVER_TC)
               * (get_throttle m - m.(params).(throttle_hover)))
            AP_MOTORS_THST_HOVER_MIN AP_MOTORS_THST_HOVER_MAX) m)).

(** [save_params_on_disarm()] *)
Definition save_params_on_disarm : State Vehicle unit :=
  save ← gets (fun v : Vehicle =>
    bool_decide (v.(motors).(params).(throttle_hover_learn)
                 = HOVER_LEARN_AND_SAVE));
  when save
    (modify (fun v : Vehicle =>
       upd_store (fun s =>
         mkStore (Some v.(motors).(params).(throttle_hover))
           s.(stored_pwm_min) s.(stored_pwm_max)) v)).

(** The hover throttle is within the range of the learner. *)
Definition hover_in_range (m : Motors) : Prop :=
  AP_MOTORS_THST_HOVER_MIN <= m.(params).(throttle_hover)
  <= AP_MOTORS_THST_HOVER_MAX.

(** Example objects: in flight at 60 % throttle with a filter of 0.1 s,
    and with learning disabled. *)
Definition cruising_motors : Motors :=
  set_throttle_in 0.8 (set_throttle_filter (mkLPF 0.6 0.1) flying_motors).

Definition set_throttle_hover_learn (v : Z) : Motors -> Motors :=
  upd_params (fun p =>
    mkParams p.(yaw_headroom) p.(batt_current_max) p.(pwm_type)
      p.(pwm_min) p.(pwm_max) p.(pwm_min_configured)
      p.(pwm_max_configured) p.(spin_arm) p.(batt_current_time_constant)
      p.(throttle_hover) v p.(disarm_disable_pwm)
      p.(yaw_servo_angle_max_deg) p.(spool_up_time) p.(boost_scale)
      p.(slew_up_time) p.(slew_dn_time) p.(safe_time) p.(options)
      p.(spool_down_time)).

Definition not_learning_motors : Motors :=
  set_throttle_hover_learn HOVER_LEARN_DISABLED cruising_motors.

(** Disarmed in flight a tick ago: the step of the filtered throttle from
    0.6 to zero within 2500 microseconds is the newest sample of the
    derivative filter. *)
Definition just_disarmed : Motors :=
  set_slew (mkSlew [(0, 2500%Z); (0.6, 0%Z)] (mkLPF 0 0.1) 0)
    (set_micros 5000
       (set_throttle_filter (mkLPF 0 0.1)
          (set_armed false cruising_motors))).

#[export] Hint Unfold lpf_alpha lpf_apply lpf_reset next_throttle_hover
  : motors.

(** ** Lemmas *)

(** The gain of a filter is a fraction. *)
Lemma lpf_alpha_bounds f dt :
  0 < dt -> 0 <= f.(lpf_tc) -> 0 < lpf_alpha f dt <= 1.
Proof.
  intros Hdt Htc. unfold lpf_alpha. split.
  - apply Qdiv_pos; lra.
  - apply Qle_shift_div_r; lra.
Qed.

Lemma hover_gain_bounds dt :
  0 < dt -> 0 < dt / (dt + AP_MOTORS_THST_HOVER_TC) < 1.
Proof.
  intros Hdt. unfold AP_MOTORS_THST_HOVER_TC. split.
  - apply Qdiv_pos; lra.
  - apply Qlt_shift_div_r; lra.
Qed.

(** A step of a first-order filter ends between its start and its
    target. *)
Lemma filter_step_between x y g :
  0 <= g <= 1 ->
  (y <= x -> y <= y + (x - y) * g <= x)
  /\ (x <= y -> x <= y + (x - y) * g <= y).
Proof. intros Hg. split; intros H; nra. Qed.

(** The methods as functions of the object. *)
Lemma filter_throttle_disarmed_eq m :
  m.(inputs).(armed) = false ->
  exec filter_throttle m
  = set_throttle_filter (lpf_reset 0 m.(throttle_filter)) m.
Proof. intros H. unfold filter_throttle. run_exec; done. Qed.

Lemma filter_throttle_output m :
  m.(inputs).(armed) = true ->
  (exec filter_throttle m).(throttle_filter).(lpf_output)
  = constrain_float
      (lpf_apply m.(inputs).(throttle_in) m.(inputs).(dt_s)
         m.(throttle_filter)).(lpf_output) 0 1.
Proof.
  intros H. unfold filter_throttle, constrain_float.
  run_exec; try done; lra.
Qed.

Lemma filter_throttle_frame m :
  let m' := exec filter_throttle m in
  m'.(params) = m.(params) /\ m'.(inputs) = m.(inputs)
  /\ m'.(spool) = m.(spool) /\ m'.(thr_lin) = m.(thr_lin)
  /\ m'.(limit) = m.(limit) /\ m'.(throttle_limit) = m.(throttle_limit)
  /\ m'.(actuator) = m.(actuator)
  /\ m'.(motor_enabled) = m.(motor_enabled)
  /\ m'.(motor_mask_override) = m.(motor_mask_override)
  /\ m'.(throttle_filter).(lpf_tc) = m.(throttle_filter).(lpf_tc)
  /\ m'.(slew) = m.(slew).
Proof. unfold filter_throttle. run_exec; done. Qed.

Section Slew.

Context `{DerivativeFilter}.

Lemma update_throttle_slew_eq last_thr m :
  exec (update_throttle_slew last_thr) m = set_slew (next_slew last_thr m) m.
Proof.
  unfold update_throttle_slew, next_slew, slew_rate_sample.
  rewrite exec_bind, eval_gets, exec_gets, exec_bind, exec_when, exec_modify.
  by destruct (is_equal _ _).
Qed.

(** The method is its first part followed by a write of [slew]. *)
Lemma update_throttle_filter_eq m :
  exec update_throttle_filter m
  = set_slew
      (next_slew m.(throttle_filter).(lpf_output) (exec filter_throttle m))
      (exec filter_throttle m).
Proof.
  unfold update_throttle_filter.
  by rewrite exec_bind, eval_gets, exec_gets, exec_bind,
    update_throttle_slew_eq.
Qed.

Lemma update_throttle_filter_disarmed_eq m :
  m.(inputs).(armed) = false ->
  (exec update_throttle_filter m).(throttle_filter)
  = lpf_reset 0 m.(throttle_filter).
Proof.
  intros Ha. by rewrite update_throttle_filter_eq, filter_throttle_disarmed_eq.
Qed.

Lemma update_throttle_filter_output m :
  m.(inputs).(armed) = true ->
  (exec update_throttle_filter m).(throttle_filter).(lpf_output)
  = constrain_float
      (lpf_apply m.(inputs).(throttle_in) m.(inputs).(dt_s)
         m.(throttle_filter)).(lpf_output) 0 1.
Proof.
  intros Ha. rewrite update_throttle_filter_eq. by apply filter_throttle_output.
Qed.

Lemma update_throttle_filter_frame m :
  let m' := exec update_throttle_filter m in
  m'.(params) = m.(params) /\ m'.(inputs) = m.(inputs)
  /\ m'.(spool) = m.(spool) /\ m'.(thr_lin) = m.(thr_lin)
  /\ m'.(limit) = m.(limit) /\ m'.(throttle_limit) = m.(throttle_limit)
  /\ m'.(actuator) = m.(actuator)
  /\ m'.(motor_enabled) = m.(motor_enabled)
  /\ m'.(motor_mask_override) = m.(motor_mask_override)
  /\ m'.(throttle_filter).(lpf_tc) = m.(throttle_filter).(lpf_tc).
Proof.
  cbv zeta. rewrite update_throttle_filter_eq.
  destruct (filter_throttle_frame m)
    as (? & ? & ? & ? & ? & ? & ? & ? & ? & ? & _).
  by split_and!.
Qed.

(** A filter fed a sample that is not negative keeps an output that is
    not negative. *)
Lemma lpf_apply_nonneg sample dt f :
  0 < dt -> 0 <= f.(lpf_tc) -> 0 <= sample -> 0 <= f.(lpf_output) ->
  0 <= (lpf_apply sample dt f).(lpf_output).
Proof.
  intros Hdt Htc Hs Ho. pose proof (lpf_alpha_bounds f dt Hdt Htc) as Hg.
  cbn [lpf_apply lpf_output]. nra.
Qed.

Lemma decay_bounds g n : 0 <= g <= 1 -> 0 <= decay g n <= 1.
Proof. intros Hg. induction n as [|n IH]; cbn [decay]; [lra | nra]. Qed.

(** A tick at rest: the throttle stays at zero and the derivative filter
    is given no sample, so the rate is filtered toward the same slope. *)
Lemma at_rest_tick m :
  at_rest m ->
  let m' := exec update_throttle_filter m in
  at_rest m' /\ m'.(inputs) = m.(inputs)
  /\ m'.(slew).(throttle_slew) = m.(slew).(throttle_slew)
  /\ m'.(slew).(throttle_slew_filter)
     = lpf_apply (slew_rate_sample m) m.(inputs).(dt_s)
         m.(slew).(throttle_slew_filter).
Proof.
  intros [Ha Heq]. cbv zeta.
  rewrite update_throttle_filter_eq, filter_throttle_disarmed_eq by done.
  unfold at_rest, next_slew.
  cbn [set_slew set_throttle_filter inputs throttle_filter slew lpf_reset
       lpf_output throttle_slew throttle_slew_filter].
  rewrite Heq. by split_and!.
Qed.

(** [n] ticks at rest: the output of the filter of the rate keeps the
    share [decay g n] of its distance to the slope of the samples. *)
Lemma at_rest_run n m :
  at_rest m ->
  let m' := filter_ticks n m in
  at_rest m' /\ m'.(inputs) = m.(inputs)
  /\ m'.(slew).(throttle_slew) = m.(slew).(throttle_slew)
  /\ m'.(slew).(throttle_slew_filter).(lpf_tc)
     = m.(slew).(throttle_slew_filter).(lpf_tc)
  /\ m'.(slew).(throttle_slew_filter).(lpf_output) - slew_rate_sample m
     == decay (lpf_alpha m.(slew).(throttle_slew_filter) m.(inputs).(dt_s)) n
        * (m.(slew).(throttle_slew_filter).(lpf_output) - slew_rate_sample m).
Proof.
  intros Hr. cbv zeta. unfold filter_ticks.
  induction n as [|n (Hr' & Hi & Hs & Htc & Ho)].
  - cbn [iter_n decay]. split_and!; try done. ring.
  - rewrite iter_n_S.
    destruct (at_rest_tick _ Hr') as (Hr'' & Hi' & Hs' & Hf).
    rewrite Hi', Hs', Hf, Hi. split_and!; try done.
    cbn [lpf_apply lpf_output decay]. unfold slew_rate_sample, lpf_alpha in *.
    rewrite Hs, Htc.
    set (g := _ / _) in *. set (c := Qabs _) in *.
    set (o := lpf_output (throttle_slew_filter (slew (iter_n n _ m)))) in *.
    transitivity ((1 - g) * (o - c)); [ring | rewrite Ho; ring].
Qed.

Lemma next_slew_ok last_thr m :
  0 < m.(inputs).(dt_s) -> slew_ok m ->
  slew_ok (set_slew (next_slew last_thr m) m).
Proof.
  intros Hdt (Hr & Ho & Htc). split_and!; [done| |done].
  apply lpf_apply_nonneg; [done..| apply Qabs_nonneg | done].
Qed.

End Slew.

Lemma update_throttle_hover_eq dt m :
  exec (update_throttle_hover dt) m
  = if bool_decide (m.(params).(throttle_hover_learn) <> HOVER_LEARN_DISABLED)
    then set_throttle_hover (next_throttle_hover m dt) m
    else m.
Proof. unfold update_throttle_hover. run_exec; done. Qed.

Lemma next_throttle_hover_bounds m dt :
  AP_MOTORS_THST_HOVER_MIN <= next_throttle_hover m dt
  <= AP_MOTORS_THST_HOVER_MAX.
Proof. apply constrain_float_bounds. by vm_compute. Qed.

(** ** Theorems *)

Section Filter.

Context `{DerivativeFilter}.

(** C23: a disarmed vehicle has no throttle: when [armed()] is false,
    [update_throttle_filter] leaves the filtered throttle at zero, whatever
    the pilot's input and the state of the filter. *)
Theorem update_throttle_filter_disarmed (m : Motors) :
  m.(inputs).(armed) = false ->
  (exec update_throttle_filter m).(throttle_filter).(lpf_output) = 0
  /\ get_throttle (exec update_throttle_filter m) = 0.
Proof.
  intros Ha. unfold get_throttle.
  rewrite update_throttle_filter_disarmed_eq by done.
  split; [done | by vm_compute].
Qed.

(** C24: after [update_throttle_filter] the filtered throttle lies in 0..1,
    whatever the input, the period and the state of the filter before. *)
Theorem update_throttle_filter_range (m : Motors) :
  0 <= (exec update_throttle_filter m).(throttle_filter).(lpf_output) <= 1.
Proof.
  destruct (armed (inputs m)) eqn:Ha.
  - rewrite update_throttle_filter_output by done.
    apply constrain_float_bounds. lra.
  - rewrite update_throttle_filter_disarmed_eq by done. cbn. lra.
Qed.

(** When armed, with a filtered throttle and an input in 0..1, the
    filter moves the throttle toward the input by the share
    [dt / (dt + tc)] of the distance, and not beyond it. *)
Theorem update_throttle_filter_step (m : Motors) :
  m.(inputs).(armed) = true ->
  0 < m.(inputs).(dt_s) -> 0 <= m.(throttle_filter).(lpf_tc) ->
  0 <= m.(throttle_filter).(lpf_output) <= 1 ->
  0 <= m.(inputs).(throttle_in) <= 1 ->
  (exec update_throttle_filter m).(throttle_filter).(lpf_output)
  == m.(throttle_filter).(lpf_output)
     + (m.(inputs).(throttle_in) - m.(throttle_filter).(lpf_output))
       * lpf_alpha m.(throttle_filter) m.(inputs).(dt_s).
Proof.
  intros Ha Hdt Htc Ho Hi. rewrite update_throttle_filter_output by done.
  pose proof (lpf_alpha_bounds _ _ Hdt Htc) as Hg.
  destruct (filter_step_between m.(inputs).(throttle_in)
              m.(throttle_filter).(lpf_output)
              (lpf_alpha m.(throttle_filter) m.(inputs).(dt_s))) as [H1 H2];
    [lra|].
  cbn [lpf_apply lpf_output]. rewrite constrain_float_id; [done|].
  destruct (Qlt_le_dec m.(inputs).(throttle_in)
              m.(throttle_filter).(lpf_output)); lra.
Qed.

(** The rate of change of the throttle is the output of its filter and is
    never negative: [update_throttle_filter] keeps [slew_ok]. *)
Theorem update_throttle_filter_slew_ok (m : Motors) :
  0 < m.(inputs).(dt_s) -> slew_ok m ->
  slew_ok (exec update_throttle_filter m).
Proof.
  intros Hdt Hs. rewrite update_throttle_filter_eq.
  destruct (filter_throttle_frame m)
    as (_ & Hi & _ & _ & _ & _ & _ & _ & _ & _ & Hsl).
  apply next_slew_ok; [by rewrite Hi|]. unfold slew_ok. by rewrite Hsl.
Qed.

(** The derivative filter is given a sample only when the filtered
    throttle has changed: while it rests, within [FLT_EPSILON], the samples
    stay, so the rate is filtered toward the slope of the old samples, not
    toward zero. *)
Theorem update_throttle_filter_at_rest (m : Motors) :
  let m' := exec update_throttle_filter m in
  is_equal m.(throttle_filter).(lpf_output)
    m'.(throttle_filter).(lpf_output) = true ->
  m'.(slew).(throttle_slew) = m.(slew).(throttle_slew)
  /\ m'.(slew).(throttle_slew_rate)
     = (lpf_apply (slew_rate_sample m) m.(inputs).(dt_s)
          m.(slew).(throttle_slew_filter)).(lpf_output).
Proof.
  cbv zeta. rewrite update_throttle_filter_eq.
  destruct (filter_throttle_frame m)
    as (_ & Hi & _ & _ & _ & _ & _ & _ & _ & _ & Hsl).
  cbn [throttle_filter slew set_slew next_slew throttle_slew
       throttle_slew_rate].
  intros ->. by rewrite Hi, Hsl.
Qed.

(** A throttle that has changed is a new sample, with the clock of the
    tick. *)
Theorem update_throttle_filter_sample (m : Motors) :
  let m' := exec update_throttle_filter m in
  is_equal m.(throttle_filter).(lpf_output)
    m'.(throttle_filter).(lpf_output) = false ->
  m'.(slew).(throttle_slew)
  = df_update m'.(throttle_filter).(lpf_output) m.(inputs).(micros)
      m.(slew).(throttle_slew).
Proof.
  cbv zeta. rewrite update_throttle_filter_eq.
  destruct (filter_throttle_frame m)
    as (_ & Hi & _ & _ & _ & _ & _ & _ & _ & _ & Hsl).
  cbn [throttle_filter slew set_slew next_slew throttle_slew].
  intros ->. by rewrite Hi, Hsl.
Qed.

(** C40: at rest the rate of the throttle does not return to zero.  While
    the vehicle is disarmed with the filtered throttle at zero, the
    derivative filter is given no sample, and after [n] ticks the output
    of the filter of the rate has kept the share [(1 - g)^n] of its
    distance to the slope of the samples it held when the rest began: the
    rate tends to that slope, which is the slope of the last change of
    the throttle. *)
Theorem slew_rate_at_rest (n : nat) (m : Motors) :
  at_rest m -> 0 < m.(inputs).(dt_s) ->
  0 <= m.(slew).(throttle_slew_filter).(lpf_tc) ->
  let m' := filter_ticks n m in
  let g := lpf_alpha m.(slew).(throttle_slew_filter) m.(inputs).(dt_s) in
  m'.(slew).(throttle_slew) = m.(slew).(throttle_slew)
  /\ m'.(slew).(throttle_slew_filter).(lpf_output) - slew_rate_sample m
     == decay g n
        * (m.(slew).(throttle_slew_filter).(lpf_output) - slew_rate_sample m)
  /\ 0 <= decay g n <= 1.
Proof.
  intros Hr Hdt Htc. cbv zeta.
  destruct (at_rest_run n m Hr) as (_ & _ & Hs & _ & Ho).
  split; [done|]. split; [done|].
  apply decay_bounds. pose proof (lpf_alpha_bounds _ _ Hdt Htc). lra.
Qed.

End Filter.

(** C25: the learner keeps the hover throttle within 0.125..0.6875: from a
    value in the range, [update_throttle_hover] leaves one in the range,
    whatever the throttle, the period and the learning mode. *)
Theorem update_throttle_hover_range (dt : Q) (m : Motors) :
  hover_in_range m -> hover_in_range (exec (update_throttle_hover dt) m).
Proof.
  intros H. rewrite update_throttle_hover_eq. case_bool_decide; [|done].
  apply next_throttle_hover_bounds.
Qed.

(** With learning disabled [update_throttle_hover] changes nothing. *)
Theorem update_throttle_hover_disabled (dt : Q) (m : Motors) :
  m.(params).(throttle_hover_learn) = HOVER_LEARN_DISABLED ->
  exec (update_throttle_hover dt) m = m.
Proof.
  intros H. rewrite update_throttle_hover_eq. by rewrite H.
Qed.

(** With learning enabled the estimate moves toward the throttle in
    use and not beyond it: it ends between its old value and the throttle,
    as far as the range of the learner allows. *)
Theorem update_throttle_hover_toward (dt : Q) (m : Motors) :
  0 < dt -> hover_in_range m ->
  m.(params).(throttle_hover_learn) <> HOVER_LEARN_DISABLED ->
  let h := m.(params).(throttle_hover) in
  let h' := (exec (update_throttle_hover dt) m).(params).(throttle_hover) in
  (h <= get_throttle m -> h <= h' <= get_throttle m)
  /\ (get_throttle m <= h -> get_throttle m <= h' <= h).
Proof.
  intros Hdt Hr Hl. rewrite update_throttle_hover_eq.
  rewrite bool_decide_eq_true_2 by done. cbn zeta.
  pose proof (hover_gain_bounds dt Hdt) as Hg.
  destruct (filter_step_between (get_throttle m) m.(params).(throttle_hover)
              (dt / (dt + AP_MOTORS_THST_HOVER_TC))) as [H1 H2]; [lra|].
  unfold hover_in_range in Hr.
  replace (throttle_hover (params (set_throttle_hover _ m)))
    with (next_throttle_hover m dt) by done.
  unfold next_throttle_hover, constrain_float.
  split; intros H; [specialize (H1 H) | specialize (H2 H)];
    rewrite Qmult_comm in *; qsolve.
Qed.

(** The learner writes the hover throttle and nothing else, and the
    hover throttle the other methods read is the value it wrote. *)
Theorem update_throttle_hover_frame (dt : Q) (m : Motors) :
  let m' := exec (update_throttle_hover dt) m in
  m'.(spool) = m.(spool) /\ m'.(inputs) = m.(inputs)
  /\ m'.(thr_lin) = m.(thr_lin) /\ m'.(throttle_filter) = m.(throttle_filter)
  /\ m'.(throttle_limit) = m.(throttle_limit)
  /\ m'.(limit) = m.(limit) /\ m'.(actuator) = m.(actuator)
  /\ (hover_in_range m ->
      get_throttle_hover m' = m'.(params).(throttle_hover)).
Proof.
  cbn zeta. rewrite update_throttle_hover_eq.
  case_bool_decide; split_and!; try done; intros Hr;
    unfold get_throttle_hover; apply constrain_float_id; [|done].
  apply next_throttle_hover_bounds.
Qed.

(** [save_params_on_disarm] stores the hover throttle when the learning
    mode is learn-and-save, and writes nothing otherwise; the object is not
    changed. *)
Theorem save_params_on_disarm_spec (v : Vehicle) :
  let v' := exec save_params_on_disarm v in
  v'.(motors) = v.(motors) /\ v'.(servo) = v.(servo)
  /\ v'.(store).(stored_throttle_hover)
     = (if bool_decide (v.(motors).(params).(throttle_hover_learn)
                        = HOVER_LEARN_AND_SAVE)
        then Some v.(motors).(params).(throttle_hover)
        else v.(store).(stored_throttle_hover)).
Proof. unfold save_params_on_disarm. run_exec; done. Qed.

(** ** Witnesses *)

Lemma cruising_hover_in_range : hover_in_range cruising_motors.
Proof. split; by vm_compute. Qed.

Lemma update_throttle_filter_disarmed_witness :
  (exec (@update_throttle_filter two_point)
     (set_armed false cruising_motors)).(throttle_filter).(lpf_output) = 0
  /\ get_throttle (exec (@update_throttle_filter two_point)
                     (set_armed false cruising_motors)) = 0.
Proof. apply (@update_throttle_filter_disarmed two_point). reflexivity. Defined.

Lemma update_throttle_filter_step_witness :
  (exec (@update_throttle_filter two_point)
     cruising_motors).(throttle_filter).(lpf_output)
  == 0.6 + (0.8 - 0.6)
           * lpf_alpha cruising_motors.(throttle_filter)
               cruising_motors.(inputs).(dt_s).
Proof.
  apply (@update_throttle_filter_step two_point);
    [reflexivity | by vm_compute..].
Defined.

Lemma update_throttle_filter_at_rest_witness :
  (exec (@update_throttle_filter two_point)
     just_disarmed).(slew).(throttle_slew)
  = just_disarmed.(slew).(throttle_slew)
  /\ (exec (@update_throttle_filter two_point)
        just_disarmed).(slew).(throttle_slew_rate)
     = (lpf_apply (@slew_rate_sample two_point just_disarmed)
          just_disarmed.(inputs).(dt_s)
          just_disarmed.(slew).(throttle_slew_filter)).(lpf_output).
Proof.
  apply (@update_throttle_filter_at_rest two_point just_disarmed).
  by vm_compute.
Defined.

Lemma slew_rate_at_rest_witness :
  let g := lpf_alpha just_disarmed.(slew).(throttle_slew_filter)
             just_disarmed.(inputs).(dt_s) in
  (@filter_ticks two_point 2 just_disarmed).(slew).(throttle_slew)
  = [(0, 2500%Z); (0.6, 0%Z)]
  /\ (@filter_ticks two_point 2
        just_disarmed).(slew).(throttle_slew_filter).(lpf_output)
     - @slew_rate_sample two_point just_disarmed
     == decay g 2 * (0 - @slew_rate_sample two_point just_disarmed)
  /\ 0 <= decay g 2 <= 1.
Proof.
  apply (@slew_rate_at_rest two_point 2 just_disarmed);
    [split; by vm_compute | by vm_compute..].
Defined.

(** In the example the slope held is 240 per second, and two ticks at
    rest leave the rate above zero. *)
Lemma just_disarmed_rate :
  @slew_rate_sample two_point just_disarmed == 240
  /\ 0 < (@filter_ticks two_point 2 just_disarmed).(slew).(throttle_slew_rate).
Proof. split; by vm_compute. Qed.

Lemma cruising_slew_ok : slew_ok cruising_motors.
Proof. by vm_compute. Qed.

Lemma update_throttle_filter_slew_ok_witness :
  slew_ok (exec (@update_throttle_filter two_point) cruising_motors).
Proof.
  apply (@update_throttle_filter_slew_ok two_point);
    [by vm_compute | apply cruising_slew_ok].
Defined.

Lemma update_throttle_hover_range_witness :
  hover_in_range (exec (update_throttle_hover 0.01) cruising_motors).
Proof. apply update_throttle_hover_range, cruising_hover_in_range. Defined.

Lemma update_throttle_hover_disabled_witness :
  exec (update_throttle_hover 0.01) not_learning_motors = not_learning_motors.
Proof. apply update_throttle_hover_disabled. reflexivity. Defined.

Lemma update_throttle_hover_toward_witness :
  let h := cruising_motors.(params).(throttle_hover) in
  let h' := (exec (update_throttle_hover 0.01)
               cruising_motors).(params).(throttle_hover) in
  (h <= get_throttle cruising_motors -> h <= h' <= get_throttle cruising_motors)
  /\ (get_throttle cruising_motors <= h ->
      get_throttle cruising_motors <= h' <= h).
Proof.
  apply update_throttle_hover_toward;
    [by vm_compute | apply cruising_hover_in_range | by vm_compute].
Defined.
