(* ===== verification/Thrust.v ===== *)
(** * The thrust of a motor: [get_thrust]

    [get_thrust] reads back the thrust a motor is asked for, from its
    actuator value.  It undoes the thrust curve and the battery
    compensation of the member [thr_lin], a class that is not part of this
    repository: what the method needs of it is the interface
    [ThrustLinearizer], and what it may rely on are the laws
    [ThrustLinearizerLaws].  [linear_thrust] is the linearizer with a
    straight curve and no battery compensation; it obeys the laws. *)

From Stdlib Require Import QArith ZArith Lqa Lia.
From stdpp Require Import base decidable option list.
From S2P Require Import Prelude State.

#[local] Open Scope state_scope.

(** ** Definitions *)

(** What the class calls of [thr_lin]. *)
Class ThrustLinearizer := {
  update_lift_max_from_batt_voltage : State Motors unit;
  thrust_to_actuator : Motors -> Q -> Q;
  actuator_to_thrust : Motors -> Q -> Q;
  get_compensation_gain : Motors -> Q;
}.

(** The two members [update_lift_max_from_batt_voltage] derives. *)
Definition set_lift_max (l f : Q) : Motors -> Motors :=
  upd_thr_lin (fun t =>
    mkThrLin t.(curve_expo) t.(spin_min) t.(spin_max) t.(batt_voltage_max)
      t.(batt_voltage_min) t.(batt_idx) l f).

(** The members of [thr_lin] a thrust can be read back with: a spin range
    that is not empty, a curve exponent in -1..1 and a positive lift. *)
Record thrust_ok (m : Motors) : Prop := {
  spin_range : get_spin_min m < get_spin_max m;
  expo_range : -1 <= m.(thr_lin).(curve_expo) <= 1;
  lift_pos : 0 < get_lift_max m;
}.

(** What the class relies on: the update of the lift writes the two derived
    members only; the curve maps 0..1 into the spin range and
    [actuator_to_thrust] is its inverse for a thrust the lift allows; the
    gain is positive. *)
Class ThrustLinearizerLaws `{ThrustLinearizer} : Prop := {
  lift_max_writes m :
    exists l f, exec update_lift_max_from_batt_voltage m = set_lift_max l f m;
  thrust_to_actuator_range m t :
    get_spin_min m <= get_spin_max m ->
    -1 <= m.(thr_lin).(curve_expo) <= 1 -> 0 <= t <= 1 ->
    get_spin_min m <= thrust_to_actuator m t <= get_spin_max m;
  actuator_to_thrust_inverse m t :
    thrust_ok m -> 0 <= t <= 1 -> t <= get_lift_max m ->
    actuator_to_thrust m (thrust_to_actuator m t) == t;
  actuator_to_thrust_proper m :
    Proper (Qeq ==> Qeq) (actuator_to_thrust m);
  compensation_gain_pos m : 0 < get_compensation_gain m;
}.

(** [get_thrust(motor_num, thr_out)]: [None] is the result [false],
    [Some thr_out] the result [true]. *)
Definition get_thrust `{ThrustLinearizer} (m : Motors) (motor_num : nat)
    : option Q :=
  if bool_decide (AP_MOTORS_MAX_NUM_MOTORS <= motor_num)%nat
     || negb (default false (m.(motor_enabled) !! motor_num))
  then None
  else
    let actuator :=
      constrain_float (default 0 (m.(actuator) !! motor_num))
        (get_spin_min m) (get_spin_max m) in
    Some (actuator_to_thrust m actuator / get_compensation_gain m).

(** A straight thrust curve without battery compensation. *)
Definition linear_thrust : ThrustLinearizer :=
  {| update_lift_max_from_batt_voltage := modify (set_lift_max 1 1);
     thrust_to_actuator := fun m t =>
       get_spin_min m + t * (get_spin_max m - get_spin_min m);
     actuator_to_thrust := fun m a =>
       (a - get_spin_min m) / (get_spin_max m - get_spin_min m);
     get_compensation_gain := fun _ => 1 |}.

(** The object after construction with motor 0 enabled at the actuator
    value of one half of the thrust. *)
Definition one_motor (a : Q) : Motors :=
  mkMotors init_motors.(params) init_motors.(thr_lin) init_motors.(inputs)
    init_motors.(limit) init_motors.(spool) init_motors.(throttle_limit)
    init_motors.(throttle_filter)
    (<[0%nat := a]> init_motors.(actuator))
    (<[0%nat := true]> init_motors.(motor_enabled))
    init_motors.(motor_mask_override) init_motors.(throttle_avg_max)
    init_motors.(throttle_out) init_motors.(slew).

(** ** Lemmas *)

#[export] Instance linear_thrust_laws : @ThrustLinearizerLaws linear_thrust.
Proof.
  split; cbn.
  - intros m. by exists 1, 1.
  - intros m t Hs _ Ht. nra.
  - intros m t [Hs _ _] Ht _. field. lra.
  - intros m a a' Ha. by rewrite Ha.
  - done.
Qed.

Lemma get_thrust_Some `{ThrustLinearizer} m motor_num :
  (motor_num < AP_MOTORS_MAX_NUM_MOTORS)%nat ->
  m.(motor_enabled) !! motor_num = Some true ->
  get_thrust m motor_num
  = Some (actuator_to_thrust m
            (constrain_float (default 0 (m.(actuator) !! motor_num))
               (get_spin_min m) (get_spin_max m))
          / get_compensation_gain m).
Proof.
  intros Hn He. unfold get_thrust. rewrite He.
  by rewrite bool_decide_eq_false_2 by lia.
Qed.

(** The thrust read back from the actuator value of a thrust. *)
Lemma get_thrust_of_actuator `{ThrustLinearizerLaws} m motor_num (a t : Q) :
  (motor_num < AP_MOTORS_MAX_NUM_MOTORS)%nat ->
  m.(motor_enabled) !! motor_num = Some true ->
  thrust_ok m -> 0 <= t <= 1 -> t <= get_lift_max m ->
  m.(actuator) !! motor_num = Some a -> a == thrust_to_actuator m t ->
  exists x, get_thrust m motor_num = Some x
    /\ x * get_compensation_gain m == t.
Proof.
  intros Hn He Hok Ht Hl Ha Hat. eexists. split; [by apply get_thrust_Some|].
  rewrite Ha. cbn [default from_option id].
  assert (Hle : get_spin_min m <= get_spin_max m)
    by (destruct Hok; lra).
  pose proof (thrust_to_actuator_range m t Hle (expo_range m Hok) Ht) as Hr.
  pose proof (compensation_gain_pos m) as Hg.
  pose proof (actuator_to_thrust_proper m) as Hp.
  rewrite constrain_float_id by lra.
  rewrite Hat, actuator_to_thrust_inverse by done. field. lra.
Qed.

(** ** Theorems *)

Section Thrust.

Context `{ThrustLinearizerLaws}.
Implicit Types (m : Motors) (motor_num : nat).

(** [get_thrust] has a result exactly for the enabled motors among the
    first [AP_MOTORS_MAX_NUM_MOTORS]. *)
Theorem get_thrust_defined m motor_num :
  is_Some (get_thrust m motor_num)
  <-> (motor_num < AP_MOTORS_MAX_NUM_MOTORS)%nat
      /\ m.(motor_enabled) !! motor_num = Some true.
Proof.
  unfold get_thrust. case_bool_decide as Hn; cbn.
  - split; [by intros [] | lia].
  - destruct (motor_enabled m !! motor_num) as [[]|]; cbn;
      split; try (by intros []); try (intros [_ [=]]); try done.
    intros _. split; [lia | done].
Qed.

(** C21: the round trip of the thrust: when the actuator of an enabled motor
    holds the value the curve gives a thrust in 0..1 that the lift allows,
    [get_thrust] returns that thrust divided by the compensation gain. *)
Theorem get_thrust_roundtrip m motor_num (a t : Q) :
  (motor_num < AP_MOTORS_MAX_NUM_MOTORS)%nat ->
  m.(motor_enabled) !! motor_num = Some true ->
  thrust_ok m -> 0 <= t <= 1 -> t <= get_lift_max m ->
  m.(actuator) !! motor_num = Some a -> a == thrust_to_actuator m t ->
  exists x, get_thrust m motor_num = Some x
    /\ x * get_compensation_gain m == t.
Proof. apply get_thrust_of_actuator. Qed.

(** An actuator value outside the spin range reads as the end of the
    range: below [spin_min] the thrust read back is that of [spin_min]. *)
Theorem get_thrust_saturates m motor_num (a : Q) :
  (motor_num < AP_MOTORS_MAX_NUM_MOTORS)%nat ->
  m.(motor_enabled) !! motor_num = Some true ->
  get_spin_min m <= get_spin_max m ->
  m.(actuator) !! motor_num = Some a -> a <= get_spin_min m ->
  exists x, get_thrust m motor_num = Some x
    /\ x * get_compensation_gain m
       == actuator_to_thrust m (get_spin_min m).
Proof.
  intros Hn He Hs Ha Hlow. eexists. split; [by apply get_thrust_Some|].
  rewrite Ha. cbn [default from_option id].
  pose proof (compensation_gain_pos m) as Hg.
  pose proof (actuator_to_thrust_proper m) as Hp.
  assert (Hc : constrain_float a (get_spin_min m) (get_spin_max m)
               == get_spin_min m).
  { destruct (Qlt_le_dec a (get_spin_min m)).
    - by rewrite constrain_float_below.
    - rewrite constrain_float_id by lra. lra. }
  rewrite Hc. field. lra.
Qed.

End Thrust.

(** ** Witnesses *)

Lemma get_thrust_roundtrip_witness :
  exists x,
    @get_thrust linear_thrust (one_motor 0.55) 0 = Some x
    /\ x * @get_compensation_gain linear_thrust (one_motor 0.55) == 0.5.
Proof.
  apply (@get_thrust_roundtrip linear_thrust _ (one_motor 0.55) 0%nat
           0.55 0.5);
    [unfold AP_MOTORS_MAX_NUM_MOTORS; lia | done | split; by vm_compute |
     by vm_compute..].
Defined.

Lemma get_thrust_saturates_witness :
  exists x,
    @get_thrust linear_thrust (one_motor 0) 0 = Some x
    /\ x * @get_compensation_gain linear_thrust (one_motor 0)
       == @actuator_to_thrust linear_thrust (one_motor 0)
            (get_spin_min (one_motor 0)).
Proof.
  apply (@get_thrust_saturates linear_thrust _ (one_motor 0) 0%nat 0);
    [unfold AP_MOTORS_MAX_NUM_MOTORS; lia | done | by vm_compute | done |
     by vm_compute].
Defined.
