(* ===== verification/ThrustCurve.v ===== *)
(** * The thrust linearizer of the specification

    The member [thr_lin] belongs to a class outside this repository; the
    class under verification sees it through the interface
    [ThrustLinearizer].  This file holds the linearizer section 4.2 of the
    specification describes, as an instance of the interface, and shows
    that it obeys the laws the class relies on:

    - the filtered battery voltage, a first-order filter of the reading of
      the monitor [batt_idx] with the gain [voltage_gain] (the
      specification does not give the gain), or the raw reading when bit 0
      of [options] is set;
    - [lift_max], the voltage used, constrained to [batt_voltage_min] ..
      [batt_voltage_max] and divided by [batt_voltage_max]; 1 when
      [batt_voltage_max] is zero or the battery does not report (a reading
      that is not positive);
    - the curve [(1 - expo) x + expo x^2] of the thrust divided by
      [lift_max], constrained to 0..1, mapped into the spin range;
    - its inverse, with a square root.

    The square root of the model, [Qsqrt], is that of the integers: it is
    exact on the square of a rational and rounds down elsewhere, which is
    where the float of the C++ code rounds as well. *)

From Stdlib Require Import QArith Qreduction Qabs ZArith Znumtheory Lqa Lia.
From stdpp Require Import base decidable option list.
From S2P Require Import Prelude State CurrentLimit Thrust.

#[local] Open Scope state_scope.

(** ** Definitions *)

(** The square root, rounded down to a multiple of the inverse of the
    denominator of the reduced fraction. *)
Definition Qsqrt (q : Q) : Q :=
  let r := Qred q in Z.sqrt (Qnum r * QDen r) # Qden r.

(** The two-term thrust curve and its inverse. *)
Definition thrust_curve (expo x : Q) : Q := (1 - expo) * x + expo * x * x.

Definition thrust_curve_inverse (expo y : Q) : Q :=
  if decide (expo == 0) then y
  else (Qsqrt ((1 - expo) * (1 - expo) + 4 * expo * y) - (1 - expo))
       / (2 * expo).

Section ThrustCurve.

Context {battery : BattMonitor} (voltage_gain : Q).

(** The voltage read, its filter, and the voltage the compensation uses. *)
Definition batt_voltage (m : Motors) : Q := voltage (get_battery_index m).

Definition next_voltage_filt (m : Motors) : Q :=
  m.(thr_lin).(batt_voltage_filt)
  + voltage_gain * (batt_voltage m - m.(thr_lin).(batt_voltage_filt)).

Definition voltage_used (m : Motors) : Q :=
  if Z.testbit m.(params).(options) 0 then batt_voltage m
  else next_voltage_filt m.

(** [lift_max] *)
Definition next_lift_max (m : Motors) : Q :=
  if decide (m.(thr_lin).(batt_voltage_max) == 0) then 1
  else if decide (batt_voltage m <= 0) then 1
  else constrain_float (voltage_used m) m.(thr_lin).(batt_voltage_min)
         m.(thr_lin).(batt_voltage_max)
       / m.(thr_lin).(batt_voltage_max).

(** The four methods the class calls. *)
Definition expo_update_lift_max : State Motors unit :=
  modify (fun m => set_lift_max (next_lift_max m) (next_voltage_filt m) m).

Definition expo_thrust_to_actuator (m : Motors) (thrust : Q) : Q :=
  get_spin_min m
  + thrust_curve m.(thr_lin).(curve_expo)
      (constrain_float (thrust / get_lift_max m) 0 1)
    * (get_spin_max m - get_spin_min m).

Definition expo_actuator_to_thrust (m : Motors) (actuator : Q) : Q :=
  get_lift_max m
  * thrust_curve_inverse m.(thr_lin).(curve_expo)
      ((actuator - get_spin_min m) / (get_spin_max m - get_spin_min m)).

Definition expo_compensation_gain (m : Motors) : Q :=
  if decide (get_lift_max m <= 0) then 1 else 1 / get_lift_max m.

Definition expo_thrust : ThrustLinearizer :=
  {| update_lift_max_from_batt_voltage := expo_update_lift_max;
     thrust_to_actuator := expo_thrust_to_actuator;
     actuator_to_thrust := expo_actuator_to_thrust;
     get_compensation_gain := expo_compensation_gain |}.

End ThrustCurve.

(** ** Example objects *)

(** The battery of the sag scenario: 14.4 V. *)
Definition sagging_battery : BattMonitor := const_battery 14.4 None 0.

(** The sag scenario: a battery range of 13.2 V to 16.8 V, the filtered
    voltage at the reading, motor 0 enabled. *)
Definition sag_motors : Motors :=
  upd_thr_lin (fun t =>
    mkThrLin t.(curve_expo) t.(spin_min) t.(spin_max) 16.8 13.2 t.(batt_idx)
      t.(lift_max) 14.4)
    (one_motor 0).

(** The scenario after the update of the lift, with the actuator of
    motor 0 at the value the curve gives the thrust [t]. *)
Definition sag_at (t : Q) : Motors :=
  let m := exec (@expo_update_lift_max sagging_battery 0.01) sag_motors in
  set_actuator (<[0%nat := expo_thrust_to_actuator m t]> m.(actuator)) m.

(** ** Lemmas: the square root *)

#[export] Instance Qsqrt_proper : Proper (Qeq ==> eq) Qsqrt.
Proof. intros p q H. unfold Qsqrt. by rewrite (Qred_complete p q H). Qed.

Lemma coprime_square a b :
  Z.coprime a b -> Z.coprime (a * a) (b * b).
Proof. intros H. apply Z.coprime_mul_l; by apply Z.coprime_mul_r. Qed.

(** A fraction in lowest terms is its own reduced form. *)
Lemma Qred_coprime q : Z.coprime (Qnum q) (QDen q) -> Qred q = q.
Proof.
  destruct q as [n d]. unfold Z.coprime, Qred. cbn. intros Hg.
  pose proof (Z.ggcd_gcd n (Z.pos d)) as Hfst.
  pose proof (Z.ggcd_correct_divisors n (Z.pos d)) as Hdiv.
  destruct (Z.ggcd n (Z.pos d)) as [g [nn dd]]. cbn in *.
  destruct Hdiv as [Hn Hd]. f_equal; lia.
Qed.

(** The reduced form of a square is the square of the reduced form. *)
Lemma Qred_square s : Qred (s * s) = Qred s * Qred s.
Proof.
  rewrite (Qred_complete (s * s) (Qred s * Qred s))
    by (by rewrite !Qred_correct).
  apply Qred_coprime. cbn. rewrite Pos2Z.inj_mul.
  apply coprime_square, gcd_Qred.
Qed.

(** The square root is exact on squares. *)
Lemma Qsqrt_square s : 0 <= s -> Qsqrt (s * s) == s.
Proof.
  intros Hs. unfold Qsqrt. rewrite Qred_square.
  transitivity (Qred s); [|apply Qred_correct].
  assert (0 <= Qred s) as H0 by (by rewrite Qred_correct).
  destruct (Qred s) as [a b]. unfold Qle in H0. cbn in *.
  replace (a * a * Z.pos (b * b))%Z with ((a * Z.pos b) * (a * Z.pos b))%Z
    by lia.
  rewrite Z.sqrt_square by lia. unfold Qeq. cbn. lia.
Qed.

Lemma Qsqrt_exact q s : 0 <= s -> q == s * s -> Qsqrt q == s.
Proof. intros Hs ->. by apply Qsqrt_square. Qed.

Lemma Qsqrt_nonneg q : 0 <= Qsqrt q.
Proof.
  unfold Qsqrt, Qle. cbn. pose proof (Z.sqrt_nonneg
    (Qnum (Qred q) * QDen (Qred q))). lia.
Qed.

(** ** Lemmas: the curve *)

#[export] Instance thrust_curve_proper :
  Proper (Qeq ==> Qeq ==> Qeq) thrust_curve.
Proof. intros e e' He x x' Hx. unfold thrust_curve. by rewrite He, Hx. Qed.

#[export] Instance thrust_curve_inverse_proper expo :
  Proper (Qeq ==> Qeq) (thrust_curve_inverse expo).
Proof.
  intros y y' Hy. unfold thrust_curve_inverse.
  destruct (decide _); [done|]. by rewrite Hy.
Qed.

Lemma thrust_curve_ends expo : thrust_curve expo 0 == 0 /\ thrust_curve expo 1 == 1.
Proof. unfold thrust_curve. split; ring. Qed.

(** For an exponent in -1..1 the curve rises on 0..1. *)
Lemma thrust_curve_mono expo x y :
  -1 <= expo <= 1 -> 0 <= x -> x <= y -> y <= 1 ->
  thrust_curve expo x <= thrust_curve expo y.
Proof.
  intros He Hx Hxy Hy. unfold thrust_curve.
  assert (0 <= (1 - expo) + expo * (x + y)) as Hslope
    by (destruct (Qlt_le_dec expo 0); nra).
  assert (0 <= (y - x) * ((1 - expo) + expo * (x + y))) by nra.
  nra.
Qed.

Lemma thrust_curve_range expo x :
  -1 <= expo <= 1 -> 0 <= x <= 1 -> 0 <= thrust_curve expo x <= 1.
Proof.
  intros He Hx. destruct (thrust_curve_ends expo) as [H0 H1].
  pose proof (thrust_curve_mono expo 0 x He).
  pose proof (thrust_curve_mono expo x 1 He). lra.
Qed.

(** The inverse undoes the curve on 0..1: the discriminant is the square
    of [(1 - expo) + 2 expo x]. *)
Lemma thrust_curve_inverse_curve expo x :
  -1 <= expo <= 1 -> 0 <= x <= 1 ->
  thrust_curve_inverse expo (thrust_curve expo x) == x.
Proof.
  intros He Hx. unfold thrust_curve_inverse.
  destruct (decide (expo == 0)) as [H0|H0].
  - unfold thrust_curve. rewrite H0. ring.
  - rewrite (Qsqrt_exact _ ((1 - expo) + 2 * expo * x)).
    + field. done.
    + nra.
    + unfold thrust_curve. ring.
Qed.

(** ** The laws *)

Section Laws.

Context {battery : BattMonitor} (voltage_gain : Q).

Lemma expo_thrust_to_actuator_range m t :
  get_spin_min m <= get_spin_max m -> -1 <= m.(thr_lin).(curve_expo) <= 1 ->
  get_spin_min m <= expo_thrust_to_actuator m t <= get_spin_max m.
Proof.
  intros Hs He. unfold expo_thrust_to_actuator.
  pose proof (constrain_float_bounds (t / get_lift_max m) 0 1 ltac:(lra)) as Hx.
  pose proof (thrust_curve_range _ _ He Hx). nra.
Qed.

(** The curve's argument for a thrust the lift allows. *)
Lemma thrust_share m t :
  0 < get_lift_max m -> 0 <= t -> t <= get_lift_max m ->
  0 <= t / get_lift_max m <= 1.
Proof.
  intros Hl H0 H1. split.
  - by apply Qdiv_nonneg.
  - apply Qle_shift_div_r; lra.
Qed.

Lemma expo_actuator_to_thrust_inverse m t :
  thrust_ok m -> 0 <= t -> t <= get_lift_max m ->
  expo_actuator_to_thrust m (expo_thrust_to_actuator m t) == t.
Proof.
  intros [Hs He Hl] H0 H1.
  pose proof (thrust_share m t Hl H0 H1) as Hx.
  unfold expo_actuator_to_thrust, expo_thrust_to_actuator.
  rewrite constrain_float_id by done.
  set (c := thrust_curve _ _).
  assert ((get_spin_min m + c * (get_spin_max m - get_spin_min m)
           - get_spin_min m) / (get_spin_max m - get_spin_min m) == c) as ->
    by (field; lra).
  subst c. rewrite thrust_curve_inverse_curve by done. field. lra.
Qed.

(** Above the lift the curve saturates: the actuator is [spin_max] and
    the thrust read back is the lift. *)
Lemma expo_thrust_saturated m t :
  thrust_ok m -> get_lift_max m <= t ->
  expo_thrust_to_actuator m t == get_spin_max m
  /\ expo_actuator_to_thrust m (expo_thrust_to_actuator m t)
     == get_lift_max m.
Proof.
  intros Hok Ht. destruct Hok as [Hs He Hl].
  assert (expo_thrust_to_actuator m t
          == expo_thrust_to_actuator m (get_lift_max m)) as Heq.
  { unfold expo_thrust_to_actuator.
    assert (constrain_float (t / get_lift_max m) 0 1 == 1) as ->.
    { destruct (Qlt_le_dec 1 (t / get_lift_max m)).
      - rewrite constrain_float_above; [done | lra | done].
      - rewrite constrain_float_id; [|split; [|done]].
        + assert (1 <= t / get_lift_max m)
            by (apply Qle_shift_div_l; lra). lra.
        + apply Qdiv_nonneg; lra. }
    assert (constrain_float (get_lift_max m / get_lift_max m) 0 1 == 1) as ->.
    { assert (get_lift_max m / get_lift_max m == 1) as -> by (field; lra).
      by rewrite constrain_float_id. }
    done. }
  pose proof (expo_actuator_to_thrust_inverse m (get_lift_max m)
                (Build_thrust_ok m Hs He Hl) ltac:(lra) ltac:(lra)) as Hinv.
  split.
  - rewrite Heq. unfold expo_thrust_to_actuator.
    assert (get_lift_max m / get_lift_max m == 1) as -> by (field; lra).
    rewrite constrain_float_id by lra.
    destruct (thrust_curve_ends m.(thr_lin).(curve_expo)) as [_ ->]. ring.
  - unfold expo_actuator_to_thrust in *. by rewrite Heq.
Qed.

#[export] Instance expo_thrust_laws :
  @ThrustLinearizerLaws (expo_thrust voltage_gain).
Proof.
  split; cbn.
  - intros m. by eexists _, _.
  - intros m t Hs He _. by apply expo_thrust_to_actuator_range.
  - intros m t Hok [H0 _] Hl. by apply expo_actuator_to_thrust_inverse.
  - intros m a a' Ha. unfold expo_actuator_to_thrust. by rewrite Ha.
  - intros m. unfold expo_compensation_gain.
    destruct (decide _); [done|]. apply Qdiv_pos; lra.
Qed.

(** What [get_thrust] reads from the actuator value of a thrust: the
    thrust taken through the curve and back. *)
Lemma expo_get_thrust m motor_num t :
  (motor_num < AP_MOTORS_MAX_NUM_MOTORS)%nat ->
  m.(motor_enabled) !! motor_num = Some true -> thrust_ok m ->
  m.(actuator) !! motor_num = Some (expo_thrust_to_actuator m t) ->
  exists x, @get_thrust (expo_thrust voltage_gain) m motor_num = Some x
    /\ x * expo_compensation_gain m
       == expo_actuator_to_thrust m (expo_thrust_to_actuator m t).
Proof.
  intros Hn He [Hs Hx Hl] Ha. eexists. split; [by apply get_thrust_Some|].
  rewrite Ha. cbn [default from_option id actuator_to_thrust expo_thrust
                   get_compensation_gain].
  rewrite constrain_float_id
    by (apply expo_thrust_to_actuator_range; [lra | done]).
  pose proof (compensation_gain_pos (H := expo_thrust voltage_gain) m) as Hg.
  cbn in Hg. field. lra.
Qed.

(** The lift after the update. *)
Lemma next_lift_max_bounds m :
  m.(thr_lin).(batt_voltage_max) == 0
  \/ 0 < m.(thr_lin).(batt_voltage_min) <= m.(thr_lin).(batt_voltage_max) ->
  0 < next_lift_max voltage_gain m <= 1.
Proof.
  intros Hv. unfold next_lift_max.
  destruct (decide _) as [|Hmax]; [lra|]. destruct (decide _); [lra|].
  destruct Hv as [|Hv]; [done|].
  pose proof (constrain_float_bounds (voltage_used voltage_gain m)
                m.(thr_lin).(batt_voltage_min) m.(thr_lin).(batt_voltage_max)
                ltac:(lra)).
  split; [apply Qdiv_pos | apply Qle_shift_div_r]; lra.
Qed.

End Laws.

(** ** Theorems *)

(** The square root of the model rounds down: its square is at most its
    argument. *)
Theorem Qsqrt_floor (q : Q) : 0 <= q -> Qsqrt q * Qsqrt q <= q.
Proof.
  intros Hq. rewrite <- (Qred_correct q) at 3.
  assert (0 <= Qred q) as H0 by (by rewrite Qred_correct).
  unfold Qsqrt. destruct (Qred q) as [n d]. unfold Qle in *. cbn in *.
  pose proof (Z.sqrt_spec (n * Z.pos d) ltac:(lia)) as [Hlo _].
  nia.
Qed.

Section CurveTheorems.

Context {battery : BattMonitor} (voltage_gain : Q).
Implicit Types (m : Motors) (motor_num : nat).

(** The update of the lift keeps the thrust readable: with a spin
    range that is not empty, an exponent in -1..1 and a battery range that
    is positive or switched off, the lift after
    [update_lift_max_from_batt_voltage] is a positive fraction, and it is
    1 when the compensation is switched off or the battery does not
    report. *)
Theorem expo_update_lift_max_ok m :
  get_spin_min m < get_spin_max m -> -1 <= m.(thr_lin).(curve_expo) <= 1 ->
  m.(thr_lin).(batt_voltage_max) == 0
  \/ 0 < m.(thr_lin).(batt_voltage_min) <= m.(thr_lin).(batt_voltage_max) ->
  let m' := exec (expo_update_lift_max voltage_gain) m in
  thrust_ok m' /\ get_lift_max m' <= 1
  /\ (m.(thr_lin).(batt_voltage_max) == 0 \/ batt_voltage m <= 0 ->
      get_lift_max m' = 1).
Proof.
  intros Hs He Hv. cbv zeta.
  pose proof (next_lift_max_bounds voltage_gain m Hv) as Hl.
  split_and!; [split; [exact Hs | exact He | apply Hl] | apply Hl |].
  intros Hoff. cbn. unfold next_lift_max.
  destruct (decide _); [done|]. destruct (decide _); [done|].
  by destruct Hoff.
Qed.

(** C22: the thrust read back through the curve of the specification is
    the thrust asked for, as far as the lift allows: when the actuator of
    an enabled motor holds the value the curve gives the thrust [t],
    [get_thrust] returns the smaller of [t] and the lift, divided by the
    compensation gain. *)
Theorem expo_thrust_roundtrip m motor_num (t : Q) :
  (motor_num < AP_MOTORS_MAX_NUM_MOTORS)%nat ->
  m.(motor_enabled) !! motor_num = Some true ->
  thrust_ok m -> 0 <= t ->
  m.(actuator) !! motor_num = Some (expo_thrust_to_actuator m t) ->
  exists x, @get_thrust (expo_thrust voltage_gain) m motor_num = Some x
    /\ x * expo_compensation_gain m == MIN t (get_lift_max m).
Proof.
  intros Hn He Hok Ht Ha.
  destruct (expo_get_thrust voltage_gain m motor_num t Hn He Hok Ha)
    as (x & Hx & Hg).
  exists x. split; [done|]. rewrite Hg. unfold MIN.
  destruct (decide (t < get_lift_max m)).
  - apply expo_actuator_to_thrust_inverse; [done.. | lra].
  - apply expo_thrust_saturated; [done | lra].
Qed.

End CurveTheorems.

(** The battery sag of the specification: with a battery range of 13.2 V
    to 16.8 V and 14.4 V read, the lift is 6/7; a thrust of one half has
    the actuator value of the curve at 0.5 / (6/7), and is read back as one
    half. *)
Theorem battery_sag_scenario :
  let m := exec (@expo_update_lift_max sagging_battery 0.01) sag_motors in
  get_lift_max m == 6 # 7
  /\ expo_thrust_to_actuator m 0.5
     == 0.15 + ((1 - 0.65) * (0.5 / (6 # 7))
                + 0.65 * (0.5 / (6 # 7)) * (0.5 / (6 # 7))) * (0.95 - 0.15)
  /\ exists x,
       @get_thrust (@expo_thrust sagging_battery 0.01) (sag_at 0.5) 0 = Some x
       /\ x * expo_compensation_gain (sag_at 0.5) == 0.5.
Proof.
  cbv zeta. split_and!; [by vm_compute..|].
  eexists. split; [by vm_compute | by vm_compute].
Qed.

(** ** Witnesses *)

Lemma sag_thrust_ok t : thrust_ok (sag_at t).
Proof. split; by vm_compute. Qed.

Lemma expo_update_lift_max_ok_witness :
  let m' := exec (@expo_update_lift_max sagging_battery 0.01) sag_motors in
  thrust_ok m' /\ get_lift_max m' <= 1
  /\ (sag_motors.(thr_lin).(batt_voltage_max) == 0
      \/ @batt_voltage sagging_battery sag_motors <= 0 ->
      get_lift_max m' = 1).
Proof.
  apply (@expo_update_lift_max_ok sagging_battery 0.01 sag_motors);
    [by vm_compute | by vm_compute | right; by vm_compute].
Defined.

Lemma expo_thrust_roundtrip_witness :
  exists x,
    @get_thrust (@expo_thrust sagging_battery 0.01) (sag_at 0.9) 0 = Some x
    /\ x * expo_compensation_gain (sag_at 0.9)
       == MIN 0.9 (get_lift_max (sag_at 0.9)).
Proof.
  apply (@expo_thrust_roundtrip sagging_battery 0.01 (sag_at 0.9) 0%nat 0.9);
    [unfold AP_MOTORS_MAX_NUM_MOTORS; lia | done | apply sag_thrust_ok |
     done | done].
Defined.
