(* ===== verification/Arming.v ===== *)
(** * The arming checks

    [arming_checks] decides whether the configuration allows arming and
    writes the reason of a refusal into a buffer.  The checks of the base
    class and the channel table of the servo driver are not part of this
    repository: they are the interfaces [ArmingEnv] and [ServoConfig].  The
    buffer is written by [snprintf], modelled for the three conversions the
    method uses.

    The test of SPIN_MIN compares a [float] with the literal [0.3], a
    [double]: the float is widened and compared with the double nearest to
    three tenths, which is below three tenths.  [DOUBLE_0_3] is that
    double. *)

From Stdlib Require Import QArith Qabs Qround ZArith Lqa Lia String Ascii.
From stdpp Require Import base decidable option list pretty.
From S2P Require Import Prelude State Vehicle Actuator.

#[local] Open Scope string_scope.

(** ** Definitions *)

(** An argument of [snprintf]. *)
Inductive Arg :=
  | arg_s (s : string)
  | arg_u (n : nat)
  | arg_f (x : Q).

(** The nearest integer, ties to the even one. *)
Definition round_half_even (x : Q) : Z :=
  let f := Qfloor x in
  let r := x - inject_Z f in
  if bool_decide (r < 1 # 2) then f
  else if bool_decide (1 # 2 < r) then (f + 1)%Z
  else if Z.even f then f else (f + 1)%Z.

(** The conversion [%.2f]. *)
Definition fixed2 (x : Q) : string :=
  let n := round_half_even (Qabs x * 100) in
  let frac := (n mod 100)%Z in
  String.append (if bool_decide (x < 0) then "-" else EmptyString)
    (String.append (pretty (n / 100)%Z)
       (String.append "."
          (String.append (if bool_decide (frac < 10)%Z then "0"
                          else EmptyString)
             (pretty frac)))).

(** The text of a format with its arguments: the conversions [%s], [%u]
    and [%.2f] take the next argument, every other character is copied. *)
Fixpoint format (fmt : string) (args : list Arg) : string :=
  match fmt with
  | EmptyString => EmptyString
  | String c rest =>
    if Ascii.eqb c "%" then
      match rest, args with
      | String "s" rest', arg_s s :: args' =>
        String.append s (format rest' args')
      | String "u" rest', arg_u n :: args' =>
        String.append (pretty n) (format rest' args')
      | String "." (String "2" (String "f" rest')), arg_f x :: args' =>
        String.append (fixed2 x) (format rest' args')
      | _, _ => String c (format rest args)
      end
    else String c (format rest args)
  end.

(** [snprintf(buffer, buflen, fmt, ...)]: at most [buflen - 1] characters
    of the text are written. *)
Definition snprintf (buflen : nat) (fmt : string) (args : list Arg) : string :=
  String.substring 0 (buflen - 1) (format fmt args).

(** The result of the checks: [true], or [false] with the buffer. *)
Inductive ArmingResult :=
  | arming_ok
  | arming_failed (buffer : string).

#[export] Instance ArmingResult_eq_dec : EqDecision ArmingResult.
Proof. solve_decision. Defined.

(** What the method takes from the base class and from the build. *)
Class ArmingEnv := {
  AP_MOTORS_PARAM_PREFIX : string;
  AP_Motors_arming_checks : Motors -> nat -> ArmingResult;
}.

(** [SRV_Channels::get_motor_function(i)] *)
Definition get_motor_function (i : nat) : Function := k_motor i.

(** The [double] nearest to three tenths. *)
Definition DOUBLE_0_3 : Q := 5404319552844595 # 18014398509481984.

(** The [float] nearest to three tenths: the value of a parameter set to
    0.3. *)
Definition FLOAT_0_3 : Q := 10066330 # 33554432.

(** The loop over the motors: the first enabled motor without a channel. *)
Fixpoint first_unassigned `{ServoConfig} (m : Motors) (l : list nat)
    : option nat :=
  match l with
  | [] => None
  | i :: l' =>
    if negb (is_motor_enabled m i) then first_unassigned m l'
    else match find_channel (get_motor_function i) with
         | None => Some i
         | Some _ => first_unassigned m l'
         end
  end.

(** [arming_checks(buflen, buffer)] *)
Definition arming_checks `{ServoConfig} `{ArmingEnv} (m : Motors)
    (buflen : nat) : ArmingResult :=
  match AP_Motors_arming_checks m buflen with
  | arming_failed buffer => arming_failed buffer
  | arming_ok =>
    match first_unassigned m (seq 0 AP_MOTORS_MAX_NUM_MOTORS) with
    | Some i =>
      arming_failed
        (snprintf buflen "no SERVOx_FUNCTION set to Motor%u" [arg_u (i + 1)])
    | None =>
      if bool_decide (DOUBLE_0_3 < get_spin_min m) then
        arming_failed
          (snprintf buflen "%sSPIN_MIN too high %.2f > 0.3"
             [arg_s AP_MOTORS_PARAM_PREFIX; arg_f (get_spin_min m)])
      else if bool_decide (get_spin_min m < m.(params).(spin_arm)) then
        arming_failed
          (snprintf buflen "%sSPIN_ARM > %sSPIN_MIN"
             [arg_s AP_MOTORS_PARAM_PREFIX; arg_s AP_MOTORS_PARAM_PREFIX])
      else if negb (check_mot_pwm_params m) then
        arming_failed
          (snprintf buflen "Check %sPWM_MIN and %sPWM_MAX"
             [arg_s AP_MOTORS_PARAM_PREFIX; arg_s AP_MOTORS_PARAM_PREFIX])
      else arming_ok
    end
  end.

(** Whether a text occurs in another. *)
Fixpoint contains (s text : string) : bool :=
  String.prefix s text
  || match text with
     | EmptyString => false
     | String _ text' => contains s text'
     end.

(** The predicates the checks stand for. *)
Record armable `{ServoConfig} `{ArmingEnv} (m : Motors) (buflen : nat)
    : Prop := {
  base_checks_pass : AP_Motors_arming_checks m buflen = arming_ok;
  motors_assigned : forall i, (i < AP_MOTORS_MAX_NUM_MOTORS)%nat ->
    is_motor_enabled m i = true ->
    is_Some (find_channel (get_motor_function i));
  spin_min_low : get_spin_min m <= DOUBLE_0_3;
  spin_arm_low : m.(params).(spin_arm) <= get_spin_min m;
  pwm_params_ok : (1 <= m.(params).(pwm_min) < m.(params).(pwm_max))%Z;
}.

(** A multirotor build whose base class has no objection. *)
Definition copter_env : ArmingEnv :=
  {| AP_MOTORS_PARAM_PREFIX := "MOT_";
     AP_Motors_arming_checks := fun _ _ => arming_ok |}.

(** The first four motors enabled. *)
Definition set_motor_enabled (l : list bool) (m : Motors) : Motors :=
  mkMotors m.(params) m.(thr_lin) m.(inputs) m.(limit) m.(spool)
    m.(throttle_limit) m.(throttle_filter) m.(actuator) l
    m.(motor_mask_override) m.(throttle_avg_max) m.(throttle_out) m.(slew).

Definition quad_motors : Motors :=
  set_motor_enabled
    (replicate 4 true ++ replicate (AP_MOTORS_MAX_NUM_MOTORS - 4) false)
    init_motors.

Definition set_spin_arm (v : Q) : Motors -> Motors :=
  upd_params (fun p =>
    mkParams p.(yaw_headroom) p.(batt_current_max) p.(pwm_type)
      p.(pwm_min) p.(pwm_max) p.(pwm_min_configured)
      p.(pwm_max_configured) v p.(batt_current_time_constant)
      p.(throttle_hover) p.(throttle_hover_learn) p.(disarm_disable_pwm)
      p.(yaw_servo_angle_max_deg) p.(spool_up_time) p.(boost_scale)
      p.(slew_up_time) p.(slew_dn_time) p.(safe_time) p.(options)
      p.(spool_down_time)).

Definition set_spin_min (v : Q) : Motors -> Motors :=
  upd_thr_lin (fun t =>
    mkThrLin t.(curve_expo) v t.(spin_max) t.(batt_voltage_max)
      t.(batt_voltage_min) t.(batt_idx) t.(lift_max) t.(batt_voltage_filt)).

Definition set_spin_max (v : Q) : Motors -> Motors :=
  upd_thr_lin (fun t =>
    mkThrLin t.(curve_expo) t.(spin_min) v t.(batt_voltage_max)
      t.(batt_voltage_min) t.(batt_idx) t.(lift_max) t.(batt_voltage_filt)).

(** A driver in which only the first two motors have a channel. *)
Definition two_channel_servo : ServoConfig :=
  {| have_digital_outputs := fun _ => false;
     get_output_channel_mask := fun _ => 0%Z;
     find_channel := fun f =>
       match f with
       | k_motor n => if bool_decide (n < 2)%nat then Some n else None
       | _ => None
       end |}.

(** ** Lemmas *)


Lemma substring_all n s :
  (String.length s <= n)%nat -> String.substring 0 n s = s.
Proof.
  revert s. induction n as [|n IH]; intros [|c s]; cbn; try done; try lia.
  intros H. f_equal. apply IH. lia.
Qed.


Lemma snprintf_fits buflen fmt args :
  (String.length (format fmt args) < buflen)%nat ->
  snprintf buflen fmt args = format fmt args.
Proof. intros H. apply substring_all. lia. Qed.

Section Checks.

Context `{ServoConfig} `{ArmingEnv}.
Implicit Types (m : Motors) (l : list nat).

(** The loop finds no motor exactly when every enabled motor of the list
    has a channel, and the motor it finds is the first without one. *)
Lemma first_unassigned_None m l :
  first_unassigned m l = None <->
  forall i, i ∈ l -> is_motor_enabled m i = true ->
    is_Some (find_channel (get_motor_function i)).
Proof.
  induction l as [|i l IH]; cbn.
  - split; [|done]. intros _ i Hi. by apply elem_of_nil in Hi.
  - destruct (is_motor_enabled m i) eqn:He; cbn;
      [destruct (find_channel _) eqn:Hc|]; rewrite ?IH;
      split; try done; intros Hl.
    + intros j [->|Hj]%elem_of_cons; [by rewrite Hc | by apply Hl].
    + intros j Hj. apply Hl. by right.
    + specialize (Hl i ltac:(by left) He). rewrite Hc in Hl.
      by destruct Hl.
    + intros j [->|Hj]%elem_of_cons; [by rewrite He | by apply Hl].
    + intros j Hj. apply Hl. by right.
Qed.

Lemma first_unassigned_Some m l i :
  first_unassigned m l = Some i ->
  i ∈ l /\ is_motor_enabled m i = true
  /\ find_channel (get_motor_function i) = None.
Proof.
  induction l as [|j l IH]; cbn; [done|].
  destruct (is_motor_enabled m j) eqn:He; cbn;
    [destruct (find_channel (get_motor_function j)) eqn:Hc|];
    intros Hf; simplify_eq;
    try (destruct (IH Hf) as (? & ? & ?); split_and!; [by right|done..]).
  split_and!; [by left | done..].
Qed.

End Checks.

(** The floats near three tenths are the multiples of 2^-25. *)
Lemma FLOAT_0_3_nearest (k : Z) :
  Qabs (FLOAT_0_3 - 0.3) <= Qabs ((k # 33554432) - 0.3).
Proof.
  unfold FLOAT_0_3.
  assert (Hk : (k <= 10066329 \/ 10066330 <= k)%Z) by lia.
  assert (HQ : forall a b : Z, (a <= b)%Z -> (a # 33554432) <= (b # 33554432)).
  { intros a b Hab. unfold Qle. cbn. lia. }
  destruct Hk as [Hk%HQ | Hk%HQ];
    apply Qabs_case; intros; apply Qabs_case; intros; lra.
Qed.

(** ** Theorems *)

Section Arming.

Context `{ServoConfig} `{ArmingEnv}.
Implicit Types (m : Motors) (buflen : nat).

(** C19: arming is allowed exactly when every predicate of the checks
    holds: the checks of the base class pass, every enabled motor has a
    channel, SPIN_MIN is not above the limit, SPIN_ARM is not above
    SPIN_MIN, and 1 <= PWM_MIN < PWM_MAX. *)
Theorem arming_checks_sound m buflen :
  arming_checks m buflen = arming_ok <-> armable m buflen.
Proof.
  unfold arming_checks. split.
  - destruct (AP_Motors_arming_checks m buflen) eqn:Hb; [|done].
    destruct (first_unassigned _ _) eqn:Hf; [done|].
    repeat case_bool_decide; try done.
    destruct (check_mot_pwm_params m) eqn:Hp; [|done]. intros _.
    split; [done | | lra | lra | by apply check_mot_pwm_params_true].
    intros i Hi. eapply first_unassigned_None; [done|].
    by apply elem_of_motors.
  - intros [Hb Hm Hs Ha Hp]. rewrite Hb.
    replace (first_unassigned _ _) with (@None nat).
    + rewrite !bool_decide_eq_false_2 by lra.
      by apply check_mot_pwm_params_true in Hp as ->.
    + symmetry. apply first_unassigned_None. intros i Hi.
      by apply Hm, elem_of_motors.
Qed.

(** A refusal of the base class is passed on with its buffer, whatever
    the rest of the configuration. *)
Theorem arming_checks_base m buflen buffer :
  AP_Motors_arming_checks m buflen = arming_failed buffer ->
  arming_checks m buflen = arming_failed buffer.
Proof. intros Hb. unfold arming_checks. by rewrite Hb. Qed.

(** When the base class passes and an enabled motor has no channel, the
    refusal names the first such motor, counted from one, whatever the
    parameters are. *)
Theorem arming_checks_motor m buflen i :
  AP_Motors_arming_checks m buflen = arming_ok ->
  first_unassigned m (seq 0 AP_MOTORS_MAX_NUM_MOTORS) = Some i ->
  arming_checks m buflen
  = arming_failed
      (snprintf buflen "no SERVOx_FUNCTION set to Motor%u" [arg_u (i + 1)])
  /\ (i < AP_MOTORS_MAX_NUM_MOTORS)%nat /\ is_motor_enabled m i = true
  /\ find_channel (get_motor_function i) = None.
Proof.
  intros Hb Hf. unfold arming_checks. rewrite Hb, Hf. split; [done|].
  apply first_unassigned_Some in Hf as (Hi & ? & ?).
  by apply elem_of_motors in Hi.
Qed.

(** C38: with the base class passing, every enabled motor on a channel and
    SPIN_MIN within its limit, a SPIN_ARM above SPIN_MIN is refused, and
    the buffer holds the two parameter names with the prefix of the build
    before each. *)
Theorem arming_checks_spin_arm m buflen :
  AP_Motors_arming_checks m buflen = arming_ok ->
  first_unassigned m (seq 0 AP_MOTORS_MAX_NUM_MOTORS) = None ->
  get_spin_min m <= DOUBLE_0_3 ->
  get_spin_min m < m.(params).(spin_arm) ->
  arming_checks m buflen
  = arming_failed
      (snprintf buflen "%sSPIN_ARM > %sSPIN_MIN"
         [arg_s AP_MOTORS_PARAM_PREFIX; arg_s AP_MOTORS_PARAM_PREFIX]).
Proof.
  intros Hb Hf Hs Ha. unfold arming_checks. rewrite Hb, Hf.
  rewrite bool_decide_eq_false_2 by lra.
  by rewrite bool_decide_eq_true_2 by done.
Qed.


(** A configuration that passes the checks has SPIN_ARM <= SPIN_MIN
    <= 0.3 and a PWM range the conversion to PWM accepts. *)
Theorem arming_checks_config m buflen :
  arming_checks m buflen = arming_ok ->
  m.(params).(spin_arm) <= get_spin_min m /\ get_spin_min m <= 0.3
  /\ check_mot_pwm_params m = true.
Proof.
  intros [_ _ Hs Ha Hp]%arming_checks_sound. split_and!; [done| |].
  - unfold DOUBLE_0_3 in Hs. lra.
  - by apply check_mot_pwm_params_true.
Qed.

End Arming.

(** The scenario of a SPIN_ARM of 0.2 above a SPIN_MIN of 0.15 on a
    multirotor: arming is refused and the buffer reads
    "MOT_SPIN_ARM > MOT_SPIN_MIN".  The text "SPIN_ARM > SPIN_MIN" does
    not occur in it, because the prefix stands before the second name
    too. *)
Theorem arming_spin_arm_scenario :
  let m := set_spin_arm 0.2 quad_motors in
  @arming_checks plain_servo copter_env m 50
  = arming_failed "MOT_SPIN_ARM > MOT_SPIN_MIN"
  /\ contains "SPIN_ARM > SPIN_MIN" "MOT_SPIN_ARM > MOT_SPIN_MIN" = false
  /\ contains "SPIN_ARM > " "MOT_SPIN_ARM > MOT_SPIN_MIN" = true.
Proof. by vm_compute. Qed.

(** A SPIN_MIN set to 0.3 is refused: the parameter holds the float
    nearest to three tenths, which is above the double the test compares
    it with, and the buffer reads "MOT_SPIN_MIN too high 0.30 > 0.3". *)
Theorem arming_spin_min_scenario :
  let m := set_spin_min FLOAT_0_3 quad_motors in
  @arming_checks plain_servo copter_env m 50
  = arming_failed "MOT_SPIN_MIN too high 0.30 > 0.3"
  /\ Qabs (FLOAT_0_3 - 0.3) <= 1 # 67108864.
Proof. by vm_compute. Qed.

(** The checks do not look at SPIN_MAX: a configuration whose SPIN_MAX
    is below its SPIN_MIN is allowed to arm. *)
Theorem arming_ignores_spin_max :
  let m := set_spin_max 0.1 quad_motors in
  @arming_checks plain_servo copter_env m 50 = arming_ok
  /\ get_spin_max m < get_spin_min m.
Proof. by vm_compute. Qed.

(** The scenario of a motor without a channel: with four motors enabled
    and channels for the first two, the refusal names motor 3. *)
Theorem arming_motor_scenario :
  @arming_checks two_channel_servo copter_env quad_motors 50
  = arming_failed "no SERVOx_FUNCTION set to Motor3".
Proof. by vm_compute. Qed.

(** A buffer shorter than the text holds its beginning: with room for
    twelve characters the refusal of SPIN_ARM reads "MOT_SPIN_AR". *)
Theorem arming_short_buffer_scenario :
  @arming_checks plain_servo copter_env (set_spin_arm 0.2 quad_motors) 12
  = arming_failed "MOT_SPIN_AR".
Proof. by vm_compute. Qed.

(** ** Witnesses *)

Lemma quad_armable : @armable plain_servo copter_env quad_motors 50.
Proof.
  split; [done | | by vm_compute.. | by vm_compute].
  intros i _ _. by exists i.
Qed.

Lemma unassigned_quad :
  @first_unassigned two_channel_servo quad_motors
    (seq 0 AP_MOTORS_MAX_NUM_MOTORS) = Some 2%nat.
Proof. by vm_compute. Qed.

Lemma arming_checks_base_witness :
  @arming_checks plain_servo
    {| AP_MOTORS_PARAM_PREFIX := "MOT_";
       AP_Motors_arming_checks := fun _ _ => arming_failed "Check frame" |}
    quad_motors 50
  = arming_failed "Check frame".
Proof. by apply arming_checks_base. Defined.

Lemma arming_checks_motor_witness :
  @arming_checks two_channel_servo copter_env quad_motors 50
  = arming_failed
      (snprintf 50 "no SERVOx_FUNCTION set to Motor%u" [arg_u (2 + 1)])
  /\ (2 < AP_MOTORS_MAX_NUM_MOTORS)%nat
  /\ is_motor_enabled quad_motors 2 = true
  /\ @find_channel two_channel_servo (get_motor_function 2) = None.
Proof.
  apply (@arming_checks_motor two_channel_servo copter_env);
    [done | apply unassigned_quad].
Defined.

Lemma arming_checks_spin_arm_witness :
  @arming_checks plain_servo copter_env (set_spin_arm 0.2 quad_motors) 50
  = arming_failed
      (snprintf 50 "%sSPIN_ARM > %sSPIN_MIN" [arg_s "MOT_"; arg_s "MOT_"]).
Proof.
  apply (@arming_checks_spin_arm plain_servo copter_env);
    [done | by vm_compute..].
Defined.


Lemma arming_checks_config_witness :
  quad_motors.(params).(spin_arm) <= get_spin_min quad_motors
  /\ get_spin_min quad_motors <= 0.3
  /\ check_mot_pwm_params quad_motors = true.
Proof.
  apply (@arming_checks_config plain_servo copter_env quad_motors 50).
  by vm_compute.
Defined.
