(* ===== verification/Output.v ===== *)
(** * The output stage: [output] and the methods it calls

    [output] is the tick of the class: it filters the throttle, updates the
    lift of the battery, runs the spool logic, lets the frame mix and
    compensate the thrust and send it to the motors, writes the boost
    throttle and the roll, pitch, yaw and thrust outputs, merges the
    external limit flags and clears the mask of overridden motors.

    The mixer of the frame ([output_armed_stabilizing],
    [thrust_compensation], [output_to_motors], [get_roll_factor]) is pure
    virtual in the class: it is the interface [FrameMixer], and what the
    class relies on are the laws [FrameMixerLaws].  [matrix_frame] is a
    frame in the manner of the matrix mixer: it asks every enabled motor
    for a thrust, slews the actuator toward it and writes the pulse width;
    it obeys the laws.  The build modelled is the one with
    [AP_SCRIPTING_ENABLED], in which the external limits exist. *)

From Stdlib Require Import QArith ZArith Lqa Lia.
From stdpp Require Import base decidable option list gmap.
From S2P Require Import Prelude State CurrentLimit SpoolLogic SpoolSpec.
From S2P Require Import SpoolLiveness Vehicle Actuator Throttle Thrust.

#[local] Open Scope state_scope.

(** ** Definitions *)

(** What the class calls of the frame. *)
Class FrameMixer := {
  output_armed_stabilizing : State Motors unit;
  thrust_compensation : State Motors unit;
  output_to_motors : State Vehicle unit;
  get_roll_factor : nat -> Q;
}.

(** An [int16_t] passed for a [uint16_t]. *)
Definition to_uint16 (z : Z) : Z := (z mod 65536)%Z.

(** The flags of two limits, or-ed. *)
Definition limit_or (a b : Limit) : Limit :=
  mkLimit (a.(roll) || b.(roll)) (a.(pitch) || b.(pitch))
    (a.(yaw) || b.(yaw)) (a.(throttle_lower) || b.(throttle_lower))
    (a.(throttle_upper) || b.(throttle_upper)).

(** Every flag of [a] is a flag of [b]. *)
Definition limit_le (a b : Limit) : Prop := limit_or a b = b.

(** [update_external_limits()] *)
Definition update_external_limits : State Motors unit :=
  modify (fun m => set_limit (limit_or m.(limit) m.(inputs).(external_limits)) m).

(** [output_boost_throttle()] *)
Definition output_boost_throttle : State Vehicle unit :=
  boost ← gets (fun v : Vehicle => v.(motors).(params).(boost_scale));
  if bool_decide (0 < boost) then
    throttle ← gets (fun v : Vehicle =>
      constrain_float (get_throttle v.(motors) * boost) 0 1);
    set_output_scaled k_boost_throttle (throttle * 1000)
  else
    set_output_scaled k_boost_throttle 0.

(** [output_rpyt()] *)
Definition output_rpyt : State Vehicle unit :=
  i ← gets (fun v : Vehicle => v.(motors).(inputs));
  throttle ← gets (fun v : Vehicle => get_throttle v.(motors));
  set_output_scaled k_roll_out (i.(roll_in_ff) * 4500);;
  set_output_scaled k_pitch_out (i.(pitch_in_ff) * 4500);;
  set_output_scaled k_yaw_out (i.(yaw_in_ff) * 4500);;
  set_output_scaled k_thrust_out (throttle * 1000).

(** [AP_Motors::set_desired_spool_state(spool)] of the base class. *)
Definition set_desired_spool_state (spool : DesiredSpoolState)
    : State Motors unit :=
  is_armed ← gets (fun m : Motors => m.(inputs).(armed));
  when (is_armed || bool_decide (spool = DESIRED_SHUT_DOWN))
    (modify (set_spool_desired spool)).

Section Output.

Context {battery : BattMonitor} {linearizer : ThrustLinearizer}
  {frame : FrameMixer} {derivative : DerivativeFilter}.

(** The stages of [output] that work on the object alone, up to the
    thrust compensation. *)
Definition output_mix : State Motors unit :=
  update_throttle_filter;;
  update_lift_max_from_batt_voltage;;
  output_logic;;
  output_armed_stabilizing;;
  thrust_compensation.

(** [output()] *)
Definition output : State Vehicle unit :=
  zoom output_mix;;
  output_to_motors;;
  output_boost_throttle;;
  output_rpyt;;
  zoom update_external_limits;;
  zoom (modify (set_motor_mask_override 0)).

(** [output_min()] *)
Definition output_min : State Vehicle unit :=
  zoom (set_desired_spool_state DESIRED_SHUT_DOWN);;
  zoom (modify (set_spool_state SHUT_DOWN));;
  output.

(** The object the spool logic of a tick runs on, and the vehicle after
    the writes to the motors. *)
Definition logic_input (m : Motors) : Motors :=
  exec update_lift_max_from_batt_voltage (exec update_throttle_filter m).

Definition sent (v : Vehicle) : Vehicle :=
  exec output_to_motors (upd_motors (fun _ => exec output_mix v.(motors)) v).

End Output.

(** What every stage before the writes to the motors leaves alone: the
    inputs, the table of motors, the mask of overridden motors, the
    parameters of the outputs and of the spin range, and the size of the
    table of actuators. *)
Definition tick_constants (m : Motors)
    : Params * Q * Q * Inputs * list bool * Z * nat :=
  ((set_spool_up_time 0 m).(params), get_spin_min m, get_spin_max m,
   m.(inputs), m.(motor_enabled), m.(motor_mask_override),
   length m.(actuator)).

Definition keeps_config (m m' : Motors) : Prop :=
  tick_constants m' = tick_constants m.

(** What the frame may write: it keeps the configuration, the spool-up
    time, the spool variables, the filtered throttle and the estimate of
    its rate, and sets limit flags without clearing any. *)
Record mixer_writes (m m' : Motors) : Prop := {
  mix_keeps : keeps_config m m';
  mix_spool : m'.(spool) = m.(spool);
  mix_filter : m'.(throttle_filter) = m.(throttle_filter);
  mix_slew : m'.(slew) = m.(slew);
  mix_spool_up_time :
    m'.(params).(spool_up_time) = m.(params).(spool_up_time);
  mix_limit : limit_le m.(limit) m'.(limit);
}.

(** What the class relies on: the three methods write as a mixer may;
    [output_to_motors] leaves the parameter storage alone and, for every
    enabled motor, leaves an actuator value in 0..1 and sends its pulse
    width to the channel of the motor. *)
Class FrameMixerLaws `{FrameMixer} : Prop := {
  stabilizing_writes m : mixer_writes m (exec output_armed_stabilizing m);
  compensation_writes m : mixer_writes m (exec thrust_compensation m);
  to_motors_writes v :
    mixer_writes v.(motors) (exec output_to_motors v).(motors);
  to_motors_store v : (exec output_to_motors v).(store) = v.(store);
  to_motors_scaled v :
    (exec output_to_motors v).(servo).(output_scaled)
    = v.(servo).(output_scaled);
  to_motors_pwm v i :
    0 < v.(motors).(inputs).(dt_s) ->
    length v.(motors).(actuator) = AP_MOTORS_MAX_NUM_MOTORS ->
    (i < AP_MOTORS_MAX_NUM_MOTORS)%nat ->
    is_motor_enabled v.(motors) i = true ->
    exists a,
      (exec output_to_motors v).(motors).(actuator) !! i = Some a
      /\ 0 <= a <= 1
      /\ forall z, output_to_pwm (exec output_to_motors v).(motors) a = Some z ->
           (exec output_to_motors v).(servo).(rc_out) !! i
           = Some (to_uint16 z);
}.

(** A frame that leaves the filter of the current limiter alone: it does
    not call [get_current_limit_max_throttle] itself. *)
Class QuietMixer `{FrameMixer} : Prop := {
  stabilizing_quiet m :
    (exec output_armed_stabilizing m).(throttle_limit) = m.(throttle_limit);
  compensation_quiet m :
    (exec thrust_compensation m).(throttle_limit) = m.(throttle_limit);
  to_motors_quiet v :
    (exec output_to_motors v).(motors).(throttle_limit)
    = v.(motors).(throttle_limit);
}.

(** The actuator value a matrix frame gives a motor in a tick. *)
Definition next_actuator `{ThrustLinearizer} (thrust : Motors -> nat -> Q)
    (m : Motors) (i : nat) : Q :=
  let a := default 0 (m.(actuator) !! i) in
  match m.(spool).(spool_state) with
  | SHUT_DOWN => 0
  | GROUND_IDLE =>
    set_actuator_with_slew m a (actuator_spin_up_to_ground_idle m)
  | _ => set_actuator_with_slew m a (thrust_to_actuator m (thrust m i))
  end.

(** The body of the loops of a matrix frame for motor [i]: the actuator
    value, then the pulse width. *)
Definition motor_output `{ThrustLinearizer} (thrust : Motors -> nat -> Q)
    (i : nat) : State Vehicle unit :=
  enabled ← gets (fun v : Vehicle => is_motor_enabled v.(motors) i);
  when enabled
    (modify (upd_motors (fun m =>
       set_actuator (<[i := next_actuator thrust m i]> m.(actuator)) m));;
     pwm ← gets (fun v : Vehicle =>
       output_to_pwm v.(motors) (default 0 (v.(motors).(actuator) !! i)));
     match pwm with
     | Some z => rc_write i (to_uint16 z)
     | None => ret tt
     end).

(** Motor [i] before its iteration of the loop, and after it. *)
Definition motor_ready (i : nat) (v : Vehicle) : Prop :=
  0 < v.(motors).(inputs).(dt_s)
  /\ length v.(motors).(actuator) = AP_MOTORS_MAX_NUM_MOTORS
  /\ is_motor_enabled v.(motors) i = true.

Definition motor_sent (i : nat) (v : Vehicle) : Prop :=
  exists a, v.(motors).(actuator) !! i = Some a
    /\ 0 <= a <= 1
    /\ forall z, output_to_pwm v.(motors) a = Some z ->
         v.(servo).(rc_out) !! i = Some (to_uint16 z).

(** A frame in the manner of the matrix mixer, for the thrust it asks of
    each motor. *)
Definition matrix_frame `{ThrustLinearizer} (thrust : Motors -> nat -> Q)
    (roll_factor : nat -> Q) : FrameMixer :=
  {| output_armed_stabilizing := ret tt;
     thrust_compensation := ret tt;
     output_to_motors := for_each_motor (motor_output thrust);
     get_roll_factor := roll_factor |}.

(** The thrust of a frame that asks every motor for the throttle, below the
    ceiling of the spool logic. *)
Definition collective_thrust (m : Motors) (i : nat) : Q :=
  MIN (get_throttle m) m.(spool).(throttle_thrust_max).

Definition collective_frame : FrameMixer :=
  @matrix_frame linear_thrust collective_thrust (fun _ => 0).

(** The arrays of the object have their size. *)
Definition arrays_ok (m : Motors) : Prop :=
  length m.(actuator) = AP_MOTORS_MAX_NUM_MOTORS
  /\ length m.(motor_enabled) = AP_MOTORS_MAX_NUM_MOTORS.

(** What [output_min] writes before its tick. *)
Definition shut_down_request (m : Motors) : Motors :=
  set_spool_state SHUT_DOWN (set_spool_desired DESIRED_SHUT_DOWN m).

(** ** Example vehicles *)

Definition enable_four (m : Motors) : Motors :=
  mkMotors m.(params) m.(thr_lin) m.(inputs) m.(limit) m.(spool)
    m.(throttle_limit) m.(throttle_filter) m.(actuator)
    (replicate 4 true ++ replicate (AP_MOTORS_MAX_NUM_MOTORS - 4) false)
    m.(motor_mask_override) m.(throttle_avg_max) m.(throttle_out) m.(slew).

(** A quadcopter in flight, and the same just disarmed. *)
Definition flying_quad : Vehicle :=
  vehicle_of (set_throttle_in 0.5 (enable_four flying_motors)).

Definition disarmed_quad : Vehicle :=
  upd_motors (set_armed false) flying_quad.

#[export] Hint Unfold update_external_limits : motors.

(** ** Lemmas: limit flags *)

Lemma limit_le_refl l : limit_le l l.
Proof. destruct l as [[] [] [] [] []]; reflexivity. Qed.

Lemma orb_le_trans (x y z : bool) : x || y = y -> y || z = z -> x || z = z.
Proof. by destruct x, y, z. Qed.

Lemma limit_le_trans a b c : limit_le a b -> limit_le b c -> limit_le a c.
Proof.
  destruct a, b, c. unfold limit_le, limit_or. cbn. intros [= ] [= ].
  f_equal; by eapply orb_le_trans.
Qed.

Lemma limit_le_all_true l : limit_le (limit_all true) l -> l = limit_all true.
Proof. by intros <-. Qed.

Lemma limit_le_or_l a b : limit_le a (limit_or a b).
Proof.
  destruct a as [[] [] [] [] []], b as [[] [] [] [] []]; reflexivity.
Qed.

Lemma limit_le_or_r a b : limit_le b (limit_or a b).
Proof.
  destruct a as [[] [] [] [] []], b as [[] [] [] [] []]; reflexivity.
Qed.

(** ** Lemmas: what the stages keep *)

#[export] Instance keeps_config_preorder : PreOrder keeps_config.
Proof.
  split; [by intros m | intros a b c Hab Hbc].
  unfold keeps_config in *. congruence.
Qed.

Lemma keeps_config_fields m m' :
  keeps_config m m' ->
  m'.(inputs) = m.(inputs) /\ m'.(motor_enabled) = m.(motor_enabled)
  /\ m'.(motor_mask_override) = m.(motor_mask_override)
  /\ length m'.(actuator) = length m.(actuator)
  /\ get_spin_min m' = get_spin_min m /\ get_spin_max m' = get_spin_max m
  /\ m'.(params).(pwm_min) = m.(params).(pwm_min)
  /\ m'.(params).(pwm_max) = m.(params).(pwm_max)
  /\ m'.(params).(disarm_disable_pwm) = m.(params).(disarm_disable_pwm)
  /\ m'.(params).(boost_scale) = m.(params).(boost_scale)
  /\ m'.(params).(safe_time) = m.(params).(safe_time)
  /\ m'.(params).(spin_arm) = m.(params).(spin_arm)
  /\ m'.(params).(batt_current_time_constant)
     = m.(params).(batt_current_time_constant).
Proof.
  unfold keeps_config, tick_constants. cbn. intros H. simplify_eq.
  injection H; intros. by split_and!.
Qed.

Lemma keeps_config_ok m m' : keeps_config m m' -> config_ok m -> config_ok m'.
Proof.
  intros (Hi & _ & _ & _ & Hmin & Hmax & _ & _ & _ & _ & Hs & Ha & Ht)
    %keeps_config_fields [].
  unfold get_spin_min, get_spin_max in *.
  split; rewrite ?Hi, ?Hmin, ?Hmax, ?Hs, ?Ha, ?Ht; done.
Qed.

Lemma tick_constants_mask z m :
  tick_constants (set_motor_mask_override z m)
  = (let '(p, a, b, i, e, _, l) := tick_constants m in (p, a, b, i, e, z, l)).
Proof. reflexivity. Qed.

Lemma spool_inv_same m m' :
  m'.(spool) = m.(spool) -> m'.(inputs) = m.(inputs) ->
  m'.(params).(safe_time) = m.(params).(safe_time) ->
  spool_inv m -> spool_inv m'.
Proof. intros Hsp Hi Hs []. split; rewrite ?Hsp, ?Hi, ?Hs; done. Qed.

Lemma keeps_spool_inv m m' :
  keeps_config m m' -> m'.(spool) = m.(spool) -> spool_inv m -> spool_inv m'.
Proof.
  intros (Hi & _ & _ & _ & _ & _ & _ & _ & _ & _ & Hs & _)
    %keeps_config_fields Hsp.
  by apply spool_inv_same.
Qed.

Lemma keeps_pwm_ok m m' : keeps_config m m' -> pwm_ok m -> pwm_ok m'.
Proof.
  intros (_ & _ & _ & _ & _ & _ & Hmin & Hmax & _)%keeps_config_fields [Hc Hm].
  split; [|by rewrite Hmax]. apply check_mot_pwm_params_true.
  apply check_mot_pwm_params_true in Hc. by rewrite Hmin, Hmax.
Qed.

Lemma mixer_writes_refl m : mixer_writes m m.
Proof. split; [done..|apply limit_le_refl]. Qed.

Lemma mixer_writes_trans a b c :
  mixer_writes a b -> mixer_writes b c -> mixer_writes a c.
Proof.
  intros [] []. split; [by etrans | congruence.. | by eapply limit_le_trans].
Qed.

(** The frame leaves the parameters alone, and what the spool logic reads
    of the object. *)
Lemma mixer_params m m' : mixer_writes m m' -> m'.(params) = m.(params).
Proof.
  intros [Hk _ _ _ Ht _]. unfold keeps_config, tick_constants in Hk.
  apply (f_equal (fun t => t.1.1.1.1.1.1)) in Hk. cbn in Hk.
  destruct m as [p], m' as [p']. destruct p, p'. cbn in *.
  injection Hk. intros. subst. reflexivity.
Qed.

Lemma mixer_logic_eq m m' : mixer_writes m m' -> logic_eq m m'.
Proof.
  intros Hw. pose proof (mixer_params _ _ Hw) as Hp. destruct Hw as [Hk Hs].
  apply keeps_config_fields in Hk as (Hi & _ & _ & _ & Hlo & Hhi & _).
  by split.
Qed.

Lemma update_throttle_filter_keeps `{DerivativeFilter} m :
  keeps_config m (exec update_throttle_filter m).
Proof.
  destruct (update_throttle_filter_frame m)
    as (Hp & Hi & _ & Ht & _ & _ & Ha & He & Hm & _).
  unfold keeps_config, tick_constants, get_spin_min, get_spin_max.
  cbn [set_spool_up_time upd_params params]. by rewrite Hp, Hi, Ht, Ha, He, Hm.
Qed.

Section Stages.

Context {battery : BattMonitor} `{ThrustLinearizerLaws} `{FrameMixerLaws}
  {derivative : DerivativeFilter}.
Implicit Types (m : Motors) (v : Vehicle).

Lemma update_lift_max_keeps m :
  keeps_config m (exec update_lift_max_from_batt_voltage m)
  /\ (exec update_lift_max_from_batt_voltage m).(spool) = m.(spool)
  /\ (exec update_lift_max_from_batt_voltage m).(throttle_filter)
     = m.(throttle_filter).
Proof. destruct (lift_max_writes m) as (l & f & ->). done. Qed.

Lemma output_logic_keeps m :
  keeps_config m (exec output_logic m)
  /\ (exec output_logic m).(throttle_filter) = m.(throttle_filter).
Proof.
  rewrite output_logic_eq.
  set (m1 := exec logic_prologue m).
  assert (keeps_config m m1 /\ m1.(throttle_filter) = m.(throttle_filter))
    as [Hk1 <-].
  { subst m1. unfold logic_prologue, update_disarm_safe_timer,
      force_shut_down, clamp_spool_up_time. run_exec; done. }
  assert (keeps_config m1
            (exec (spool_switch m1.(spool).(spool_state)) m1)
          /\ (exec (spool_switch m1.(spool).(spool_state)) m1).(throttle_filter)
             = m1.(throttle_filter)) as [Hk2 ->]; [|split; [by etrans | done]].
  destruct (spool_state (spool m1)); cbn [spool_switch];
    unfold logic_shut_down, logic_ground_idle, ground_idle_ramp,
      logic_spooling_up, logic_throttle_unlimited, logic_spooling_down;
    run_exec; done.
Qed.

Lemma logic_input_keeps m :
  keeps_config m (logic_input m)
  /\ (logic_input m).(spool) = m.(spool)
  /\ (logic_input m).(throttle_filter)
     = (exec update_throttle_filter m).(throttle_filter).
Proof.
  unfold logic_input.
  destruct (update_lift_max_keeps (exec update_throttle_filter m))
    as (Hk & -> & ->).
  destruct (update_throttle_filter_frame m) as (_ & _ & -> & _).
  split_and!; [|done..]. etrans; [apply update_throttle_filter_keeps | done].
Qed.

(** The estimate of the rate of the throttle is written by
    [update_throttle_filter] and by no later stage. *)
Lemma output_logic_slew m : (exec output_logic m).(slew) = m.(slew).
Proof.
  rewrite output_logic_eq.
  set (m1 := exec logic_prologue m).
  assert (m1.(slew) = m.(slew)) as <-.
  { subst m1. unfold logic_prologue, update_disarm_safe_timer,
      force_shut_down, clamp_spool_up_time. run_exec; done. }
  destruct (spool_state (spool m1)); cbn [spool_switch];
    unfold logic_shut_down, logic_ground_idle, ground_idle_ramp,
      logic_spooling_up, logic_throttle_unlimited, logic_spooling_down;
    run_exec; done.
Qed.

Lemma logic_input_slew m :
  (logic_input m).(slew) = (exec update_throttle_filter m).(slew).
Proof.
  unfold logic_input.
  by destruct (lift_max_writes (exec update_throttle_filter m))
    as (l & f & ->).
Qed.

(** The stages before the writes, as a composition. *)
Lemma output_mix_eq m :
  exec output_mix m
  = exec thrust_compensation
      (exec output_armed_stabilizing (exec output_logic (logic_input m))).
Proof. unfold output_mix, logic_input. by rewrite !exec_bind. Qed.

Lemma output_mix_writes m :
  mixer_writes (exec output_logic (logic_input m)) (exec output_mix m).
Proof.
  rewrite output_mix_eq.
  eapply mixer_writes_trans; [apply stabilizing_writes|].
  apply compensation_writes.
Qed.

Lemma output_mix_keeps m : keeps_config m (exec output_mix m).
Proof.
  etrans; [apply logic_input_keeps|].
  etrans; [apply output_logic_keeps | apply output_mix_writes].
Qed.

(** The writes of the boost throttle and of the roll, pitch, yaw and
    thrust outputs change the scaled outputs of the driver only. *)
Lemma output_boost_throttle_frame v :
  let v' := exec output_boost_throttle v in
  v'.(motors) = v.(motors) /\ v'.(store) = v.(store)
  /\ v'.(servo).(rc_out) = v.(servo).(rc_out)
  /\ v'.(servo).(output_pwm) = v.(servo).(output_pwm).
Proof. unfold output_boost_throttle, set_output_scaled. run_exec; done. Qed.

Lemma output_rpyt_frame v :
  let v' := exec output_rpyt v in
  v'.(motors) = v.(motors) /\ v'.(store) = v.(store)
  /\ v'.(servo).(rc_out) = v.(servo).(rc_out)
  /\ v'.(servo).(output_pwm) = v.(servo).(output_pwm).
Proof. unfold output_rpyt, set_output_scaled. run_exec; done. Qed.

Lemma output_eq v :
  exec output v
  = upd_motors
      (fun m => set_motor_mask_override 0 (exec update_external_limits m))
      (exec output_rpyt (exec output_boost_throttle (sent v))).
Proof.
  unfold output, sent. rewrite !exec_bind, !zoom_exec. reflexivity.
Qed.

Lemma output_motors v :
  (exec output v).(motors)
  = set_motor_mask_override 0 (exec update_external_limits (sent v).(motors)).
Proof.
  rewrite output_eq. cbn [upd_motors motors].
  destruct (output_rpyt_frame (exec output_boost_throttle (sent v))) as [-> _].
  by destruct (output_boost_throttle_frame (sent v)) as [-> _].
Qed.

Lemma output_rc_out v :
  (exec output v).(servo).(rc_out) = (sent v).(servo).(rc_out).
Proof.
  rewrite output_eq. cbn [upd_motors servo].
  destruct (output_rpyt_frame (exec output_boost_throttle (sent v)))
    as (_ & _ & -> & _).
  by destruct (output_boost_throttle_frame (sent v)) as (_ & _ & -> & _).
Qed.

Lemma sent_writes v :
  mixer_writes (exec output_logic (logic_input v.(motors))) (sent v).(motors).
Proof.
  eapply mixer_writes_trans; [apply output_mix_writes|].
  exact (to_motors_writes
           (upd_motors (fun _ => exec output_mix v.(motors)) v)).
Qed.

Lemma sent_keeps v : keeps_config v.(motors) (sent v).(motors).
Proof.
  etrans; [apply logic_input_keeps|].
  etrans; [apply output_logic_keeps | apply sent_writes].
Qed.

End Stages.

(** ** Lemmas: the matrix frame obeys the laws *)

Section Matrix.

Context `{ThrustLinearizer} (thrust : Motors -> nat -> Q).
Implicit Types (m : Motors) (v : Vehicle) (i : nat).

(** The iteration of a motor, as a function of the vehicle. *)
Lemma motor_output_eq i v :
  exec (motor_output thrust i) v
  = if is_motor_enabled v.(motors) i then
      let a := next_actuator thrust v.(motors) i in
      let m' := set_actuator (<[i := a]> v.(motors).(actuator)) v.(motors) in
      match output_to_pwm m' (default 0 (m'.(actuator) !! i)) with
      | Some z =>
        exec (rc_write i (to_uint16 z)) (mkVehicle m' v.(servo) v.(store))
      | None => mkVehicle m' v.(servo) v.(store)
      end
    else v.
Proof.
  unfold motor_output. rewrite exec_bind, eval_gets, exec_gets, exec_when.
  destruct (is_motor_enabled _ _); [|done].
  rewrite !exec_bind, exec_modify, eval_gets, exec_gets. cbn.
  by destruct (output_to_pwm _ _).
Qed.

Lemma next_actuator_fraction m i :
  0 < m.(inputs).(dt_s) -> 0 <= next_actuator thrust m i <= 1.
Proof.
  intros Hdt. unfold next_actuator.
  destruct (spool_state _); [lra | by apply set_actuator_with_slew_fraction..].
Qed.

Lemma motor_output_writes i v :
  mixer_writes v.(motors) (exec (motor_output thrust i) v).(motors)
  /\ (exec (motor_output thrust i) v).(store) = v.(store)
  /\ (exec (motor_output thrust i) v).(servo).(output_scaled)
     = v.(servo).(output_scaled).
Proof.
  rewrite motor_output_eq.
  destruct (is_motor_enabled _ _);
    [|split_and!; [apply mixer_writes_refl | done..]].
  cbv zeta. destruct (output_to_pwm _ _); cbn;
    (split_and!; [|done..]);
    (split; [|done..|apply limit_le_refl]);
    unfold keeps_config, tick_constants; cbn; by rewrite length_insert.
Qed.

(** The iteration of another motor keeps what the iteration of motor [i]
    has written. *)
Lemma motor_output_other i j v :
  j <> i ->
  let v' := exec (motor_output thrust j) v in
  v'.(motors).(actuator) !! i = v.(motors).(actuator) !! i
  /\ v'.(servo).(rc_out) !! i = v.(servo).(rc_out) !! i
  /\ forall a, output_to_pwm v'.(motors) a = output_to_pwm v.(motors) a.
Proof.
  intros Hj. cbv zeta. rewrite motor_output_eq.
  destruct (is_motor_enabled _ _); [|done].
  cbv zeta. destruct (output_to_pwm _ _); cbn;
    rewrite ?list_lookup_insert_ne, ?lookup_insert_ne by done; done.
Qed.

Lemma motor_output_at i v :
  is_motor_enabled v.(motors) i = true ->
  (i < length v.(motors).(actuator))%nat ->
  let v' := exec (motor_output thrust i) v in
  v'.(motors).(actuator) !! i = Some (next_actuator thrust v.(motors) i)
  /\ forall z,
       output_to_pwm v'.(motors) (next_actuator thrust v.(motors) i) = Some z ->
       v'.(servo).(rc_out) !! i = Some (to_uint16 z).
Proof.
  intros He Hi. cbv zeta. rewrite motor_output_eq, He. cbv zeta.
  cbn [set_actuator actuator]. rewrite list_lookup_insert_eq by done.
  cbn [default from_option id].
  destruct (output_to_pwm _ _) as [z|] eqn:Hz; cbn;
    (split; [by apply list_lookup_insert_eq|]); intros z' Hz';
    [|congruence].
  rewrite Hz in Hz'. injection Hz' as <-. apply lookup_insert_eq.
Qed.

#[export] Instance matrix_frame_laws roll_factor :
  @FrameMixerLaws (matrix_frame thrust roll_factor).
Proof.
  split; cbn [output_armed_stabilizing thrust_compensation output_to_motors
              matrix_frame].
  - apply mixer_writes_refl.
  - apply mixer_writes_refl.
  - intros v.
    apply (for_each_motor_invariant
             (fun s => mixer_writes v.(motors) s.(motors)));
      [|apply mixer_writes_refl].
    intros i s _ Hs. eapply mixer_writes_trans; [done|].
    apply motor_output_writes.
  - intros v.
    apply (for_each_motor_invariant (fun s => s.(store) = v.(store)));
      [|done].
    intros i s _ <-. apply motor_output_writes.
  - intros v.
    apply (for_each_motor_invariant
             (fun s => s.(servo).(output_scaled) = v.(servo).(output_scaled)));
      [|done].
    intros i s _ <-. apply motor_output_writes.
  - intros v i Hdt Hlen Hi He.
    apply (for_each_motor_at (motor_ready i) (motor_sent i)
             (motor_output thrust) i Hi);
      [| | | exact (conj Hdt (conj Hlen He))].
    + intros j s _ (Hd & Hl & Hen).
      destruct (motor_output_writes j s) as ([Hk _ _ _] & _).
      apply keeps_config_fields in Hk as (Hin & Hm & _ & Hlen' & _).
      unfold motor_ready, is_motor_enabled. by rewrite Hin, Hm, Hlen'.
    + intros s (Hd & Hl & Hen).
      destruct (motor_output_at i s Hen ltac:(lia)) as [Ha Hz].
      exists (next_actuator thrust s.(motors) i).
      split_and!; [done | by apply next_actuator_fraction.. | done].
    + intros j s Hj (a & Ha & Hr & Hz).
      destruct (motor_output_other i j s Hj) as (Ha' & Hr' & Hp).
      exists a. rewrite Ha', Hr'. do 2 (split; [done|]).
      intros z. rewrite Hp. apply Hz.
Qed.

Lemma motor_output_quiet i v :
  (exec (motor_output thrust i) v).(motors).(throttle_limit)
  = v.(motors).(throttle_limit).
Proof.
  rewrite motor_output_eq. destruct (is_motor_enabled _ _); [|done].
  cbv zeta. by destruct (output_to_pwm _ _).
Qed.

#[export] Instance matrix_frame_quiet roll_factor :
  @QuietMixer (matrix_frame thrust roll_factor).
Proof.
  split; cbn [output_armed_stabilizing thrust_compensation output_to_motors
              matrix_frame]; [done..|].
  intros v.
  apply (for_each_motor_invariant
           (fun s => s.(motors).(throttle_limit)
                     = v.(motors).(throttle_limit))); [|done].
  intros i s _ <-. apply motor_output_quiet.
Qed.

End Matrix.

(** ** Lemmas: the tick as a whole *)

Lemma to_uint16_small z : (0 <= z < 65536)%Z -> to_uint16 z = z.
Proof. apply Z.mod_small. Qed.

Lemma limit_or_all_true l : limit_or (limit_all true) l = limit_all true.
Proof. reflexivity. Qed.

Section Tick.

Context {battery : BattMonitor} `{ThrustLinearizerLaws} `{FrameMixerLaws}
  {derivative : DerivativeFilter}.
Implicit Types (m : Motors) (v : Vehicle) (i : nat).

(** The spool variables after the tick are those the spool logic leaves,
    and the filtered throttle is the one the filter leaves. *)
Lemma output_spool v :
  (exec output v).(motors).(spool)
  = (exec output_logic (logic_input v.(motors))).(spool).
Proof. rewrite output_motors. cbn. apply sent_writes. Qed.

Lemma output_filter v :
  (exec output v).(motors).(throttle_filter)
  = (exec update_throttle_filter v.(motors)).(throttle_filter).
Proof.
  rewrite output_motors. cbn. destruct (sent_writes v) as [_ _ -> _].
  destruct (output_logic_keeps (logic_input v.(motors))) as [_ ->].
  apply logic_input_keeps.
Qed.

Lemma output_slew v :
  (exec output v).(motors).(slew)
  = (exec update_throttle_filter v.(motors)).(slew).
Proof.
  rewrite output_motors. cbn. rewrite (mix_slew _ _ (sent_writes v)).
  by rewrite output_logic_slew, logic_input_slew.
Qed.

Lemma output_limit v :
  (exec output v).(motors).(limit)
  = limit_or (sent v).(motors).(limit) v.(motors).(inputs).(external_limits)
  /\ limit_le (exec output_logic (logic_input v.(motors))).(limit)
       (sent v).(motors).(limit).
Proof.
  rewrite output_motors. cbn. split; [|apply sent_writes].
  by destruct (keeps_config_fields _ _ (sent_keeps v)) as (-> & _).
Qed.

(** [output_min] is the tick of the object with a shut down requested and
    the spool state set to SHUT_DOWN. *)
Lemma output_min_eq v :
  exec output_min v = exec output (upd_motors shut_down_request v).
Proof.
  unfold output_min, set_desired_spool_state, shut_down_request.
  rewrite !exec_bind, !zoom_exec, exec_bind, eval_gets, exec_gets, exec_when.
  rewrite bool_decide_eq_true_2 by done. by rewrite orb_true_r.
Qed.

(** The tick keeps the configuration, the mask of overridden motors
    apart. *)
Lemma output_keeps v :
  keeps_config (set_motor_mask_override 0 v.(motors)) (exec output v).(motors).
Proof.
  rewrite output_motors. unfold keeps_config.
  rewrite !tick_constants_mask.
  change (tick_constants (exec update_external_limits (sent v).(motors)))
    with (tick_constants (sent v).(motors)).
  pose proof (sent_keeps v) as Hk. unfold keeps_config in Hk. by rewrite Hk.
Qed.

(** What the tick sends to the channel of an enabled motor. *)
Lemma output_sent v i :
  0 < v.(motors).(inputs).(dt_s) ->
  length v.(motors).(actuator) = AP_MOTORS_MAX_NUM_MOTORS ->
  (i < AP_MOTORS_MAX_NUM_MOTORS)%nat ->
  is_motor_enabled v.(motors) i = true ->
  exists a, 0 <= a <= 1
    /\ forall z, output_to_pwm (sent v).(motors) a = Some z ->
         (exec output v).(servo).(rc_out) !! i = Some (to_uint16 z).
Proof.
  intros Hdt Hlen Hi He. rewrite output_rc_out.
  destruct (keeps_config_fields _ _ (output_mix_keeps v.(motors)))
    as (Hin & Hen & _ & Hl & _).
  destruct (to_motors_pwm
              (upd_motors (fun _ => exec output_mix v.(motors)) v) i)
    as (a & _ & Ha & Hz); cbn [upd_motors motors];
    rewrite ?Hin, ?Hl; unfold is_motor_enabled; rewrite ?Hen; try done.
  by exists a.
Qed.

(** The pulse width of a motor while the object is in SHUT_DOWN. *)
Lemma output_sent_shut_down v i :
  pwm_ok v.(motors) -> 0 < v.(motors).(inputs).(dt_s) ->
  length v.(motors).(actuator) = AP_MOTORS_MAX_NUM_MOTORS ->
  (i < AP_MOTORS_MAX_NUM_MOTORS)%nat ->
  is_motor_enabled v.(motors) i = true ->
  (exec output v).(motors).(spool).(spool_state) = SHUT_DOWN ->
  (exec output v).(servo).(rc_out) !! i
  = Some (if v.(motors).(params).(disarm_disable_pwm)
             && negb v.(motors).(inputs).(armed)
          then 0%Z else v.(motors).(params).(pwm_min)).
Proof.
  intros Hok Hdt Hlen Hi He Hst.
  destruct (output_sent v i Hdt Hlen Hi He) as (a & _ & Hz).
  destruct (pwm_ok_range _ Hok) as (Hr & Hmax). unfold INT16_MAX in Hmax.
  destruct (keeps_config_fields _ _ (sent_keeps v))
    as (Hin & _ & _ & _ & _ & _ & Hmin & _ & Hdis & _).
  rewrite output_spool in Hst. destruct (sent_writes v) as [_ Hsp _ _].
  rewrite (Hz _ (output_to_pwm_shut _ a ltac:(rewrite Hmin; split;
             unfold INT16_MIN, INT16_MAX; lia) ltac:(by rewrite Hsp))).
  rewrite Hin, Hmin, Hdis. f_equal. apply to_uint16_small.
  destruct (_ && _); lia.
Qed.

(** The tick as the spool logic sees it: the method runs on an object
    that differs from the one the vehicle code has written in the filter
    of the throttle and in the lift only, and the frame and the last
    stages leave what the method has written of the spool variables. *)
Lemma logic_input_eq m : limiter_eq m (logic_input m).
Proof.
  unfold logic_input.
  destruct (lift_max_writes (exec update_throttle_filter m)) as (l & f & ->).
  destruct (update_throttle_filter_frame m)
    as (Hp & Hi & Hs & Ht & _ & Htl & _).
  split; [split|]; cbn; by rewrite ?Hp, ?Hi, ?Hs, ?Ht, ?Htl.
Qed.

Lemma output_logic_seen v :
  logic_eq (exec output_logic (logic_input v.(motors)))
    (exec output v).(motors).
Proof.
  rewrite output_motors.
  etrans; [apply (mixer_logic_eq _ _ (sent_writes v)) | by split].
Qed.

Lemma output_limiter_seen `{!QuietMixer} v :
  limiter_eq (exec output_logic (logic_input v.(motors)))
    (exec output v).(motors).
Proof.
  split; [apply output_logic_seen|]. rewrite output_motors.
  change (throttle_limit (sent v).(motors)
          = throttle_limit (exec output_logic (logic_input v.(motors)))).
  unfold sent. rewrite to_motors_quiet. cbn [upd_motors motors].
  by rewrite output_mix_eq, compensation_quiet, stabilizing_quiet.
Qed.

(** The pulse width the tick sends to an enabled motor is zero or lies
    between [pwm_min] and [pwm_max]. *)
Lemma output_sent_range v i :
  pwm_ok v.(motors) -> 0 < v.(motors).(inputs).(dt_s) ->
  length v.(motors).(actuator) = AP_MOTORS_MAX_NUM_MOTORS ->
  (i < AP_MOTORS_MAX_NUM_MOTORS)%nat ->
  is_motor_enabled v.(motors) i = true ->
  exists p, (exec output v).(servo).(rc_out) !! i = Some p
    /\ (p = 0 \/ v.(motors).(params).(pwm_min) <= p
                  <= v.(motors).(params).(pwm_max))%Z.
Proof.
  intros Hok Hdt Hlen Hi He.
  destruct (output_sent v i Hdt Hlen Hi He) as (a & Ha & Hz).
  pose proof (keeps_pwm_ok _ _ (sent_keeps v) Hok) as Hok'.
  destruct (output_to_pwm_fraction _ a Hok' Ha) as (p & Hp & Hr).
  destruct (pwm_ok_range _ Hok') as (Hr' & Hmax). unfold INT16_MAX in Hmax.
  destruct (keeps_config_fields _ _ (sent_keeps v))
    as (_ & _ & _ & _ & _ & _ & Hmin & Hmx & _).
  exists p. rewrite (Hz p Hp), <- Hmin, <- Hmx. split; [|done].
  f_equal. apply to_uint16_small. lia.
Qed.

(** The tick keeps the object well formed. *)
Lemma output_well_formed v :
  config_ok v.(motors) -> spool_inv v.(motors) -> arrays_ok v.(motors) ->
  let m' := (exec output v).(motors) in
  config_ok m' /\ spool_inv m' /\ arrays_ok m'
  /\ m'.(motor_enabled) = v.(motors).(motor_enabled).
Proof.
  intros Hc Hinv [Hla Hle]. cbv zeta.
  pose proof (output_keeps v) as Hk.
  destruct (keeps_config_fields _ _ Hk) as (Hin & Hen & _ & Hlen & _).
  assert (config_ok (set_motor_mask_override 0 v.(motors))) as Hc0
    by (by destruct Hc).
  split_and!; [by apply (keeps_config_ok _ _ Hk) | |
               split; [by rewrite Hlen | by rewrite Hen] | done].
  apply (spool_inv_proper _ _ (output_logic_seen v)).
  pose proof (limiter_logic_eq _ _ (logic_input_eq v.(motors))) as E.
  rewrite output_logic_eq. apply spool_switch_inv, prologue_pre.
  - by apply (config_ok_proper _ _ E).
  - by apply (spool_inv_proper _ _ E).
Qed.

End Tick.

(** ** Theorems *)

Section OutputTheorems.

Context {battery : BattMonitor} `{ThrustLinearizerLaws} `{FrameMixerLaws}
  {derivative : DerivativeFilter}.
Implicit Types (m : Motors) (v : Vehicle) (i : nat).

(** C15: a disarmed vehicle is shut down within one tick: when [armed()] is
    false, [output] ends in SHUT_DOWN with every limit flag set, the
    filtered throttle at zero and the mask of overridden motors cleared, and
    every enabled motor is sent [pwm_min], or zero when the PWM is disabled
    on disarm, for every frame that obeys the laws [FrameMixerLaws]. *)
Theorem output_disarm v i :
  v.(motors).(inputs).(armed) = false ->
  pwm_ok v.(motors) -> 0 < v.(motors).(inputs).(dt_s) ->
  length v.(motors).(actuator) = AP_MOTORS_MAX_NUM_MOTORS ->
  (i < AP_MOTORS_MAX_NUM_MOTORS)%nat ->
  is_motor_enabled v.(motors) i = true ->
  let v' := exec output v in
  v'.(motors).(spool).(spool_state) = SHUT_DOWN
  /\ v'.(motors).(limit) = limit_all true
  /\ v'.(motors).(throttle_filter).(lpf_output) = 0
  /\ v'.(motors).(motor_mask_override) = 0%Z
  /\ v'.(servo).(rc_out) !! i
     = Some (if v.(motors).(params).(disarm_disable_pwm)
             then 0%Z else v.(motors).(params).(pwm_min)).
Proof.
  intros Harm Hok Hdt Hlen Hi He. cbv zeta.
  destruct (keeps_config_fields _ _ (proj1 (logic_input_keeps v.(motors))))
    as (Hin & _).
  destruct (shut_down_tick_state (logic_input v.(motors)))
    as (Hst & _ & Hlim & _); [left; by rewrite Hin|].
  destruct (output_limit v) as [Hl Hle]. rewrite Hlim in Hle.
  apply limit_le_all_true in Hle.
  assert ((exec output v).(motors).(spool).(spool_state) = SHUT_DOWN) as Hst'
    by (by rewrite output_spool).
  split_and!; [done | by rewrite Hl, Hle | | by rewrite output_motors |].
  - by rewrite output_filter, update_throttle_filter_disarmed_eq.
  - rewrite output_sent_shut_down by done. rewrite Harm.
    by rewrite andb_true_r.
Qed.

(** C16: every enabled motor is sent a pulse width after every tick, and
    the pulse width is zero or lies between [pwm_min] and [pwm_max],
    whatever the inputs, the spool state and the frame. *)
Theorem output_pwm_range v i :
  pwm_ok v.(motors) -> 0 < v.(motors).(inputs).(dt_s) ->
  length v.(motors).(actuator) = AP_MOTORS_MAX_NUM_MOTORS ->
  (i < AP_MOTORS_MAX_NUM_MOTORS)%nat ->
  is_motor_enabled v.(motors) i = true ->
  exists p, (exec output v).(servo).(rc_out) !! i = Some p
    /\ (p = 0 \/ v.(motors).(params).(pwm_min) <= p
                  <= v.(motors).(params).(pwm_max))%Z.
Proof. apply output_sent_range. Qed.

(** C17: the tick keeps the object well formed: from a well-formed
    configuration, arrays of the right size and spool variables that satisfy
    their invariant, [output] leaves a well-formed configuration, arrays of
    the same size and the same enabled motors, and spool variables that
    satisfy the invariant, for every frame that obeys the laws
    [FrameMixerLaws]. *)
Theorem output_inv v :
  config_ok v.(motors) -> spool_inv v.(motors) -> arrays_ok v.(motors) ->
  let m' := (exec output v).(motors) in
  config_ok m' /\ spool_inv m' /\ arrays_ok m'
  /\ m'.(motor_enabled) = v.(motors).(motor_enabled).
Proof. apply output_well_formed. Qed.

(** C26: a whole tick takes an edge of the transition graph of the spool
    states: the state after [output] is one the graph allows from the state
    before it, under the arming inputs and the desired state of the tick,
    for every battery and every frame that obeys the laws [FrameMixerLaws].
    *)
Theorem output_step v :
  spool_step
    (v.(motors).(inputs).(armed) && v.(motors).(inputs).(interlock))
    v.(motors).(spool).(spool_desired) v.(motors).(spool).(spool_state)
    (exec output v).(motors).(spool).(spool_state).
Proof.
  rewrite output_spool.
  destruct (logic_input_keeps v.(motors)) as (Hk & Hsp & _).
  destruct (keeps_config_fields _ _ Hk) as (Hin & _).
  rewrite <- Hin, <- Hsp. apply output_logic_step.
Qed.

(** The external limit flags reach the object: after the tick every
    flag the vehicle code has set in [external_limits] is set in [limit],
    and so is every flag the spool logic has set. *)
Theorem output_external_limits v :
  limit_le v.(motors).(inputs).(external_limits) (exec output v).(motors).(limit)
  /\ limit_le (exec output_logic (logic_input v.(motors))).(limit)
       (exec output v).(motors).(limit).
Proof.
  destruct (output_limit v) as [-> Hle].
  split; [apply limit_le_or_r|].
  eapply limit_le_trans; [done | apply limit_le_or_l].
Qed.

(** C27: [output_min] shuts the motors down at once: for valid PWM
    parameters and a positive period, from any spool state the tick it
    runs ends in SHUT_DOWN, and every enabled motor is sent [pwm_min], or
    zero when the vehicle is disarmed and the PWM is disabled on
    disarm. *)
Theorem output_min_shut_down v i :
  pwm_ok v.(motors) -> 0 < v.(motors).(inputs).(dt_s) ->
  length v.(motors).(actuator) = AP_MOTORS_MAX_NUM_MOTORS ->
  (i < AP_MOTORS_MAX_NUM_MOTORS)%nat ->
  is_motor_enabled v.(motors) i = true ->
  let v' := exec output_min v in
  v'.(motors).(spool).(spool_state) = SHUT_DOWN
  /\ v'.(servo).(rc_out) !! i
     = Some (if v.(motors).(params).(disarm_disable_pwm)
                && negb v.(motors).(inputs).(armed)
             then 0%Z else v.(motors).(params).(pwm_min)).
Proof.
  intros Hok Hdt Hlen Hi He. cbv zeta. rewrite output_min_eq.
  set (v0 := upd_motors shut_down_request v).
  assert ((exec output v0).(motors).(spool).(spool_state) = SHUT_DOWN) as Hst.
  { rewrite output_spool.
    destruct (logic_input_keeps v0.(motors)) as (_ & Hsp & _).
    apply shut_down_stay_tick; by rewrite Hsp. }
  assert (pwm_ok v0.(motors)) as Hok0 by (by destruct Hok).
  split; [done|]. exact (output_sent_shut_down v0 i Hok0 Hdt Hlen Hi He Hst).
Qed.

(** The tick keeps the estimate of the rate of the throttle well formed:
    the rate is the output of its filter and is not negative, whatever the
    frame and the derivative filter. *)
Theorem output_slew_ok v :
  0 < v.(motors).(inputs).(dt_s) -> slew_ok v.(motors) ->
  slew_ok (exec output v).(motors).
Proof.
  intros Hdt Hs. unfold slew_ok. rewrite output_slew.
  by apply update_throttle_filter_slew_ok.
Qed.

(** The boost throttle sent to the driver lies in 0..1000, and is zero
    when [boost_scale] is not positive. *)
Theorem output_boost_throttle_range v :
  exists x,
    (exec output_boost_throttle v).(servo).(output_scaled) !! k_boost_throttle
    = Some x
    /\ 0 <= x <= 1000
    /\ (v.(motors).(params).(boost_scale) <= 0 -> x = 0).
Proof.
  unfold output_boost_throttle. rewrite exec_bind, eval_gets, exec_gets.
  case_bool_decide as Hb; [rewrite exec_bind, eval_gets, exec_gets|];
    eexists; (split; [apply set_output_scaled_lookup|]).
  - pose proof (constrain_float_bounds
                  (get_throttle v.(motors) * v.(motors).(params).(boost_scale))
                  0 1 ltac:(lra)).
    split; [lra | intros ?; lra].
  - split; [lra | done].
Qed.

End OutputTheorems.

(** The disarm of the specification on a quadcopter with a matrix
    frame: one tick after [armed] goes false in flight the four motors
    are sent 1000, the spool state is SHUT_DOWN and the filtered throttle
    is zero. *)
Theorem disarm_scenario :
  let v' := @exec Vehicle unit
              (@output no_current_sensor linear_thrust collective_frame
                 two_point)
              disarmed_quad in
  v'.(motors).(spool).(spool_state) = SHUT_DOWN
  /\ v'.(motors).(throttle_filter).(lpf_output) = 0
  /\ (forall i, (i < 4)%nat -> v'.(servo).(rc_out) !! i = Some 1000%Z)
  /\ v'.(servo).(rc_out) !! 4%nat = None.
Proof.
  split_and!; [by vm_compute.. | | by vm_compute].
  intros i Hi. do 4 (destruct i as [|i]; [by vm_compute|]). lia.
Qed.

(** ** Witnesses *)

Lemma flying_quad_pwm_ok : pwm_ok flying_quad.(motors).
Proof. split; by vm_compute. Qed.

Lemma flying_quad_dt : 0 < flying_quad.(motors).(inputs).(dt_s).
Proof. by vm_compute. Qed.

Lemma flying_quad_inv :
  config_ok flying_quad.(motors) /\ spool_inv flying_quad.(motors)
  /\ arrays_ok flying_quad.(motors).
Proof.
  split_and!; [split; by vm_compute | | done].
  split; cbn; intros; try done; lra.
Qed.

Lemma output_disarm_witness :
  let v' := @exec Vehicle unit
              (@output no_current_sensor linear_thrust collective_frame
                 two_point)
              disarmed_quad in
  v'.(motors).(spool).(spool_state) = SHUT_DOWN
  /\ v'.(motors).(limit) = limit_all true
  /\ v'.(motors).(throttle_filter).(lpf_output) = 0
  /\ v'.(motors).(motor_mask_override) = 0%Z
  /\ v'.(servo).(rc_out) !! 0%nat = Some 1000%Z.
Proof.
  apply (@output_disarm no_current_sensor linear_thrust _ collective_frame _
           two_point disarmed_quad 0%nat);
    [done | split; by vm_compute | by vm_compute | done |
     unfold AP_MOTORS_MAX_NUM_MOTORS; lia | done].
Defined.

Lemma output_pwm_range_witness :
  exists p,
    (@exec Vehicle unit
       (@output no_current_sensor linear_thrust collective_frame
                 two_point)
       flying_quad).(servo).(rc_out) !! 0%nat = Some p
    /\ (p = 0 \/ 1000 <= p <= 2000)%Z.
Proof.
  apply (@output_pwm_range no_current_sensor linear_thrust _ collective_frame
           _ two_point flying_quad 0%nat);
    [apply flying_quad_pwm_ok | apply flying_quad_dt | done |
     unfold AP_MOTORS_MAX_NUM_MOTORS; lia | done].
Defined.

Lemma output_inv_witness :
  let m' := (@exec Vehicle unit
               (@output no_current_sensor linear_thrust collective_frame
                 two_point)
               flying_quad).(motors) in
  config_ok m' /\ spool_inv m' /\ arrays_ok m'
  /\ m'.(motor_enabled) = flying_quad.(motors).(motor_enabled).
Proof.
  apply (@output_inv no_current_sensor linear_thrust _ collective_frame _
           two_point flying_quad); apply flying_quad_inv.
Defined.

Lemma output_step_witness :
  spool_step (true && true) DESIRED_THROTTLE_UNLIMITED THROTTLE_UNLIMITED
    (@exec Vehicle unit
       (@output no_current_sensor linear_thrust collective_frame
                 two_point)
       flying_quad).(motors).(spool).(spool_state).
Proof.
  apply (@output_step no_current_sensor linear_thrust _ collective_frame _
           two_point flying_quad).
Defined.

Lemma output_slew_ok_witness :
  slew_ok
    (@exec Vehicle unit
       (@output no_current_sensor linear_thrust collective_frame
                 two_point)
       flying_quad).(motors).
Proof.
  apply (@output_slew_ok no_current_sensor linear_thrust _ collective_frame _
           two_point flying_quad); [apply flying_quad_dt | by vm_compute].
Defined.

Lemma output_min_shut_down_witness :
  let v' := @exec Vehicle unit
              (@output_min no_current_sensor linear_thrust collective_frame
                 two_point)
              flying_quad in
  v'.(motors).(spool).(spool_state) = SHUT_DOWN
  /\ v'.(servo).(rc_out) !! 0%nat = Some 1000%Z.
Proof.
  apply (@output_min_shut_down no_current_sensor linear_thrust _
           collective_frame _ two_point flying_quad 0%nat);
    [apply flying_quad_pwm_ok | apply flying_quad_dt | done |
     unfold AP_MOTORS_MAX_NUM_MOTORS; lia | done].
Defined.
