(* ===== verification/Passthrough.v ===== *)
(** * Outputs that bypass the mixer, and the PWM range

    [set_throttle_passthrough_for_esc_calibration] sends the pilot's
    throttle to every enabled motor; [output_motor_mask] drives the motors
    of a mask with one thrust, for tilt rotors in forward flight;
    [update_throttle_range] and [convert_pwm_min_max_param] set the PWM
    range.  All of them write to the servo driver or to the parameter
    storage and run on the [Vehicle].

    Where the conversion of a float to a 16-bit integer is undefined the
    model writes nothing; the theorems state when it is defined. *)

From Stdlib Require Import QArith ZArith Lqa Lia.
From stdpp Require Import base decidable option list gmap.
From S2P Require Import Prelude State Vehicle Actuator Output.

#[local] Open Scope state_scope.

(** ** Definitions *)

(** The [uint16_t pwm_out] of the ESC calibration. *)
Definition esc_calibration_pwm (m : Motors) (throttle_input : Q) : option Z :=
  float_to_uint16
    (inject_Z (get_pwm_output_min m)
     + constrain_float throttle_input 0 1
       * inject_Z (get_pwm_output_max m - get_pwm_output_min m)).

(** The body of its loop. *)
Definition write_enabled (pwm_out : Z) (i : nat) : State Vehicle unit :=
  enabled ← gets (fun v : Vehicle => is_motor_enabled v.(motors) i);
  when enabled (rc_write i pwm_out).

(** [set_throttle_passthrough_for_esc_calibration(throttle_input)] *)
Definition set_throttle_passthrough_for_esc_calibration (throttle_input : Q)
    : State Vehicle unit :=
  is_armed ← gets (fun v : Vehicle => v.(motors).(inputs).(armed));
  when is_armed
    (pwm ← gets (fun v : Vehicle =>
       esc_calibration_pwm v.(motors) throttle_input);
     match pwm with
     | Some pwm_out =>
       for_each_motor (write_enabled pwm_out);;
       set_output_pwm k_throttleRight pwm_out;;
       set_output_pwm k_throttleLeft pwm_out
     | None => ret tt
     end).

(** An [int] stored in an [int16_t]. *)
Definition wrap_int16 (z : Z) : Z := ((z + 32768) mod 65536 - 32768)%Z.

(** [(mask & (1U << i)) != 0] *)
Definition mask_bit (mask : Z) (i : nat) : bool :=
  negb (Z.land mask (Z.shiftl 1 (Z.of_nat i)) =? 0)%Z.

(** The actuator value [output_motor_mask] gives a motor of the mask. *)
Definition masked_actuator `{FrameMixer} (thrust rudder_dt : Q) (m : Motors)
    (i : nat) : Q :=
  if m.(inputs).(armed) && m.(inputs).(interlock) then
    let diff_thrust := get_roll_factor i * rudder_dt * 0.5 in
    set_actuator_with_slew m (default 0 (m.(actuator) !! i))
      (thrust + diff_thrust)
  else 0.

(** Its [int16_t pwm_output]. *)
Definition masked_pwm (m : Motors) (i : nat) : option Z :=
  let pwm_min := get_pwm_output_min m in
  let pwm_range := wrap_int16 (get_pwm_output_max m - pwm_min) in
  float_to_int16
    (inject_Z pwm_min + inject_Z pwm_range * default 0 (m.(actuator) !! i)).

(** The body of its loop. *)
Definition mask_motor `{FrameMixer} (thrust : Q) (mask : Z) (rudder_dt : Q)
    (i : nat) : State Vehicle unit :=
  selected ← gets (fun v : Vehicle =>
    is_motor_enabled v.(motors) i && mask_bit mask i);
  when selected
    (modify (upd_motors (fun m =>
       set_actuator
         (<[i := masked_actuator thrust rudder_dt m i]> m.(actuator)) m));;
     pwm ← gets (fun v : Vehicle => masked_pwm v.(motors) i);
     match pwm with
     | Some pwm_output => rc_write i (to_uint16 pwm_output)
     | None => ret tt
     end).

(** [output_motor_mask(thrust, mask, rudder_dt)] *)
Definition output_motor_mask `{FrameMixer} (thrust : Q) (mask : Z)
    (rudder_dt : Q) : State Vehicle unit :=
  zoom (modify (set_motor_mask_override mask));;
  for_each_motor (mask_motor thrust mask rudder_dt).

(** [get_motor_mask()] *)
Definition get_motor_mask `{ServoConfig} : Z :=
  get_output_channel_mask k_boost_throttle.

(** [_pwm_min] and [_pwm_max], written together. *)
Definition set_pwm_min_max (lo hi : Z) : Motors -> Motors :=
  upd_params (fun p =>
    mkParams p.(yaw_headroom) p.(batt_current_max) p.(pwm_type) lo hi
      p.(pwm_min_configured) p.(pwm_max_configured) p.(spin_arm)
      p.(batt_current_time_constant) p.(throttle_hover)
      p.(throttle_hover_learn) p.(disarm_disable_pwm)
      p.(yaw_servo_angle_max_deg) p.(spool_up_time) p.(boost_scale)
      p.(slew_up_time) p.(slew_dn_time) p.(safe_time) p.(options)
      p.(spool_down_time)).

(** What [set_and_save] leaves of the two flags: once a value is in the
    store, [configured()] reads true. *)
Definition set_pwm_configured (lo hi : bool) : Motors -> Motors :=
  upd_params (fun p =>
    mkParams p.(yaw_headroom) p.(batt_current_max) p.(pwm_type)
      p.(pwm_min) p.(pwm_max) lo hi p.(spin_arm)
      p.(batt_current_time_constant) p.(throttle_hover)
      p.(throttle_hover_learn) p.(disarm_disable_pwm)
      p.(yaw_servo_angle_max_deg) p.(spool_up_time) p.(boost_scale)
      p.(slew_up_time) p.(slew_dn_time) p.(safe_time) p.(options)
      p.(spool_down_time)).

(** [_pwm_min.set_and_save(lo); _pwm_max.set_and_save(hi)]: both members
    and both stored values are written, and both parameters are
    configured from then on. *)
Definition pwm_set_and_save (lo hi : Z) (v : Vehicle) : Vehicle :=
  upd_store (fun s => mkStore s.(stored_throttle_hover) (Some lo) (Some hi))
    (upd_motors
       (fun m => set_pwm_configured true true (set_pwm_min_max lo hi m)) v).

(** [update_throttle_range()].  [set_and_default] writes the member and
    its default and does not touch the store, so the two flags stay. *)
Definition update_throttle_range `{ServoConfig} : State Vehicle unit :=
  digital ← gets (fun v : Vehicle =>
    have_digital_outputs get_motor_mask
    || bool_decide (v.(motors).(params).(pwm_type) = PWM_RANGE)
    || bool_decide (v.(motors).(params).(pwm_type) = PWM_ANGLE));
  when digital (zoom (modify (set_pwm_min_max 1000 2000)));;
  lo ← gets (fun v : Vehicle => get_pwm_output_min v.(motors));
  hi ← gets (fun v : Vehicle => get_pwm_output_max v.(motors));
  set_esc_scaling lo hi.

(** [convert_pwm_min_max_param(radio_min, radio_max)] *)
Definition convert_pwm_min_max_param (radio_min radio_max : Z)
    : State Vehicle unit :=
  configured ← gets (fun v : Vehicle =>
    v.(motors).(params).(pwm_min_configured)
    || v.(motors).(params).(pwm_max_configured));
  if configured then ret tt
  else modify (pwm_set_and_save radio_min radio_max).

(** What the loop of [output_motor_mask] keeps of the vehicle [v] it
    started from: the object but for its actuators. *)
Definition masked (v : Vehicle) (mask : Z) (s : Vehicle) : Prop :=
  exists l,
    s.(motors) = set_actuator l (set_motor_mask_override mask v.(motors))
    /\ length l = length v.(motors).(actuator).

(** What the loop leaves for a motor of the mask: its actuator value and
    the pulse width sent to its channel. *)
Definition mask_sent `{FrameMixer} (v : Vehicle) (thrust rudder_dt : Q)
    (i : nat) (s : Vehicle) : Prop :=
  let a := masked_actuator thrust rudder_dt v.(motors) i in
  s.(motors).(actuator) !! i = Some a
  /\ exists p, s.(servo).(rc_out) !! i = Some p
       /\ (v.(motors).(params).(pwm_min) <= p
           <= v.(motors).(params).(pwm_max))%Z
       /\ (a == 0 -> p = v.(motors).(params).(pwm_min)).

(** ** Example vehicles *)

(** The mask of the two front motors. *)
Definition front_mask : Z := 3.

Definition digital_servo : ServoConfig :=
  {| have_digital_outputs := fun _ => true;
     get_output_channel_mask := fun _ => 15%Z;
     find_channel := fun f =>
       match f with k_motor n => Some n | _ => None end |}.

(** ** Lemmas *)

Lemma float_to_uint16_between (lo hi : Z) q :
  (0 <= lo)%Z -> (hi <= UINT16_MAX)%Z -> inject_Z lo <= q <= inject_Z hi ->
  exists p, float_to_uint16 q = Some p /\ (lo <= p <= hi)%Z.
Proof.
  intros Hlo Hhi Hq. pose proof (Qtrunc_between lo hi q Hlo Hq) as Ht.
  exists (Qtrunc q). split; [|done].
  unfold float_to_uint16. rewrite decide_True; [done|].
  unfold in_uint16. lia.
Qed.

Lemma wrap_int16_small z : (-32768 <= z <= 32767)%Z -> wrap_int16 z = z.
Proof. intros H. unfold wrap_int16. rewrite Z.mod_small; lia. Qed.

(** The test of the mask is the test of a bit. *)
Lemma mask_bit_testbit mask i : mask_bit mask i = Z.testbit mask (Z.of_nat i).
Proof.
  unfold mask_bit. rewrite Z.shiftl_1_l.
  destruct (Z.testbit mask (Z.of_nat i)) eqn:Hb.
  - apply negb_true_iff, Z.eqb_neq. intros H0.
    apply (f_equal (fun z => Z.testbit z (Z.of_nat i))) in H0.
    rewrite Z.land_spec, Hb, Z.pow2_bits_true, Z.bits_0 in H0 by lia. done.
  - apply negb_false_iff, Z.eqb_eq, Z.bits_inj'. intros n Hn.
    rewrite Z.land_spec, Z.bits_0, Z.pow2_bits_eqb by lia.
    destruct (Z.eqb_spec (Z.of_nat i) n) as [<-|];
      [by rewrite Hb | apply andb_false_r].
Qed.

(** The pulse width of the calibration lies within the PWM range and
    follows the throttle. *)
Lemma esc_calibration_pwm_range m t :
  pwm_ok m ->
  exists p, esc_calibration_pwm m t = Some p
    /\ (m.(params).(pwm_min) <= p <= m.(params).(pwm_max))%Z.
Proof.
  intros (Hr & Hmax)%pwm_ok_range. unfold INT16_MAX in Hmax.
  apply float_to_uint16_between; [lia | unfold UINT16_MAX; lia |].
  unfold get_pwm_output_min, get_pwm_output_max.
  pose proof (constrain_float_bounds t 0 1 ltac:(lra)).
  assert (0 < inject_Z (m.(params).(pwm_max) - m.(params).(pwm_min)))
    by (rewrite <- (Zlt_Qlt 0); lia).
  rewrite (inject_Z_sub m.(params).(pwm_max)) in *. nra.
Qed.

Lemma esc_calibration_pwm_ends m t :
  pwm_ok m ->
  (t <= 0 -> esc_calibration_pwm m t = Some m.(params).(pwm_min))
  /\ (1 <= t -> esc_calibration_pwm m t = Some m.(params).(pwm_max)).
Proof.
  intros (Hr & Hmax)%pwm_ok_range. unfold INT16_MAX in Hmax.
  unfold esc_calibration_pwm, get_pwm_output_min, get_pwm_output_max.
  assert (Hu : forall z, (0 <= z <= 32767)%Z ->
            float_to_uint16 (inject_Z z) = Some z).
  { intros z Hz. unfold float_to_uint16. rewrite Qtrunc_inject_Z.
    rewrite decide_True; [done|]. unfold in_uint16, UINT16_MAX. lia. }
  assert (Hc0 : t <= 0 -> constrain_float t 0 1 == 0)
    by (unfold constrain_float; qsolve).
  assert (Hc1 : 1 <= t -> constrain_float t 0 1 == 1)
    by (unfold constrain_float; qsolve).
  split; intros Ht.
  - rewrite <- (Hu m.(params).(pwm_min)) by lia.
    apply float_to_uint16_proper. rewrite (Hc0 Ht). ring.
  - rewrite <- (Hu m.(params).(pwm_max)) by lia.
    apply float_to_uint16_proper. rewrite (Hc1 Ht), inject_Z_sub. ring.
Qed.

(** The loop of the calibration. *)
Lemma write_enabled_eq p i v :
  exec (write_enabled p i) v
  = if is_motor_enabled v.(motors) i then exec (rc_write i p) v else v.
Proof.
  unfold write_enabled. rewrite exec_bind, eval_gets, exec_gets, exec_when.
  done.
Qed.

Lemma write_enabled_frame p i v :
  let v' := exec (write_enabled p i) v in
  v'.(motors) = v.(motors) /\ v'.(store) = v.(store)
  /\ v'.(servo).(output_pwm) = v.(servo).(output_pwm)
  /\ v'.(servo).(output_scaled) = v.(servo).(output_scaled).
Proof. cbv zeta. rewrite write_enabled_eq. by destruct (is_motor_enabled _ _). Qed.

Lemma write_enabled_loop_frame p v :
  let v' := exec (for_each_motor (write_enabled p)) v in
  v'.(motors) = v.(motors) /\ v'.(store) = v.(store)
  /\ v'.(servo).(output_pwm) = v.(servo).(output_pwm).
Proof.
  apply (for_each_motor_invariant
           (fun s => s.(motors) = v.(motors) /\ s.(store) = v.(store)
                     /\ s.(servo).(output_pwm) = v.(servo).(output_pwm)));
    [|done].
  intros i s _ (<- & <- & <-).
  destruct (write_enabled_frame p i s) as (-> & -> & -> & _). done.
Qed.

Lemma write_enabled_loop_at p v i :
  (i < AP_MOTORS_MAX_NUM_MOTORS)%nat ->
  (exec (for_each_motor (write_enabled p)) v).(servo).(rc_out) !! i
  = if is_motor_enabled v.(motors) i then Some p
    else v.(servo).(rc_out) !! i.
Proof.
  intros Hi.
  apply (for_each_motor_at
           (fun s => s.(motors) = v.(motors)
                     /\ s.(servo).(rc_out) !! i = v.(servo).(rc_out) !! i)
           (fun s => s.(motors) = v.(motors)
                     /\ s.(servo).(rc_out) !! i
                        = if is_motor_enabled v.(motors) i then Some p
                          else v.(servo).(rc_out) !! i)
           (write_enabled p) i Hi); [| | |done].
  - intros j s Hj [Hm Hr]. rewrite write_enabled_eq.
    destruct (is_motor_enabled _ _); [|done].
    split; [done|]. by rewrite rc_write_other.
  - intros s [Hm Hr]. rewrite write_enabled_eq, Hm.
    destruct (is_motor_enabled _ _); [|done].
    split; [done|]. apply rc_write_lookup.
  - intros j s Hj [Hm Hr]. rewrite write_enabled_eq.
    destruct (is_motor_enabled s.(motors) j); [|done].
    split; [done|]. by rewrite rc_write_other.
Qed.

(** The pulse width [output_motor_mask] sends for a fraction. *)
Lemma masked_pwm_range m i a :
  pwm_ok m -> m.(actuator) !! i = Some a -> 0 <= a <= 1 ->
  exists p, masked_pwm m i = Some p
    /\ (m.(params).(pwm_min) <= p <= m.(params).(pwm_max))%Z
    /\ (a == 0 -> p = m.(params).(pwm_min)).
Proof.
  intros (Hr & Hmax)%pwm_ok_range Ha Hf. unfold INT16_MAX in Hmax.
  unfold masked_pwm, get_pwm_output_min, get_pwm_output_max.
  rewrite Ha, wrap_int16_small by lia. cbn [default from_option id].
  assert (0 < inject_Z (m.(params).(pwm_max) - m.(params).(pwm_min)))
    by (rewrite <- (Zlt_Qlt 0); lia).
  destruct (float_to_int16_between m.(params).(pwm_min) m.(params).(pwm_max)
              (inject_Z m.(params).(pwm_min)
               + inject_Z (m.(params).(pwm_max) - m.(params).(pwm_min)) * a))
    as (p & Hp & Hpr); [lia | done | |].
  - rewrite (inject_Z_sub m.(params).(pwm_max)) in *. nra.
  - exists p. do 2 (split; [done|]). intros H0. rewrite H0 in Hp.
    rewrite Qmult_0_r, Qplus_0_r, float_to_int16_Z in Hp; [congruence|].
    unfold in_int16, INT16_MIN, INT16_MAX. lia.
Qed.

Section Mask.

Context `{FrameMixer} (thrust : Q) (mask : Z) (rudder_dt : Q).
Implicit Types (v s : Vehicle) (i j : nat).

(** The iteration of a motor, as a function of the vehicle. *)
Lemma mask_motor_eq i s :
  exec (mask_motor thrust mask rudder_dt i) s
  = if is_motor_enabled s.(motors) i && mask_bit mask i then
      let m' := set_actuator
                  (<[i := masked_actuator thrust rudder_dt s.(motors) i]>
                     s.(motors).(actuator)) s.(motors) in
      match masked_pwm m' i with
      | Some z =>
        exec (rc_write i (to_uint16 z)) (mkVehicle m' s.(servo) s.(store))
      | None => mkVehicle m' s.(servo) s.(store)
      end
    else s.
Proof.
  unfold mask_motor. rewrite exec_bind, eval_gets, exec_gets, exec_when.
  destruct (_ && _); [|done].
  rewrite !exec_bind, exec_modify, eval_gets, exec_gets. cbn.
  by destruct (masked_pwm _ _).
Qed.

Lemma masked_actuator_fraction m i :
  0 < m.(inputs).(dt_s) -> 0 <= masked_actuator thrust rudder_dt m i <= 1.
Proof.
  intros Hdt. unfold masked_actuator.
  destruct (_ && _); [by apply set_actuator_with_slew_fraction | lra].
Qed.

(** An iteration changes actuators only, and only the motor's own. *)
Lemma mask_motor_masked v i s :
  masked v mask s -> masked v mask (exec (mask_motor thrust mask rudder_dt i) s).
Proof.
  intros (l & Hm & Hl). rewrite mask_motor_eq.
  destruct (_ && _); [|by exists l]. cbv zeta.
  exists (<[i := masked_actuator thrust rudder_dt s.(motors) i]> l).
  rewrite length_insert. split; [|done].
  destruct (masked_pwm _ _); cbn; by rewrite Hm.
Qed.

Lemma mask_motor_other i j s :
  j <> i ->
  let s' := exec (mask_motor thrust mask rudder_dt j) s in
  s'.(motors).(actuator) !! i = s.(motors).(actuator) !! i
  /\ s'.(servo).(rc_out) !! i = s.(servo).(rc_out) !! i.
Proof.
  intros Hj. cbv zeta. rewrite mask_motor_eq.
  destruct (_ && _); [|done]. cbv zeta.
  destruct (masked_pwm _ _); cbn;
    rewrite ?list_lookup_insert_ne, ?lookup_insert_ne by done; done.
Qed.

Lemma mask_motor_skip i s :
  is_motor_enabled s.(motors) i && mask_bit mask i = false ->
  exec (mask_motor thrust mask rudder_dt i) s = s.
Proof. intros Hs. by rewrite mask_motor_eq, Hs. Qed.

(** The iteration of a selected motor writes its actuator and its pulse
    width. *)
Lemma mask_motor_at v i s :
  pwm_ok v.(motors) -> 0 < v.(motors).(inputs).(dt_s) ->
  masked v mask s -> (i < length v.(motors).(actuator))%nat ->
  is_motor_enabled v.(motors) i && mask_bit mask i = true ->
  s.(motors).(actuator) !! i = v.(motors).(actuator) !! i ->
  let s' := exec (mask_motor thrust mask rudder_dt i) s in
  let a := masked_actuator thrust rudder_dt v.(motors) i in
  s'.(motors).(actuator) !! i = Some a
  /\ exists p, s'.(servo).(rc_out) !! i = Some p
       /\ (v.(motors).(params).(pwm_min) <= p
           <= v.(motors).(params).(pwm_max))%Z
       /\ (a == 0 -> p = v.(motors).(params).(pwm_min)).
Proof.
  intros Hok Hdt (l & Hm & Hl) Hi Hsel Ha. cbv zeta.
  rewrite mask_motor_eq, Hm. rewrite Hm in Ha.
  set (m0 := set_actuator l (set_motor_mask_override mask v.(motors))) in *.
  change (is_motor_enabled m0 i) with (is_motor_enabled v.(motors) i).
  rewrite Hsel.
  set (a := masked_actuator thrust rudder_dt v.(motors) i).
  assert (masked_actuator thrust rudder_dt m0 i = a) as ->.
  { subst a. unfold masked_actuator. change (actuator m0) with l in *.
    by rewrite Ha. }
  cbv zeta. set (m' := set_actuator _ m0).
  assert (m'.(actuator) !! i = Some a) as Hai
    by (apply list_lookup_insert_eq; change (actuator m0) with l; lia).
  assert (pwm_ok m') as Hok' by (by destruct Hok).
  destruct (masked_pwm_range m' i a Hok' Hai
              (masked_actuator_fraction v.(motors) i Hdt))
    as (p & Hp & Hr & H0).
  destruct (pwm_ok_range _ Hok) as (Hr' & Hmax). unfold INT16_MAX in Hmax.
  rewrite Hp. cbn. split; [done|]. exists p.
  rewrite lookup_insert_eq, to_uint16_small by (cbn in Hr; lia). done.
Qed.

End Mask.

(** ** Theorems *)

(** C31: the ESC calibration sends the throttle to every enabled motor:
    when armed, with valid PWM parameters, every enabled motor and the two
    throttle channels of a bicopter are sent the same pulse width, within
    [pwm_min] and [pwm_max], equal to [pwm_min] for a throttle of zero or
    less and to [pwm_max] for one or more; the object is not changed. *)
Theorem esc_calibration_armed (v : Vehicle) (throttle_input : Q) (i : nat) :
  v.(motors).(inputs).(armed) = true -> pwm_ok v.(motors) ->
  (i < AP_MOTORS_MAX_NUM_MOTORS)%nat ->
  is_motor_enabled v.(motors) i = true ->
  let v' := exec (set_throttle_passthrough_for_esc_calibration throttle_input)
              v in
  exists p,
    v'.(servo).(rc_out) !! i = Some p
    /\ v'.(servo).(output_pwm) !! k_throttleRight = Some p
    /\ v'.(servo).(output_pwm) !! k_throttleLeft = Some p
    /\ (v.(motors).(params).(pwm_min) <= p <= v.(motors).(params).(pwm_max))%Z
    /\ (throttle_input <= 0 -> p = v.(motors).(params).(pwm_min))
    /\ (1 <= throttle_input -> p = v.(motors).(params).(pwm_max))
    /\ v'.(motors) = v.(motors).
Proof.
  intros Harm Hok Hi He. cbv zeta.
  destruct (esc_calibration_pwm_range _ throttle_input Hok) as (p & Hp & Hr).
  destruct (esc_calibration_pwm_ends _ throttle_input Hok) as [H0 H1].
  unfold set_throttle_passthrough_for_esc_calibration.
  rewrite exec_bind, eval_gets, exec_gets, Harm, exec_when.
  rewrite exec_bind, eval_gets, exec_gets, Hp, !exec_bind.
  pose proof (write_enabled_loop_at p v i Hi) as Hrc. rewrite He in Hrc.
  destruct (write_enabled_loop_frame p v) as (Hm & _).
  exists p. cbn. rewrite lookup_insert_ne, !lookup_insert_eq by done.
  split_and!; try done; try lia;
    intros Ht; [rewrite H0 in Hp | rewrite H1 in Hp]; congruence.
Qed.

(** While disarmed the ESC calibration writes nothing. *)
Theorem esc_calibration_disarmed (v : Vehicle) (throttle_input : Q) :
  v.(motors).(inputs).(armed) = false ->
  exec (set_throttle_passthrough_for_esc_calibration throttle_input) v = v.
Proof.
  intros Harm. unfold set_throttle_passthrough_for_esc_calibration.
  by rewrite exec_bind, eval_gets, exec_gets, Harm.
Qed.

(** C30: [output_motor_mask] drives the motors of the mask: it records the
    mask, and for an enabled motor of the mask it leaves the actuator at
    the slewed thrust with the rudder term when armed with the interlock
    on, and at zero otherwise, and sends the pulse width of the actuator,
    within [pwm_min] and [pwm_max] and equal to [pwm_min] for an actuator
    of zero. *)
Theorem output_motor_mask_selected `{FrameMixer} (v : Vehicle)
    (thrust : Q) (mask : Z) (rudder_dt : Q) (i : nat) :
  pwm_ok v.(motors) -> 0 < v.(motors).(inputs).(dt_s) ->
  length v.(motors).(actuator) = AP_MOTORS_MAX_NUM_MOTORS ->
  (i < AP_MOTORS_MAX_NUM_MOTORS)%nat ->
  is_motor_enabled v.(motors) i = true -> mask_bit mask i = true ->
  let v' := exec (output_motor_mask thrust mask rudder_dt) v in
  let a := masked_actuator thrust rudder_dt v.(motors) i in
  v'.(motors).(motor_mask_override) = mask
  /\ v'.(motors).(actuator) !! i = Some a /\ 0 <= a <= 1
  /\ exists p, v'.(servo).(rc_out) !! i = Some p
       /\ (v.(motors).(params).(pwm_min) <= p
           <= v.(motors).(params).(pwm_max))%Z
       /\ (a == 0 -> p = v.(motors).(params).(pwm_min)).
Proof.
  intros Hok Hdt Hlen Hi He Hb. cbv zeta.
  unfold output_motor_mask. rewrite exec_bind, zoom_exec, exec_modify.
  set (v0 := upd_motors _ v).
  assert (masked v mask v0) as Hv0 by (by exists v.(motors).(actuator)).
  pose proof (for_each_motor_invariant (masked v mask)
                (mask_motor thrust mask rudder_dt)
                (fun j s _ => mask_motor_masked thrust mask rudder_dt v j s)
                v0 Hv0) as (l & Hm & _).
  split; [by rewrite Hm|].
  cut (mask_sent v thrust rudder_dt i
         (exec (for_each_motor (mask_motor thrust mask rudder_dt)) v0)).
  { intros [Ha Hp]. split; [exact Ha|]. split; [|exact Hp].
    by apply masked_actuator_fraction. }
  apply (for_each_motor_at
           (fun s => masked v mask s
                     /\ s.(motors).(actuator) !! i
                        = v.(motors).(actuator) !! i)
           (mask_sent v thrust rudder_dt i)
           (mask_motor thrust mask rudder_dt) i Hi); [| | |by split].
  - intros j s Hj [Hs Ha]. split; [by apply mask_motor_masked|].
    by destruct (mask_motor_other thrust mask rudder_dt i j s Hj) as [-> _].
  - intros s [Hs Ha]. apply (mask_motor_at thrust mask rudder_dt v i s);
      [done.. | lia | by rewrite He, Hb | done].
  - intros j s Hj. unfold mask_sent.
    by destruct (mask_motor_other thrust mask rudder_dt i j s Hj) as [-> ->].
Qed.

(** A motor that is disabled or not in the mask is left alone by
    [output_motor_mask]. *)
Theorem output_motor_mask_other `{FrameMixer} (v : Vehicle)
    (thrust : Q) (mask : Z) (rudder_dt : Q) (i : nat) :
  (i < AP_MOTORS_MAX_NUM_MOTORS)%nat ->
  is_motor_enabled v.(motors) i && mask_bit mask i = false ->
  let v' := exec (output_motor_mask thrust mask rudder_dt) v in
  v'.(motors).(actuator) !! i = v.(motors).(actuator) !! i
  /\ v'.(servo).(rc_out) !! i = v.(servo).(rc_out) !! i.
Proof.
  intros Hi Hs. cbv zeta.
  unfold output_motor_mask. rewrite exec_bind, zoom_exec, exec_modify.
  set (v0 := upd_motors _ v).
  apply (for_each_motor_at
           (fun s => masked v mask s
                     /\ s.(motors).(actuator) !! i
                        = v.(motors).(actuator) !! i
                     /\ s.(servo).(rc_out) !! i = v.(servo).(rc_out) !! i)
           (fun s => s.(motors).(actuator) !! i = v.(motors).(actuator) !! i
                     /\ s.(servo).(rc_out) !! i = v.(servo).(rc_out) !! i)
           (mask_motor thrust mask rudder_dt) i Hi);
    [| | |split; [by exists v.(motors).(actuator) | done]].
  - intros j s Hj (Hm & Ha & Hr). split; [by apply mask_motor_masked|].
    by destruct (mask_motor_other thrust mask rudder_dt i j s Hj) as [-> ->].
  - intros s ((l & Hm & _) & Ha & Hr). rewrite mask_motor_skip; [done|].
    rewrite Hm. exact Hs.
  - intros j s Hj.
    by destruct (mask_motor_other thrust mask rudder_dt i j s Hj) as [-> ->].
Qed.

Lemma convert_pwm_min_max_param_eq (v : Vehicle) (radio_min radio_max : Z) :
  exec (convert_pwm_min_max_param radio_min radio_max) v
  = if v.(motors).(params).(pwm_min_configured)
       || v.(motors).(params).(pwm_max_configured)
    then v else pwm_set_and_save radio_min radio_max v.
Proof.
  unfold convert_pwm_min_max_param.
  rewrite exec_bind, eval_gets, exec_gets. by destruct (_ || _).
Qed.

(** [convert_pwm_min_max_param] takes the range of the radio only when
    neither PWM parameter is configured: then it sets both and stores
    both; otherwise it changes nothing. *)
Theorem convert_pwm_min_max_param_spec (v : Vehicle) (radio_min radio_max : Z) :
  let v' := exec (convert_pwm_min_max_param radio_min radio_max) v in
  if v.(motors).(params).(pwm_min_configured)
     || v.(motors).(params).(pwm_max_configured)
  then v' = v
  else v'.(motors)
       = set_pwm_configured true true
           (set_pwm_min_max radio_min radio_max v.(motors))
       /\ v'.(store).(stored_pwm_min) = Some radio_min
       /\ v'.(store).(stored_pwm_max) = Some radio_max
       /\ v'.(store).(stored_throttle_hover)
          = v.(store).(stored_throttle_hover)
       /\ v'.(servo) = v.(servo).
Proof.
  cbv zeta. rewrite convert_pwm_min_max_param_eq. by destruct (_ || _).
Qed.

(** C32: the migration of the range of the radio happens once: after a call
    of [convert_pwm_min_max_param] both parameters are configured or the
    call changed nothing, so a second call, with whatever range, changes
    nothing. *)
Theorem convert_pwm_min_max_param_once (v : Vehicle)
    (radio_min radio_max radio_min' radio_max' : Z) :
  let v' := exec (convert_pwm_min_max_param radio_min radio_max) v in
  exec (convert_pwm_min_max_param radio_min' radio_max') v' = v'
  /\ (v' = v \/ v'.(motors).(params).(pwm_min_configured) = true
              /\ v'.(motors).(params).(pwm_max_configured) = true
              /\ v'.(motors).(params).(pwm_min) = radio_min
              /\ v'.(motors).(params).(pwm_max) = radio_max).
Proof.
  cbv zeta. rewrite !convert_pwm_min_max_param_eq.
  destruct (v.(motors).(params).(pwm_min_configured)
            || v.(motors).(params).(pwm_max_configured)) eqn:Hc.
  - rewrite Hc. by split; [|left].
  - split; [done | by right].
Qed.

(** [update_throttle_range] gives the ESCs the PWM range: the range of
    the parameters, or 1000..2000 when all outputs are digital or the PWM
    type is a range or an angle. *)
Theorem update_throttle_range_spec `{ServoConfig} (v : Vehicle) :
  let v' := exec update_throttle_range v in
  let digital :=
    have_digital_outputs get_motor_mask
    || bool_decide (v.(motors).(params).(pwm_type) = PWM_RANGE)
    || bool_decide (v.(motors).(params).(pwm_type) = PWM_ANGLE) in
  v'.(servo).(esc_scaling)
  = Some (v'.(motors).(params).(pwm_min), v'.(motors).(params).(pwm_max))
  /\ v'.(motors) = (if digital then set_pwm_min_max 1000 2000 v.(motors)
                    else v.(motors)).
Proof.
  cbv zeta. unfold update_throttle_range.
  rewrite !exec_bind, !eval_gets, !exec_gets, exec_when.
  by destruct (_ || _ || _).
Qed.

(** ** Witnesses *)

Lemma esc_calibration_armed_witness :
  exists p,
    (exec (set_throttle_passthrough_for_esc_calibration 0.5)
       flying_quad).(servo).(rc_out) !! 0%nat = Some p
    /\ (exec (set_throttle_passthrough_for_esc_calibration 0.5)
          flying_quad).(servo).(output_pwm) !! k_throttleRight = Some p
    /\ (exec (set_throttle_passthrough_for_esc_calibration 0.5)
          flying_quad).(servo).(output_pwm) !! k_throttleLeft = Some p
    /\ (1000 <= p <= 2000)%Z
    /\ (0.5 <= 0 -> p = 1000%Z)
    /\ (1 <= 0.5 -> p = 2000%Z)
    /\ (exec (set_throttle_passthrough_for_esc_calibration 0.5)
          flying_quad).(motors) = flying_quad.(motors).
Proof.
  apply (esc_calibration_armed flying_quad 0.5 0);
    [done | apply flying_quad_pwm_ok |
     unfold AP_MOTORS_MAX_NUM_MOTORS; lia | done].
Defined.

Lemma output_motor_mask_selected_witness :
  let v' := @exec Vehicle unit
              (@output_motor_mask collective_frame 0.5 front_mask 0)
              disarmed_quad in
  v'.(motors).(motor_mask_override) = front_mask
  /\ v'.(motors).(actuator) !! 0%nat = Some 0 /\ 0 <= 0 <= 1
  /\ exists p, v'.(servo).(rc_out) !! 0%nat = Some p
       /\ (1000 <= p <= 2000)%Z /\ (0 == 0 -> p = 1000%Z).
Proof.
  apply (@output_motor_mask_selected collective_frame disarmed_quad 0.5
           front_mask 0 0%nat);
    [split; by vm_compute | by vm_compute | done |
     unfold AP_MOTORS_MAX_NUM_MOTORS; lia | done | done].
Defined.
