(* ===== verification/Logging.v ===== *)
(** * The log packet of the motors: [Log_Write]

    [Log_Write] copies five members of the object into a packet of the
    dataflash log and packs the two thrust-boost flags into one byte.  The
    packet is the record [log_MotBatt]; the write to the logger is its
    result.  The clock is an argument. *)

From Stdlib Require Import QArith ZArith Lia Bool.
From stdpp Require Import base tactics.
From S2P Require Import Prelude State.

(** ** Definitions *)

(** [struct log_MotBatt], without its header. *)
Record log_MotBatt := mkMotBatt {
  time_us : Z;
  log_lift_max : Q;
  bat_volt : Q;
  th_limit : Q;
  th_average_max : Q;
  th_out : Q;
  mot_fail_flags : Z;
}.

(** [(uint8_t)(_thrust_boost | (_thrust_balanced << 1U))] *)
Definition fail_flags (boost balanced : bool) : Z :=
  Z.lor (Z.b2z boost) (Z.shiftl (Z.b2z balanced) 1) mod 256.

(** [Log_Write()]: the packet handed to the logger at the time [micros64]. *)
Definition Log_Write (micros64 : Z) (m : Motors) : log_MotBatt :=
  {| time_us := micros64;
     log_lift_max := m.(thr_lin).(lift_max);
     bat_volt := m.(thr_lin).(batt_voltage_filt);
     th_limit := m.(throttle_limit);
     th_average_max := m.(throttle_avg_max);
     th_out := m.(throttle_out);
     mot_fail_flags :=
       fail_flags m.(spool).(thrust_boost) m.(spool).(thrust_balanced) |}.

(** The getters of the example build. *)
Definition get_throttle_avg_max (m : Motors) : Q := m.(throttle_avg_max).
Definition get_yaw_headroom (m : Motors) : Z := m.(params).(yaw_headroom).

(** ** Theorems *)

(** The byte of the flags is 0..3 and its two low bits are the flags:
    bit 0 is [_thrust_boost], bit 1 is [_thrust_balanced]. *)
Theorem fail_flags_roundtrip (boost balanced : bool) :
  (0 <= fail_flags boost balanced <= 3)%Z
  /\ Z.testbit (fail_flags boost balanced) 0 = boost
  /\ Z.testbit (fail_flags boost balanced) 1 = balanced.
Proof. by destruct boost, balanced. Qed.

(** The flags of two packets are equal only when both flags are. *)
Theorem fail_flags_inj (b1 l1 b2 l2 : bool) :
  fail_flags b1 l1 = fail_flags b2 l2 -> b1 = b2 /\ l1 = l2.
Proof. by destruct b1, l1, b2, l2. Qed.

(** The packet of an object tells its boost flags and its throttle
    ceiling: the log is enough to see whether a motor was reported lost. *)
Theorem Log_Write_flags (t : Z) (m : Motors) :
  let pkt := Log_Write t m in
  Z.testbit pkt.(mot_fail_flags) 0 = m.(spool).(thrust_boost)
  /\ Z.testbit pkt.(mot_fail_flags) 1 = m.(spool).(thrust_balanced)
  /\ pkt.(th_limit) = m.(throttle_limit).
Proof.
  cbv zeta. cbn [Log_Write mot_fail_flags th_limit].
  by destruct (fail_flags_roundtrip m.(spool).(thrust_boost)
                 m.(spool).(thrust_balanced)) as (_ & -> & ->).
Qed.
