(* ===== verification/ParamTable.v ===== *)
(** * The parameter table [var_info] and the constructor

    [var_info] registers the parameters of the class with the parameter
    store: one entry per parameter, with its name, its index in the group,
    the member that holds it and its default.  The constructor stores the
    default of every entry in its member ([setup_object_defaults]) and
    starts the throttle limit at 1.

    The table is modelled entry by entry, each under the name of its
    parameter.  The store itself ([AP_Param]) is outside the repository:
    what the constructor calls of it, the macros that build an entry and
    the types of the members are modelled from its interface.  The
    theorems are the checks the store makes on a table when the vehicle
    starts (indices and names unique, names that fit with their prefix),
    that the constructor gives every parameter its default whatever the
    memory held, and that the documented ranges agree with the bounds the
    methods enforce. *)

From Stdlib Require Import QArith Qround ZArith Lqa Lia String.
From stdpp Require Import base decidable option list sets strings.
From S2P Require Import Prelude State SpoolLogic Actuator.

(** ** Definitions *)

(** The members [var_info] registers: those of the class by their own
    name, those of [thr_lin] with its name in front. *)
Inductive Member :=
  | _yaw_headroom
  | thr_lin_curve_expo
  | thr_lin_spin_max
  | thr_lin_batt_voltage_max
  | thr_lin_batt_voltage_min
  | _batt_current_max
  | _pwm_type
  | _pwm_min
  | _pwm_max
  | thr_lin_spin_min
  | _spin_arm
  | _batt_current_time_constant
  | _throttle_hover
  | _throttle_hover_learn
  | _disarm_disable_pwm
  | _yaw_servo_angle_max_deg
  | _spool_up_time
  | _boost_scale
  | thr_lin_batt_idx
  | _slew_up_time
  | _slew_dn_time
  | _safe_time
  | _options
  | _spool_down_time.

#[export] Instance Member_eq_dec : EqDecision Member.
Proof. solve_decision. Defined.

(** The types a member is declared with: [AP_Int8], [AP_Int16] and
    [AP_Float]. *)
Inductive ap_var_type :=
  | AP_PARAM_INT8
  | AP_PARAM_INT16
  | AP_PARAM_FLOAT.

Definition member_type (mem : Member) : ap_var_type :=
  match mem with
  | _pwm_type | _throttle_hover_learn | _disarm_disable_pwm
  | thr_lin_batt_idx => AP_PARAM_INT8
  | _yaw_headroom | _pwm_min | _pwm_max | _options => AP_PARAM_INT16
  | _ => AP_PARAM_FLOAT
  end.

(** [struct AP_Param::GroupInfo]: the name, the index in the group, the
    member (an offset in the C++ code), the default and the frames the
    parameter exists for (0: all of them). *)
Record GroupInfo := mkGroupInfo {
  name : string;
  idx : nat;
  member : Member;
  def_value : Q;
  frame_flags : Z;
}.

(** The macros that build an entry. *)
Definition AP_GROUPINFO (name : string) (idx : nat) (element : Member)
    (def : Q) : GroupInfo :=
  mkGroupInfo name idx element def 0.

Definition AP_GROUPINFO_FRAME (name : string) (idx : nat) (element : Member)
    (def : Q) (frame_flags : Z) : GroupInfo :=
  mkGroupInfo name idx element def frame_flags.

Definition AP_PARAM_FRAME_COPTER : Z := 1.
Definition AP_PARAM_FRAME_TRICOPTER : Z := 16.

(** The longest name of a parameter, prefix included, and the number of
    indices of a group. *)
Definition AP_MAX_NAME_SIZE : nat := 16.
Definition AP_PARAM_GROUP_SIZE : nat := 64.

(** The defaults the table names. *)
Definition AP_MOTORS_YAW_HEADROOM_DEFAULT : Q := 200.
Definition AP_MOTORS_THST_EXPO_DEFAULT : Q := 0.65.
Definition AP_MOTORS_SPIN_MAX_DEFAULT : Q := 0.95.
Definition AP_MOTORS_BAT_VOLT_MAX_DEFAULT : Q := 0.
Definition AP_MOTORS_BAT_VOLT_MIN_DEFAULT : Q := 0.
Definition AP_MOTORS_BAT_CURR_MAX_DEFAULT : Q := 0.
Definition AP_MOTORS_SPIN_MIN_DEFAULT : Q := 0.15.
Definition AP_MOTORS_SPIN_ARM_DEFAULT : Q := 0.10.
Definition AP_MOTORS_BAT_CURR_TC_DEFAULT : Q := 5.
Definition AP_MOTORS_THST_HOVER_DEFAULT : Q := 0.35.
Definition AP_MOTORS_SPOOL_UP_TIME_DEFAULT : Q := 0.5.
Definition AP_MOTORS_SLEW_TIME_DEFAULT : Q := 0.
Definition AP_MOTORS_SAFE_TIME_DEFAULT : Q := 1.

(** The value of [PWMType] as the parameter holds it, and back.  The class
    compares the parameter with [PWM_RANGE] and [PWM_ANGLE] only: a value
    outside the enumeration behaves as [NORMAL] does. *)
Definition PWMType_to_Z (t : PWMType) : Z :=
  match t with
  | NORMAL => 0 | ONESHOT => 1 | ONESHOT125 => 2 | BRUSHED => 3
  | DSHOT150 => 4 | DSHOT300 => 5 | DSHOT600 => 6 | DSHOT1200 => 7
  | PWM_RANGE => 8 | PWM_ANGLE => 9
  end.

Definition PWMType_of_Z (z : Z) : PWMType :=
  match z with
  | 1 => ONESHOT | 2 => ONESHOT125 | 3 => BRUSHED | 4 => DSHOT150
  | 5 => DSHOT300 | 6 => DSHOT600 | 7 => DSHOT1200 | 8 => PWM_RANGE
  | 9 => PWM_ANGLE | _ => NORMAL
  end%Z.

(** *** The entries of the table, in its order *)

Definition YAW_HEADROOM : GroupInfo :=
  AP_GROUPINFO "YAW_HEADROOM" 6 _yaw_headroom AP_MOTORS_YAW_HEADROOM_DEFAULT.

Definition THST_EXPO : GroupInfo :=
  AP_GROUPINFO "THST_EXPO" 8 thr_lin_curve_expo AP_MOTORS_THST_EXPO_DEFAULT.

Definition SPIN_MAX : GroupInfo :=
  AP_GROUPINFO "SPIN_MAX" 9 thr_lin_spin_max AP_MOTORS_SPIN_MAX_DEFAULT.

Definition BAT_VOLT_MAX : GroupInfo :=
  AP_GROUPINFO "BAT_VOLT_MAX" 10 thr_lin_batt_voltage_max
    AP_MOTORS_BAT_VOLT_MAX_DEFAULT.

Definition BAT_VOLT_MIN : GroupInfo :=
  AP_GROUPINFO "BAT_VOLT_MIN" 11 thr_lin_batt_voltage_min
    AP_MOTORS_BAT_VOLT_MIN_DEFAULT.

Definition BAT_CURR_MAX : GroupInfo :=
  AP_GROUPINFO "BAT_CURR_MAX" 12 _batt_current_max
    AP_MOTORS_BAT_CURR_MAX_DEFAULT.

Definition PWM_TYPE : GroupInfo :=
  AP_GROUPINFO "PWM_TYPE" 15 _pwm_type (inject_Z (PWMType_to_Z NORMAL)).

Definition PWM_MIN : GroupInfo :=
  AP_GROUPINFO "PWM_MIN" 16 _pwm_min 1000.

Definition PWM_MAX : GroupInfo :=
  AP_GROUPINFO "PWM_MAX" 17 _pwm_max 2000.

Definition SPIN_MIN : GroupInfo :=
  AP_GROUPINFO "SPIN_MIN" 18 thr_lin_spin_min AP_MOTORS_SPIN_MIN_DEFAULT.

Definition SPIN_ARM : GroupInfo :=
  AP_GROUPINFO "SPIN_ARM" 19 _spin_arm AP_MOTORS_SPIN_ARM_DEFAULT.

Definition BAT_CURR_TC : GroupInfo :=
  AP_GROUPINFO "BAT_CURR_TC" 20 _batt_current_time_constant
    AP_MOTORS_BAT_CURR_TC_DEFAULT.

Definition THST_HOVER : GroupInfo :=
  AP_GROUPINFO "THST_HOVER" 21 _throttle_hover AP_MOTORS_THST_HOVER_DEFAULT.

Definition HOVER_LEARN : GroupInfo :=
  AP_GROUPINFO "HOVER_LEARN" 22 _throttle_hover_learn
    (inject_Z HOVER_LEARN_AND_SAVE).

Definition SAFE_DISARM : GroupInfo :=
  AP_GROUPINFO "SAFE_DISARM" 23 _disarm_disable_pwm 0.

Definition YAW_SV_ANGLE : GroupInfo :=
  AP_GROUPINFO_FRAME "YAW_SV_ANGLE" 35 _yaw_servo_angle_max_deg 30
    AP_PARAM_FRAME_TRICOPTER.

Definition SPOOL_TIME : GroupInfo :=
  AP_GROUPINFO "SPOOL_TIME" 36 _spool_up_time AP_MOTORS_SPOOL_UP_TIME_DEFAULT.

Definition BOOST_SCALE : GroupInfo :=
  AP_GROUPINFO "BOOST_SCALE" 37 _boost_scale 0.

Definition BAT_IDX : GroupInfo :=
  AP_GROUPINFO "BAT_IDX" 39 thr_lin_batt_idx 0.

Definition SLEW_UP_TIME : GroupInfo :=
  AP_GROUPINFO "SLEW_UP_TIME" 40 _slew_up_time AP_MOTORS_SLEW_TIME_DEFAULT.

Definition SLEW_DN_TIME : GroupInfo :=
  AP_GROUPINFO "SLEW_DN_TIME" 41 _slew_dn_time AP_MOTORS_SLEW_TIME_DEFAULT.

Definition SAFE_TIME : GroupInfo :=
  AP_GROUPINFO "SAFE_TIME" 42 _safe_time AP_MOTORS_SAFE_TIME_DEFAULT.

Definition OPTIONS : GroupInfo :=
  AP_GROUPINFO "OPTIONS" 43 _options 0.

Definition SPOOL_TIM_DN : GroupInfo :=
  AP_GROUPINFO "SPOOL_TIM_DN" 44 _spool_down_time 0.

(** [var_info], up to [AP_GROUPEND]. *)
Definition var_info : list GroupInfo :=
  [YAW_HEADROOM; THST_EXPO; SPIN_MAX; BAT_VOLT_MAX; BAT_VOLT_MIN;
   BAT_CURR_MAX; PWM_TYPE; PWM_MIN; PWM_MAX; SPIN_MIN; SPIN_ARM;
   BAT_CURR_TC; THST_HOVER; HOVER_LEARN; SAFE_DISARM; YAW_SV_ANGLE;
   SPOOL_TIME; BOOST_SCALE; BAT_IDX; SLEW_UP_TIME; SLEW_DN_TIME; SAFE_TIME;
   OPTIONS; SPOOL_TIM_DN].

(** The indices the comments of the table retire: 0 (TB_RATIO), 1, 2, 3
    (throttle curve), 5 (SPIN_ARMED), 7 (THR_LOW_CMP), 13, 14 (THR_MIX_MIN,
    THR_MIX_MAX) and 38. *)
Definition retired_idx : list nat := [0; 1; 2; 3; 5; 7; 13; 14; 38]%nat.

(** The [@Range] the table documents for a parameter, by name. *)
Definition documented_range : list (string * (Q * Q)) :=
  [("YAW_HEADROOM", (0, 500)); ("THST_EXPO", (-1, 1));
   ("BAT_VOLT_MAX", (6, 53)); ("BAT_VOLT_MIN", (6, 42));
   ("BAT_CURR_MAX", (0, 200)); ("PWM_MIN", (0, 2000));
   ("PWM_MAX", (0, 2000)); ("BAT_CURR_TC", (0, 10));
   ("THST_HOVER", (0.125, 0.6875)); ("YAW_SV_ANGLE", (5, 80));
   ("SPOOL_TIME", (0.05, 2)); ("BOOST_SCALE", (0, 5));
   ("SLEW_UP_TIME", (0, 0.5)); ("SLEW_DN_TIME", (0, 0.5));
   ("SAFE_TIME", (0, 5)); ("SPOOL_TIM_DN", (0, 2))].

(** The parameters whose description gives 0 the meaning "disabled"
    although their range starts above it. *)
Definition zero_disables : list string := ["BAT_VOLT_MAX"; "BAT_VOLT_MIN"].

(** The prefixes a vehicle exposes the table with. *)
Definition prefixes : list string := ["MOT_"; "Q_M_"].

(** *** Looking an entry up *)

Definition find_idx (table : list GroupInfo) (i : nat) : option GroupInfo :=
  list_find (fun g => g.(idx) = i) table ≫= (fun r => Some r.2).

Definition find_name (table : list GroupInfo) (n : string)
    : option GroupInfo :=
  list_find (fun g => g.(name) = n) table ≫= (fun r => Some r.2).

(** [AP_Param::check_frame_type]: whether the vehicle of the frames
    [frame_type_flags] has the parameter. *)
Definition check_frame_type (frame_type_flags : Z) (g : GroupInfo) : bool :=
  bool_decide (g.(frame_flags) = 0%Z)
  || negb (bool_decide (Z.land g.(frame_flags) frame_type_flags = 0%Z)).

(** The table as a vehicle sees it. *)
Definition visible (frame_type_flags : Z) : list GroupInfo :=
  filter (fun g => check_frame_type frame_type_flags g = true) var_info.

(** The check of a table: indices below the size of a group and unique,
    names unique and short enough behind every prefix. *)
Definition table_ok (table : list GroupInfo) : Prop :=
  NoDup (idx <$> table)
  /\ NoDup (name <$> table)
  /\ NoDup (member <$> table)
  /\ Forall (fun g => (g.(idx) < AP_PARAM_GROUP_SIZE)%nat) table
  /\ Forall (fun g => Forall (fun p =>
       (String.length (p ++ g.(name)) <= AP_MAX_NAME_SIZE)%nat) prefixes)
       table.

(** *** Storing and reading a member *)

(** The value a member holds after [v] is stored in it: a float as it is,
    an integer truncated; of [_disarm_disable_pwm] the model keeps whether
    it is zero, of [_pwm_type] the enumeration. *)
Definition stored (mem : Member) (v : Q) : Q :=
  match mem with
  | _disarm_disable_pwm => if bool_decide (Qtrunc v = 0%Z) then 0 else 1
  | _pwm_type => inject_Z (PWMType_to_Z (PWMType_of_Z (Qtrunc v)))
  | thr_lin_batt_idx => inject_Z (Z.of_nat (Z.to_nat (Qtrunc v)))
  | _ => match member_type mem with
         | AP_PARAM_FLOAT => v
         | _ => inject_Z (Qtrunc v)
         end
  end.

(** The new value where the member is the one written, the old elsewhere. *)
Definition store {A} (mem target : Member) (new old : A) : A :=
  if decide (mem = target) then new else old.

Definition set_param (mem : Member) (v : Q) (p : Params) : Params :=
  mkParams
    (store mem _yaw_headroom (Qtrunc v) p.(yaw_headroom))
    (store mem _batt_current_max v p.(batt_current_max))
    (store mem _pwm_type (PWMType_of_Z (Qtrunc v)) p.(pwm_type))
    (store mem _pwm_min (Qtrunc v) p.(pwm_min))
    (store mem _pwm_max (Qtrunc v) p.(pwm_max))
    p.(pwm_min_configured)
    p.(pwm_max_configured)
    (store mem _spin_arm v p.(spin_arm))
    (store mem _batt_current_time_constant v p.(batt_current_time_constant))
    (store mem _throttle_hover v p.(throttle_hover))
    (store mem _throttle_hover_learn (Qtrunc v) p.(throttle_hover_learn))
    (store mem _disarm_disable_pwm (negb (bool_decide (Qtrunc v = 0%Z)))
       p.(disarm_disable_pwm))
    (store mem _yaw_servo_angle_max_deg v p.(yaw_servo_angle_max_deg))
    (store mem _spool_up_time v p.(spool_up_time))
    (store mem _boost_scale v p.(boost_scale))
    (store mem _slew_up_time v p.(slew_up_time))
    (store mem _slew_dn_time v p.(slew_dn_time))
    (store mem _safe_time v p.(safe_time))
    (store mem _options (Qtrunc v) p.(options))
    (store mem _spool_down_time v p.(spool_down_time)).

Definition set_thr_lin_param (mem : Member) (v : Q)
    (t : Thrust_Linearization) : Thrust_Linearization :=
  mkThrLin
    (store mem thr_lin_curve_expo v t.(curve_expo))
    (store mem thr_lin_spin_min v t.(spin_min))
    (store mem thr_lin_spin_max v t.(spin_max))
    (store mem thr_lin_batt_voltage_max v t.(batt_voltage_max))
    (store mem thr_lin_batt_voltage_min v t.(batt_voltage_min))
    (store mem thr_lin_batt_idx (Z.to_nat (Qtrunc v)) t.(batt_idx))
    t.(lift_max)
    t.(batt_voltage_filt).

(** [AP_Param::set_value]: the value, cast to the type of the member. *)
Definition set_value (mem : Member) (v : Q) (m : Motors) : Motors :=
  upd_thr_lin (set_thr_lin_param mem v) (upd_params (set_param mem v) m).

(** The value of a member, as a float. *)
Definition get_value (mem : Member) (m : Motors) : Q :=
  let p := m.(params) in
  let t := m.(thr_lin) in
  match mem with
  | _yaw_headroom => inject_Z p.(yaw_headroom)
  | thr_lin_curve_expo => t.(curve_expo)
  | thr_lin_spin_max => t.(spin_max)
  | thr_lin_batt_voltage_max => t.(batt_voltage_max)
  | thr_lin_batt_voltage_min => t.(batt_voltage_min)
  | _batt_current_max => p.(batt_current_max)
  | _pwm_type => inject_Z (PWMType_to_Z p.(pwm_type))
  | _pwm_min => inject_Z p.(pwm_min)
  | _pwm_max => inject_Z p.(pwm_max)
  | thr_lin_spin_min => t.(spin_min)
  | _spin_arm => p.(spin_arm)
  | _batt_current_time_constant => p.(batt_current_time_constant)
  | _throttle_hover => p.(throttle_hover)
  | _throttle_hover_learn => inject_Z p.(throttle_hover_learn)
  | _disarm_disable_pwm => if p.(disarm_disable_pwm) then 1 else 0
  | _yaw_servo_angle_max_deg => p.(yaw_servo_angle_max_deg)
  | _spool_up_time => p.(spool_up_time)
  | _boost_scale => p.(boost_scale)
  | thr_lin_batt_idx => inject_Z (Z.of_nat t.(batt_idx))
  | _slew_up_time => p.(slew_up_time)
  | _slew_dn_time => p.(slew_dn_time)
  | _safe_time => p.(safe_time)
  | _options => inject_Z p.(options)
  | _spool_down_time => p.(spool_down_time)
  end.

(** [AP_Param::setup_object_defaults]: the default of every entry, stored
    in its member, in the order of the table. *)
Definition setup_object_defaults (table : list GroupInfo) (m : Motors)
    : Motors :=
  foldl (fun m g => set_value g.(member) g.(def_value) m) m table.

(** The constructor, on the object as the constructors of the base class
    and of the members leave it. *)
Definition AP_MotorsMulticopter (base : Motors) : Motors :=
  setup_object_defaults var_info (set_throttle_limit 1 base).

(** An object whose parameters and throttle limit hold what the memory
    held: [garbage], member by member. *)
Definition uninitialised (garbage : Member -> Q) (limit : Q) : Motors :=
  foldr (fun mem => set_value mem (garbage mem))
    (set_throttle_limit limit init_motors) (member <$> var_info).

(** A default the type of its member holds without a cast. *)
Definition fits (g : GroupInfo) : Prop :=
  stored g.(member) g.(def_value) = g.(def_value).

(** A default inside the documented range of its parameter, where it has
    one. *)
Definition default_in_range (g : GroupInfo) : bool :=
  match list_find (fun r => r.1 = g.(name)) documented_range with
  | Some (_, (_, (lo, hi))) =>
      bool_decide (lo <= g.(def_value)) && bool_decide (g.(def_value) <= hi)
  | None => true
  end.

(** ** Lemmas *)

Lemma store_same {A} mem (new old : A) : store mem mem new old = new.
Proof. unfold store. by rewrite decide_True. Qed.

Lemma store_other {A} mem target (new old : A) :
  mem <> target -> store mem target new old = old.
Proof. intros. unfold store. by rewrite decide_False. Qed.

(** [set_value] writes parameters only. *)
Lemma set_value_frame mem v m :
  let m' := set_value mem v m in
  m'.(inputs) = m.(inputs) /\ m'.(limit) = m.(limit)
  /\ m'.(spool) = m.(spool) /\ m'.(throttle_limit) = m.(throttle_limit)
  /\ m'.(throttle_filter) = m.(throttle_filter)
  /\ m'.(actuator) = m.(actuator)
  /\ m'.(motor_enabled) = m.(motor_enabled)
  /\ get_lift_max m' = get_lift_max m.
Proof. done. Qed.

(** Reading the member written gives the value as it is stored. *)
Lemma get_set_value mem v m : get_value mem (set_value mem v m) = stored mem v.
Proof. destruct mem; cbn; try done. by case_bool_decide. Qed.

(** Reading another member gives what it held. *)
Lemma get_set_value_other mem mem' v m :
  mem <> mem' -> get_value mem' (set_value mem v m) = get_value mem' m.
Proof.
  intros Hne. destruct mem'; cbn; by rewrite store_other.
Qed.

Lemma setup_object_defaults_cons g table m :
  setup_object_defaults (g :: table) m
  = setup_object_defaults table (set_value g.(member) g.(def_value) m).
Proof. done. Qed.

(** A member no entry of the table names keeps its value. *)
Lemma setup_object_defaults_other table mem m :
  mem ∉ member <$> table ->
  get_value mem (setup_object_defaults table m) = get_value mem m.
Proof.
  revert m. induction table as [|g table IH]; intros m Hin; [done|].
  rewrite fmap_cons, not_elem_of_cons in Hin. destruct Hin as [Hne Hin].
  rewrite setup_object_defaults_cons, IH by done.
  by apply get_set_value_other.
Qed.

(** The member of an entry holds the default of the entry, when no two
    entries name the same member. *)
Lemma setup_object_defaults_member table g m :
  NoDup (member <$> table) -> g ∈ table ->
  get_value g.(member) (setup_object_defaults table m)
  = stored g.(member) g.(def_value).
Proof.
  revert m. induction table as [|g' t IH]; intros m Hm Hg; [by inversion Hg|].
  rewrite fmap_cons, NoDup_cons in Hm. destruct Hm as [Hnew Hm].
  rewrite setup_object_defaults_cons.
  apply elem_of_cons in Hg as [->|Hg]; [|by apply IH].
  rewrite setup_object_defaults_other by done. apply get_set_value.
Qed.

(** The entry [find_idx] and [find_name] return is one of the table with
    the index or the name asked for. *)
Lemma find_idx_Some table i g :
  find_idx table i = Some g -> g ∈ table /\ g.(idx) = i.
Proof.
  unfold find_idx. destruct (list_find _ table) as [[k g']|] eqn:Hf; [|done].
  intros [= <-]. apply list_find_Some in Hf as (Hk & Hi & _).
  split; [by eapply list_elem_of_lookup_2 | done].
Qed.

Lemma find_name_Some table n g :
  find_name table n = Some g -> g ∈ table /\ g.(name) = n.
Proof.
  unfold find_name. destruct (list_find _ table) as [[k g']|] eqn:Hf; [|done].
  intros [= <-]. apply list_find_Some in Hf as (Hk & Hi & _).
  split; [by eapply list_elem_of_lookup_2 | done].
Qed.

(** In a list without two elements of the same key, the first element
    with the key of an element is that element. *)
Lemma list_find_key {A K} `{EqDecision K} (key : A -> K) (l : list A) x :
  NoDup (key <$> l) -> x ∈ l ->
  exists k, list_find (fun y => key y = key x) l = Some (k, x).
Proof.
  intros Hnd Hx. apply list_elem_of_lookup in Hx as [k Hk].
  destruct (list_find (fun y => key y = key x) l) as [[j y]|] eqn:Hf.
  - apply list_find_Some in Hf as (Hj & Hy & _).
    assert (j = k) as ->; [|exists k; congruence].
    eapply NoDup_lookup; [exact Hnd|..];
      rewrite list_lookup_fmap; [by rewrite Hj | by rewrite Hk, Hy].
  - apply list_find_None in Hf. rewrite Forall_forall in Hf.
    destruct (Hf x); [by eapply list_elem_of_lookup_2 | done].
Qed.

#[export] Instance table_ok_dec table : Decision (table_ok table).
Proof. unfold table_ok. apply _. Defined.

(** ** Theorems *)

Section Table.

Variable table : list GroupInfo.
Hypothesis Hok : table_ok table.

(** In a table that passes the check, an entry is found by its index
    and by its name: no parameter hides another. *)
Theorem find_roundtrip g :
  g ∈ table ->
  find_idx table g.(idx) = Some g /\ find_name table g.(name) = Some g.
Proof.
  intros Hg. destruct Hok as (Hi & Hn & _). unfold find_idx, find_name.
  destruct (list_find_key idx table g Hi Hg) as [k ->].
  by destruct (list_find_key name table g Hn Hg) as [j ->].
Qed.

(** After [setup_object_defaults] the member of every entry holds the
    default of the entry, cast to the type of the member. *)
Theorem setup_object_defaults_stored g m :
  g ∈ table ->
  get_value g.(member) (setup_object_defaults table m)
  = stored g.(member) g.(def_value).
Proof. destruct Hok as (_ & _ & Hm & _). by apply setup_object_defaults_member. Qed.

End Table.

(** The table of the class passes the check of the store: indices unique
    and below 64, names and members unique, and every name fits in 16
    characters behind [MOT_] as behind [Q_M_]. *)
Theorem var_info_ok : table_ok var_info.
Proof. by apply (bool_decide_unpack _). Qed.

(** No entry of the table uses an index a comment of the table retires: a
    value stored under an old meaning is never read as a new parameter. *)
Theorem var_info_retired :
  Forall (fun i => find_idx var_info i = None) retired_idx.
Proof. by repeat constructor. Qed.

(** Every member the table can name is named: no parameter of the class
    is left without a default. *)
Theorem var_info_complete (mem : Member) : mem ∈ member <$> var_info.
Proof. destruct mem; cbn; set_solver. Qed.

(** Every default is held by the type of its member without a cast. *)
Theorem var_info_fits : Forall fits var_info.
Proof. by repeat constructor. Qed.

(** The constructor gives every parameter its default and the throttle
    limit the value 1, whatever the object held before: the member of
    every entry of the table reads as the default of the entry, and an
    object whose parameters and limit held anything at all is
    [init_motors] after construction. *)
Theorem AP_MotorsMulticopter_init (base : Motors) (garbage : Member -> Q)
    (limit : Q) :
  (forall g, g ∈ var_info ->
     get_value g.(member) (AP_MotorsMulticopter base) = g.(def_value))
  /\ (AP_MotorsMulticopter base).(throttle_limit) = 1
  /\ AP_MotorsMulticopter (uninitialised garbage limit) = init_motors.
Proof.
  split_and!; [|done..]. intros g Hg. unfold AP_MotorsMulticopter.
  destruct var_info_ok as (_ & _ & Hm & _).
  rewrite setup_object_defaults_member by done.
  by apply (proj1 (Forall_forall _ _) var_info_fits).
Qed.

(** Every default lies in the documented range of its parameter, but for
    the two parameters that 0 disables. *)
Theorem var_info_defaults_in_range :
  name <$> filter (fun g => default_in_range g = false) var_info
  = zero_disables.
Proof. reflexivity. Qed.

(** Only the vehicle with a tricopter frame has YAW_SV_ANGLE; every other
    parameter is there for every frame. *)
Theorem visible_frames :
  visible AP_PARAM_FRAME_TRICOPTER = var_info
  /\ visible AP_PARAM_FRAME_COPTER
     = filter (fun g => g.(name) <> YAW_SV_ANGLE.(name)) var_info.
Proof. split; reflexivity. Qed.

(** The description of SPOOL_TIM_DN gives the value 0 the meaning "use
    SPOOL_TIME"; the methods use SPOOL_TIME for every value up to
    [minimum_spool_time], values the documented range holds. *)
Theorem spool_down_time_small (m : Motors) :
  m.(params).(spool_down_time) <= minimum_spool_time ->
  spool_down_effective m = m.(params).(spool_up_time)
  /\ exists lo hi, (SPOOL_TIM_DN.(name), (lo, hi)) ∈ documented_range
       /\ lo < minimum_spool_time <= hi.
Proof.
  intros Hs. unfold spool_down_effective.
  rewrite decide_False by lra. split; [done|].
  exists 0, 2. split; [set_solver | by vm_compute].
Qed.

(** The documented range of PWM_MIN starts at 0, a value with which
    [check_mot_pwm_params] refuses to arm. *)
Theorem pwm_min_zero_refused :
  (PWM_MIN.(name), (0, 2000)) ∈ documented_range
  /\ check_mot_pwm_params (set_value _pwm_min 0 init_motors) = false.
Proof. split; [set_solver | reflexivity]. Qed.

(** The documented ranges are the bounds the methods enforce: that of
    THST_HOVER the bounds of the learner, those of the slew times the
    bounds [set_actuator_with_slew_rate] constrains them to, and the lower
    end of that of SPOOL_TIME the minimum of [output_logic]. *)
Theorem documented_range_enforced (m : Motors) :
  documented_range !! 8%nat
  = Some (THST_HOVER.(name),
          (AP_MOTORS_THST_HOVER_MIN, AP_MOTORS_THST_HOVER_MAX))
  /\ (forall lo hi, (SLEW_UP_TIME.(name), (lo, hi)) ∈ documented_range ->
        lo <= slew_up_time_used m <= hi)
  /\ (forall lo hi, (SLEW_DN_TIME.(name), (lo, hi)) ∈ documented_range ->
        lo <= slew_dn_time_used m <= hi)
  /\ (forall lo hi, (SPOOL_TIME.(name), (lo, hi)) ∈ documented_range ->
        lo = minimum_spool_time).
Proof.
  split; [done|]. unfold documented_range.
  split_and!; intros lo hi Hin; set_unfold;
    destruct_or!; simplify_eq; try done;
    apply constrain_float_bounds; lra.
Qed.

(** ** Witnesses *)

Lemma find_roundtrip_witness :
  find_idx var_info 36 = Some SPOOL_TIME
  /\ find_name var_info "SPOOL_TIME" = Some SPOOL_TIME.
Proof.
  apply (find_roundtrip var_info var_info_ok SPOOL_TIME). set_solver.
Defined.

Lemma setup_object_defaults_stored_witness :
  get_value _spool_up_time (setup_object_defaults var_info init_motors)
  = stored _spool_up_time AP_MOTORS_SPOOL_UP_TIME_DEFAULT.
Proof.
  apply (setup_object_defaults_stored var_info var_info_ok SPOOL_TIME).
  set_solver.
Defined.
