(* ===== verification/Flight.v ===== *)
(** * The vehicle in flight: runs of the whole tick

    [SpoolLiveness] shows that the spool logic on its own arrives.  In the
    vehicle the method is one stage of [output]: before it the throttle
    filter and the thrust linearizer run, after it the frame mixes and
    writes the motors, and the limit flags of the vehicle code are added.
    This file composes the stages.  A tick of the vehicle is the writes of
    the vehicle code followed by [output]; it is a system in the sense of
    [TickOf], because the stages around the method leave alone what the
    method reads and writes of the spool variables.  The progress of the
    spool logic therefore carries over to the vehicle, for every frame,
    every linearizer and every derivative filter that obey their laws, and
    so do the range of the pulse widths and the well-formedness of the
    object, tick after tick.

    The way down needs the invariant of the current limiter, which a frame
    that calls the limiter itself can break between two ticks: it is shown
    for the frames that leave the filter of the limiter alone
    ([QuietMixer]). *)

From Stdlib Require Import QArith ZArith Lqa Lia.
From stdpp Require Import base decidable option list.
From S2P Require Import Prelude State CurrentLimit SpoolLogic SpoolSpec.
From S2P Require Import SpoolLiveness Vehicle Actuator Throttle Thrust.
From S2P Require Import ThrustCurve Output.

#[local] Open Scope state_scope.

(** ** Definitions *)

Section Flight.

Context {linearizer : ThrustLinearizer} {frame : FrameMixer}
  {derivative : DerivativeFilter}.

(** One tick of the vehicle in an environment: the writes of the vehicle
    code, then [output] with the battery of the environment. *)
Definition flight_tick (e : Env) (v : Vehicle) : Vehicle :=
  exec (@output e.(env_battery) linearizer frame derivative)
    (upd_motors (apply_env e) v).

(** [n] ticks in the same environment. *)
Definition flight (e : Env) (n : nat) : Vehicle -> Vehicle :=
  iter_n n (flight_tick e).

End Flight.

(** A vehicle that can fly: a well-formed configuration, spool variables
    within their invariant, arrays of the right size and PWM parameters
    that pass the arming check. *)
Record airworthy (v : Vehicle) : Prop := {
  air_config : config_ok v.(motors);
  air_spool : spool_inv v.(motors);
  air_arrays : arrays_ok v.(motors);
  air_pwm : pwm_ok v.(motors);
}.

(** What a flight does not change: the PWM range and the enabled
    motors. *)
Definition same_airframe (v v' : Vehicle) : Prop :=
  v'.(motors).(params).(pwm_min) = v.(motors).(params).(pwm_min)
  /\ v'.(motors).(params).(pwm_max) = v.(motors).(params).(pwm_max)
  /\ v'.(motors).(motor_enabled) = v.(motors).(motor_enabled).

(** A quadcopter on the ground, armed, at half throttle. *)
Definition parked_quad : Vehicle :=
  vehicle_of (set_throttle_in 0.5 (enable_four cold_start)).

(** The linearizer of the specification on a sagging battery, and a frame
    that asks every motor for the throttle through it. *)
Definition sag_linearizer : ThrustLinearizer :=
  @expo_thrust sagging_battery 0.01.

Definition sag_frame : FrameMixer :=
  @matrix_frame sag_linearizer collective_thrust (fun _ => 0).

(** ** Lemmas *)

Section FlightLemmas.

Context `{ThrustLinearizerLaws} `{FrameMixerLaws}
  {derivative : DerivativeFilter}.
Implicit Types (e : Env) (v : Vehicle).

(** The tick of the vehicle runs the spool logic once: a system of
    [TickOf], for every frame. *)
#[export] Instance flight_tick_logic : TickOf logic_eq motors flight_tick.
Proof.
  intros e v. exists (logic_input (apply_env e v.(motors))). split.
  - apply limiter_logic_eq, logic_input_eq.
  - exact (output_logic_seen (battery := e.(env_battery))
             (upd_motors (apply_env e) v)).
Qed.

(** With a frame that leaves the limiter alone the tick keeps the state
    of the limiter as well. *)
#[export] Instance flight_tick_limiter `{!QuietMixer} :
  TickOf limiter_eq motors flight_tick.
Proof.
  intros e v. exists (logic_input (apply_env e v.(motors))). split.
  - apply logic_input_eq.
  - exact (output_limiter_seen (battery := e.(env_battery))
             (upd_motors (apply_env e) v)).
Qed.

Lemma flight_S e n v : flight e (S n) v = flight_tick e (flight e n v).
Proof. apply iter_n_S. Qed.

#[export] Instance same_airframe_preorder : PreOrder same_airframe.
Proof.
  split; [by intros v | intros a b c (? & ? & ?) (? & ? & ?)].
  unfold same_airframe. split_and!; congruence.
Qed.

(** A tick keeps the vehicle airworthy and its airframe the same. *)
Lemma flight_tick_airworthy e v :
  airworthy v -> airworthy (flight_tick e v) /\ same_airframe v (flight_tick e v).
Proof.
  intros [Hc Hi Ha Hp]. set (v1 := upd_motors (apply_env e) v).
  destruct (@output_well_formed e.(env_battery) _ _ _ _ _ v1)
    as (Hc' & Hi' & Ha' & He');
    [by apply apply_env_config | by apply apply_env_inv | done |].
  pose proof (@output_keeps e.(env_battery) _ _ _ _ _ v1) as Hk.
  destruct (keeps_config_fields _ _ Hk)
    as (_ & _ & _ & _ & _ & _ & Hmin & Hmax & _).
  split; [split; try done | by split_and!].
  apply (keeps_pwm_ok _ _ Hk). by destruct Hp.
Qed.

Lemma flight_airworthy e n v :
  airworthy v -> airworthy (flight e n v) /\ same_airframe v (flight e n v).
Proof.
  intros Hv. induction n as [|n [IH1 IH2]]; [by split|].
  rewrite flight_S. destruct (flight_tick_airworthy e _ IH1) as [Ha Hs].
  split; [done | by etrans].
Qed.

End FlightLemmas.

Lemma parked_quad_airworthy : airworthy parked_quad.
Proof.
  split; [split; by vm_compute | | done | split; by vm_compute].
  split; cbn; intros; try done; lra.
Qed.

Lemma flying_quad_airworthy : airworthy flying_quad.
Proof.
  destruct flying_quad_inv as (? & ? & ?).
  split; [done.. | apply flying_quad_pwm_ok].
Qed.

Lemma flying_quad_limit_inv : limit_inv flying_quad.(motors).
Proof. split; by vm_compute. Qed.

(** ** Theorems *)

Section FlightTheorems.

Context `{ThrustLinearizerLaws} `{FrameMixerLaws}
  {derivative : DerivativeFilter}.
Implicit Types (e : Env) (v : Vehicle).

(** C13: the vehicle spools up.  From SHUT_DOWN, while the vehicle code
    keeps the vehicle armed and interlocked and keeps asking for full
    authority, the whole tick ([output], with the throttle filter, the
    linearizer and the frame around the spool logic) brings the object to
    THROTTLE_UNLIMITED within [spool_up_bound] ticks and keeps it there,
    whatever the frame, the linearizer, the derivative filter and the
    battery. *)
Theorem flight_spool_up e v :
  flies e -> config_ok v.(motors) -> spool_inv v.(motors) ->
  minimum_spool_time <= v.(motors).(params).(spool_up_time) ->
  v.(motors).(spool).(spool_state) = SHUT_DOWN ->
  exists k, (3 <= k <= spool_up_bound v.(motors))%nat /\
    forall n, (k <= n)%nat ->
      (flight e n v).(motors).(spool).(spool_state) = THROTTLE_UNLIMITED.
Proof.
  intros He Hc Hi Hmin Hst.
  by apply (spool_up_arrives motors flight_tick v.(motors) Hc Hmin e He v).
Qed.

(** C14: the vehicle spools down.  From THROTTLE_UNLIMITED, while the
    vehicle code keeps the vehicle armed and interlocked and keeps asking
    for a shut down, the whole tick brings the object to SHUT_DOWN with
    both ramps at zero within [spool_down_bound] ticks and keeps it there,
    for every frame that leaves the filter of the current limiter
    alone. *)
Theorem flight_spool_down `{!QuietMixer} e v :
  lands e -> config_ok v.(motors) -> spool_inv v.(motors) ->
  limit_inv v.(motors) ->
  minimum_spool_time <= v.(motors).(params).(spool_up_time) ->
  v.(motors).(spool).(spool_state) = THROTTLE_UNLIMITED ->
  exists k, (3 <= k <= spool_down_bound v.(motors))%nat /\
    forall n, (k <= n)%nat ->
      (flight e n v).(motors).(spool).(spool_state) = SHUT_DOWN
      /\ (flight e n v).(motors).(spool).(spin_up_ratio) == 0
      /\ (flight e n v).(motors).(spool).(throttle_thrust_max) == 0.
Proof.
  intros He Hc Hi Hl Hmin Hst.
  by apply (spool_down_arrives motors flight_tick v.(motors) Hc Hmin e He v).
Qed.

(** C18: in every tick of a flight every enabled motor is sent a pulse width
    that is zero or lies between the [pwm_min] and the [pwm_max] the vehicle
    took off with, and the vehicle stays airworthy, for every environment
    [e] (arming inputs, desired state, battery), held the same at every tick
    of the run. *)
Theorem flight_pwm_range e n v i :
  airworthy v -> (i < AP_MOTORS_MAX_NUM_MOTORS)%nat ->
  is_motor_enabled v.(motors) i = true ->
  airworthy (flight e (S n) v)
  /\ exists p, (flight e (S n) v).(servo).(rc_out) !! i = Some p
       /\ (p = 0 \/ v.(motors).(params).(pwm_min) <= p
                     <= v.(motors).(params).(pwm_max))%Z.
Proof.
  intros Hv Hi He. rewrite flight_S.
  destruct (flight_airworthy e n v Hv) as (Hair & Hmin & Hmax & Hen).
  split; [by apply flight_tick_airworthy|].
  destruct Hair as [Hc Hs [Ha _] Hp]. rewrite <- Hmin, <- Hmax.
  apply (@output_sent_range e.(env_battery) _ _ _ _ _
           (upd_motors (apply_env e) (flight e n v)) i); try done.
  - by destruct Hp.
  - apply Hc.
  - unfold is_motor_enabled in *. cbn. by rewrite Hen.
Qed.

End FlightTheorems.

(** ** Witnesses *)

Lemma flight_spool_up_witness :
  exists k, (3 <= k <= spool_up_bound parked_quad.(motors))%nat /\
    forall n, (k <= n)%nat ->
      (@flight sag_linearizer sag_frame two_point fly_env n
         parked_quad).(motors).(spool).(spool_state)
      = THROTTLE_UNLIMITED.
Proof.
  apply (@flight_spool_up sag_linearizer _ sag_frame _ two_point);
    [apply fly_env_flies | apply parked_quad_airworthy..
    | by vm_compute | reflexivity].
Defined.

Lemma flight_spool_down_witness :
  exists k, (3 <= k <= spool_down_bound flying_quad.(motors))%nat /\
    forall n, (k <= n)%nat ->
      let v := @flight linear_thrust collective_frame two_point land_env n
                 flying_quad in
      v.(motors).(spool).(spool_state) = SHUT_DOWN
      /\ v.(motors).(spool).(spin_up_ratio) == 0
      /\ v.(motors).(spool).(throttle_thrust_max) == 0.
Proof.
  apply (@flight_spool_down linear_thrust _ collective_frame _ two_point _);
    [apply land_env_lands | apply flying_quad_airworthy..
    | apply flying_quad_limit_inv | by vm_compute | reflexivity].
Defined.

Lemma flight_pwm_range_witness :
  airworthy (@flight sag_linearizer sag_frame two_point fly_env 3
               parked_quad)
  /\ exists p,
       (@flight sag_linearizer sag_frame two_point fly_env 3
          parked_quad).(servo).(rc_out) !! 0%nat = Some p
       /\ (p = 0 \/ parked_quad.(motors).(params).(pwm_min) <= p
                     <= parked_quad.(motors).(params).(pwm_max))%Z.
Proof.
  apply (@flight_pwm_range sag_linearizer _ sag_frame _ two_point
           fly_env 2 parked_quad 0%nat);
    [apply parked_quad_airworthy | unfold AP_MOTORS_MAX_NUM_MOTORS; lia
    | reflexivity].
Defined.
